(** * ette: encrypted container codec and row store

    A shallow embedding of the parts of [crypto.cc], [status.h],
    [constants.h] and [editor.cc] that frame, encrypt and decrypt a file,
    choose the cipher from a file name, keep the row store, render and
    highlight a row, edit at the cursor, move the cursor, read a key, ask
    for the password and guard the quit key, followed by the properties
    proved about them.

    Conventions.
    - [std::string], [char*] buffers and [std::vector<unsigned char>] are
      lists of 8-bit characters ([bytes]); a buffer's NUL terminator is not
      part of the list.  The buffer of a row is its [size] characters and
      the byte behind them, which is a field of its own ([chars_end]): it
      is the terminator in most rows, and [RowDeleteChar] renders it.
    - [uint64_t] and [int] values are integers in [Z]; unsigned arithmetic is
      reduced modulo [2^64] by [u64], [int] arithmetic is reduced to the
      two's-complement range by [wrap_int].
    - Accesses outside an allocated object, [exit], an exception that
      nothing catches and unbounded recursion are outcomes of their own,
      see [Outcome].
    - A string or buffer no larger than the data the program holds already
      is taken to be allocated; the vector that [DecryptAES256CBC] sizes by
      a field of the file is not, see [new_vector]. *)

From Stdlib Require Import ZArith Lia Ascii String DecimalString.
From stdpp Require Import base tactics option list strings.

Local Open Scope Z_scope.

(** ** Bytes and machine integers *)

Abbreviation bytes := (list ascii).

(** A string literal of the source, without its terminator. *)
Definition cstr (s : string) : bytes := list_ascii_of_string s.

(** [static_cast<unsigned char>(c)] read as an integer. *)
Definition uchar (c : ascii) : Z := Z.of_N (N_of_ascii c).

(** Conversion of an integer to [char], keeping the low eight bits. *)
Definition to_char (z : Z) : ascii := ascii_of_N (Z.to_N (z mod 256)).

Definition NUL : ascii := to_char 0.

Definition u64 (z : Z) : Z := z mod 2 ^ 64.

Definition INT_MAX : Z := 2 ^ 31 - 1.
Definition INT_MIN : Z := - 2 ^ 31.
Definition UINT32_MAX : Z := 2 ^ 32 - 1.

Definition wrap_int (z : Z) : Z := (z + 2 ^ 31) mod 2 ^ 32 - 2 ^ 31.

(** [std::to_string] and [printf]'s [%d] on an [int]. *)
Definition to_string (z : Z) : bytes :=
  list_ascii_of_string (NilZero.string_of_int (Z.to_int z)).

Definition bytes_eqb (a b : bytes) : bool := bool_decide (a = b).

(** ** Outcomes

    A function of the sources returns, leaves the process through [exit],
    throws an exception of the standard library that nothing in the sources
    catches, or reads or writes outside an object it owns, which C++ leaves
    undefined.  [OutOfFuel] is the model's own: the recursion of
    [UpdateSyntax], the scan of a row and the loops that wait for a key are
    bounded here, and this is what running into the bound looks like. *)

Inductive exception := length_error | bad_alloc.

Inductive Outcome (A : Type) : Type :=
  | Returns (a : A)
  | Exits (exit_status : Z)
  | Throws (e : exception)
  | Undefined
  | OutOfFuel.

Arguments Returns {A} a.
Arguments Exits {A} exit_status.
Arguments Throws {A} e.
Arguments Undefined {A}.
Arguments OutOfFuel {A}.

Definition bind {A B : Type} (m : Outcome A) (f : A -> Outcome B)
    : Outcome B :=
  match m with
  | Returns a => f a
  | Exits z => Exits z
  | Throws e => Throws e
  | Undefined => Undefined
  | OutOfFuel => OutOfFuel
  end.

Notation "'let*' x := m 'in' k" := (bind m (fun x => k))
  (at level 10, x name, m at level 100, k at level 200, only parsing).
Notation "'let*' ' pat := m 'in' k" :=
  (bind m (fun x => match x with pat => k end))
  (at level 10, pat pattern, m at level 100, k at level 200, only parsing).

(** ** status.h *)

Inductive StatusCode :=
  | kOk
  | kHeaderNoMagicNumber
  | kHeaderInvalidAlgorithm
  | kHeaderInvalidPlaintextSize
  | kHeaderInvalidIvSize
  | kInvalidKeySize
  | kInvalidKey
  | kInvalidDataSize
  | kInvalidIvSize
  | kUnknownError.

Global Instance StatusCode_eq_dec : EqDecision StatusCode.
Proof. solve_decision. Defined.

Record Error := mkError { code : StatusCode; message : bytes }.

(** [Status<void>] holds a [std::optional<Error>]; the default constructor
    leaves it empty. *)
Definition StatusVoid := option Error.

Definition Status_void (c : StatusCode) (m : string) : StatusVoid :=
  Some (mkError c (cstr m)).

Definition ok (s : StatusVoid) : bool :=
  match s with
  | Some e => bool_decide (code e = kOk)
  | None => false
  end.

(** [error()] throws when [ok()] holds or when the optional is empty; [None]
    stands for the throw. *)
Definition error (s : StatusVoid) : option Error :=
  if ok s then None else s.

(** ** constants.h *)

Definition kVersionMajor : Z := 0.
Definition kVersionMinor : Z := 0.
Definition kVersionPatch : Z := 1.

(** The array: four elements and no terminator. *)
Definition kHeaderMagicNumber : bytes :=
  [to_char 0x45; to_char 0x54; to_char 0x54; to_char 0x45].

Definition sizeof_kHeaderMagicNumber : Z := 4.
Definition kHeaderCryptoAlgorithmSize : Z := 1.
Definition kHeaderPlaintextSize : Z := 8.
Definition kHeaderIvSize : Z := 16.
Definition kHeaderVersionSize : Z := 1 + 1 + 1.
Definition kHeaderSize : Z :=
  sizeof_kHeaderMagicNumber + kHeaderCryptoAlgorithmSize +
  kHeaderVersionSize + kHeaderPlaintextSize + kHeaderIvSize.

(** ** crypto.h *)

Inductive CryptoAlgorithm := kDefaultNone | kAES256CBC.

Global Instance CryptoAlgorithm_eq_dec : EqDecision CryptoAlgorithm.
Proof. solve_decision. Defined.

Record CryptoState := mkCryptoState {
  raw_key : bytes;
  hashed_key : bytes;
  plaintext : bytes;
  ciphertext : bytes;
  iv : bytes;
  ciphertext_size : Z;
  plaintext_size : Z;
  algorithm : CryptoAlgorithm;
  status : StatusVoid;
}.

(** [CryptoState()]: value initialisation, every scalar zero, the status
    optional empty. *)
Definition CryptoState_default : CryptoState :=
  mkCryptoState [] [] [] [] [] 0 0 kDefaultNone None.

(** ** The third-party primitives

    [plusaes] and [picosha2] are not part of the sources at hand; the codec
    is written against them.  Their results are the fields of [Host],
    together with what the codec takes from the machine and the build it
    runs in: the byte order, the memory behind [kHeaderMagicNumber] and the
    blocks the allocator has. *)

(** The enumerators of [plusaes::Error] that [crypto.cc] names; every other
    enumerator takes the [default:] branch of its switches and is
    [kErrorOther] here. *)
Inductive plusaes_Error :=
  | kErrorOk
  | kErrorInvalidKey
  | kErrorInvalidKeySize
  | kErrorInvalidIvSize
  | kErrorOther.

Class Host := {
  (** what [IsSystemLittleEndian] finds in memory *)
  little_endian_host : bool;
  (** what [std::string(kHeaderMagicNumber)] finds behind the four bytes of
      the array, up to the first NUL.  The array has no terminator, so the
      constructor reads on outside it, which is undefined; a build lays
      some bytes out there, none if a NUL happens to follow the array.
      [None] stands for every other effect of the read. *)
  behind_magic_number : option bytes;
  (** whether the allocator has a block of that many bytes *)
  allocates : Z -> bool;
  (** [picosha2::hash256_hex_string] *)
  hash256_hex_string : bytes -> bytes;
  (** [plusaes::encrypt_cbc data key iv encrypted_size pads]: the error and
      the contents of the [encrypted] buffer after the call; [data_size] and
      [key_size] are the lengths of the lists *)
  encrypt_cbc : bytes -> bytes -> bytes -> Z -> bool -> plusaes_Error * bytes;
  (** [plusaes::decrypt_cbc data key iv decrypted_size]: the error and the
      contents of the [decrypted] buffer after the call *)
  decrypt_cbc : bytes -> bytes -> bytes -> Z -> plusaes_Error * bytes;
}.

(** Modelled from the spec: [plusaes::get_padded_encrypted_size] is
    third-party code; the PKCS#7 padded size of [n] bytes is
    [((n / 16) + 1) * 16], computed on [unsigned long]. *)
Definition get_padded_encrypted_size (n : Z) : Z := u64 ((n / 16 + 1) * 16).

(** Modelled from the spec: [plusaes::key_from_string] is third-party code;
    it receives the 33-byte array holding the key and its terminator and
    hands the cipher the 32 key bytes. *)
Definition key_from_string (key_char : bytes) : bytes := take 32 key_char.

(** What the codec relies on, section 6.1 of the specification: the digest
    is printed as 64 hexadecimal digits; with a 32-byte key and a 16-byte IV
    encryption into a buffer of the padded size succeeds, and decrypting its
    output into a buffer of the plaintext's size gives the plaintext back. *)
Class HostContract (H : Host) : Prop := {
  hash256_hex_string_length :
    forall s, length (hash256_hex_string s) = 64%nat;
  encrypt_cbc_ok :
    forall data key iv,
      length key = 32%nat -> length iv = 16%nat ->
      fst (encrypt_cbc data key iv
             (get_padded_encrypted_size (Z.of_nat (length data))) true)
      = kErrorOk;
  decrypt_encrypt_cbc :
    forall data key iv,
      length key = 32%nat -> length iv = 16%nat ->
      decrypt_cbc
        (snd (encrypt_cbc data key iv
                (get_padded_encrypted_size (Z.of_nat (length data))) true))
        key iv (Z.of_nat (length data))
      = (kErrorOk, data);
}.

(** The file system as [ReadFileToString] sees it: the contents of the file
    at a path, or nothing when it cannot be opened. *)
Definition FileSystem := bytes -> option bytes.

(** ** crypto.cc *)

Section crypto.
Context `{H : Host}.

Definition IsSystemLittleEndian : bool := little_endian_host.

(** [std::string(kHeaderMagicNumber)]: the constructor takes a pointer to a
    NUL-terminated string and is handed the array. *)
Definition string_of_kHeaderMagicNumber : Outcome bytes :=
  match behind_magic_number with
  | Some behind => Returns (kHeaderMagicNumber ++ behind)
  | None => Undefined
  end.

(** [std::vector<unsigned char> v(n)]: [std::length_error] when [n] is above
    [max_size()], which is [PTRDIFF_MAX] for a vector of bytes, and
    [std::bad_alloc] when the allocator has no block of [n] bytes. *)
Definition vector_max_size : Z := 2 ^ 63 - 1.

Definition new_vector (n : Z) : Outcome unit :=
  if vector_max_size <? n then Throws length_error
  else if allocates n then Returns tt
  else Throws bad_alloc.

(** [cstr[k]] of [GetPlaintextSizeFromCiphertext]. *)
Definition byte_at (s : bytes) (k : nat) : Z := uchar (nth k s NUL).

Definition GetPlaintextSizeFromCiphertext (ciphertext : bytes) : Z :=
  if Z.of_nat (length ciphertext) <? 8 then 0
  else
    let cstr := byte_at ciphertext in
    if IsSystemLittleEndian then
      Z.lor (Z.shiftl (cstr 0%nat) 56)
      (Z.lor (Z.shiftl (cstr 1%nat) 48)
      (Z.lor (Z.shiftl (cstr 2%nat) 40)
      (Z.lor (Z.shiftl (cstr 3%nat) 32)
      (Z.lor (Z.shiftl (cstr 4%nat) 24)
      (Z.lor (Z.shiftl (cstr 5%nat) 16)
      (Z.lor (Z.shiftl (cstr 6%nat) 8)
             (cstr 7%nat)))))))
    else
      Z.lor (Z.shiftl (cstr 7%nat) 56)
      (Z.lor (Z.shiftl (cstr 6%nat) 48)
      (Z.lor (Z.shiftl (cstr 5%nat) 40)
      (Z.lor (Z.shiftl (cstr 4%nat) 32)
      (Z.lor (Z.shiftl (cstr 3%nat) 24)
      (Z.lor (Z.shiftl (cstr 2%nat) 16)
      (Z.lor (Z.shiftl (cstr 1%nat) 8)
             (cstr 0%nat))))))).

Definition CreateEmptyCryptoState : CryptoState :=
  {| raw_key := []; hashed_key := []; plaintext := []; ciphertext := [];
     iv := []; ciphertext_size := 0; plaintext_size := 0;
     algorithm := kDefaultNone; status := Status_void kOk "" |}.

Definition CreateCryptoStateWithStatus
    (status_code : StatusCode) (message : string) : CryptoState :=
  let crypto_state := CreateEmptyCryptoState in
  {| raw_key := raw_key crypto_state;
     hashed_key := hashed_key crypto_state;
     plaintext := plaintext crypto_state;
     ciphertext := ciphertext crypto_state;
     iv := iv crypto_state;
     ciphertext_size := ciphertext_size crypto_state;
     plaintext_size := plaintext_size crypto_state;
     algorithm := algorithm crypto_state;
     status := Status_void status_code message |}.

Definition HashRawKey (raw_key : bytes) : bytes :=
  let hashed_key := hash256_hex_string raw_key in
  take 32 hashed_key.

Definition ConstructPlaintextSizeHeaderForCiphertext
    (plaintext_size : Z) : bytes :=
  let b (sh : Z) := to_char (Z.land (Z.shiftr plaintext_size sh) 0xFF) in
  if IsSystemLittleEndian then
    [b 56; b 48; b 40; b 32; b 24; b 16; b 8;
     to_char (Z.land plaintext_size 0xFF)]
  else
    [to_char (Z.land plaintext_size 0xFF);
     b 8; b 16; b 24; b 32; b 40; b 48; b 56].

Definition SetupCryptoStateFromCiphertextAES256CBC
    (ciphertext raw_key : bytes) (algorithm : CryptoAlgorithm)
    : CryptoState :=
  if Z.of_nat (length ciphertext) <? kHeaderSize then
    CreateCryptoStateWithStatus kInvalidDataSize
      "Ciphertext is too small to contain header"
  else if bool_decide (raw_key = []) then
    CreateCryptoStateWithStatus kInvalidKeySize "Key is empty"
  else
    let ciphertext :=
      drop (Z.to_nat (sizeof_kHeaderMagicNumber +
                      kHeaderCryptoAlgorithmSize + kHeaderVersionSize))
           ciphertext in
    let plaintext_size := GetPlaintextSizeFromCiphertext ciphertext in
    let ciphertext := drop (Z.to_nat kHeaderPlaintextSize) ciphertext in
    let iv := take (Z.to_nat kHeaderIvSize) ciphertext in
    let ciphertext := drop (Z.to_nat kHeaderIvSize) ciphertext in
    {| ciphertext := ciphertext;
       raw_key := raw_key;
       hashed_key := HashRawKey raw_key;
       iv := iv;
       plaintext := [];
       plaintext_size := plaintext_size;
       ciphertext_size := Z.of_nat (length ciphertext);
       algorithm := algorithm;
       status := Status_void kOk "" |}.

Definition SetupCryptoStateFromCiphertext
    (ciphertext raw_key : bytes) (algorithm : CryptoAlgorithm)
    : CryptoState :=
  match algorithm with
  | kAES256CBC =>
      SetupCryptoStateFromCiphertextAES256CBC ciphertext raw_key algorithm
  | _ => CryptoState_default
  end.

(** [iv[kHeaderIvSize - 1] = '\0';] behind
    [memcpy(iv, v.data(), sizeof(iv));] on a vector [v] of at least sixteen
    bytes. *)
Definition null_terminated_iv (v : bytes) : bytes :=
  <[Z.to_nat (kHeaderIvSize - 1) := NUL]> (take (Z.to_nat kHeaderIvSize) v).

(** The switch that turns a failure of the cipher into a status. *)
Definition cipher_failure (e : plusaes_Error) : CryptoState :=
  match e with
  | kErrorInvalidKey =>
      CreateCryptoStateWithStatus kInvalidKey "Key is incorrect"
  | kErrorInvalidKeySize =>
      CreateCryptoStateWithStatus kInvalidKeySize "Key is not 256 bits"
  | kErrorInvalidIvSize =>
      CreateCryptoStateWithStatus kInvalidIvSize "IV is not 128 bits"
  | _ => CreateCryptoStateWithStatus kUnknownError "Unknown error"
  end.

Definition EncryptAES256CBC (plaintext raw_key raw_iv : bytes)
    : Outcome CryptoState :=
  if bool_decide (raw_key = []) then
    Returns (CreateCryptoStateWithStatus kInvalidKeySize "Key is empty")
  else
    let plaintext_size := u64 (Z.of_nat (length plaintext)) in
    let key := HashRawKey raw_key in
    (* memcpy(iv, raw_iv.data(), sizeof(iv)) reads sixteen bytes of the
       vector, whatever its length *)
    if (length raw_iv <? Z.to_nat kHeaderIvSize)%nat then Undefined
    else
    let iv := null_terminated_iv raw_iv in
    (* memcpy(key_char, key.c_str(), sizeof(key_char)) reads 33 bytes of the
       key and its terminator *)
    if (length key <? 32)%nat then Undefined
    else
    let key_char := take 33 (key ++ [NUL]) in
    let key_vector := key_from_string key_char in
    let ciphertext_size := get_padded_encrypted_size plaintext_size in
    let '(status, ciphertext) :=
      encrypt_cbc plaintext key_vector iv ciphertext_size true in
    match status with
    | kErrorOk =>
        let* magic := string_of_kHeaderMagicNumber in
        let ciphertext_str :=
          magic ++ cstr "1" ++
          to_string kVersionMajor ++ to_string kVersionMinor ++
          to_string kVersionPatch ++
          ConstructPlaintextSizeHeaderForCiphertext plaintext_size ++
          iv ++ ciphertext in
        Returns
          {| raw_key := raw_key;
             hashed_key := key;
             plaintext := plaintext;
             ciphertext := ciphertext_str;
             iv := raw_iv;
             ciphertext_size := ciphertext_size;
             plaintext_size := plaintext_size;
             algorithm := kAES256CBC;
             status := Status_void kOk "" |}
    | _ => Returns (cipher_failure status)
    end.

(** The container [EncryptAES256CBC] builds: the header in front of the
    cipher's output, [behind] being what the magic number has taken along
    from behind its array. *)
Definition frame (behind : bytes) (n : Z) (iv' ct : bytes) : bytes :=
  (kHeaderMagicNumber ++ behind) ++ cstr "1" ++
  to_string kVersionMajor ++ to_string kVersionMinor ++
  to_string kVersionPatch ++
  ConstructPlaintextSizeHeaderForCiphertext n ++ iv' ++ ct.

Definition Encrypt (plaintext key iv : bytes) (algorithm : CryptoAlgorithm)
    : Outcome CryptoState :=
  match algorithm with
  | kAES256CBC => EncryptAES256CBC plaintext key iv
  | _ => Returns CryptoState_default
  end.

(** The parameters [ciphertext] and [raw_key] of the source are [framed] and
    [key] here, apart from the fields of the same names. *)
Definition DecryptAES256CBC
    (framed key : bytes) (algorithm : CryptoAlgorithm)
    : Outcome CryptoState :=
  let state :=
    SetupCryptoStateFromCiphertextAES256CBC framed key algorithm in
  if negb (ok (status state)) &&
     match error (status state) with
     | Some e =>
         bool_decide (code e = kInvalidDataSize) ||
         bool_decide (code e = kInvalidKeySize)
     | None => false
     end
  then Returns state
  else
    let iv' := null_terminated_iv (iv state) in
    let plaintext_size := plaintext_size state in
    if plaintext_size =? 0 then
      Returns
        {| raw_key := raw_key state;
           hashed_key := hashed_key state;
           plaintext := [];
           ciphertext := ciphertext state;
           iv := iv state;
           ciphertext_size := ciphertext_size state;
           plaintext_size := plaintext_size;
           algorithm := kAES256CBC;
           status := Status_void kOk "" |}
    else
      (* std::vector<unsigned char> decrypted(plaintext_size) *)
      let* allocated := new_vector plaintext_size in
      let '(status, decrypted) :=
        decrypt_cbc (ciphertext state) (hashed_key state) iv'
                    plaintext_size in
      match status with
      | kErrorOk =>
          Returns
            {| raw_key := raw_key state;
               hashed_key := hashed_key state;
               plaintext := decrypted;
               ciphertext := ciphertext state;
               iv := iv state;
               ciphertext_size := ciphertext_size state;
               plaintext_size := plaintext_size;
               algorithm := kAES256CBC;
               status := Status_void kOk "" |}
      | _ => Returns (cipher_failure status)
      end.

Definition Decrypt (ciphertext raw_key : bytes) (algorithm : CryptoAlgorithm)
    : Outcome CryptoState :=
  match algorithm with
  | kAES256CBC => DecryptAES256CBC ciphertext raw_key algorithm
  | _ => Returns CryptoState_default
  end.

Definition ReadFileToString (fs : FileSystem) (path : bytes)
    : option bytes :=
  fs path.

Definition IsKeyCorrect (fs : FileSystem) (key path : bytes)
    (algorithm : CryptoAlgorithm) : Outcome bool :=
  match ReadFileToString fs path with
  | None => Returns false
  | Some ciphertext =>
      let* state := Decrypt ciphertext key algorithm in
      Returns (ok (status state))
  end.

End crypto.

(** ** A reference host

    A host on which the codec can be run inside Rocq: the digest is replaced
    by the first 64 characters of the password padded with ['0'], the
    cipher by PKCS#7 padding alone.  It meets [HostContract] and serves to
    execute the codec on concrete inputs. *)

Definition pkcs7_pad (data : bytes) : bytes :=
  let k := (16 - length data mod 16)%nat in
  data ++ replicate k (to_char (Z.of_nat k)).

Definition reference_hash (s : bytes) : bytes :=
  take 64 (s ++ replicate 64 "0"%char).

Definition reference_encrypt
    (data key iv : bytes) (encrypted_size : Z) (pads : bool)
    : plusaes_Error * bytes :=
  if bool_decide (length key = 32%nat) then (kErrorOk, pkcs7_pad data)
  else (kErrorInvalidKeySize, replicate (Z.to_nat encrypted_size) NUL).

Definition reference_decrypt
    (data key iv : bytes) (decrypted_size : Z) : plusaes_Error * bytes :=
  if bool_decide (length key = 32%nat)
  then (kErrorOk, take (Z.to_nat decrypted_size) data)
  else (kErrorInvalidKeySize, replicate (Z.to_nat decrypted_size) NUL).

(** The allocator of the reference host has blocks of up to [2^32]
    bytes. *)
Definition reference_allocates (n : Z) : bool := n <=? 2 ^ 32.

(** [behind] is what the build has laid out behind [kHeaderMagicNumber]. *)
Definition reference_host_behind (behind : bytes) (little_endian : bool)
    : Host :=
  {| little_endian_host := little_endian;
     behind_magic_number := Some behind;
     allocates := reference_allocates;
     hash256_hex_string := reference_hash;
     encrypt_cbc := reference_encrypt;
     decrypt_cbc := reference_decrypt |}.

(** A build in which a NUL follows the array. *)
Definition reference_host (little_endian : bool) : Host :=
  reference_host_behind [] little_endian.

(** ** editor.h *)

Record Syntax := mkSyntax {
  filematch : list bytes;
  keywords : list bytes;
  singleline_comment_start : bytes;
  multiline_comment_start : bytes;
  multiline_comment_end : bytes;
  flags : Z;
}.

(** A row of the file.  The buffer [chars] points at has [size + 1] bytes:
    [chars] holds the first [size] of them and [chars_end] the byte behind
    them, [chars[size]], which is a NUL where the functions below or the
    caller of [InsertRow] have put one.  [hl] is the highlight array, empty
    where the source has a null pointer. *)
Record Row := mkRow {
  idx : Z;
  size : Z;
  rsize : Z;
  chars : bytes;
  chars_end : ascii;
  render : bytes;
  hl : list Z;
  hl_oc : Z;
}.

Module ExistingFilePasswordState.
Inductive t :=
  | kShowEnterPassword
  | kTyping
  | kEnterPasswordNeedsCheck
  | kShowRetryPassword.
End ExistingFilePasswordState.

Module NewFilePasswordState.
Inductive t :=
  | kShowEnterPassword
  | kTypingEnterPassword
  | kEnterPasswordCompleted
  | kShowConfirmPassword
  | kTypingConfirmPassword
  | kConfirmPasswordNeedsCheck
  | kShowRetryConfirmPassword.
End NewFilePasswordState.

Inductive UnlockState := kUnlocked | kNewFile | kExistingFile.

Inductive PasswordStatus :=
  | kDefaultPasswordStatusNone
  | kPasswordVerified
  | kIncorrectPassword
  | kConfirmPasswordMismatch.

(** The editor state.  [row] holds the rows of the array [state->row] that
    are in use; [filename] and [syntax] are pointers that may be null. *)
Record State := mkState {
  cx : Z;
  cy : Z;
  rowoff : Z;
  coloff : Z;
  screenrows : Z;
  screencols : Z;
  numrows : Z;
  rawmode : Z;
  row : list Row;
  dirty : Z;
  filename : option bytes;
  quit_times : Z;
  indelible_msg : bytes;
  password : bytes;
  entry_password : bytes;
  crypto_algorithm : CryptoAlgorithm;
  unlock_state : UnlockState;
  existing_file_password_state : ExistingFilePasswordState.t;
  new_file_password_state : NewFilePasswordState.t;
  password_status : PasswordStatus;
  statusmsg : bytes;
  statusmsg_time : Z;
  syntax : option Syntax;
}.

(** [new State()]: every member zero, [quit_times] three. *)
Definition State_new : State :=
  {| cx := 0; cy := 0; rowoff := 0; coloff := 0;
     screenrows := 0; screencols := 0; numrows := 0; rawmode := 0;
     row := []; dirty := 0; filename := None; quit_times := 3;
     indelible_msg := []; password := []; entry_password := [];
     crypto_algorithm := kDefaultNone; unlock_state := kUnlocked;
     existing_file_password_state :=
       ExistingFilePasswordState.kShowEnterPassword;
     new_file_password_state := NewFilePasswordState.kShowEnterPassword;
     password_status := kDefaultPasswordStatusNone;
     statusmsg := []; statusmsg_time := 0; syntax := None |}.

(** Assignments to the members of [State] that the functions below write. *)

Definition set_rows (rows : list Row) (s : State) : State :=
  {| cx := cx s; cy := cy s; rowoff := rowoff s; coloff := coloff s;
     screenrows := screenrows s; screencols := screencols s;
     numrows := numrows s; rawmode := rawmode s;
     row := rows; dirty := dirty s; filename := filename s;
     quit_times := quit_times s; indelible_msg := indelible_msg s;
     password := password s; entry_password := entry_password s;
     crypto_algorithm := crypto_algorithm s; unlock_state := unlock_state s;
     existing_file_password_state := existing_file_password_state s;
     new_file_password_state := new_file_password_state s;
     password_status := password_status s;
     statusmsg := statusmsg s; statusmsg_time := statusmsg_time s;
     syntax := syntax s |}.

Definition set_numrows_dirty (n d : Z) (s : State) : State :=
  {| cx := cx s; cy := cy s; rowoff := rowoff s; coloff := coloff s;
     screenrows := screenrows s; screencols := screencols s;
     numrows := n; rawmode := rawmode s;
     row := row s; dirty := d; filename := filename s;
     quit_times := quit_times s; indelible_msg := indelible_msg s;
     password := password s; entry_password := entry_password s;
     crypto_algorithm := crypto_algorithm s; unlock_state := unlock_state s;
     existing_file_password_state := existing_file_password_state s;
     new_file_password_state := new_file_password_state s;
     password_status := password_status s;
     statusmsg := statusmsg s; statusmsg_time := statusmsg_time s;
     syntax := syntax s |}.

Definition set_quit_times (q : Z) (s : State) : State :=
  {| cx := cx s; cy := cy s; rowoff := rowoff s; coloff := coloff s;
     screenrows := screenrows s; screencols := screencols s;
     numrows := numrows s; rawmode := rawmode s;
     row := row s; dirty := dirty s; filename := filename s;
     quit_times := q; indelible_msg := indelible_msg s;
     password := password s; entry_password := entry_password s;
     crypto_algorithm := crypto_algorithm s; unlock_state := unlock_state s;
     existing_file_password_state := existing_file_password_state s;
     new_file_password_state := new_file_password_state s;
     password_status := password_status s;
     statusmsg := statusmsg s; statusmsg_time := statusmsg_time s;
     syntax := syntax s |}.

Definition set_statusmsg (m : bytes) (t : Z) (s : State) : State :=
  {| cx := cx s; cy := cy s; rowoff := rowoff s; coloff := coloff s;
     screenrows := screenrows s; screencols := screencols s;
     numrows := numrows s; rawmode := rawmode s;
     row := row s; dirty := dirty s; filename := filename s;
     quit_times := quit_times s; indelible_msg := indelible_msg s;
     password := password s; entry_password := entry_password s;
     crypto_algorithm := crypto_algorithm s; unlock_state := unlock_state s;
     existing_file_password_state := existing_file_password_state s;
     new_file_password_state := new_file_password_state s;
     password_status := password_status s;
     statusmsg := m; statusmsg_time := t;
     syntax := syntax s |}.

Definition set_crypto_algorithm (a : CryptoAlgorithm) (s : State) : State :=
  {| cx := cx s; cy := cy s; rowoff := rowoff s; coloff := coloff s;
     screenrows := screenrows s; screencols := screencols s;
     numrows := numrows s; rawmode := rawmode s;
     row := row s; dirty := dirty s; filename := filename s;
     quit_times := quit_times s; indelible_msg := indelible_msg s;
     password := password s; entry_password := entry_password s;
     crypto_algorithm := a; unlock_state := unlock_state s;
     existing_file_password_state := existing_file_password_state s;
     new_file_password_state := new_file_password_state s;
     password_status := password_status s;
     statusmsg := statusmsg s; statusmsg_time := statusmsg_time s;
     syntax := syntax s |}.

(** Assignments to the members of a [Row]. *)

Definition set_idx (i : Z) (r : Row) : Row :=
  {| idx := i; size := size r; rsize := rsize r; chars := chars r;
     chars_end := chars_end r;
     render := render r; hl := hl r; hl_oc := hl_oc r |}.

Definition set_render (rd : bytes) (n : Z) (r : Row) : Row :=
  {| idx := idx r; size := size r; rsize := n; chars := chars r;
     chars_end := chars_end r;
     render := rd; hl := hl r; hl_oc := hl_oc r |}.

Definition set_hl (h : list Z) (r : Row) : Row :=
  {| idx := idx r; size := size r; rsize := rsize r; chars := chars r;
     chars_end := chars_end r;
     render := render r; hl := h; hl_oc := hl_oc r |}.

Definition set_hl_oc (oc : Z) (r : Row) : Row :=
  {| idx := idx r; size := size r; rsize := rsize r; chars := chars r;
     chars_end := chars_end r;
     render := render r; hl := hl r; hl_oc := oc |}.

(** [KEY_ACTION], the keys used below. *)
Definition TAB : Z := 9.
Definition CTRL_Q : Z := 17.

(** ** editor.cc *)

Definition HL_NORMAL : Z := 0.
Definition HL_NONPRINT : Z := 1.
Definition HL_COMMENT : Z := 2.
Definition HL_MLCOMMENT : Z := 3.
Definition HL_KEYWORD1 : Z := 4.
Definition HL_KEYWORD2 : Z := 5.
Definition HL_STRING : Z := 6.
Definition HL_NUMBER : Z := 7.
Definition HL_MATCH : Z := 8.

Definition HL_HIGHLIGHT_STRINGS : Z := Z.shiftl 1 0.
Definition HL_HIGHLIGHT_NUMBERS : Z := Z.shiftl 1 1.

(** [vsnprintf] into [statusmsg[80]] keeps at most 79 characters; [now] is
    what [time(NULL)] returns. *)
Definition SetStatusMessage (now : Z) (state : State) (formatted : bytes)
    : State :=
  set_statusmsg (take 79 formatted) now state.

Definition C_HL_extensions : list bytes :=
  cstr <$> [".c"; ".h"; ".cpp"; ".hpp"; ".cc"]%string.

Definition C_HL_keywords : list bytes :=
  cstr <$>
  [ (* C Keywords *)
    "auto"; "break"; "case"; "continue"; "default"; "do"; "else"; "enum";
    "extern"; "for"; "goto"; "if"; "register"; "return"; "sizeof"; "static";
    "struct"; "switch"; "typedef"; "union"; "volatile"; "while"; "NULL";
    (* C++ Keywords *)
    "alignas"; "alignof"; "and"; "and_eq"; "asm"; "bitand"; "bitor"; "class";
    "compl"; "constexpr"; "const_cast"; "deltype"; "delete"; "dynamic_cast";
    "explicit"; "export"; "false"; "friend"; "inline"; "mutable"; "namespace";
    "new"; "noexcept"; "not"; "not_eq"; "nullptr"; "operator"; "or"; "or_eq";
    "private"; "protected"; "public"; "reinterpret_cast"; "static_assert";
    "static_cast"; "template"; "this"; "thread_local"; "throw"; "true"; "try";
    "typeid"; "typename"; "virtual"; "xor"; "xor_eq";
    (* C types *)
    "int|"; "long|"; "double|"; "float|"; "char|"; "unsigned|"; "signed|";
    "void|"; "short|"; "auto|"; "const|"; "bool|" ]%string.

Definition HLDB : list Syntax :=
  [ {| filematch := C_HL_extensions;
       keywords := C_HL_keywords;
       singleline_comment_start := cstr "//";
       multiline_comment_start := cstr "/*";
       multiline_comment_end := cstr "*/";
       flags := Z.lor HL_HIGHLIGHT_STRINGS HL_HIGHLIGHT_NUMBERS |} ].

(** *** Characters

    [<ctype.h>] in the "C" locale, on the value of a character read as an
    unsigned byte; no byte above 127 is a space, a digit or printable. *)

Definition isspace (c : Z) : bool := (c =? 32) || ((9 <=? c) && (c <=? 13)).
Definition isprint (c : Z) : bool := (32 <=? c) && (c <=? 126).
Definition isdigit (c : Z) : bool := (48 <=? c) && (c <=? 57).

(** [strchr(s, c) != NULL] for a [c] that is not NUL. *)
Definition strchr (s : bytes) (c : Z) : bool :=
  bool_decide (to_char c ∈ s).

Definition IsSeparator (c : Z) : bool :=
  (c =? 0) || isspace c || strchr (cstr ",.()+-/*=~%[];") c.

Definition DQUOTE : ascii := to_char 34.
Definition LF : ascii := to_char 10.

(** *** Buffers *)

(** [buf[i]] in a NUL-terminated buffer whose contents are [buf]: the
    terminator sits at [length buf], nothing may be read behind it. *)
Definition char_at (buf : bytes) (i : nat) : Outcome ascii :=
  match buf !! i with
  | Some c => Returns c
  | None => if bool_decide (i = length buf) then Returns NUL else Undefined
  end.

(** [a[i]] in an array of [length a] elements. *)
Definition array_get {A} (a : list A) (i : Z) : Outcome A :=
  if i <? 0 then Undefined
  else match a !! Z.to_nat i with
       | Some x => Returns x
       | None => Undefined
       end.

(** [a[i] = v]. *)
Definition array_set {A} (a : list A) (i : Z) (v : A) : Outcome (list A) :=
  if i <? 0 then Undefined
  else if (Z.to_nat i <? length a)%nat then Returns (<[Z.to_nat i := v]> a)
  else Undefined.

(** [memset(a + i, v, n)] with [n] converted to [size_t]: a negative [n] is
    a length far beyond the array. *)
Definition array_fill {A} (a : list A) (i : nat) (n : Z) (v : A)
    : Outcome (list A) :=
  if n <? 0 then Undefined
  else if (i + Z.to_nat n <=? length a)%nat
       then Returns (take i a ++ replicate (Z.to_nat n) v
                       ++ drop (i + Z.to_nat n) a)
       else Undefined.

(** *** Syntax highlighting *)

(** The [hl] pointer is null exactly when the array is empty here; the
    render buffer and the array have [rsize] elements. *)
Definition RowHasOpenComment (row : Row) : Outcome Z :=
  if bool_decide (hl row = []) || (rsize row =? 0) then Returns 0
  else
    let* last_hl := array_get (hl row) (rsize row - 1) in
    if negb (last_hl =? HL_MLCOMMENT) then Returns 0
    else if rsize row <? 2 then Returns 1
    else
      let* c2 := array_get (render row) (rsize row - 2) in
      if negb (bool_decide (c2 = "*"%char)) then Returns 1
      else
        let* c1 := array_get (render row) (rsize row - 1) in
        Returns (if negb (bool_decide (c1 = "/"%char)) then 1 else 0).

(** The first loop of [UpdateSyntax]: the offset of the first character
    that is not a space. *)
Fixpoint skip_spaces (buf : bytes) (i : nat) : nat :=
  match buf with
  | [] => i
  | c :: buf' =>
      if negb (bool_decide (c = NUL)) && isspace (uchar c)
      then skip_spaces buf' (S i)
      else i
  end.

(** The [for] loop over the keywords at offset [i] of the render buffer:
    the length and the class of the first keyword that matches, if any.
    [memcmp] compares up to the first difference, which the terminator of
    the buffer is at the latest, no keyword holding a NUL. *)
Fixpoint match_keyword (kws : list bytes) (buf : bytes) (i : nat)
    : Outcome (option (nat * Z)) :=
  match kws with
  | [] => Returns None
  | kw :: kws' =>
      let klen := length kw in
      let* last_c := array_get kw (Z.of_nat klen - 1) in
      let kw2 := bool_decide (last_c = "|"%char) in
      let klen := if kw2 then (klen - 1)%nat else klen in
      if bool_decide (take klen (drop i (buf ++ [NUL])) = take klen kw)
      then
        let* next := char_at buf (i + klen) in
        if IsSeparator (uchar next)
        then Returns (Some (klen, if kw2 then HL_KEYWORD2 else HL_KEYWORD1))
        else match_keyword kws' buf i
      else match_keyword kws' buf i
  end.

(** The main loop of [UpdateSyntax] on one row, from offset [i] on.  The
    result is the highlight array and whether the function returned from
    inside the loop, which it does at a single-line comment. *)
Fixpoint highlight (fuel : nat) (syn : Syntax) (row : Row) (i : nat)
    (prev_sep : bool) (in_string : Z) (in_comment : bool) (hl : list Z)
    : Outcome (list Z * bool) :=
  match fuel with
  | O => OutOfFuel
  | S fuel =>
    let scs := singleline_comment_start syn in
    let mcs := multiline_comment_start syn in
    let mce := multiline_comment_end syn in
    let same (c : ascii) (s : bytes) (k : nat) := bool_decide (c = nth k s NUL) in
    let* c := char_at (render row) i in
    if bool_decide (c = NUL) then Returns (hl, false)
    else
    let* c' := char_at (render row) (S i) in
    (* Handle // comments. *)
    if prev_sep && same c scs 0%nat && same c' scs 1%nat then
      let* hl := array_fill hl i (size row - Z.of_nat i) HL_COMMENT in
      Returns (hl, true)
    (* Handle multi line comments. *)
    else if in_comment then
      let* hl := array_set hl (Z.of_nat i) HL_MLCOMMENT in
      if same c mce 0%nat && same c' mce 1%nat then
        let* hl := array_set hl (Z.of_nat i + 1) HL_MLCOMMENT in
        highlight fuel syn row (i + 2) true in_string false hl
      else
        highlight fuel syn row (i + 1) false in_string in_comment hl
    else if same c mcs 0%nat && same c' mcs 1%nat then
      let* hl := array_set hl (Z.of_nat i) HL_MLCOMMENT in
      let* hl := array_set hl (Z.of_nat i + 1) HL_MLCOMMENT in
      highlight fuel syn row (i + 2) false in_string true hl
    (* Handle "" and '' *)
    else if negb (in_string =? 0) then
      let* hl := array_set hl (Z.of_nat i) HL_STRING in
      if bool_decide (c = "\"%char) then
        let* hl := array_set hl (Z.of_nat i + 1) HL_STRING in
        highlight fuel syn row (i + 2) false in_string in_comment hl
      else
        let in_string := if uchar c =? in_string then 0 else in_string in
        highlight fuel syn row (i + 1) prev_sep in_string in_comment hl
    else if bool_decide (c = DQUOTE) || bool_decide (c = "'"%char) then
      let* hl := array_set hl (Z.of_nat i) HL_STRING in
      highlight fuel syn row (i + 1) false (uchar c) in_comment hl
    (* Handle non printable chars. *)
    else if negb (isprint (uchar c)) then
      let* hl := array_set hl (Z.of_nat i) HL_NONPRINT in
      highlight fuel syn row (i + 1) false in_string in_comment hl
    else
    (* Handle numbers *)
    let* is_number :=
      (if isdigit (uchar c) then
         if prev_sep then Returns true
         else let* before := array_get hl (Z.of_nat i - 1) in
              Returns (before =? HL_NUMBER)
       else Returns false) in
    let* is_number :=
      (if is_number then Returns true
       else if bool_decide (c = "."%char) && (0 <? Z.of_nat i) then
         let* before := array_get hl (Z.of_nat i - 1) in
         Returns (before =? HL_NUMBER)
       else Returns false) in
    if is_number then
      let* hl := array_set hl (Z.of_nat i) HL_NUMBER in
      highlight fuel syn row (i + 1) false in_string in_comment hl
    else
    (* Handle keywords and lib calls *)
    let* found := (if prev_sep then match_keyword (keywords syn) (render row) i
             else Returns None) in
    match found with
    | Some (klen, class) =>
        let* hl := array_fill hl i (Z.of_nat klen) class in
        highlight fuel syn row (i + klen) false in_string in_comment hl
    | None =>
        (* Not special chars *)
        highlight fuel syn row (i + 1) (IsSeparator (uchar c))
                  in_string in_comment hl
    end
  end.

(** [pos] is the position in [state->row] of the row that the pointer
    [row] of the source points at.  The row is read again from the state
    wherever the source goes through the pointer after a recursive call.
    The recursion follows the [idx] members; [fuel] bounds its depth. *)
Fixpoint UpdateSyntax (fuel : nat) (state : State) (pos : nat)
    : Outcome State :=
  match fuel with
  | O => OutOfFuel
  | S fuel =>
    let* r := array_get (row state) (Z.of_nat pos) in
    if rsize r <? 0 then Undefined
    else
    let r := set_hl (replicate (Z.to_nat (rsize r)) HL_NORMAL) r in
    let state := set_rows (<[pos := r]> (row state)) state in
    match syntax state with
    | None => Returns state (* No syntax, everything is HL_NORMAL. *)
    | Some syn =>
        let i := skip_spaces (render r) 0 in
        let* in_comment :=
          (if 0 <? idx r then
             let* prev := array_get (row state) (idx r - 1) in
             let* oc := RowHasOpenComment prev in
             Returns (negb (oc =? 0))
           else Returns false) in
        let* '(h, returned) :=
          highlight (S (length (render r))) syn r i true 0 in_comment (hl r) in
        let r := set_hl h r in
        let state := set_rows (<[pos := r]> (row state)) state in
        if returned : bool then Returns state
        else
          (* Propagate syntax change to the next row if the open comment
             state changed. *)
          let* oc := RowHasOpenComment r in
          let* state :=
            (if negb (hl_oc r =? oc) && (wrap_int (idx r + 1) <? numrows state)
             then
               if wrap_int (idx r + 1) <? 0 then Undefined
               else UpdateSyntax fuel state (Z.to_nat (wrap_int (idx r + 1)))
             else Returns state) in
          Returns (set_rows (alter (set_hl_oc oc) pos (row state)) state)
    end
  end.

(** The inner [while] of [UpdateRow]: spaces up to the column before a
    multiple of eight. *)
Fixpoint tab_fill (fuel : nat) (idx : Z) : bytes :=
  match fuel with
  | O => []
  | S fuel =>
      if negb ((idx + 1) mod 8 =? 0) then " "%char :: tab_fill fuel (idx + 1)
      else []
  end.

(** The loop of [UpdateRow] that writes [render], [idx] being the number of
    characters written so far. *)
Fixpoint render_chars (cs : bytes) (idx : Z) : bytes :=
  match cs with
  | [] => []
  | c :: cs' =>
      if bool_decide (uchar c = TAB) then
        let fill := tab_fill 8 (idx + 1) in
        " "%char :: fill ++ render_chars cs' (idx + 1 + Z.of_nat (length fill))
      else c :: render_chars cs' (idx + 1)
  end.

Definition count_tabs (cs : bytes) : Z :=
  Z.of_nat (length (filter (fun c => uchar c = TAB) cs)).

(** The row is the one at position [pos] of [state->row].  The render
    buffer is allocated with [allocsize] bytes. *)
Definition UpdateRow (fuel : nat) (state : State) (pos : nat)
    : Outcome State :=
  let* r := array_get (row state) (Z.of_nat pos) in
  if Z.of_nat (length (chars r)) <? size r then Undefined
  else
    let cs := take (Z.to_nat (size r)) (chars r) in
    let tabs := count_tabs cs in
    let nonprint := 0 in
    let allocsize :=
      u64 (size r + (tabs * 8) mod 2 ^ 32 + (nonprint * 9) mod 2 ^ 32 + 1) in
    if UINT32_MAX <? allocsize then
      (* "Some line of the edited file is too long for ette" *)
      Exits 1
    else
      let rd := render_chars cs 0 in
      if allocsize <? Z.of_nat (length rd) + 1 then Undefined
      else
        let r := set_render rd (wrap_int (Z.of_nat (length rd))) r in
        UpdateSyntax fuel (set_rows (<[pos := r]> (row state)) state) pos.

Definition incr_idx (r : Row) : Row := set_idx (wrap_int (idx r + 1)) r.

(** The depth [InsertRow] allows the recursion of [UpdateSyntax]: one call
    for each row of the array and one more. *)
Definition UpdateSyntax_fuel (rows : list Row) : nat := S (S (length rows)).

(** [s] is the string handed in, without its terminator.  [len + 1] bytes
    of it are copied: its first [len] bytes and the byte [s[len]] behind
    them, which is the terminator when [len] is the length of the string and
    a byte of the string when [len] is less. *)
Definition InsertRow (state : State) (at_ : Z) (s : bytes) (len : Z)
    : Outcome State :=
  if numrows state <? at_ then Returns state
  else if (at_ <? 0) || negb (Z.of_nat (length (row state)) =? numrows state)
          || (len <? 0) || (Z.of_nat (length s) <? len)
  then Undefined
  else
    let rows := row state in
    let shifted :=
      if negb (at_ =? numrows state)
      then incr_idx <$> drop (Z.to_nat at_) rows
      else drop (Z.to_nat at_) rows in
    let new_row :=
      {| size := wrap_int len; chars := take (Z.to_nat len) s;
         chars_end := nth (Z.to_nat len) s NUL;
         hl := []; hl_oc := 0; render := []; rsize := 0; idx := at_ |} in
    let rows := take (Z.to_nat at_) rows ++ new_row :: shifted in
    let* state := UpdateRow (UpdateSyntax_fuel rows) (set_rows rows state)
                      (Z.to_nat at_) in
    Returns (set_numrows_dirty (wrap_int (numrows state + 1))
                               (wrap_int (dirty state + 1)) state).

Definition DeleteRow (state : State) (at_ : Z) : Outcome State :=
  if numrows state <=? at_ then Returns state
  else if (at_ <? 0) || negb (Z.of_nat (length (row state)) =? numrows state)
  then Undefined
  else
    let rows := row state in
    let rows := take (Z.to_nat at_) rows
                ++ (incr_idx <$> drop (Z.to_nat at_ + 1) rows) in
    Returns (set_numrows_dirty (wrap_int (numrows state - 1))
                               (wrap_int (dirty state + 1))
                               (set_rows rows state)).

(** The two loops of [RowsToString] over the first [n] rows: the bytes
    written and the count [totlen] kept in an [int]. *)
Fixpoint rows_to_string (rows : list Row) (n : nat) (totlen : Z)
    : Outcome (bytes * Z) :=
  match n with
  | O => Returns ([], totlen)
  | S n =>
      match rows with
      | [] => Undefined
      | r :: rows' =>
          if (size r <? 0) || (Z.of_nat (length (chars r)) <? size r)
          then Undefined
          else
            let* '(buf, totlen) :=
              rows_to_string rows' n (wrap_int (totlen + wrap_int (size r + 1))) in
            Returns (take (Z.to_nat (size r)) (chars r) ++ LF :: buf, totlen)
      end
  end.

(** The string returned and the value stored in [*buflen].  The buffer is
    allocated with [totlen + 1] bytes and receives the rows and a
    terminator. *)
Definition RowsToString (state : State) : Outcome (bytes * Z) :=
  let* '(buf, totlen) := rows_to_string (row state) (Z.to_nat (numrows state)) 0 in
  if wrap_int (totlen + 1) <? Z.of_nat (length buf) + 1 then Undefined
  else Returns (buf, totlen).

(** *** The quit key *)

(** What the [CTRL_Q] case prints into the status line: the format string
    with [%d] replaced by [quit_times]. *)
Definition quit_warning (quit_times : Z) : bytes :=
  cstr "WARNING!!! File has unsaved changes. Press Ctrl-Q "
  ++ to_string quit_times ++ cstr " more times to quit.".

(** The [CTRL_Q] case of [ProcessKeyPressUnlocked].  [now] is the clock read
    by [SetStatusMessage].  Before [exit(0)] the source writes the terminal
    reset sequence to [fd]. *)
Definition ProcessKeyPressUnlocked_CTRL_Q (now : Z) (state : State)
    : Outcome State :=
  if negb (dirty state =? 0) && (0 <? quit_times state) then
    let state := SetStatusMessage now state (quit_warning (quit_times state)) in
    Returns (set_quit_times (wrap_int (quit_times state - 1)) state)
  else Exits 0.

(** [CTRL_Q] pressed once for every clock value of [clock], with no other
    key in between. *)
Fixpoint press_CTRL_Q (clock : list Z) (state : State) : Outcome State :=
  match clock with
  | [] => Returns state
  | now :: clock' =>
      let* state := ProcessKeyPressUnlocked_CTRL_Q now state in
      press_CTRL_Q clock' state
  end.

(** *** The cipher of a file name *)

(** [haystack.find(needle) != std::string::npos]: [needle] occurs at some
    offset of [haystack]. *)
Fixpoint find_from (haystack needle : bytes) (pos : nat) : option nat :=
  if bool_decide (take (length needle) haystack = needle) then Some pos
  else match haystack with
       | [] => None
       | _ :: haystack' => find_from haystack' needle (S pos)
       end.

Definition string_find (haystack needle : bytes) : option nat :=
  find_from haystack needle 0.

Definition GetCryptoAlgorithmFromFilename (filename : bytes)
    : CryptoAlgorithm :=
  let aes256cbc := cstr ".aes256cbc" in
  match string_find filename aes256cbc with
  | Some _ => kAES256CBC
  | None => kDefaultNone
  end.

(** The two password dialogues read keys from the terminal and are not
    unfolded here; [HandleEncryption] is given them, and the test
    [FileExists] of the file system, as [Dialogues]. *)
Class Dialogues := {
  FileExists : bytes -> bool;
  HandleExistingFileEncryption : State -> bytes -> list Z -> Outcome State;
  HandleNewFileEncryption : State -> list Z -> Outcome State;
}.

Definition HandleEncryption `{Dialogues}
    (state : State) (filename : bytes) (provided_keys : list Z)
    : Outcome State :=
  let filename_str := filename in
  let crypto_algorithm := GetCryptoAlgorithmFromFilename filename_str in
  if bool_decide (crypto_algorithm = kDefaultNone) then Returns state
  else
    let state := set_crypto_algorithm crypto_algorithm state in
    if FileExists filename_str
    then HandleExistingFileEncryption state filename_str provided_keys
    else HandleNewFileEncryption state provided_keys.

(** Dialogues that leave the state as it is and record, in
    [password_status], which of them ran; they serve to run
    [HandleEncryption] on concrete file names. *)
Definition set_password_status (p : PasswordStatus) (s : State) : State :=
  {| cx := cx s; cy := cy s; rowoff := rowoff s; coloff := coloff s;
     screenrows := screenrows s; screencols := screencols s;
     numrows := numrows s; rawmode := rawmode s;
     row := row s; dirty := dirty s; filename := filename s;
     quit_times := quit_times s; indelible_msg := indelible_msg s;
     password := password s; entry_password := entry_password s;
     crypto_algorithm := crypto_algorithm s; unlock_state := unlock_state s;
     existing_file_password_state := existing_file_password_state s;
     new_file_password_state := new_file_password_state s;
     password_status := p;
     statusmsg := statusmsg s; statusmsg_time := statusmsg_time s;
     syntax := syntax s |}.

Definition reference_dialogues (exists_ : bool) : Dialogues :=
  {| FileExists := fun _ => exists_;
     HandleExistingFileEncryption := fun s _ _ =>
       Returns (set_password_status kPasswordVerified s);
     HandleNewFileEncryption := fun s _ =>
       Returns (set_password_status kConfirmPasswordMismatch s) |}.

(** ** Well-formed editor states

    The invariants the data model of the editor states: [numrows] counts
    the rows of the array, and [size] is the length of [chars]. *)

Definition row_wf (r : Row) : Prop := size r = Z.of_nat (length (chars r)).

Definition rows_wf (s : State) : Prop :=
  numrows s = Z.of_nat (length (row s)) /\ Forall row_wf (row s).

(** The text of the rows with a line feed behind each of them, and the
    number of its bytes. *)
Definition rows_text (rows : list Row) : bytes :=
  concat ((fun r => chars r ++ [LF]) <$> rows).

Definition rows_total (rows : list Row) : Z :=
  foldr (fun r acc => size r + 1 + acc) 0 rows.

(** What [UpdateSyntax] leaves alone in a row: everything but the highlight
    array and the open-comment flag. *)
Definition row_text (r : Row) : Z * Z * bytes * ascii * bytes * Z :=
  (idx r, size r, chars r, chars_end r, render r, rsize r).

(** The same, the index apart. *)
Definition row_content (r : Row) : Z * bytes * ascii * bytes * Z :=
  (size r, chars r, chars_end r, render r, rsize r).

(** All of a row but its index. *)
Definition row_but_idx (r : Row)
    : Z * bytes * ascii * bytes * Z * list Z * Z :=
  (size r, chars r, chars_end r, render r, rsize r, hl r, hl_oc r).

(** A state of three rows, no syntax selected, as [Open] builds it from a
    file of three lines. *)
Definition plain_row (i : Z) (s : string) : Row :=
  {| idx := i; size := Z.of_nat (length (cstr s));
     rsize := Z.of_nat (length (cstr s));
     chars := cstr s; chars_end := NUL; render := cstr s;
     hl := replicate (length (cstr s)) HL_NORMAL; hl_oc := 0 |}.

Definition three_rows : State :=
  set_numrows_dirty 3 0
    (set_rows [plain_row 0 "first row"; plain_row 1 "second row";
               plain_row 2 "third row"] State_new).

(** The row [InsertRow] puts into the array. *)
Definition inserted_row (at_ : Z) (s : bytes) (len : Z) : Row :=
  {| size := wrap_int len; chars := take (Z.to_nat len) s;
     chars_end := nth (Z.to_nat len) s NUL;
     hl := []; hl_oc := 0; render := []; rsize := 0; idx := at_ |}.

(** The array [InsertRow] hands to [UpdateRow]. *)
Definition inserted_rows (rows : list Row) (n at_ : Z) (s : bytes) (len : Z)
    : list Row :=
  take (Z.to_nat at_) rows
  ++ inserted_row at_ s len
     :: (if negb (at_ =? n) then incr_idx <$> drop (Z.to_nat at_) rows
         else drop (Z.to_nat at_) rows).

(** ** More of editor.cc: choosing the syntax, editing a row, editing at
    the cursor *)

Global Instance ExistingFilePasswordState_eq_dec :
  EqDecision ExistingFilePasswordState.t.
Proof. solve_decision. Defined.

Global Instance NewFilePasswordState_eq_dec :
  EqDecision NewFilePasswordState.t.
Proof. solve_decision. Defined.

Definition set_syntax (syn : option Syntax) (s : State) : State :=
  {| cx := cx s; cy := cy s; rowoff := rowoff s; coloff := coloff s;
     screenrows := screenrows s; screencols := screencols s;
     numrows := numrows s; rawmode := rawmode s;
     row := row s; dirty := dirty s; filename := filename s;
     quit_times := quit_times s; indelible_msg := indelible_msg s;
     password := password s; entry_password := entry_password s;
     crypto_algorithm := crypto_algorithm s; unlock_state := unlock_state s;
     existing_file_password_state := existing_file_password_state s;
     new_file_password_state := new_file_password_state s;
     password_status := password_status s;
     statusmsg := statusmsg s; statusmsg_time := statusmsg_time s;
     syntax := syn |}.

Definition set_dirty (d : Z) (s : State) : State :=
  set_numrows_dirty (numrows s) d s.

Definition set_cursor (x y ro co : Z) (s : State) : State :=
  {| cx := x; cy := y; rowoff := ro; coloff := co;
     screenrows := screenrows s; screencols := screencols s;
     numrows := numrows s; rawmode := rawmode s;
     row := row s; dirty := dirty s; filename := filename s;
     quit_times := quit_times s; indelible_msg := indelible_msg s;
     password := password s; entry_password := entry_password s;
     crypto_algorithm := crypto_algorithm s; unlock_state := unlock_state s;
     existing_file_password_state := existing_file_password_state s;
     new_file_password_state := new_file_password_state s;
     password_status := password_status s;
     statusmsg := statusmsg s; statusmsg_time := statusmsg_time s;
     syntax := syntax s |}.

Definition set_entry_password (p : bytes) (s : State) : State :=
  {| cx := cx s; cy := cy s; rowoff := rowoff s; coloff := coloff s;
     screenrows := screenrows s; screencols := screencols s;
     numrows := numrows s; rawmode := rawmode s;
     row := row s; dirty := dirty s; filename := filename s;
     quit_times := quit_times s; indelible_msg := indelible_msg s;
     password := password s; entry_password := p;
     crypto_algorithm := crypto_algorithm s; unlock_state := unlock_state s;
     existing_file_password_state := existing_file_password_state s;
     new_file_password_state := new_file_password_state s;
     password_status := password_status s;
     statusmsg := statusmsg s; statusmsg_time := statusmsg_time s;
     syntax := syntax s |}.

Definition set_chars (cs : bytes) (n : Z) (r : Row) : Row :=
  {| idx := idx r; size := n; rsize := rsize r; chars := cs;
     chars_end := chars_end r;
     render := render r; hl := hl r; hl_oc := hl_oc r |}.

Definition set_chars_end (c : ascii) (r : Row) : Row :=
  {| idx := idx r; size := size r; rsize := rsize r; chars := chars r;
     chars_end := c;
     render := render r; hl := hl r; hl_oc := hl_oc r |}.

(** *** SyntaxToColor *)

Definition SyntaxToColor (hl : Z) : Z :=
  if (hl =? HL_COMMENT) || (hl =? HL_MLCOMMENT) then 36
  else if hl =? HL_KEYWORD1 then 33
  else if hl =? HL_KEYWORD2 then 32
  else if hl =? HL_STRING then 35
  else if hl =? HL_NUMBER then 31
  else if hl =? HL_MATCH then 34
  else 37.

(** *** SelectSyntaxHighlight *)

(** The [while] loop over the patterns of one entry: [strstr] finds the
    first place where the pattern occurs; a pattern that begins with a dot
    counts only if that place is the end of the name. *)
Fixpoint filematch_any (filename : bytes) (patterns : list bytes) : bool :=
  match patterns with
  | [] => false
  | pat :: patterns' =>
      let patlen := length pat in
      match string_find filename pat with
      | Some p =>
          if negb (bool_decide (nth 0 pat NUL = "."%char))
             || bool_decide ((p + patlen)%nat = length filename)
          then true
          else filematch_any filename patterns'
      | None => filematch_any filename patterns'
      end
  end.

(** The [for] loop over the entries of the data base. *)
Fixpoint select_syntax (filename : bytes) (db : list Syntax)
    : option Syntax :=
  match db with
  | [] => None
  | s :: db' =>
      if filematch_any filename (filematch s) then Some s
      else select_syntax filename db'
  end.

Definition SelectSyntaxHighlight (state : State) (filename : bytes) : State :=
  match select_syntax filename HLDB with
  | Some s => set_syntax (Some s) state
  | None => state
  end.

(** *** Editing one row

    The row is the one at position [pos] of [state->row]; [chars] holds the
    first [size] bytes of its buffer and [chars_end] the byte behind
    them. *)

Definition row_chars (r : Row) : Outcome bytes :=
  if (size r <? 0) || (Z.of_nat (length (chars r)) <? size r) then Undefined
  else Returns (take (Z.to_nat (size r)) (chars r)).

Definition RowInsertChar (state : State) (pos : nat) (at_ : Z) (c : Z)
    : Outcome State :=
  let* r := array_get (row state) (Z.of_nat pos) in
  let* cs := row_chars r in
  let* r :=
    (if size r <? at_ then
       (* Pad the string with spaces if the insert location is outside the
          current length by more than a single character. *)
       let padlen := wrap_int (at_ - size r) in
       Returns (set_chars_end NUL
                  (set_chars (cs ++ replicate (Z.to_nat padlen) " "%char
                                 ++ [to_char c])
                             (wrap_int (size r + wrap_int (padlen + 1))) r))
     else if at_ <? 0 then Undefined
     else
       (* memmove takes the byte behind the characters along *)
       Returns (set_chars (take (Z.to_nat at_) cs ++ to_char c
                             :: drop (Z.to_nat at_) cs)
                          (wrap_int (size r + 1)) r)) in
  let state := set_rows (<[pos := r]> (row state)) state in
  let* state := UpdateRow (UpdateSyntax_fuel (row state)) state pos in
  Returns (set_dirty (wrap_int (dirty state + 1)) state).

Definition RowAppendString (state : State) (pos : nat) (s : bytes) (len : Z)
    : Outcome State :=
  let* r := array_get (row state) (Z.of_nat pos) in
  let* cs := row_chars r in
  if (len <? 0) || (Z.of_nat (length s) <? len) then Undefined
  else
    let r := set_chars_end NUL
               (set_chars (cs ++ take (Z.to_nat len) s)
                          (wrap_int (size r + wrap_int len)) r) in
    let state := set_rows (<[pos := r]> (row state)) state in
    let* state := UpdateRow (UpdateSyntax_fuel (row state)) state pos in
    Returns (set_dirty (wrap_int (dirty state + 1)) state).

(** [memmove] takes the byte behind the characters along, and [UpdateRow]
    runs while [size] still counts the deleted character: it renders the
    remaining characters and that byte behind them.  Only then is [size]
    reduced. *)
Definition RowDeleteChar (state : State) (pos : nat) (at_ : Z)
    : Outcome State :=
  let* r := array_get (row state) (Z.of_nat pos) in
  if size r <=? at_ then Returns state
  else
    let* cs := row_chars r in
    if at_ <? 0 then Undefined
    else
      let moved := take (Z.to_nat at_) cs ++ drop (Z.to_nat at_ + 1) cs in
      let r := set_chars (moved ++ [chars_end r]) (size r) r in
      let state := set_rows (<[pos := r]> (row state)) state in
      let* state := UpdateRow (UpdateSyntax_fuel (row state)) state pos in
      let* r := array_get (row state) (Z.of_nat pos) in
      let r := set_chars moved (wrap_int (size r - 1)) r in
      let state := set_rows (<[pos := r]> (row state)) state in
      Returns (set_dirty (wrap_int (dirty state + 1)) state).

(** *** Editing at the cursor *)

(** One of the three states in which the keys typed are a password. *)
Definition typing_password (state : State) : bool :=
  bool_decide (existing_file_password_state state
               = ExistingFilePasswordState.kTyping)
  || bool_decide (new_file_password_state state
                  = NewFilePasswordState.kTypingEnterPassword)
  || bool_decide (new_file_password_state state
                  = NewFilePasswordState.kTypingConfirmPassword).

(** The [while] loop of [InsertChar] that adds empty rows up to the row of
    the cursor; [fuel] bounds the number of rows added. *)
Fixpoint add_empty_rows (fuel : nat) (state : State) (filerow : Z)
    : Outcome State :=
  if numrows state <=? filerow then
    match fuel with
    | O => OutOfFuel
    | S fuel =>
        let* state := InsertRow state (numrows state) [] 0 in
        add_empty_rows fuel state filerow
    end
  else Returns state.

Definition InsertChar (state : State) (c : Z) : Outcome State :=
  let filerow := wrap_int (rowoff state + cy state) in
  let filecol := wrap_int (coloff state + cx state) in
  (* If the row where the cursor is currently located does not exist in our
     logical representaion of the file, add enough empty rows as needed. *)
  let* state :=
    (if numrows state <=? filerow
     then add_empty_rows (Z.to_nat (filerow - numrows state + 1)) state filerow
     else Returns state) in
  if filerow <? 0 then Undefined
  else
    let* state :=
      (if typing_password state then
         let state :=
           set_entry_password (entry_password state ++ [to_char c]) state in
         RowInsertChar state (Z.to_nat filerow) filecol (uchar "*"%char)
       else RowInsertChar state (Z.to_nat filerow) filecol c) in
    let state :=
      if cx state =? wrap_int (screencols state - 1)
      then set_cursor (cx state) (cy state) (rowoff state)
                      (wrap_int (coloff state + 1)) state
      else set_cursor (wrap_int (cx state + 1)) (cy state) (rowoff state)
                      (coloff state) state in
    Returns (set_dirty (wrap_int (dirty state + 1)) state).

(** The label [fixcursor] of [InsertNewLine]. *)
Definition fixcursor (state : State) : State :=
  let state :=
    if cy state =? wrap_int (screenrows state - 1)
    then set_cursor (cx state) (cy state) (wrap_int (rowoff state + 1))
                    (coloff state) state
    else set_cursor (cx state) (wrap_int (cy state + 1)) (rowoff state)
                    (coloff state) state in
  set_cursor 0 (cy state) (rowoff state) 0 state.

Definition InsertNewLine (state : State) : Outcome State :=
  let filerow := wrap_int (rowoff state + cy state) in
  let filecol := wrap_int (coloff state + cx state) in
  if numrows state <=? filerow then
    if filerow =? numrows state then
      let* state := InsertRow state filerow [] 0 in
      Returns (fixcursor state)
    else Returns state
  else
    let* r := array_get (row state) filerow in
    (* If the cursor is over the current line size, we want to conceptually
       think it's just over the last character. *)
    let filecol := if size r <=? filecol then size r else filecol in
    if filecol =? 0 then
      let* state := InsertRow state filerow [] 0 in
      Returns (fixcursor state)
    else
      (* We are in the middle of a line. Split it between two rows. *)
      let* cs := row_chars r in
      if filecol <? 0 then Undefined
      else
        (* the string at row->chars + filecol ends where the buffer of
           the row ends *)
        let* state :=
          InsertRow state (wrap_int (filerow + 1))
                    (drop (Z.to_nat filecol) cs ++ [chars_end r])
                    (wrap_int (size r - filecol)) in
        let* r := array_get (row state) filerow in
        let r := set_chars_end NUL
                   (set_chars (take (Z.to_nat filecol) (chars r)) filecol r) in
        let state :=
          set_rows (<[Z.to_nat filerow := r]> (row state)) state in
        let* state :=
          UpdateRow (UpdateSyntax_fuel (row state)) state
                    (Z.to_nat filerow) in
        Returns (fixcursor state).

Definition DeleteChar (state : State) : Outcome State :=
  let filerow := wrap_int (rowoff state + cy state) in
  let filecol := wrap_int (coloff state + cx state) in
  if (numrows state <=? filerow) || ((filecol =? 0) && (filerow =? 0))
  then Returns state
  else
    let* r := array_get (row state) filerow in
    if filecol =? 0 then
      (* Handle the case of column 0, we need to move the current line
         on the right of the previous one. *)
      let* prev := array_get (row state) (filerow - 1) in
      let filecol := size prev in
      let* cs := row_chars r in
      let* state :=
        RowAppendString state (Z.to_nat (filerow - 1)) cs (size r) in
      let* state := DeleteRow state filerow in
      let state :=
        if cy state =? 0
        then set_cursor (cx state) (cy state) (wrap_int (rowoff state - 1))
                        (coloff state) state
        else set_cursor (cx state) (wrap_int (cy state - 1)) (rowoff state)
                        (coloff state) state in
      let state :=
        set_cursor filecol (cy state) (rowoff state) (coloff state) state in
      let state :=
        if screencols state <=? cx state then
          let shift := wrap_int (wrap_int (screencols state - cx state) + 1) in
          set_cursor (wrap_int (cx state - shift)) (cy state) (rowoff state)
                     (wrap_int (coloff state + shift)) state
        else state in
      Returns (set_dirty (wrap_int (dirty state + 1)) state)
    else
      let* state :=
        (if typing_password state then
           if bool_decide (entry_password state = []) then Undefined
           else Returns (set_entry_password
                           (take (length (entry_password state) - 1)
                                 (entry_password state)) state)
         else Returns state) in
      let* state :=
        RowDeleteChar state (Z.to_nat filerow) (wrap_int (filecol - 1)) in
      let state :=
        if (cx state =? 0) && negb (coloff state =? 0)
        then set_cursor (cx state) (cy state) (rowoff state)
                        (wrap_int (coloff state - 1)) state
        else set_cursor (wrap_int (cx state - 1)) (cy state) (rowoff state)
                        (coloff state) state in
      let* state :=
        UpdateRow (UpdateSyntax_fuel (row state)) state (Z.to_nat filerow) in
      Returns (set_dirty (wrap_int (dirty state + 1)) state).

(** What [UpdateRow] and [UpdateSyntax] never touch in any row. *)
Definition row_key (r : Row) : Z * Z * bytes := (idx r, size r, chars r).

(** The rows are numbered by their positions, as the comment at [idx] in
    [editor.h] has it: "Row index in the file, zero-based." *)
Definition numbered (rows : list Row) : Prop :=
  forall (j : nat) (r : Row), rows !! j = Some r -> idx r = Z.of_nat j.

(** A state of two rows with the C syntax selected, as [Open] leaves it
    for a file [main.c] before the rows are highlighted. *)
Definition c_file : State :=
  SelectSyntaxHighlight
    (set_numrows_dirty 2 0
       (set_rows [plain_row 0 "int x = 10; /* ten */";
                  plain_row 1 "return x;"] State_new))
    (cstr "main.c").

(** A state of two rows with the C syntax selected, as [Open] builds it
    from a file [main.c] of the two lines [x] and [y]. *)
Definition c_file_x_y : State :=
  SelectSyntaxHighlight
    (set_numrows_dirty 2 0
       (set_rows [plain_row 0 "x"; plain_row 1 "y"] State_new))
    (cstr "main.c").

(** The members of the state that editing does not write: everything but
    the rows and their number, the cursor, [dirty] and the password typed
    so far, which are cleared here. *)
Definition unedited (s : State) : State :=
  set_entry_password []
    (set_rows [] (set_cursor 0 0 0 0 (set_numrows_dirty 0 0 s))).

(** More assignments to members of [State]. *)

Definition set_window (rows cols : Z) (s : State) : State :=
  {| cx := cx s; cy := cy s; rowoff := rowoff s; coloff := coloff s;
     screenrows := rows; screencols := cols; numrows := numrows s;
     rawmode := rawmode s; row := row s; dirty := dirty s;
     filename := filename s; quit_times := quit_times s;
     indelible_msg := indelible_msg s; password := password s;
     entry_password := entry_password s;
     crypto_algorithm := crypto_algorithm s; unlock_state := unlock_state s;
     existing_file_password_state := existing_file_password_state s;
     new_file_password_state := new_file_password_state s;
     password_status := password_status s; statusmsg := statusmsg s;
     statusmsg_time := statusmsg_time s; syntax := syntax s |}.

Definition set_indelible_msg (m : bytes) (s : State) : State :=
  {| cx := cx s; cy := cy s; rowoff := rowoff s; coloff := coloff s;
     screenrows := screenrows s; screencols := screencols s;
     numrows := numrows s; rawmode := rawmode s; row := row s;
     dirty := dirty s; filename := filename s; quit_times := quit_times s;
     indelible_msg := m; password := password s;
     entry_password := entry_password s;
     crypto_algorithm := crypto_algorithm s; unlock_state := unlock_state s;
     existing_file_password_state := existing_file_password_state s;
     new_file_password_state := new_file_password_state s;
     password_status := password_status s; statusmsg := statusmsg s;
     statusmsg_time := statusmsg_time s; syntax := syntax s |}.

Definition set_password (p : bytes) (s : State) : State :=
  {| cx := cx s; cy := cy s; rowoff := rowoff s; coloff := coloff s;
     screenrows := screenrows s; screencols := screencols s;
     numrows := numrows s; rawmode := rawmode s; row := row s;
     dirty := dirty s; filename := filename s; quit_times := quit_times s;
     indelible_msg := indelible_msg s; password := p;
     entry_password := entry_password s;
     crypto_algorithm := crypto_algorithm s; unlock_state := unlock_state s;
     existing_file_password_state := existing_file_password_state s;
     new_file_password_state := new_file_password_state s;
     password_status := password_status s; statusmsg := statusmsg s;
     statusmsg_time := statusmsg_time s; syntax := syntax s |}.

Definition set_unlock_state (u : UnlockState) (s : State) : State :=
  {| cx := cx s; cy := cy s; rowoff := rowoff s; coloff := coloff s;
     screenrows := screenrows s; screencols := screencols s;
     numrows := numrows s; rawmode := rawmode s; row := row s;
     dirty := dirty s; filename := filename s; quit_times := quit_times s;
     indelible_msg := indelible_msg s; password := password s;
     entry_password := entry_password s;
     crypto_algorithm := crypto_algorithm s; unlock_state := u;
     existing_file_password_state := existing_file_password_state s;
     new_file_password_state := new_file_password_state s;
     password_status := password_status s; statusmsg := statusmsg s;
     statusmsg_time := statusmsg_time s; syntax := syntax s |}.

Definition set_existing_file_password_state
    (p : ExistingFilePasswordState.t) (s : State) : State :=
  {| cx := cx s; cy := cy s; rowoff := rowoff s; coloff := coloff s;
     screenrows := screenrows s; screencols := screencols s;
     numrows := numrows s; rawmode := rawmode s; row := row s;
     dirty := dirty s; filename := filename s; quit_times := quit_times s;
     indelible_msg := indelible_msg s; password := password s;
     entry_password := entry_password s;
     crypto_algorithm := crypto_algorithm s; unlock_state := unlock_state s;
     existing_file_password_state := p;
     new_file_password_state := new_file_password_state s;
     password_status := password_status s; statusmsg := statusmsg s;
     statusmsg_time := statusmsg_time s; syntax := syntax s |}.

Definition set_new_file_password_state
    (p : NewFilePasswordState.t) (s : State) : State :=
  {| cx := cx s; cy := cy s; rowoff := rowoff s; coloff := coloff s;
     screenrows := screenrows s; screencols := screencols s;
     numrows := numrows s; rawmode := rawmode s; row := row s;
     dirty := dirty s; filename := filename s; quit_times := quit_times s;
     indelible_msg := indelible_msg s; password := password s;
     entry_password := entry_password s;
     crypto_algorithm := crypto_algorithm s; unlock_state := unlock_state s;
     existing_file_password_state := existing_file_password_state s;
     new_file_password_state := p; password_status := password_status s;
     statusmsg := statusmsg s; statusmsg_time := statusmsg_time s;
     syntax := syntax s |}.

(** A state in which a password is typed: the prompt is in the only row
    and the cursor is behind it. *)
Definition password_prompt : State :=
  set_new_file_password_state NewFilePasswordState.kTypingEnterPassword
    (set_indelible_msg (cstr "Enter password: ")
       (set_cursor 16 0 0 0
          (set_numrows_dirty 1 33
             (set_rows [plain_row 0 "Enter password: "]
                (set_window 24 80 State_new))))).

(** A state of two rows with the C syntax selected, the lines [/] and [x],
    and the cursor behind the [/]. *)
Definition c_file_slash : State :=
  set_cursor 1 0 0 0
    (SelectSyntaxHighlight
       (set_numrows_dirty 2 0
          (set_rows [plain_row 0 "/"; plain_row 1 "x"]
             (set_window 24 80 State_new)))
       (cstr "main.c")).

(** The rows after [InsertNewLine] with the cursor in row [fr], a row [r],
    at column [fc] of it: an empty row in front of [r] for column 0, else
    [r] cut at [fc] and the rest of it in a new row behind. *)
Definition split_rows (rows : list Row) (n fr fc : Z) (r : Row) : list Row :=
  if fc =? 0 then inserted_rows rows n fr [] 0
  else <[Z.to_nat fr := set_chars (take (Z.to_nat fc) (chars r)) fc r]>
         (inserted_rows rows n (fr + 1) (drop (Z.to_nat fc) (chars r))
            (size r - fc)).

(** The rows after [DeleteChar] with the cursor at the start of row [fr], a
    row [r] behind a row [prev]: the characters of [r] appended to [prev],
    [r] removed by [DeleteRow]. *)
Definition joined_rows (rows : list Row) (fr : Z) (prev r : Row) : list Row :=
  let rows :=
    <[Z.to_nat (fr - 1) :=
        set_chars (chars prev ++ chars r) (size prev + size r) prev]> rows in
  take (Z.to_nat fr) rows ++ (incr_idx <$> drop (Z.to_nat fr + 1) rows).

Definition incr_key (k : Z * Z * bytes) : Z * Z * bytes :=
  (wrap_int (k.1.1 + 1), k.1.2, k.2).

(** [dirty] after [k] increments. *)
Definition dirty_after (k : nat) (d : Z) : Z :=
  Nat.iter k (fun d => wrap_int (d + 1)) d.

(** The keys of [k] empty rows at the positions from [n] on. *)
Definition empty_keys (n k : nat) : list (Z * Z * bytes) :=
  (fun i => (Z.of_nat i, 0, [])) <$> seq n k.

(** ** More of editor.cc: keys from the terminal and the password
    dialogues *)

(** *** KEY_ACTION *)

Definition KEY_NULL : Z := 0.
Definition CTRL_C : Z := 3.
Definition CTRL_F : Z := 6.
Definition CTRL_H : Z := 8.
Definition CTRL_L : Z := 12.
Definition ENTER : Z := 13.
Definition CTRL_S : Z := 19.
Definition ESC : Z := 27.
Definition BACKSPACE : Z := 127.
Definition ARROW_LEFT : Z := 1000.
Definition ARROW_RIGHT : Z := 1001.
Definition ARROW_UP : Z := 1002.
Definition ARROW_DOWN : Z := 1003.
Definition DEL_KEY : Z := 1004.
Definition HOME_KEY : Z := 1005.
Definition END_KEY : Z := 1006.
Definition PAGE_UP : Z := 1007.
Definition PAGE_DOWN : Z := 1008.

(** A [char] converted to [int]; [char] is signed here, as on the
    platforms the editor is built for. *)
Definition schar (c : ascii) : Z :=
  if uchar c <? 128 then uchar c else uchar c - 256.

(** *** ReadKey

    The terminal is in raw mode with [VMIN = 0] and [VTIME = 1]: a
    [read] of one byte gives the byte, or 0 after a tenth of a second
    without one, or -1 for an error.  The terminal is the list of what
    its [read]s give, one after the other; behind the end of the list no
    byte arrives any more. *)
Inductive read_result :=
  | Byte (c : ascii)
  | Timeout
  | ReadError.

Definition Terminal := list read_result.

Definition read1 (tty : Terminal) : read_result * Terminal :=
  match tty with
  | [] => (Timeout, [])
  | r :: tty' => (r, tty')
  end.

(** [read(...) == 0]. *)
Definition timed_out (r : read_result) : bool :=
  match r with
  | Timeout => true
  | _ => false
  end.

(** An element of [seq[3]]: nothing before the first [read] into it; a
    [read] that gives no byte leaves it as it is. *)
Definition store (r : read_result) (old : option ascii) : option ascii :=
  match r with
  | Byte c => Some c
  | _ => old
  end.

Definition load (v : option ascii) : Outcome ascii :=
  match v with
  | Some c => Returns c
  | None => Undefined
  end.

(** The first loop of [ReadKey]; [fuel] bounds the number of [read]s
    that time out. *)
Fixpoint wait_byte (fuel : nat) (tty : Terminal)
    : Outcome (ascii * Terminal) :=
  match fuel with
  | O => OutOfFuel
  | S fuel =>
      match read1 tty with
      | (Timeout, tty) => wait_byte fuel tty
      | (ReadError, _) => Exits 1
      | (Byte c, tty) => Returns (c, tty)
      end
  end.

(** The [while (1)] of [ReadKey]: a sequence that is not recognised
    leaves the [switch] by [break] and is followed by another round with
    the same [c]; [fuel] bounds the number of rounds. *)
Fixpoint decode_key (fuel : nat) (c : ascii) (seq0 seq1 seq2 : option ascii)
    (tty : Terminal) : Outcome (Z * Terminal) :=
  match fuel with
  | O => OutOfFuel
  | S fuel =>
    if schar c =? ESC then
      (* escape sequence *)
      (* If this is just an ESC, we'll timeout here. *)
      let '(r0, tty) := read1 tty in
      if timed_out r0 then Returns (ESC, tty)
      else
      let seq0 := store r0 seq0 in
      let '(r1, tty) := read1 tty in
      if timed_out r1 then Returns (ESC, tty)
      else
      let seq1 := store r1 seq1 in
      let* s0 := load seq0 in
      (* ESC [ sequences. *)
      if bool_decide (s0 = "["%char) then
        let* s1 := load seq1 in
        if (uchar "0"%char <=? schar s1) && (schar s1 <=? uchar "9"%char)
        then
          (* Extended escape, read additional byte. *)
          let '(r2, tty) := read1 tty in
          if timed_out r2 then Returns (ESC, tty)
          else
          let seq2 := store r2 seq2 in
          let* s2 := load seq2 in
          if bool_decide (s2 = "~"%char) then
            if bool_decide (s1 = "3"%char) then Returns (DEL_KEY, tty)
            else if bool_decide (s1 = "5"%char) then Returns (PAGE_UP, tty)
            else if bool_decide (s1 = "6"%char) then Returns (PAGE_DOWN, tty)
            else decode_key fuel c seq0 seq1 seq2 tty
          else decode_key fuel c seq0 seq1 seq2 tty
        else
          if bool_decide (s1 = "A"%char) then Returns (ARROW_UP, tty)
          else if bool_decide (s1 = "B"%char) then Returns (ARROW_DOWN, tty)
          else if bool_decide (s1 = "C"%char) then Returns (ARROW_RIGHT, tty)
          else if bool_decide (s1 = "D"%char) then Returns (ARROW_LEFT, tty)
          else if bool_decide (s1 = "H"%char) then Returns (HOME_KEY, tty)
          else if bool_decide (s1 = "F"%char) then Returns (END_KEY, tty)
          else decode_key fuel c seq0 seq1 seq2 tty
      (* ESC O sequences. *)
      else if bool_decide (s0 = "O"%char) then
        let* s1 := load seq1 in
        if bool_decide (s1 = "H"%char) then Returns (HOME_KEY, tty)
        else if bool_decide (s1 = "F"%char) then Returns (END_KEY, tty)
        else decode_key fuel c seq0 seq1 seq2 tty
      else decode_key fuel c seq0 seq1 seq2 tty
    else Returns (schar c, tty)
  end.

Definition ReadKey (fuel : nat) (tty : Terminal) : Outcome (Z * Terminal) :=
  let* '(c, tty) := wait_byte fuel tty in
  decode_key fuel c None None None tty.

(** *** InsertString, ClearScreen, GetPasswordFromState *)

Fixpoint InsertString (state : State) (s : bytes) : Outcome State :=
  match s with
  | [] => Returns state
  | c :: s' =>
      let* state := InsertChar state (schar c) in
      InsertString state s'
  end.

(** The rows are not freed: [row] is set to null. *)
Definition ClearScreen (state : State) : State :=
  set_entry_password []
    (set_rows [] (set_numrows_dirty 0 0 (set_cursor 0 0 0 0 state))).

Definition GetPasswordFromState (state : State) : bytes :=
  entry_password state.

(** *** ProcessKeyPressPasswordMode

    The result is the state, whether Enter was pressed, and what is left
    of the terminal.  What is written to the terminal is not part of the
    model. *)
Definition ProcessKeyPressPasswordMode (fuel : nat) (tty : Terminal)
    (state : State) (provided_key : Z)
    : Outcome (State * bool * Terminal) :=
  let* '(c, tty) :=
    (if negb (provided_key =? 0) then Returns (provided_key, tty)
     else ReadKey fuel tty) in
  if c =? ENTER then Returns (state, true, tty)
  else if c =? CTRL_Q then Exits 0
  else if (c =? BACKSPACE) || (c =? CTRL_H) || (c =? DEL_KEY) then
    if cx state <=? wrap_int (Z.of_nat (length (indelible_msg state)))
    then Returns (state, false, tty)
    else
      let* state := DeleteChar state in
      Returns (state, false, tty)
  else if (c =? CTRL_S) || (c =? CTRL_C) || (c =? CTRL_F) || (c =? PAGE_UP)
          || (c =? PAGE_DOWN) || (c =? ARROW_UP) || (c =? ARROW_DOWN)
          || (c =? ARROW_LEFT) || (c =? ARROW_RIGHT) || (c =? CTRL_L)
          || (c =? ESC)
  then Returns (state, false, tty)
  else
    (* Insert the actual character *)
    (* Show the user an asterisk *)
    let* state := InsertChar state c in
    Returns (state, false, tty).

(** *** The dialogues

    [fuel] bounds the rounds of the [while (true)] of a dialogue, and the
    loops of each [ReadKey] in it.  With no provided keys every key is
    read from the terminal, and the screen is refreshed after every round,
    which changes nothing in the state. *)
Module PasswordDialogue.

(** [provided_keys[current_provided_key_idx]], or 0. *)
Definition provided (provided_keys : list Z) (idx : Z) : Outcome Z :=
  if bool_decide (provided_keys = []) then Returns 0
  else array_get provided_keys idx.

Fixpoint new_file_loop (fuel : nat) (tty : Terminal) (state : State)
    (provided_keys : list Z) (password confirm_password : bytes)
    (current_provided_key_idx : Z) : Outcome (State * Terminal) :=
  match fuel with
  | O => OutOfFuel
  | S fuel' =>
    match new_file_password_state state with
    | NewFilePasswordState.kShowEnterPassword =>
        let enter_password := cstr "Enter password: " in
        let* state := InsertString state enter_password in
        let state := set_indelible_msg enter_password state in
        let state :=
          set_new_file_password_state
            NewFilePasswordState.kTypingEnterPassword state in
        new_file_loop fuel' tty state provided_keys password
          confirm_password current_provided_key_idx
    | NewFilePasswordState.kTypingEnterPassword =>
        let* provided_key :=
          provided provided_keys current_provided_key_idx in
        let* '(state, enter_pressed, tty) :=
          ProcessKeyPressPasswordMode fuel tty state provided_key in
        let current_provided_key_idx :=
          wrap_int (current_provided_key_idx + 1) in
        if enter_pressed : bool then
          let password := GetPasswordFromState state in
          let state :=
            set_new_file_password_state
              NewFilePasswordState.kEnterPasswordCompleted state in
          new_file_loop fuel' tty state provided_keys password
            confirm_password current_provided_key_idx
        else
          new_file_loop fuel' tty state provided_keys password
            confirm_password current_provided_key_idx
    | NewFilePasswordState.kEnterPasswordCompleted =>
        let state := ClearScreen state in
        let confirm_password_preamble := cstr "Confirm password: " in
        let* state := InsertString state confirm_password_preamble in
        let state := set_indelible_msg confirm_password_preamble state in
        let state :=
          set_new_file_password_state
            NewFilePasswordState.kTypingConfirmPassword state in
        new_file_loop fuel' tty state provided_keys password
          confirm_password current_provided_key_idx
    | NewFilePasswordState.kTypingConfirmPassword =>
        let* provided_key :=
          provided provided_keys current_provided_key_idx in
        let* '(state, enter_pressed, tty) :=
          ProcessKeyPressPasswordMode fuel tty state provided_key in
        let current_provided_key_idx :=
          wrap_int (current_provided_key_idx + 1) in
        if enter_pressed : bool then
          let confirm_password := GetPasswordFromState state in
          let state :=
            set_new_file_password_state
              NewFilePasswordState.kConfirmPasswordNeedsCheck state in
          new_file_loop fuel' tty state provided_keys password
            confirm_password current_provided_key_idx
        else
          new_file_loop fuel' tty state provided_keys password
            confirm_password current_provided_key_idx
    | NewFilePasswordState.kConfirmPasswordNeedsCheck =>
        if bool_decide (password = confirm_password) then
          let state := set_password password state in
          let state := ClearScreen state in
          let state := set_indelible_msg [] state in
          Returns (state, tty)
        else
          let state :=
            set_new_file_password_state
              NewFilePasswordState.kShowRetryConfirmPassword state in
          new_file_loop fuel' tty state provided_keys password
            confirm_password current_provided_key_idx
    | NewFilePasswordState.kShowRetryConfirmPassword =>
        let state := ClearScreen state in
        let retry_confirm_password :=
          cstr "Password mismatch. Confirm password: " in
        let* state := InsertString state retry_confirm_password in
        let state := set_indelible_msg retry_confirm_password state in
        let state :=
          set_new_file_password_state
            NewFilePasswordState.kTypingConfirmPassword state in
        new_file_loop fuel' tty state provided_keys password
          confirm_password current_provided_key_idx
    | NewFilePasswordState.kShowConfirmPassword =>
        new_file_loop fuel' tty state provided_keys password
          confirm_password current_provided_key_idx
    end
  end.

Definition HandleNewFileEncryption (fuel : nat) (tty : Terminal)
    (state : State) (provided_keys : list Z) : Outcome (State * Terminal) :=
  let state := set_unlock_state kNewFile state in
  let state :=
    set_new_file_password_state NewFilePasswordState.kShowEnterPassword
      state in
  new_file_loop fuel tty state provided_keys [] [] 0.

Section existing_file.
Context `{H : Host}.

(** [fs] is the file system [IsKeyCorrect] reads the file from, [now]
    what [time(NULL)] gives when the status message is set. *)
Fixpoint existing_file_loop (fuel : nat) (fs : FileSystem) (now : Z)
    (tty : Terminal) (state : State) (filename : bytes)
    (provided_keys : list Z) (password : bytes)
    (current_provided_key_idx : Z) : Outcome (State * Terminal) :=
  match fuel with
  | O => OutOfFuel
  | S fuel' =>
    match existing_file_password_state state with
    | ExistingFilePasswordState.kShowEnterPassword =>
        let enter_password := cstr "Enter password: " in
        let* state := InsertString state enter_password in
        let state := set_indelible_msg enter_password state in
        let state :=
          set_existing_file_password_state
            ExistingFilePasswordState.kTyping state in
        existing_file_loop fuel' fs now tty state filename provided_keys
          password current_provided_key_idx
    | ExistingFilePasswordState.kTyping =>
        let* provided_key :=
          provided provided_keys current_provided_key_idx in
        let* '(state, enter_pressed, tty) :=
          ProcessKeyPressPasswordMode fuel tty state provided_key in
        let current_provided_key_idx :=
          wrap_int (current_provided_key_idx + 1) in
        if enter_pressed : bool then
          let password := GetPasswordFromState state in
          let state :=
            set_existing_file_password_state
              ExistingFilePasswordState.kEnterPasswordNeedsCheck state in
          existing_file_loop fuel' fs now tty state filename provided_keys
            password current_provided_key_idx
        else
          existing_file_loop fuel' fs now tty state filename provided_keys
            password current_provided_key_idx
    | ExistingFilePasswordState.kEnterPasswordNeedsCheck =>
        let* correct :=
          IsKeyCorrect fs password filename (crypto_algorithm state) in
        if correct : bool then
          let state := set_password password state in
          let state := ClearScreen state in
          let state := set_indelible_msg [] state in
          let state :=
            SetStatusMessage now state (cstr "Password correct.") in
          Returns (state, tty)
        else
          let state :=
            set_existing_file_password_state
              ExistingFilePasswordState.kShowRetryPassword state in
          existing_file_loop fuel' fs now tty state filename provided_keys
            password current_provided_key_idx
    | ExistingFilePasswordState.kShowRetryPassword =>
        let state := ClearScreen state in
        let retry_password := cstr "Incorrect password. Try again: " in
        let* state := InsertString state retry_password in
        let state := set_indelible_msg retry_password state in
        let state :=
          set_existing_file_password_state
            ExistingFilePasswordState.kTyping state in
        existing_file_loop fuel' fs now tty state filename provided_keys
          password current_provided_key_idx
    end
  end.

Definition HandleExistingFileEncryption (fuel : nat) (fs : FileSystem)
    (now : Z) (tty : Terminal) (state : State) (filename : bytes)
    (provided_keys : list Z) : Outcome (State * Terminal) :=
  let state :=
    set_existing_file_password_state
      ExistingFilePasswordState.kShowEnterPassword state in
  existing_file_loop fuel fs now tty state filename provided_keys [] 0.

End existing_file.

End PasswordDialogue.

(** *** States of a dialogue *)

(** A screen without rows, the cursor at its origin, no syntax selected:
    the state [Init] and [ClearScreen] leave. *)
Definition cleared (st : State) : Prop :=
  row st = [] /\ numrows st = 0
  /\ cx st = 0 /\ cy st = 0 /\ rowoff st = 0 /\ coloff st = 0
  /\ syntax st = None.

(** One row with the characters [cs], the cursor behind its last
    character. *)
Definition at_end_of_row (st : State) (cs : bytes) : Prop :=
  row_key <$> row st = [(0, Z.of_nat (length cs), cs)]
  /\ numrows st = 1
  /\ rowoff st + cy st = 0
  /\ coloff st + cx st = Z.of_nat (length cs)
  /\ 0 <= cx st /\ 0 <= coloff st
  /\ syntax st = None.

(** The keys that [ProcessKeyPressPasswordMode] hands to [InsertChar]. *)
Definition plain_key (c : Z) : bool :=
  negb (bool_decide
          (c ∈ [KEY_NULL; ENTER; CTRL_Q; BACKSPACE; CTRL_H; DEL_KEY; CTRL_S;
                CTRL_C; CTRL_F; PAGE_UP; PAGE_DOWN; ARROW_UP; ARROW_DOWN;
                ARROW_LEFT; ARROW_RIGHT; CTRL_L; ESC])).

(** The provided keys of one entry: its keys and Enter. *)
Definition entry (keys : list Z) : list Z := keys ++ [ENTER].

(** The members of the state that a dialogue leaves alone at its end:
    what [unedited] keeps, less the message that cannot be deleted and
    the states of the two dialogues. *)
Definition outside_dialogue (s : State) : State :=
  set_indelible_msg []
    (set_new_file_password_state NewFilePasswordState.kShowEnterPassword
       (set_existing_file_password_state
          ExistingFilePasswordState.kShowEnterPassword (unedited s))).

(** The rounds of the [while (true)] of [HandleNewFileEncryption] when the
    password [pw] is entered, the entries [wrongs] fail to confirm it, and
    it is confirmed then. *)
Definition new_file_rounds (pw : list Z) (wrongs : list (list Z)) : nat :=
  2 * length pw + 5 + sum_list ((fun w => length w + 3)%nat <$> wrongs).

(** The rounds of the [while (true)] of [HandleExistingFileEncryption] when
    the entries [wrongs] are refused and the password [pw] is accepted
    then. *)
Definition existing_file_rounds (pw : list Z) (wrongs : list (list Z)) : nat :=
  length pw + 3 + sum_list ((fun w => length w + 3)%nat <$> wrongs).

(** *** Moving the cursor *)

(** [(filerow >= state->numrows) ? NULL : &state->row[filerow]], with the
    row the pointer points at. *)
Definition row_at (state : State) (filerow : Z) : Outcome (option Row) :=
  if numrows state <=? filerow then Returns None
  else let* r := array_get (row state) filerow in Returns (Some r).

(** The [switch] of [MoveCursor]; [r] is the row under the cursor, if
    any. *)
Definition MoveCursor_switch (state : State) (key filerow filecol : Z)
    (r : option Row) : Outcome State :=
  if key =? ARROW_LEFT then
    if cx state =? 0 then
      if negb (coloff state =? 0) then
        Returns (set_cursor (cx state) (cy state) (rowoff state)
                            (wrap_int (coloff state - 1)) state)
      else if 0 <? filerow then
        let* prev := array_get (row state) (filerow - 1) in
        let state :=
          set_cursor (size prev) (wrap_int (cy state - 1)) (rowoff state)
                     (coloff state) state in
        if wrap_int (screencols state - 1) <? cx state then
          Returns (set_cursor
                     (wrap_int (screencols state - 1)) (cy state)
                     (rowoff state)
                     (wrap_int (wrap_int (cx state - screencols state) + 1))
                     state)
        else Returns state
      else Returns state
    else
      Returns (set_cursor (wrap_int (cx state - 1)) (cy state)
                          (rowoff state) (coloff state) state)
  else if key =? ARROW_RIGHT then
    match r with
    | Some r =>
        if filecol <? size r then
          if cx state =? wrap_int (screencols state - 1) then
            Returns (set_cursor (cx state) (cy state) (rowoff state)
                                (wrap_int (coloff state + 1)) state)
          else
            Returns (set_cursor (wrap_int (cx state + 1)) (cy state)
                                (rowoff state) (coloff state) state)
        else if filecol =? size r then
          if cy state =? wrap_int (screenrows state - 1) then
            Returns (set_cursor 0 (cy state) (wrap_int (rowoff state + 1)) 0
                                state)
          else
            Returns (set_cursor 0 (wrap_int (cy state + 1)) (rowoff state) 0
                                state)
        else Returns state
    | None => Returns state
    end
  else if key =? ARROW_UP then
    if cy state =? 0 then
      if negb (rowoff state =? 0) then
        Returns (set_cursor (cx state) (cy state)
                            (wrap_int (rowoff state - 1)) (coloff state)
                            state)
      else Returns state
    else
      Returns (set_cursor (cx state) (wrap_int (cy state - 1))
                          (rowoff state) (coloff state) state)
  else if key =? ARROW_DOWN then
    if filerow <? numrows state then
      if cy state =? wrap_int (screenrows state - 1) then
        Returns (set_cursor (cx state) (cy state)
                            (wrap_int (rowoff state + 1)) (coloff state)
                            state)
      else
        Returns (set_cursor (cx state) (wrap_int (cy state + 1))
                            (rowoff state) (coloff state) state)
    else Returns state
  else Returns state.

(** The end of [MoveCursor]: fix [cx] if the current line has not enough
    chars. *)
Definition MoveCursor_fix (state : State) : Outcome State :=
  let filerow := wrap_int (rowoff state + cy state) in
  let filecol := wrap_int (coloff state + cx state) in
  let* r := row_at state filerow in
  let rowlen := match r with Some r => size r | None => 0 end in
  if rowlen <? filecol then
    let state :=
      set_cursor (wrap_int (cx state - wrap_int (filecol - rowlen)))
                 (cy state) (rowoff state) (coloff state) state in
    if cx state <? 0 then
      Returns (set_cursor 0 (cy state) (rowoff state)
                          (wrap_int (coloff state + cx state)) state)
    else Returns state
  else Returns state.

Definition MoveCursor (state : State) (key : Z) : Outcome State :=
  let filerow := wrap_int (rowoff state + cy state) in
  let filecol := wrap_int (coloff state + cx state) in
  let* r := row_at state filerow in
  let* state := MoveCursor_switch state key filerow filecol r in
  MoveCursor_fix state.

(** *** The cursor in the file *)

(** The row and the column of the file that the cursor is at. *)
Definition file_position (st : State) : Z * Z :=
  (rowoff st + cy st, coloff st + cx st).

(** The length of a row of the file, 0 behind the last row. *)
Definition rowlen (st : State) (filerow : Z) : Z :=
  match row st !! Z.to_nat filerow with
  | Some r => size r
  | None => 0
  end.

(** A cursor on the text: the rows are those counted by [numrows], the
    offsets of the window and the cursor in it are not negative, the
    cursor is on a row of the file or on the line behind the last one, and
    not behind the end of its row; the window has a row and a column. *)
Definition cursor_on_text (st : State) : Prop :=
  numrows st = Z.of_nat (length (row st))
  /\ numrows st < INT_MAX
  /\ Forall (fun r => 0 <= size r <= INT_MAX) (row st)
  /\ 1 <= screenrows st <= INT_MAX /\ 1 <= screencols st <= INT_MAX
  /\ 0 <= rowoff st /\ 0 <= cy st /\ 0 <= coloff st /\ 0 <= cx st
  /\ rowoff st + cy st <= numrows st
  /\ coloff st + cx st <= rowlen st (rowoff st + cy st).

(** Where an arrow key takes the cursor, in rows and columns of the file:
    left and right step through the characters and wrap to the end of the
    row above and the start of the row below; up and down keep the column
    where the row they reach is long enough and go to its end where it is
    not. *)
Definition file_position_after (st : State) (key : Z) : Z * Z :=
  let fr := rowoff st + cy st in
  let fc := coloff st + cx st in
  if key =? ARROW_LEFT then
    if 0 <? fc then (fr, fc - 1)
    else if 0 <? fr then (fr - 1, rowlen st (fr - 1))
    else (fr, fc)
  else if key =? ARROW_RIGHT then
    if fr <? numrows st then
      if fc <? rowlen st fr then (fr, fc + 1) else (fr + 1, 0)
    else (fr, fc)
  else if key =? ARROW_UP then
    if 0 <? fr then (fr - 1, Z.min fc (rowlen st (fr - 1))) else (fr, fc)
  else if key =? ARROW_DOWN then
    if fr <? numrows st then (fr + 1, Z.min fc (rowlen st (fr + 1)))
    else (fr, fc)
  else (fr, fc).

(** The cursor is the first character of the first line of a window that
    has been scrolled down. *)
Definition at_origin_of_scrolled_window (st : State) : Prop :=
  cx st = 0 /\ coloff st = 0 /\ cy st = 0 /\ 0 < rowoff st.

(** * Properties *)

(** ** Bytes *)

Lemma uchar_range (c : ascii) : 0 <= uchar c < 256.
Proof.
  unfold uchar. pose proof (N_ascii_bounded c). lia.
Qed.

Lemma uchar_to_char (z : Z) : 0 <= z < 256 -> uchar (to_char z) = z.
Proof.
  intros Hz. unfold uchar, to_char.
  rewrite Z.mod_small by lia.
  rewrite N_ascii_embedding by lia. lia.
Qed.

Lemma to_char_uchar (c : ascii) : to_char (uchar c) = c.
Proof.
  unfold to_char. pose proof (uchar_range c) as Hc.
  rewrite Z.mod_small by lia. unfold uchar.
  rewrite N2Z.id. apply ascii_N_embedding.
Qed.

Lemma land_255_range (z : Z) : 0 <= Z.land z 0xFF < 256.
Proof.
  change 0xFF with (Z.ones 8). rewrite Z.land_ones by lia.
  apply Z.mod_pos_bound. lia.
Qed.

Lemma uchar_byte (z : Z) : uchar (to_char (Z.land z 0xFF)) = z mod 256.
Proof.
  rewrite uchar_to_char by apply land_255_range.
  change 0xFF with (Z.ones 8). now rewrite Z.land_ones by lia.
Qed.

(** ** The size field *)

(** Bit [i] of the byte of [n] that starts at bit [s], moved back to its
    place. *)
Lemma byte_slice_testbit (n s i : Z) :
  0 <= s -> 0 <= i ->
  Z.testbit (Z.shiftl (Z.land (Z.shiftr n s) 0xFF) s) i
  = (s <=? i) && (i <? s + 8) && Z.testbit n i.
Proof.
  intros Hs Hi. rewrite Z.shiftl_spec by lia.
  destruct (Z.leb_spec s i) as [Hle|Hlt]; simpl.
  - rewrite Z.land_spec, Z.shiftr_spec by lia.
    change 0xFF with (Z.ones 8).
    rewrite Z.testbit_ones_nonneg by lia.
    replace (i - s + s) with i by lia.
    rewrite andb_comm. f_equal.
    destruct (Z.ltb_spec (i - s) 8), (Z.ltb_spec i (s + 8)); lia || reflexivity.
  - apply Z.testbit_neg_r. lia.
Qed.

Lemma testbit_above (n i : Z) :
  0 <= n < 2 ^ 64 -> 64 <= i -> Z.testbit n i = false.
Proof.
  intros Hn Hi.
  destruct (Z.eq_dec n 0) as [->|Hne]; [apply Z.testbit_0_l|].
  apply Z.bits_above_log2; [lia|].
  assert (Z.log2 n < 64) by (apply Z.log2_lt_pow2; lia). lia.
Qed.

(** The eight bytes of a 64-bit value, put back at their places, give the
    value. *)
Lemma bytes_recombine (n : Z) :
  0 <= n < 2 ^ 64 ->
  Z.lor (Z.shiftl (Z.land (Z.shiftr n 56) 0xFF) 56)
  (Z.lor (Z.shiftl (Z.land (Z.shiftr n 48) 0xFF) 48)
  (Z.lor (Z.shiftl (Z.land (Z.shiftr n 40) 0xFF) 40)
  (Z.lor (Z.shiftl (Z.land (Z.shiftr n 32) 0xFF) 32)
  (Z.lor (Z.shiftl (Z.land (Z.shiftr n 24) 0xFF) 24)
  (Z.lor (Z.shiftl (Z.land (Z.shiftr n 16) 0xFF) 16)
  (Z.lor (Z.shiftl (Z.land (Z.shiftr n 8) 0xFF) 8)
         (Z.land n 0xFF))))))) = n.
Proof.
  intros Hn. apply Z.bits_inj'. intros i Hi.
  replace (Z.land n 0xFF)
    with (Z.shiftl (Z.land (Z.shiftr n 0) 0xFF) 0)
    by now rewrite Z.shiftl_0_r, Z.shiftr_0_r.
  rewrite !Z.lor_spec, !byte_slice_testbit by lia.
  destruct (Z.testbit n i) eqn:Hbit.
  - assert (i < 64) as Hlt.
    { destruct (Z.lt_ge_cases i 64) as [|Hge]; [assumption|].
      rewrite testbit_above in Hbit by assumption. discriminate. }
    rewrite !andb_true_r.
    assert (i < 8 \/ 8 <= i < 16 \/ 16 <= i < 24 \/ 24 <= i < 32 \/
            32 <= i < 40 \/ 40 <= i < 48 \/ 48 <= i < 56 \/ 56 <= i)
      as Hcase by lia.
    decompose [or] Hcase;
      repeat match goal with
      | |- context [?a <=? ?b] =>
          first [ rewrite (proj2 (Z.leb_le a b)) by lia
                | rewrite (proj2 (Z.leb_gt a b)) by lia ]
      | |- context [?a <? ?b] =>
          first [ rewrite (proj2 (Z.ltb_lt a b)) by lia
                | rewrite (proj2 (Z.ltb_ge a b)) by lia ]
      end; reflexivity.
  - now rewrite !andb_false_r.
Qed.

Section size_field.
Context `{H : Host}.

Lemma ConstructPlaintextSizeHeader_length (n : Z) :
  length (ConstructPlaintextSizeHeaderForCiphertext n) = 8%nat.
Proof.
  unfold ConstructPlaintextSizeHeaderForCiphertext.
  destruct IsSystemLittleEndian; reflexivity.
Qed.

(** Decoding reads the eight bytes the encoder wrote, whatever follows
    them and whatever the byte order of the host. *)
Lemma GetPlaintextSize_ConstructHeader (n : Z) (rest : bytes) :
  0 <= n < 2 ^ 64 ->
  GetPlaintextSizeFromCiphertext
    (ConstructPlaintextSizeHeaderForCiphertext n ++ rest) = n.
Proof.
  intros Hn.
  unfold GetPlaintextSizeFromCiphertext,
    ConstructPlaintextSizeHeaderForCiphertext.
  destruct IsSystemLittleEndian.
  - cbn [app length]. destruct (Z.ltb_spec
      (Z.of_nat (S (S (S (S (S (S (S (S (length rest)))))))))) 8) as [Hlt|_];
      [lia|].
    unfold byte_at. cbn [nth].
    rewrite !uchar_to_char by apply land_255_range.
    now apply bytes_recombine.
  - cbn [app length]. destruct (Z.ltb_spec
      (Z.of_nat (S (S (S (S (S (S (S (S (length rest)))))))))) 8) as [Hlt|_];
      [lia|].
    unfold byte_at. cbn [nth].
    rewrite !uchar_to_char by apply land_255_range.
    now apply bytes_recombine.
Qed.

End size_field.

(** C3: on a little-endian host the size field carries the most significant
    byte first (byte [k] holds bits [63 - 8k .. 56 - 8k] of the size), it is
    eight bytes long, and the decoder of the same host reads the size
    back from it. *)
Theorem size_header_little_endian_roundtrip `{H : Host} (n : Z) (rest : bytes) :
  little_endian_host = true ->
  0 <= n < 2 ^ 64 ->
  uchar <$> ConstructPlaintextSizeHeaderForCiphertext n
    = [n / 2 ^ 56 mod 256; n / 2 ^ 48 mod 256; n / 2 ^ 40 mod 256;
       n / 2 ^ 32 mod 256; n / 2 ^ 24 mod 256; n / 2 ^ 16 mod 256;
       n / 2 ^ 8 mod 256; n mod 256]
  /\ GetPlaintextSizeFromCiphertext
       (ConstructPlaintextSizeHeaderForCiphertext n ++ rest) = n.
Proof.
  intros Hle Hn. split.
  - unfold ConstructPlaintextSizeHeaderForCiphertext, IsSystemLittleEndian.
    rewrite Hle. cbn [fmap list_fmap].
    rewrite !uchar_byte, !Z.shiftr_div_pow2 by lia. reflexivity.
  - now apply GetPlaintextSize_ConstructHeader.
Qed.

Lemma size_header_little_endian_roundtrip_witness :
  uchar <$> @ConstructPlaintextSizeHeaderForCiphertext (reference_host true)
              0x0102030405060708
    = [1; 2; 3; 4; 5; 6; 7; 8]
  /\ @GetPlaintextSizeFromCiphertext (reference_host true)
       (@ConstructPlaintextSizeHeaderForCiphertext (reference_host true)
          0x0102030405060708 ++ cstr "tail")
     = 0x0102030405060708.
Proof.
  apply (@size_header_little_endian_roundtrip (reference_host true)
           0x0102030405060708 (cstr "tail")).
  - reflexivity.
  - lia.
Defined.

(** ** Framing *)

Lemma null_terminated_iv_length (v : bytes) :
  length v = 16%nat -> length (null_terminated_iv v) = 16%nat.
Proof.
  intros Hv. unfold null_terminated_iv.
  rewrite length_insert, length_take. change (Z.to_nat kHeaderIvSize) with 16%nat.
  lia.
Qed.

Lemma null_terminated_iv_idemp (v : bytes) :
  null_terminated_iv (null_terminated_iv v) = null_terminated_iv v.
Proof.
  unfold null_terminated_iv.
  rewrite (take_ge (<[_:=_]> _)).
  - apply list_insert_insert_eq.
  - rewrite length_insert, length_take. lia.
Qed.


Section framing.
Context `{H : Host}.

Lemma Setup_status_is_Some (c k : bytes) (a : CryptoAlgorithm) :
  is_Some (status (SetupCryptoStateFromCiphertextAES256CBC c k a)).
Proof.
  unfold SetupCryptoStateFromCiphertextAES256CBC.
  destruct (_ <? _); [eexists; reflexivity|].
  destruct (bool_decide _); eexists; reflexivity.
Qed.

Lemma frame_length (behind : bytes) (n : Z) (iv' ct : bytes) :
  length (frame behind n iv' ct)
  = (16 + length behind + length iv' + length ct)%nat.
Proof.
  unfold frame. rewrite !length_app, ConstructPlaintextSizeHeader_length.
  cbn [length kHeaderMagicNumber cstr list_ascii_of_string].
  change (length (to_string kVersionMajor)) with 1%nat.
  change (length (to_string kVersionMinor)) with 1%nat.
  change (length (to_string kVersionPatch)) with 1%nat.
  lia.
Qed.


Lemma Setup_frame (n : Z) (iv' ct k : bytes) (a : CryptoAlgorithm) :
  0 <= n < 2 ^ 64 -> length iv' = 16%nat -> k <> [] ->
  SetupCryptoStateFromCiphertextAES256CBC (frame [] n iv' ct) k a =
  {| raw_key := k; hashed_key := HashRawKey k; plaintext := [];
     ciphertext := ct; iv := iv';
     ciphertext_size := Z.of_nat (length ct); plaintext_size := n;
     algorithm := a; status := Status_void kOk "" |}.
Proof.
  intros Hn Hiv Hk. unfold SetupCryptoStateFromCiphertextAES256CBC.
  rewrite frame_length, Hiv. cbn [length].
  destruct (Z.ltb_spec (Z.of_nat (16 + 0 + 16 + length ct)) kHeaderSize)
    as [Hlt|_]; [change kHeaderSize with 32 in Hlt; lia|].
  rewrite bool_decide_eq_false_2 by assumption.
  change (drop _ (frame [] n iv' ct))
    with (ConstructPlaintextSizeHeaderForCiphertext n ++ iv' ++ ct).
  rewrite GetPlaintextSize_ConstructHeader by assumption.
  change (Z.to_nat kHeaderPlaintextSize) with 8%nat.
  change (Z.to_nat kHeaderIvSize) with 16%nat.
  rewrite drop_app_length'
    by (symmetry; apply ConstructPlaintextSizeHeader_length).
  rewrite take_app_length', drop_app_length' by (symmetry; assumption).
  reflexivity.
Qed.

Lemma key_vector_eq (k : bytes) :
  length (hash256_hex_string k) = 64%nat ->
  key_from_string (take 33 (HashRawKey k ++ [NUL])) = HashRawKey k
  /\ length (HashRawKey k) = 32%nat.
Proof.
  intros Hlen.
  assert (length (HashRawKey k) = 32%nat) as H32.
  { unfold HashRawKey. rewrite length_take. lia. }
  split; [|assumption].
  unfold key_from_string.
  rewrite take_take, take_app_length'; [reflexivity|symmetry; assumption].
Qed.

End framing.

(** ** The reference host meets the contract *)

Lemma pkcs7_pad_take (data : bytes) :
  take (length data) (pkcs7_pad data) = data.
Proof. unfold pkcs7_pad. now rewrite take_app_length. Qed.

Lemma reference_host_behind_contract (behind : bytes) (le : bool) :
  HostContract (reference_host_behind behind le).
Proof.
  split.
  - intros s. cbn. unfold reference_hash.
    rewrite length_take, length_app, length_replicate. lia.
  - intros data key iv0 Hkey _. cbn. unfold reference_encrypt.
    now rewrite bool_decide_eq_true_2.
  - intros data key iv0 Hkey _. cbn. unfold reference_encrypt, reference_decrypt.
    rewrite !bool_decide_eq_true_2 by assumption. cbn [snd].
    now rewrite Nat2Z.id, pkcs7_pad_take.
Qed.

Lemma reference_host_contract (le : bool) : HostContract (reference_host le).
Proof. apply reference_host_behind_contract. Qed.

(** ** Encryption and decryption *)

Section codec.
Context `{H : Host}.

(** What [EncryptAES256CBC] does with a password that is not empty and an
    IV of sixteen bytes: the cipher runs on the IV with its last byte
    replaced; its failure is returned, and behind its success the header
    is built, the magic number first. *)
Lemma EncryptAES256CBC_eq (p k iv0 : bytes) :
  HostContract H ->
  k <> [] -> length iv0 = 16%nat ->
  let n := u64 (Z.of_nat (length p)) in
  let iv' := null_terminated_iv iv0 in
  let out := encrypt_cbc p (HashRawKey k) iv'
               (get_padded_encrypted_size n) true in
  EncryptAES256CBC p k iv0 =
    match fst out with
    | kErrorOk =>
        match behind_magic_number with
        | Some behind =>
            Returns
              {| raw_key := k; hashed_key := HashRawKey k; plaintext := p;
                 ciphertext := frame behind n iv' (snd out); iv := iv0;
                 ciphertext_size := get_padded_encrypted_size n;
                 plaintext_size := n; algorithm := kAES256CBC;
                 status := Status_void kOk "" |}
        | None => Undefined
        end
    | e => Returns (cipher_failure e)
    end.
Proof.
  intros HC Hk Hiv n iv' out. unfold EncryptAES256CBC.
  rewrite bool_decide_eq_false_2 by assumption.
  destruct (key_vector_eq k (hash256_hex_string_length k)) as [-> Hkey].
  rewrite Hiv, Hkey.
  change (16 <? Z.to_nat kHeaderIvSize)%nat with false.
  change (32 <? 32)%nat with false. cbv iota.
  fold n iv' out. destruct out as [e ct]. cbn [fst snd].
  destruct e; try reflexivity.
  unfold string_of_kHeaderMagicNumber.
  destruct behind_magic_number; reflexivity.
Qed.

(** An IV of fewer than sixteen bytes: [memcpy] reads sixteen. *)
Lemma EncryptAES256CBC_short_iv (p k iv0 : bytes) :
  k <> [] -> (length iv0 < 16)%nat -> EncryptAES256CBC p k iv0 = Undefined.
Proof.
  intros Hk Hiv. unfold EncryptAES256CBC.
  rewrite bool_decide_eq_false_2 by assumption.
  change (Z.to_nat kHeaderIvSize) with 16%nat.
  destruct (Nat.ltb_spec (length iv0) 16) as [_|?]; [reflexivity|lia].
Qed.

(** The fields [SetupCryptoStateFromCiphertextAES256CBC] cuts out of any
    input that is long enough: the size from offset 8, the IV from offset
    16, the cipher's data from offset 32. *)
Lemma Setup_eq (c k : bytes) (a : CryptoAlgorithm) :
  (32 <= length c)%nat -> k <> [] ->
  SetupCryptoStateFromCiphertextAES256CBC c k a =
  {| raw_key := k; hashed_key := HashRawKey k; plaintext := [];
     ciphertext := drop 32 c; iv := take 16 (drop 16 c);
     ciphertext_size := Z.of_nat (length (drop 32 c));
     plaintext_size := GetPlaintextSizeFromCiphertext (drop 8 c);
     algorithm := a; status := Status_void kOk "" |}.
Proof.
  intros Hlen Hk. unfold SetupCryptoStateFromCiphertextAES256CBC.
  destruct (Z.ltb_spec (Z.of_nat (length c)) kHeaderSize) as [Hlt|_];
    [change kHeaderSize with 32 in Hlt; lia|].
  rewrite bool_decide_eq_false_2 by assumption.
  change (Z.to_nat (sizeof_kHeaderMagicNumber + kHeaderCryptoAlgorithmSize
                    + kHeaderVersionSize)) with 8%nat.
  change (Z.to_nat kHeaderPlaintextSize) with 8%nat.
  change (Z.to_nat kHeaderIvSize) with 16%nat.
  rewrite !drop_drop. reflexivity.
Qed.

(** What [DecryptAES256CBC] does with an input that has a whole header and
    a password that is not empty. *)
Lemma DecryptAES256CBC_eq (c k : bytes) (a : CryptoAlgorithm) :
  (32 <= length c)%nat -> k <> [] ->
  let n := GetPlaintextSizeFromCiphertext (drop 8 c) in
  let hiv := take 16 (drop 16 c) in
  let ct := drop 32 c in
  DecryptAES256CBC c k a =
    if n =? 0 then
      Returns
        {| raw_key := k; hashed_key := HashRawKey k; plaintext := [];
           ciphertext := ct; iv := hiv;
           ciphertext_size := Z.of_nat (length ct); plaintext_size := n;
           algorithm := kAES256CBC; status := Status_void kOk "" |}
    else
      let* allocated := new_vector n in
      let out := decrypt_cbc ct (HashRawKey k) (null_terminated_iv hiv) n in
      Returns
        match fst out with
        | kErrorOk =>
            {| raw_key := k; hashed_key := HashRawKey k; plaintext := snd out;
               ciphertext := ct; iv := hiv;
               ciphertext_size := Z.of_nat (length ct); plaintext_size := n;
               algorithm := kAES256CBC; status := Status_void kOk "" |}
        | e => cipher_failure e
        end.
Proof.
  intros Hlen Hk n hiv ct. unfold DecryptAES256CBC.
  rewrite Setup_eq by assumption. cbn [status raw_key hashed_key
    plaintext ciphertext iv ciphertext_size plaintext_size algorithm].
  change (ok (Status_void kOk "")) with true. cbn [negb andb].
  fold n hiv ct. destruct (n =? 0); [reflexivity|].
  destruct (new_vector n); cbn [bind]; try reflexivity.
  cbv zeta. destruct (decrypt_cbc _ _ _ _) as [e d]. destruct e; reflexivity.
Qed.

(** The same on a container of [frame] with nothing behind the magic
    number. *)
Lemma DecryptAES256CBC_frame (n : Z) (iv' ct k : bytes) (a : CryptoAlgorithm) :
  0 <= n < 2 ^ 64 -> length iv' = 16%nat -> k <> [] ->
  DecryptAES256CBC (frame [] n iv' ct) k a =
    if n =? 0 then
      Returns
        {| raw_key := k; hashed_key := HashRawKey k; plaintext := [];
           ciphertext := ct; iv := iv';
           ciphertext_size := Z.of_nat (length ct); plaintext_size := n;
           algorithm := kAES256CBC; status := Status_void kOk "" |}
    else
      let* allocated := new_vector n in
      let out := decrypt_cbc ct (HashRawKey k) (null_terminated_iv iv') n in
      Returns
        match fst out with
        | kErrorOk =>
            {| raw_key := k; hashed_key := HashRawKey k; plaintext := snd out;
               ciphertext := ct; iv := iv';
               ciphertext_size := Z.of_nat (length ct); plaintext_size := n;
               algorithm := kAES256CBC; status := Status_void kOk "" |}
        | e => cipher_failure e
        end.
Proof.
  intros Hn Hiv Hk. unfold DecryptAES256CBC.
  rewrite Setup_frame by assumption. cbn [status raw_key hashed_key
    plaintext ciphertext iv ciphertext_size plaintext_size algorithm].
  change (ok (Status_void kOk "")) with true. cbn [negb andb].
  destruct (n =? 0); [reflexivity|].
  destruct (new_vector n); cbn [bind]; try reflexivity.
  cbv zeta. destruct (decrypt_cbc _ _ _ _) as [e d]. destruct e; reflexivity.
Qed.

Lemma DecryptAES256CBC_short (c k : bytes) (a : CryptoAlgorithm) :
  (length c < 32)%nat ->
  DecryptAES256CBC c k a
  = Returns (CreateCryptoStateWithStatus kInvalidDataSize
               "Ciphertext is too small to contain header").
Proof.
  intros Hlen.
  unfold DecryptAES256CBC, SetupCryptoStateFromCiphertextAES256CBC.
  destruct (Z.ltb_spec (Z.of_nat (length c)) kHeaderSize) as [_|Hge];
    [reflexivity|change kHeaderSize with 32 in Hge; lia].
Qed.

Lemma DecryptAES256CBC_empty_key (c : bytes) (a : CryptoAlgorithm) :
  (32 <= length c)%nat ->
  DecryptAES256CBC c [] a
  = Returns (CreateCryptoStateWithStatus kInvalidKeySize "Key is empty").
Proof.
  intros Hlen.
  unfold DecryptAES256CBC, SetupCryptoStateFromCiphertextAES256CBC.
  destruct (Z.ltb_spec (Z.of_nat (length c)) kHeaderSize) as [Hlt|_];
    [change kHeaderSize with 32 in Hlt; lia|].
  reflexivity.
Qed.

(** The vector of [DecryptAES256CBC], by the size it is asked for. *)
Lemma new_vector_cases (n : Z) :
  (vector_max_size < n /\ new_vector n = Throws length_error)
  \/ (n <= vector_max_size /\ allocates n = false
      /\ new_vector n = Throws bad_alloc)
  \/ (n <= vector_max_size /\ allocates n = true
      /\ new_vector n = Returns tt).
Proof.
  unfold new_vector.
  destruct (Z.ltb_spec vector_max_size n) as [Hbig|Hfit]; [now left|].
  destruct (allocates n); [right; right|right; left]; auto.
Qed.

(** The round trip on a build in which nothing is read behind the magic
    number. *)
Lemma Decrypt_Encrypt (p k iv0 : bytes) :
  HostContract H ->
  behind_magic_number = Some [] ->
  k <> [] ->
  length iv0 = 16%nat ->
  Z.of_nat (length p) <= vector_max_size ->
  (p <> [] -> allocates (Z.of_nat (length p)) = true) ->
  exists e d,
    Encrypt p k iv0 kAES256CBC = Returns e
    /\ ok (status e) = true
    /\ ciphertext e
       = frame [] (Z.of_nat (length p)) (null_terminated_iv iv0)
           (snd (encrypt_cbc p (HashRawKey k) (null_terminated_iv iv0)
                   (get_padded_encrypted_size (Z.of_nat (length p))) true))
    /\ Decrypt (ciphertext e) k kAES256CBC = Returns d
    /\ ok (status d) = true /\ plaintext d = p.
Proof.
  intros HC Hbehind Hk Hiv Hlen Halloc. unfold Encrypt, Decrypt.
  pose proof (null_terminated_iv_length iv0 Hiv) as Hiv'.
  destruct (key_vector_eq k (hash256_hex_string_length k)) as [_ Hkey].
  assert (u64 (Z.of_nat (length p)) = Z.of_nat (length p)) as Hn
    by (unfold u64; apply Z.mod_small; unfold vector_max_size in Hlen; lia).
  rewrite EncryptAES256CBC_eq by assumption. cbv zeta. rewrite Hn, Hbehind.
  rewrite (encrypt_cbc_ok p _ _ Hkey Hiv').
  eexists. cbn [ciphertext status].
  set (ct := snd _).
  assert (exists d,
             DecryptAES256CBC
               (frame [] (Z.of_nat (length p)) (null_terminated_iv iv0) ct)
               k kAES256CBC = Returns d
             /\ ok (status d) = true /\ plaintext d = p) as (d & Hd & Hok & Hp).
  { rewrite DecryptAES256CBC_frame
      by (assumption || (unfold vector_max_size in Hlen; lia)).
    destruct (Z.eqb_spec (Z.of_nat (length p)) 0) as [Hz|Hnz].
    - eexists. split; [reflexivity|]. split; [reflexivity|].
      destruct p; [reflexivity|simpl in Hz; lia].
    - destruct (new_vector_cases (Z.of_nat (length p)))
        as [[? _]|[(_ & Hno & _)|(_ & _ & ->)]]; [lia| |].
      + rewrite Halloc in Hno; [discriminate|].
        intros ->. now apply Hnz.
      + cbn [bind]. cbv zeta. rewrite null_terminated_iv_idemp.
        subst ct. rewrite (decrypt_encrypt_cbc p _ _ Hkey Hiv').
        eexists. split; [reflexivity|]. split; reflexivity. }
  exists d. split; [reflexivity|]. split; [reflexivity|].
  split; [reflexivity|]. split; [exact Hd|]. split; assumption.
Qed.

End codec.

(** ** The size field behind a magic number that is one byte too long *)


Section shifted_size_field.
Context `{H : Host}.


End shifted_size_field.



(** C2: an input of fewer than 32 bytes is refused with [kInvalidDataSize],
    whatever the password, the empty one included: [Decrypt] returns, and
    the state it returns carries that error.  The nine bytes ["malformed"]
    are such an input. *)
Theorem Decrypt_short_input_InvalidDataSize `{H : Host} (c k : bytes) :
  (length c < 32)%nat ->
  (exists d,
     Decrypt c k kAES256CBC = Returns d
     /\ ok (status d) = false
     /\ code <$> error (status d) = Some kInvalidDataSize)
  /\ (exists d,
        Decrypt (cstr "malformed") k kAES256CBC = Returns d
        /\ ok (status d) = false
        /\ code <$> error (status d) = Some kInvalidDataSize).
Proof.
  intros Hlen. unfold Decrypt. split.
  - rewrite DecryptAES256CBC_short by exact Hlen.
    eexists. split; [reflexivity|]. split; reflexivity.
  - rewrite DecryptAES256CBC_short by (cbn; lia).
    eexists. split; [reflexivity|]. split; reflexivity.
Qed.

Lemma Decrypt_short_input_InvalidDataSize_witness :
  let H := reference_host true in
  (exists d,
     Decrypt (cstr "ETTE1001") [] kAES256CBC = Returns d
     /\ ok (status d) = false
     /\ code <$> error (status d) = Some kInvalidDataSize)
  /\ (exists d,
        Decrypt (cstr "malformed") [] kAES256CBC = Returns d
        /\ ok (status d) = false
        /\ code <$> error (status d) = Some kInvalidDataSize).
Proof.
  apply (@Decrypt_short_input_InvalidDataSize (reference_host true)
           (cstr "ETTE1001") []).
  cbn. lia.
Defined.



(** C10: an input of at least 32 bytes whose size field decodes to zero is
    decrypted to the empty plaintext with status [kOk] under every non-empty
    password; the returned state is built from the input and the password
    alone, the cipher has no part in it and no vector is asked for.
    [IsKeyCorrect] therefore accepts every non-empty password for such a
    file. *)
Theorem Decrypt_empty_plaintext_any_key `{H : Host}
    (c k : bytes) (fs : FileSystem) (path : bytes) :
  (32 <= length c)%nat ->
  GetPlaintextSizeFromCiphertext (drop 8 c) = 0 ->
  k <> [] ->
  fs path = Some c ->
  (exists d,
     Decrypt c k kAES256CBC = Returns d
     /\ d = {| raw_key := k; hashed_key := HashRawKey k; plaintext := [];
               ciphertext := drop 32 c; iv := take 16 (drop 16 c);
               ciphertext_size := Z.of_nat (length (drop 32 c));
               plaintext_size := 0; algorithm := kAES256CBC;
               status := Status_void kOk "" |}
     /\ ok (status d) = true
     /\ plaintext d = [])
  /\ IsKeyCorrect fs k path kAES256CBC = Returns true.
Proof.
  intros Hlen Hzero Hk Hfs.
  assert (Decrypt c k kAES256CBC =
    Returns
      {| raw_key := k; hashed_key := HashRawKey k; plaintext := [];
         ciphertext := drop 32 c; iv := take 16 (drop 16 c);
         ciphertext_size := Z.of_nat (length (drop 32 c));
         plaintext_size := 0; algorithm := kAES256CBC;
         status := Status_void kOk "" |}) as Heq.
  { unfold Decrypt. rewrite DecryptAES256CBC_eq by assumption.
    cbv zeta. rewrite Hzero. reflexivity. }
  split.
  - eexists. split; [exact Heq|]. repeat split.
  - unfold IsKeyCorrect, ReadFileToString. rewrite Hfs, Heq. reflexivity.
Qed.

Lemma Decrypt_empty_plaintext_any_key_witness :
  let H := reference_host true in
  let c := cstr "ETTE1001" ++ replicate 8 NUL ++ cstr "0123456789abcdef"
           ++ cstr "not a cipher block" in
  let fs : FileSystem := fun _ => Some c in
  (exists d,
     Decrypt c (cstr "anything") kAES256CBC = Returns d
     /\ ok (status d) = true /\ plaintext d = [])
  /\ IsKeyCorrect fs (cstr "anything") (cstr "notes.aes256cbc") kAES256CBC
     = Returns true.
Proof.
  intros H c fs.
  destruct (@Decrypt_empty_plaintext_any_key (reference_host true)
              c (cstr "anything") fs (cstr "notes.aes256cbc"))
    as ((d & Hd & _ & Hok & Hp) & Hkey).
  - cbn. lia.
  - reflexivity.
  - discriminate.
  - reflexivity.
  - split; [|exact Hkey]. exists d. repeat split; assumption.
Defined.

(** ** Machine integers *)

Lemma wrap_int_id (z : Z) : INT_MIN <= z <= INT_MAX -> wrap_int z = z.
Proof.
  unfold wrap_int, INT_MIN, INT_MAX. intros Hz.
  rewrite Z.mod_small by lia. lia.
Qed.

(** ** The quit key *)

Lemma ProcessKeyPressUnlocked_CTRL_Q_premature (now : Z) (s : State) :
  dirty s <> 0 -> 0 < quit_times s <= INT_MAX ->
  ProcessKeyPressUnlocked_CTRL_Q now s =
    Returns (set_quit_times (quit_times s - 1)
               (set_statusmsg (take 79 (quit_warning (quit_times s))) now s)).
Proof.
  intros Hd Hq. unfold ProcessKeyPressUnlocked_CTRL_Q, SetStatusMessage.
  destruct (Z.eqb_spec (dirty s) 0) as [?|_]; [contradiction|].
  destruct (Z.ltb_spec 0 (quit_times s)) as [_|?]; [|lia].
  cbn [negb andb quit_times set_statusmsg].
  rewrite wrap_int_id by (unfold INT_MIN, INT_MAX in *; lia). reflexivity.
Qed.

Lemma ProcessKeyPressUnlocked_CTRL_Q_exit (now : Z) (s : State) :
  quit_times s <= 0 -> ProcessKeyPressUnlocked_CTRL_Q now s = Exits 0.
Proof.
  intros Hq. unfold ProcessKeyPressUnlocked_CTRL_Q.
  destruct (Z.ltb_spec 0 (quit_times s)) as [?|_]; [lia|].
  now rewrite andb_false_r.
Qed.

(** Pressing the key as often as [quit_times] allows, or less, does not end
    the editor and uses up that many of the allowed presses. *)
Lemma press_CTRL_Q_premature (clock : list Z) :
  forall s : State,
    dirty s <> 0 ->
    Z.of_nat (length clock) <= quit_times s <= INT_MAX ->
    exists s',
      press_CTRL_Q clock s = Returns s'
      /\ quit_times s' = quit_times s - Z.of_nat (length clock)
      /\ dirty s' = dirty s /\ row s' = row s /\ numrows s' = numrows s.
Proof.
  induction clock as [|now clock IH]; intros s Hd Hq.
  - exists s. cbn. repeat split; lia.
  - cbn [length] in Hq. cbn [press_CTRL_Q].
    rewrite ProcessKeyPressUnlocked_CTRL_Q_premature by (assumption || lia).
    cbn [bind].
    set (s1 := set_quit_times _ _).
    destruct (IH s1) as (s' & Hrun & Hqt & Hdirty & Hrow & Hnum).
    { assumption. }
    { subst s1. cbn [quit_times set_quit_times]. lia. }
    exists s'. rewrite Hrun. subst s1. cbn in Hqt, Hdirty, Hrow, Hnum.
    repeat split; [cbn [length]; lia|assumption..].
Qed.

Lemma press_CTRL_Q_app (c1 c2 : list Z) (s : State) :
  press_CTRL_Q (c1 ++ c2) s
  = bind (press_CTRL_Q c1 s) (press_CTRL_Q c2).
Proof.
  revert s. induction c1 as [|now c1 IH]; intros s; [reflexivity|].
  cbn [app press_CTRL_Q].
  destruct (ProcessKeyPressUnlocked_CTRL_Q now s); cbn [bind];
    [apply IH|reflexivity..].
Qed.

(** C8: with unsaved changes, a press of Ctrl-Q while [quit_times] is
    positive does not end the editor: it takes one from [quit_times] and
    posts the warning, which is the text [WARNING!!! File has unsaved
    changes. Press Ctrl-Q n more times to quit.] with the [quit_times] of
    before the press for [n], cut to the 79 characters the status line
    holds.  Pressed again and again with nothing in between, the key ends
    the editor at the press number [quit_times + 1] and not before; from
    the initial [quit_times] of three the first three presses post the
    warning with 3, 2 and 1, and the fourth press ends the editor. *)
Theorem CTRL_Q_dirty_quit_protocol (s : State) (clock : list Z) (now : Z) :
  0 < dirty s ->
  0 <= quit_times s <= INT_MAX ->
  (0 < quit_times s ->
     exists s',
       ProcessKeyPressUnlocked_CTRL_Q now s = Returns s'
       /\ quit_times s' = quit_times s - 1
       /\ statusmsg s'
          = take 79
              (cstr "WARNING!!! File has unsaved changes. Press Ctrl-Q "
               ++ list_ascii_of_string
                    (NilZero.string_of_int (Z.to_int (quit_times s)))
               ++ cstr " more times to quit.")
       /\ take 50 (statusmsg s')
          = cstr "WARNING!!! File has unsaved changes. Press Ctrl-Q "
       /\ statusmsg_time s' = now
       /\ dirty s' = dirty s /\ row s' = row s)
  /\ (Z.of_nat (length clock) <= quit_times s ->
       exists s',
         press_CTRL_Q clock s = Returns s'
         /\ quit_times s' = quit_times s - Z.of_nat (length clock)
         /\ dirty s' = dirty s)
  /\ (Z.of_nat (length clock) = quit_times s + 1 ->
       press_CTRL_Q clock s = Exits 0)
  /\ (quit_times s = 3 ->
       forall t1 t2 t3 t4,
         (exists s1 s2 s3,
            press_CTRL_Q [t1] s = Returns s1
            /\ quit_times s1 = 2
            /\ statusmsg s1
               = cstr ("WARNING!!! File has unsaved changes. "
                       ++ "Press Ctrl-Q 3 more times to quit.")
            /\ press_CTRL_Q [t1; t2] s = Returns s2
            /\ quit_times s2 = 1
            /\ statusmsg s2
               = cstr ("WARNING!!! File has unsaved changes. "
                       ++ "Press Ctrl-Q 2 more times to quit.")
            /\ press_CTRL_Q [t1; t2; t3] s = Returns s3
            /\ quit_times s3 = 0
            /\ statusmsg s3
               = cstr ("WARNING!!! File has unsaved changes. "
                       ++ "Press Ctrl-Q 1 more times to quit.")
            /\ statusmsg_time s3 = t3)
         /\ press_CTRL_Q [t1; t2; t3; t4] s = Exits 0).
Proof.
  intros Hd Hq. assert (dirty s <> 0) as Hd' by lia.
  split; [|split; [|split]].
  - intros Hpos.
    rewrite ProcessKeyPressUnlocked_CTRL_Q_premature by (assumption || lia).
    eexists. split; [reflexivity|]. cbn [quit_times set_quit_times
      statusmsg statusmsg_time set_statusmsg dirty row].
    unfold quit_warning, to_string.
    split; [reflexivity|]. split; [reflexivity|].
    split; [|repeat split].
    set (digits := list_ascii_of_string _).
    change (cstr "WARNING!!! File has unsaved changes. Press Ctrl-Q "
            ++ digits ++ cstr " more times to quit.")
      with (cstr "WARNING!!! File has unsaved changes. Press Ctrl-Q "
            ++ (digits ++ cstr " more times to quit.")).
    rewrite take_take.
    change (50 `min` 79)%nat with 50%nat.
    apply (take_app_length'
             (cstr "WARNING!!! File has unsaved changes. Press Ctrl-Q ")).
    reflexivity.
  - intros Hlen.
    destruct (press_CTRL_Q_premature clock s Hd') as (s' & Hrun & Hqt & Hds & _);
      [lia|].
    exists s'. auto.
  - intros Hlen.
    destruct (decide (clock = [])) as [->|Hne]; [cbn in Hlen; lia|].
    destruct (exists_last Hne) as (c1 & t & ->).
    rewrite length_app in Hlen. cbn [length] in Hlen.
    rewrite press_CTRL_Q_app.
    destruct (press_CTRL_Q_premature c1 s Hd') as (s' & Hrun & Hqt & _);
      [lia|].
    rewrite Hrun. cbn [bind press_CTRL_Q].
    rewrite ProcessKeyPressUnlocked_CTRL_Q_exit by lia. reflexivity.
  - intros H3 t1 t2 t3 t4. cbn [press_CTRL_Q].
    rewrite ProcessKeyPressUnlocked_CTRL_Q_premature
      by (assumption || rewrite H3; unfold INT_MAX; lia).
    cbn [bind]. rewrite H3.
    rewrite ProcessKeyPressUnlocked_CTRL_Q_premature
      by (cbn; assumption || (unfold INT_MAX; lia)).
    cbn [bind quit_times set_quit_times].
    rewrite ProcessKeyPressUnlocked_CTRL_Q_premature
      by (cbn; assumption || (unfold INT_MAX; lia)).
    cbn [bind quit_times set_quit_times]. split.
    + eexists _, _, _. repeat split.
    + rewrite ProcessKeyPressUnlocked_CTRL_Q_exit by (cbn; lia). reflexivity.
Qed.

Lemma CTRL_Q_dirty_quit_protocol_witness :
  let s := set_numrows_dirty 0 1 State_new in
  (exists s1 s2 s3,
     press_CTRL_Q [10] s = Returns s1
     /\ quit_times s1 = 2
     /\ statusmsg s1
        = cstr ("WARNING!!! File has unsaved changes. "
                ++ "Press Ctrl-Q 3 more times to quit.")
     /\ press_CTRL_Q [10; 11] s = Returns s2
     /\ quit_times s2 = 1
     /\ statusmsg s2
        = cstr ("WARNING!!! File has unsaved changes. "
                ++ "Press Ctrl-Q 2 more times to quit.")
     /\ press_CTRL_Q [10; 11; 12] s = Returns s3
     /\ quit_times s3 = 0
     /\ statusmsg s3
        = cstr ("WARNING!!! File has unsaved changes. "
                ++ "Press Ctrl-Q 1 more times to quit.")
     /\ statusmsg_time s3 = 12)
  /\ press_CTRL_Q [10; 11; 12; 13] s = Exits 0.
Proof.
  intros s.
  destruct (CTRL_Q_dirty_quit_protocol s [] 0) as (_ & _ & _ & Hfresh).
  - cbn. lia.
  - cbn. unfold INT_MAX. lia.
  - apply Hfresh. reflexivity.
Defined.

(** ** The cipher of a file name *)

Lemma take_length_eq_prefix (needle haystack : bytes) :
  take (length needle) haystack = needle
  <-> exists post, haystack = needle ++ post.
Proof.
  split.
  - intros Heq. exists (drop (length needle) haystack).
    rewrite <- Heq at 1. symmetry. apply take_drop.
  - intros (post & ->). apply take_app_length.
Qed.

(** [find] answers with a position exactly when the needle occurs. *)
Lemma find_from_Some (needle : bytes) (haystack : bytes) :
  forall pos,
    is_Some (find_from haystack needle pos)
    <-> exists pre post, haystack = pre ++ needle ++ post.
Proof.
  induction haystack as [|c h IH]; intros pos; cbn [find_from].
  - case_bool_decide as Hp.
    + split; [intros _|eauto].
      apply take_length_eq_prefix in Hp as (post & Hp). exists [], post. exact Hp.
    + split; [intros [? [=]]|].
      intros (pre & post & Heq). exfalso. apply Hp.
      symmetry in Heq. apply app_eq_nil in Heq as [-> Heq].
      apply app_eq_nil in Heq as [-> ->]. reflexivity.
  - case_bool_decide as Hp.
    + split; [intros _|eauto].
      apply take_length_eq_prefix in Hp as (post & Hp). exists [], post. exact Hp.
    + rewrite IH. split.
      * intros (pre & post & ->). exists (c :: pre), post. reflexivity.
      * intros (pre & post & Heq). destruct pre as [|c' pre].
        -- exfalso. apply Hp. cbn [app] in Heq. rewrite Heq.
           apply take_app_length.
        -- injection Heq as _ ->. eauto.
Qed.

Lemma GetCryptoAlgorithmFromFilename_spec (filename : bytes) :
  GetCryptoAlgorithmFromFilename filename = kAES256CBC
  <-> exists pre post, filename = pre ++ cstr ".aes256cbc" ++ post.
Proof.
  unfold GetCryptoAlgorithmFromFilename, string_find.
  rewrite <- (find_from_Some (cstr ".aes256cbc") filename 0).
  destruct (find_from _ _ _); split; intros Hx;
    try reflexivity; try discriminate; eauto.
  destruct Hx as [? [=]].
Qed.

(** C4, as the code has it: AES-256-CBC is selected exactly for the file
    names that contain [".aes256cbc"] somewhere, so for every name that ends
    with it; for every other name no cipher is selected and
    [HandleEncryption] returns the state as it is, running neither password
    dialogue; for a selected name it records the cipher and runs the
    dialogue for an existing or for a new file. *)
Theorem GetCryptoAlgorithm_substring `{D : Dialogues}
    (filename : bytes) (state : State) (keys : list Z) :
  (GetCryptoAlgorithmFromFilename filename = kAES256CBC
     <-> exists pre post, filename = pre ++ cstr ".aes256cbc" ++ post)
  /\ (cstr ".aes256cbc" `suffix_of` filename ->
        GetCryptoAlgorithmFromFilename filename = kAES256CBC)
  /\ (GetCryptoAlgorithmFromFilename filename <> kAES256CBC ->
        GetCryptoAlgorithmFromFilename filename = kDefaultNone
        /\ HandleEncryption state filename keys = Returns state)
  /\ (GetCryptoAlgorithmFromFilename filename = kAES256CBC ->
        HandleEncryption state filename keys =
          if FileExists filename
          then HandleExistingFileEncryption
                 (set_crypto_algorithm kAES256CBC state) filename keys
          else HandleNewFileEncryption
                 (set_crypto_algorithm kAES256CBC state) keys).
Proof.
  split; [apply GetCryptoAlgorithmFromFilename_spec|].
  split; [|split].
  - intros (pre & ->). apply GetCryptoAlgorithmFromFilename_spec.
    exists pre, []. now rewrite app_nil_r.
  - intros Hne. unfold HandleEncryption.
    destruct (GetCryptoAlgorithmFromFilename filename); [|contradiction].
    split; reflexivity.
  - intros Heq. unfold HandleEncryption. rewrite Heq. reflexivity.
Qed.

(** A name that carries the suffix in its middle is given the cipher all the
    same: selection does not depend on where the suffix stands. *)
Lemma suffix_rule_counterexample :
  let filename := cstr "notes.aes256cbc.bak" in
  ~ (GetCryptoAlgorithmFromFilename filename = kAES256CBC
     <-> cstr ".aes256cbc" `suffix_of` filename).
Proof.
  intros filename [Hsel _].
  assert (~ cstr ".aes256cbc" `suffix_of` filename) as Hns.
  { intros (k & Heq). apply (f_equal last) in Heq.
    rewrite last_app in Heq. vm_compute in Heq. discriminate Heq. }
  apply Hns, Hsel. vm_compute. reflexivity.
Qed.

Lemma GetCryptoAlgorithm_substring_witness :
  let D := reference_dialogues true in
  let s := set_crypto_algorithm kAES256CBC State_new in
  HandleEncryption State_new (cstr "notes.txt") [] = Returns State_new
  /\ HandleEncryption State_new (cstr "notes.aes256cbc") []
     = HandleExistingFileEncryption s (cstr "notes.aes256cbc") [].
Proof.
  intros D s. split.
  - apply (@GetCryptoAlgorithm_substring D (cstr "notes.txt") State_new []).
    discriminate.
  - apply (@GetCryptoAlgorithm_substring D (cstr "notes.aes256cbc")
             State_new []).
    reflexivity.
Defined.

(** ** The row store *)

Lemma rows_total_nonneg (rows : list Row) :
  Forall row_wf rows -> 0 <= rows_total rows.
Proof.
  induction 1 as [|r rows Hr _ IH]; cbn [rows_total foldr]; [lia|].
  unfold row_wf in Hr. fold (rows_total rows). lia.
Qed.

Lemma rows_text_length (rows : list Row) :
  Forall row_wf rows -> Z.of_nat (length (rows_text rows)) = rows_total rows.
Proof.
  induction 1 as [|r rows Hr _ IH]; [reflexivity|].
  unfold rows_text, rows_total in *. cbn [fmap list_fmap concat foldr].
  rewrite !length_app. cbn [length]. unfold row_wf in Hr. lia.
Qed.

Lemma rows_to_string_wf (rows : list Row) :
  forall acc,
    Forall row_wf rows -> 0 <= acc -> acc + rows_total rows <= INT_MAX ->
    rows_to_string rows (length rows) acc
    = Returns (rows_text rows, acc + rows_total rows).
Proof.
  induction rows as [|r rows IH]; intros acc Hwf Hacc Hmax.
  - cbn. now rewrite Z.add_0_r.
  - inversion Hwf as [|? ? Hr Hwf']; subst.
    pose proof (rows_total_nonneg rows Hwf') as Hnn.
    cbn [rows_total foldr] in Hmax. fold (rows_total rows) in Hmax.
    cbn [length rows_to_string]. unfold row_wf in Hr.
    destruct (Z.ltb_spec (size r) 0) as [?|_]; [lia|].
    destruct (Z.ltb_spec (Z.of_nat (length (chars r))) (size r)) as [?|_];
      [lia|]. cbn [orb].
    rewrite (wrap_int_id (size r + 1)) by (unfold INT_MIN, INT_MAX in *; lia).
    rewrite wrap_int_id by (unfold INT_MIN, INT_MAX in *; lia).
    rewrite IH by (assumption || lia). cbn [bind].
    rewrite take_ge by lia.
    unfold rows_text, rows_total. cbn [fmap list_fmap concat foldr].
    rewrite <- app_assoc. cbn [app]. do 2 f_equal. lia.
Qed.

(** C7: on a well-formed state whose text, with its terminator, fits the
    [int] that counts it, [RowsToString] returns the rows' [chars] with a
    line feed after every row, the last one included, and stores in
    [buflen] the sum of [size + 1] over the rows. *)
Theorem RowsToString_newline_after_every_row (s : State) :
  rows_wf s ->
  rows_total (row s) < INT_MAX ->
  RowsToString s
  = Returns (concat ((fun r => chars r ++ [LF]) <$> row s),
             foldr (fun r acc => size r + 1 + acc) 0 (row s)).
Proof.
  intros [Hnum Hwf] Hmax. unfold RowsToString.
  rewrite Hnum, Nat2Z.id.
  rewrite rows_to_string_wf by (assumption || lia).
  cbn [bind]. rewrite Z.add_0_l.
  pose proof (rows_total_nonneg _ Hwf).
  rewrite wrap_int_id by (unfold INT_MIN, INT_MAX in *; lia).
  rewrite rows_text_length by assumption.
  destruct (Z.ltb_spec (rows_total (row s) + 1) (rows_total (row s) + 1));
    [lia|reflexivity].
Qed.

Lemma RowsToString_newline_after_every_row_witness :
  RowsToString three_rows
  = Returns (cstr "first row" ++ [LF] ++ cstr "second row" ++ [LF]
             ++ cstr "third row" ++ [LF], 31).
Proof.
  apply (RowsToString_newline_after_every_row three_rows).
  - split; [reflexivity|]. repeat constructor.
  - vm_compute. reflexivity.
Defined.

Lemma DeleteRow_eq (s : State) (at_ : Z) :
  numrows s = Z.of_nat (length (row s)) -> 0 <= at_ < numrows s ->
  DeleteRow s at_ =
    Returns (set_numrows_dirty (wrap_int (numrows s - 1))
               (wrap_int (dirty s + 1))
               (set_rows (take (Z.to_nat at_) (row s)
                          ++ (incr_idx <$> drop (Z.to_nat at_ + 1) (row s)))
                         s)).
Proof.
  intros Hnum Hat. unfold DeleteRow.
  destruct (Z.leb_spec (numrows s) at_) as [?|_]; [lia|].
  destruct (Z.ltb_spec at_ 0) as [?|_]; [lia|].
  rewrite Hnum, Z.eqb_refl. reflexivity.
Qed.

(** C5, as the code has it: [DeleteRow] removes the row at [at], moves the
    rows behind it one position up and adds one to the [idx] of each of
    them, where the rows of a file numbered from zero need one taken off.
    On rows that were numbered by their positions the row that arrives at
    [at] is left with [idx = at + 2]. *)
Theorem DeleteRow_increments_shifted_idx (s : State) (at_ : Z) :
  numrows s = Z.of_nat (length (row s)) ->
  0 <= at_ < numrows s ->
  exists s',
    DeleteRow s at_ = Returns s'
    /\ Z.of_nat (length (row s')) = numrows s - 1
    /\ (forall j, (j < Z.to_nat at_)%nat -> row s' !! j = row s !! j)
    /\ (forall j, (Z.to_nat at_ <= j)%nat ->
          row s' !! j
          = (fun r => set_idx (wrap_int (idx r + 1)) r) <$> row s !! S j)
    /\ ((forall j r, row s !! j = Some r -> idx r = Z.of_nat j) ->
        at_ + 1 < numrows s -> numrows s <= INT_MAX ->
        exists r, row s' !! Z.to_nat at_ = Some r /\ idx r = at_ + 2).
Proof.
  intros Hnum Hat. eexists. split; [apply DeleteRow_eq; assumption|].
  cbn [row set_numrows_dirty set_rows].
  assert (forall j, (Z.to_nat at_ <= j)%nat ->
            (take (Z.to_nat at_) (row s)
             ++ (incr_idx <$> drop (Z.to_nat at_ + 1) (row s))) !! j
            = (fun r => set_idx (wrap_int (idx r + 1)) r) <$> row s !! S j)
    as Hshift.
  { intros j Hj. rewrite lookup_app_r by (rewrite length_take; lia).
    rewrite length_take, list_lookup_fmap, lookup_drop.
    replace (Z.to_nat at_ + 1 + (j - Z.to_nat at_ `min` length (row s)))%nat
      with (S j) by lia.
    reflexivity. }
  split; [|split; [|split]].
  - rewrite length_app, length_take, length_fmap, length_drop. lia.
  - intros j Hj. rewrite lookup_app_l by (rewrite length_take; lia).
    now apply lookup_take_lt.
  - exact Hshift.
  - intros Hidx Hlt Hmax. rewrite Hshift by lia.
    destruct (lookup_lt_is_Some_2 (row s) (S (Z.to_nat at_))) as [r Hr]; [lia|].
    rewrite Hr. exists (set_idx (wrap_int (idx r + 1)) r).
    split; [reflexivity|]. cbn [idx set_idx].
    rewrite (Hidx _ _ Hr).
    rewrite wrap_int_id by (unfold INT_MIN, INT_MAX in *; lia). lia.
Qed.

Lemma DeleteRow_increments_shifted_idx_witness :
  exists s',
    DeleteRow three_rows 0 = Returns s'
    /\ idx <$> row s' = [2; 3]
    /\ chars <$> row s' = [cstr "second row"; cstr "third row"].
Proof.
  destruct (DeleteRow_increments_shifted_idx three_rows 0)
    as (s' & Hrun & _).
  - reflexivity.
  - cbn. lia.
  - exists s'. split; [exact Hrun|].
    vm_compute in Hrun. injection Hrun as <-. split; reflexivity.
Defined.

Ltac bind_inv H :=
  match type of H with
  | bind ?m _ = Returns _ =>
      let E := fresh "E" in
      destruct m eqn:E; cbn [bind] in H; [|discriminate H..]
  end.

Lemma array_get_Returns {A} (a : list A) (i : Z) (x : A) :
  array_get a i = Returns x -> 0 <= i /\ a !! Z.to_nat i = Some x.
Proof.
  unfold array_get. destruct (Z.ltb_spec i 0); [discriminate|].
  destruct (a !! Z.to_nat i); [|discriminate].
  intros [= ->]. split; [lia|reflexivity].
Qed.

Lemma row_text_insert_hl (rows : list Row) (pos : nat) (r r' : Row) :
  rows !! pos = Some r -> row_text r' = row_text r ->
  row_text <$> <[pos := r']> rows = row_text <$> rows.
Proof.
  intros Hr Heq. rewrite list_fmap_insert. apply list_insert_id.
  now rewrite list_lookup_fmap, Hr, Heq.
Qed.

Lemma UpdateSyntax_frame (fuel : nat) :
  forall (st : State) (pos : nat) (st' : State),
    UpdateSyntax fuel st pos = Returns st' ->
    set_rows [] st' = set_rows [] st
    /\ row_text <$> row st' = row_text <$> row st.
Proof.
  induction fuel as [|fuel IH]; intros st pos st' Hrun; [discriminate|].
  cbn [UpdateSyntax] in Hrun.
  bind_inv Hrun. apply array_get_Returns in E as [_ Hr].
  rewrite Nat2Z.id in Hr.
  destruct (rsize a <? 0); [discriminate|].
  cbn [syntax set_rows row] in Hrun.
  set (r0 := set_hl _ a) in Hrun.
  assert (row_text <$> <[pos := r0]> (row st) = row_text <$> row st) as H0
    by (now apply (row_text_insert_hl _ _ a)).
  destruct (syntax st) as [syn|].
  2:{ injection Hrun as <-. split; [reflexivity|exact H0]. }
  bind_inv Hrun. clear E. bind_inv Hrun. clear E.
  destruct a1 as [h returned].
  rewrite list_insert_insert_eq in Hrun.
  set (r1 := set_hl h r0) in Hrun.
  assert (row_text <$> <[pos := r1]> (row st) = row_text <$> row st) as H1
    by (now apply (row_text_insert_hl _ _ a)).
  destruct returned.
  { injection Hrun as <-. split; [reflexivity|exact H1]. }
  bind_inv Hrun. clear E. bind_inv Hrun.
  injection Hrun as <-. cbn [row set_rows].
  assert (forall rows : list Row, row_text <$> alter (set_hl_oc a1) pos rows
                       = row_text <$> rows) as Halter.
  { intros rows. rewrite (list_fmap_alter _ _ id) by (apply Forall_true; reflexivity).
    now apply list_alter_id. }
  rewrite Halter.
  destruct (_ && _).
  - destruct (_ <? 0); [discriminate|].
    apply IH in E as [Hst Hrows]. cbn [row set_rows] in Hrows.
    split; [|now rewrite Hrows].
    transitivity (set_rows [] a2); [reflexivity|exact Hst].
  - injection E as <-. cbn [row set_rows]. split; [reflexivity|exact H1].
Qed.

(** Where the recursion of [UpdateSyntax] cannot start, the row at [pos] is
    the only one that changes. *)
Lemma UpdateSyntax_last_row (fuel : nat) (st : State) (pos : nat)
    (r : Row) (st' : State) :
  row st !! pos = Some r ->
  0 <= numrows st <= idx r -> idx r < INT_MAX ->
  UpdateSyntax fuel st pos = Returns st' ->
  exists r', row st' = <[pos := r']> (row st).
Proof.
  intros Hr Hidx Hmax Hrun. destruct fuel as [|fuel]; [discriminate|].
  cbn [UpdateSyntax] in Hrun.
  unfold array_get in Hrun.
  destruct (Z.ltb_spec (Z.of_nat pos) 0) as [?|_]; [lia|].
  rewrite Nat2Z.id, Hr in Hrun. cbn [bind] in Hrun.
  destruct (rsize r <? 0); [discriminate|].
  cbn [syntax set_rows row] in Hrun.
  destruct (syntax st) as [syn|].
  2:{ injection Hrun as <-. eexists. reflexivity. }
  bind_inv Hrun. clear E. bind_inv Hrun. clear E.
  destruct a0 as [h returned].
  rewrite list_insert_insert_eq in Hrun.
  destruct returned.
  { injection Hrun as <-. eexists. reflexivity. }
  bind_inv Hrun. clear E. bind_inv Hrun.
  injection Hrun as <-. cbn [row set_rows numrows idx set_hl] in *.
  rewrite (wrap_int_id (idx r + 1)) in E
    by (unfold INT_MIN, INT_MAX in *; lia).
  destruct (Z.ltb_spec (idx r + 1) (numrows st)) as [?|_]; [lia|].
  rewrite andb_false_r in E. injection E as <-. cbn [row set_rows].
  assert (pos < length (row st))%nat by (eapply lookup_lt_Some; eassumption).
  eexists (set_hl_oc a0 (set_hl h _)).
  apply list_eq. intros j. destruct (decide (j = pos)) as [->|Hne].
  - rewrite list_lookup_alter_eq, !list_lookup_insert_eq by lia.
    reflexivity.
  - rewrite list_lookup_alter_ne, !list_lookup_insert_ne by congruence.
    reflexivity.
Qed.

Lemma tab_fill_length (fuel : nat) :
  forall idx, (length (tab_fill fuel idx) <= fuel)%nat.
Proof.
  induction fuel as [|fuel IH]; intros idx; cbn [tab_fill]; [cbn; lia|].
  destruct (negb _); cbn [length]; [specialize (IH (idx + 1)); lia|lia].
Qed.

Lemma count_tabs_cons (c : ascii) (cs : bytes) :
  count_tabs (c :: cs)
  = (if bool_decide (uchar c = TAB) then 1 else 0) + count_tabs cs.
Proof.
  unfold count_tabs. rewrite filter_cons.
  case_bool_decide; case_decide; try contradiction;
    cbn [length]; rewrite ?Nat2Z.inj_succ; lia.
Qed.

Lemma count_tabs_bounds (cs : bytes) :
  0 <= count_tabs cs <= Z.of_nat (length cs).
Proof.
  induction cs as [|c cs IH]; [change (count_tabs []) with 0; cbn; lia|].
  rewrite count_tabs_cons. cbn [length]. rewrite Nat2Z.inj_succ.
  case_bool_decide; lia.
Qed.

(** A tab is rendered as at most nine spaces by the model's bound of the
    inner loop, any other character as itself. *)
Lemma render_chars_length (cs : bytes) :
  forall idx,
    Z.of_nat (length (render_chars cs idx))
    <= Z.of_nat (length cs) + 8 * count_tabs cs.
Proof.
  induction cs as [|c cs IH]; intros idx;
    [change (count_tabs []) with 0; cbn; lia|].
  rewrite count_tabs_cons. cbn [render_chars length].
  case_bool_decide.
  - cbn [length]. rewrite length_app.
    pose proof (tab_fill_length 8 (idx + 1)).
    specialize (IH (idx + 1 + Z.of_nat (length (tab_fill 8 (idx + 1))))).
    lia.
  - cbn [length]. specialize (IH (idx + 1)). lia.
Qed.

(** What [UpdateRow] leaves alone: the other members of the state, the
    number of rows, and in every row but its own everything except the
    highlighting; in its own row also [idx], [size] and [chars]. *)
Lemma UpdateRow_frame (fuel : nat) (st : State) (pos : nat) (st' : State) :
  UpdateRow fuel st pos = Returns st' ->
  set_rows [] st' = set_rows [] st
  /\ exists r r',
       row st !! pos = Some r
       /\ (idx r', size r', chars r') = (idx r, size r, chars r)
       /\ row_text <$> row st' = row_text <$> <[pos := r']> (row st).
Proof.
  unfold UpdateRow. intros Hrun. bind_inv Hrun.
  apply array_get_Returns in E as [_ Hr]. rewrite Nat2Z.id in Hr.
  destruct (_ <? size a); [discriminate|].
  destruct (UINT32_MAX <? _); [discriminate|].
  destruct (_ <? _); [discriminate|].
  apply UpdateSyntax_frame in Hrun as [Hst Hrows].
  cbn [row set_rows] in Hrows. split; [exact Hst|].
  eexists a, _. split; [exact Hr|]. split; [|exact Hrows]. reflexivity.
Qed.

Lemma UpdateRow_last_row (fuel : nat) (st : State) (pos : nat)
    (r : Row) (st' : State) :
  row st !! pos = Some r ->
  0 <= numrows st <= idx r -> idx r < INT_MAX ->
  UpdateRow fuel st pos = Returns st' ->
  exists r', row st' = <[pos := r']> (row st).
Proof.
  intros Hr Hidx Hmax. unfold UpdateRow, array_get.
  destruct (Z.ltb_spec (Z.of_nat pos) 0) as [?|_]; [lia|].
  rewrite Nat2Z.id, Hr. cbn [bind].
  destruct (_ <? size r); [discriminate|].
  destruct (UINT32_MAX <? _); [discriminate|].
  destruct (_ <? _); [discriminate|].
  intros Hrun.
  assert (pos < length (row st))%nat by (eapply lookup_lt_Some; eassumption).
  eapply UpdateSyntax_last_row in Hrun as [r' Hr'].
  - exists r'. rewrite Hr'. cbn [row set_rows].
    apply list_insert_insert_eq.
  - cbn [row set_rows]. now apply list_lookup_insert_eq.
  - exact Hidx.
  - exact Hmax.
Qed.

Lemma InsertRow_eq (s : State) (at_ : Z) (str : bytes) (len : Z) :
  numrows s = Z.of_nat (length (row s)) ->
  0 <= at_ <= numrows s ->
  0 <= len <= Z.of_nat (length str) ->
  let rows := inserted_rows (row s) (numrows s) at_ str len in
  InsertRow s at_ str len
  = bind (UpdateRow (UpdateSyntax_fuel rows) (set_rows rows s) (Z.to_nat at_))
      (fun st => Returns (set_numrows_dirty (wrap_int (numrows st + 1))
                            (wrap_int (dirty st + 1)) st)).
Proof.
  intros Hnum Hat Hlen rows. unfold InsertRow.
  destruct (Z.ltb_spec (numrows s) at_) as [?|_]; [lia|].
  destruct (Z.ltb_spec at_ 0) as [?|_]; [lia|].
  rewrite Hnum at 1. rewrite Z.eqb_refl.
  destruct (Z.ltb_spec len 0) as [?|_]; [lia|].
  destruct (Z.ltb_spec (Z.of_nat (length str)) len) as [?|_]; [lia|].
  reflexivity.
Qed.

Lemma InsertRow_Returns_inv (s : State) (at_ : Z) (str : bytes) (len : Z)
    (s1 : State) :
  numrows s = Z.of_nat (length (row s)) ->
  0 <= at_ <= numrows s ->
  InsertRow s at_ str len = Returns s1 ->
  let rows := inserted_rows (row s) (numrows s) at_ str len in
  exists st,
    UpdateRow (UpdateSyntax_fuel rows) (set_rows rows s) (Z.to_nat at_)
    = Returns st
    /\ s1 = set_numrows_dirty (wrap_int (numrows st + 1))
              (wrap_int (dirty st + 1)) st.
Proof.
  intros Hnum Hat Hrun rows. unfold InsertRow in Hrun.
  destruct (Z.ltb_spec (numrows s) at_) as [?|_]; [lia|].
  destruct (_ || _); [discriminate|].
  fold (inserted_row at_ str len) in Hrun.
  change (UpdateSyntax_fuel _) with (UpdateSyntax_fuel rows) in Hrun.
  change (set_rows _ s) with (set_rows rows s) in Hrun.
  bind_inv Hrun. injection Hrun as <-. eauto.
Qed.

Lemma row_content_incr_idx (rows : list Row) :
  row_content <$> (incr_idx <$> rows) = row_content <$> rows.
Proof. rewrite <- list_fmap_compose. reflexivity. Qed.

Lemma row_content_of_row_text (l1 l2 : list Row) :
  row_text <$> l1 = row_text <$> l2 -> row_content <$> l1 = row_content <$> l2.
Proof.
  intros Heq.
  change row_content with ((fun t : Z * Z * bytes * ascii * bytes * Z =>
    let '(_, s, c, e, r, n) := t in (s, c, e, r, n)) ∘ row_text).
  rewrite !list_fmap_compose. now rewrite Heq.
Qed.

Lemma inserted_rows_length (rows : list Row) (n at_ : Z) (s : bytes) (len : Z) :
  (Z.to_nat at_ <= length rows)%nat ->
  length (inserted_rows rows n at_ s len) = S (length rows).
Proof.
  intros Hat. unfold inserted_rows. rewrite length_app, length_take.
  cbn [length]. destruct (negb _);
    rewrite ?length_fmap, length_drop; lia.
Qed.

(** Deleting at [at] what was inserted at [at] gives back the contents of
    the rows that were there. *)
Lemma delete_inserted_content (rows rows1 : list Row) (n at_ : Z)
    (s : bytes) (len : Z) (r' : Row) :
  (Z.to_nat at_ <= length rows)%nat ->
  row_text <$> rows1
    = row_text <$> <[Z.to_nat at_ := r']> (inserted_rows rows n at_ s len) ->
  row_content <$> (take (Z.to_nat at_) rows1
                   ++ (incr_idx <$> drop (Z.to_nat at_ + 1) rows1))
  = row_content <$> rows.
Proof.
  intros Hat Htext. apply row_content_of_row_text in Htext.
  rewrite fmap_app, row_content_incr_idx, fmap_take, fmap_drop, Htext.
  rewrite <- fmap_take, <- fmap_drop.
  rewrite take_insert_ge, drop_insert_lt by lia.
  unfold inserted_rows.
  rewrite take_app_length' by (rewrite length_take; lia).
  replace (Z.to_nat at_ + 1)%nat
    with (length (take (Z.to_nat at_) rows) + 1)%nat
    by (rewrite length_take; lia).
  rewrite <- drop_drop, drop_app_length. cbn [drop]. rewrite drop_0.
  destruct (negb _).
  - rewrite row_content_incr_idx, <- fmap_app. now rewrite take_drop.
  - rewrite <- fmap_app. now rewrite take_drop.
Qed.

(** With no syntax selected and a row short enough for [UpdateRow],
    [InsertRow] returns. *)
Lemma InsertRow_returns (s : State) (at_ : Z) (str : bytes) (len : Z) :
  numrows s = Z.of_nat (length (row s)) ->
  0 <= at_ <= numrows s ->
  0 <= len <= Z.of_nat (length str) ->
  9 * len < 2 ^ 31 ->
  syntax s = None ->
  exists s1, InsertRow s at_ str len = Returns s1.
Proof.
  intros Hnum Hat Hlen Hshort Hsyn.
  rewrite InsertRow_eq by assumption. cbv zeta.
  set (rows := inserted_rows _ _ _ _ _).
  assert (rows !! Z.to_nat at_ = Some (inserted_row at_ str len)) as Hnew.
  { subst rows. unfold inserted_rows.
    rewrite lookup_app_r by (rewrite length_take; lia).
    rewrite length_take.
    replace (Z.to_nat at_ - Z.to_nat at_ `min` length (row s))%nat
      with 0%nat by lia.
    reflexivity. }
  unfold UpdateRow, array_get.
  destruct (Z.ltb_spec (Z.of_nat (Z.to_nat at_)) 0) as [?|_]; [lia|].
  cbn [row set_rows]. rewrite Nat2Z.id, Hnew. cbn [bind].
  cbn [size chars inserted_row].
  assert (wrap_int len = len) as ->
    by (apply wrap_int_id; unfold INT_MIN, INT_MAX; lia).
  assert (length (take (Z.to_nat len) str) = Z.to_nat len) as Hcs
    by (rewrite length_take; lia).
  rewrite Hcs.
  destruct (Z.ltb_spec (Z.of_nat (Z.to_nat len)) len) as [?|_]; [lia|].
  rewrite take_ge by lia.
  set (cs := take (Z.to_nat len) str) in *.
  pose proof (count_tabs_bounds cs) as Htabs.
  pose proof (render_chars_length cs 0) as Hrd.
  rewrite Hcs in Htabs, Hrd.
  assert (u64 (len + (count_tabs cs * 8) mod 2 ^ 32 + 0 * 9 mod 2 ^ 32 + 1)
          = len + count_tabs cs * 8 + 1) as ->.
  { unfold u64. rewrite (Z.mod_small (count_tabs cs * 8)) by lia.
    rewrite (Z.mod_small (0 * 9)) by lia. rewrite Z.mod_small by lia. lia. }
  destruct (Z.ltb_spec UINT32_MAX (len + count_tabs cs * 8 + 1)) as [?|_];
    [unfold UINT32_MAX in *; lia|].
  destruct (Z.ltb_spec (len + count_tabs cs * 8 + 1)
              (Z.of_nat (length (render_chars cs 0)) + 1)) as [?|_]; [lia|].
  unfold UpdateSyntax_fuel. cbn [UpdateSyntax]. unfold array_get.
  destruct (Z.ltb_spec (Z.of_nat (Z.to_nat at_)) 0) as [?|_]; [lia|].
  cbn [row set_rows]. rewrite Nat2Z.id.
  rewrite list_lookup_insert_eq by (eapply lookup_lt_Some; eassumption).
  cbn [bind rsize set_render].
  rewrite wrap_int_id by (unfold INT_MIN, INT_MAX; lia).
  destruct (Z.ltb_spec (Z.of_nat (length (render_chars cs 0))) 0) as [?|_];
    [lia|].
  cbn [syntax set_rows]. rewrite Hsyn. cbn [bind]. eauto.
Qed.

Lemma numbered_of_idx (l1 l2 : list Row) :
  idx <$> l1 = idx <$> l2 -> numbered l2 -> numbered l1.
Proof.
  intros Heq Hnum j r Hr.
  assert ((idx <$> l2) !! j = Some (idx r)) as Hj
    by (rewrite <- Heq, list_lookup_fmap, Hr; reflexivity).
  rewrite list_lookup_fmap in Hj.
  destruct (l2 !! j) as [r2|] eqn:Hr2; [|discriminate].
  injection Hj as <-. now apply Hnum.
Qed.

Lemma inserted_rows_numbered (rows : list Row) (at_ : Z) (s : bytes) (len : Z) :
  numbered rows ->
  0 <= at_ <= Z.of_nat (length rows) ->
  Z.of_nat (length rows) < INT_MAX ->
  numbered (inserted_rows rows (Z.of_nat (length rows)) at_ s len).
Proof.
  intros Hnum Hat Hmax j r. unfold inserted_rows.
  destruct (lt_eq_lt_dec j (Z.to_nat at_)) as [[Hlt | ->] | Hgt].
  - rewrite lookup_app_l by (rewrite length_take; lia).
    rewrite lookup_take_lt by lia. apply Hnum.
  - rewrite lookup_app_r by (rewrite length_take; lia).
    rewrite length_take.
    replace (Z.to_nat at_ - Z.to_nat at_ `min` length rows)%nat with 0%nat
      by lia.
    intros [= <-]. cbn. lia.
  - rewrite lookup_app_r by (rewrite length_take; lia).
    rewrite length_take.
    replace (j - Z.to_nat at_ `min` length rows)%nat
      with (S (j - Z.to_nat at_ - 1)) by lia.
    match goal with
    | |- context [(?x :: ?l) !! S ?n] => change ((x :: l) !! S n) with (l !! n)
    end.
    assert (forall r0, drop (Z.to_nat at_) rows !! (j - Z.to_nat at_ - 1)%nat
                       = Some r0 -> idx r0 = Z.of_nat j - 1) as Hold.
    { intros r0. rewrite lookup_drop. intros Hr0.
      assert (Z.to_nat at_ + (j - Z.to_nat at_ - 1) < length rows)%nat
        by (eapply lookup_lt_Some; eassumption).
      apply Hnum in Hr0. lia. }
    destruct (Z.eqb_spec at_ (Z.of_nat (length rows))) as [-> | Hne]; cbn [negb].
    + rewrite Nat2Z.id, drop_all. intros [=].
    + rewrite list_lookup_fmap.
      destruct (drop _ rows !! _) as [r0|] eqn:Hr0; [|intros [=]].
      intros [= <-]. cbn [idx incr_idx set_idx].
      assert (Z.to_nat at_ + (j - Z.to_nat at_ - 1) < length rows)%nat.
      { rewrite lookup_drop in Hr0. eapply lookup_lt_Some; eassumption. }
      rewrite (Hold r0 eq_refl).
      rewrite wrap_int_id by (unfold INT_MIN, INT_MAX in *; lia). lia.
Qed.

(** With no syntax selected, [UpdateSyntax] writes its own row only. *)
Lemma UpdateSyntax_no_syntax (fuel : nat) (st : State) (pos : nat)
    (st' : State) :
  syntax st = None ->
  UpdateSyntax fuel st pos = Returns st' ->
  exists r', row st' = <[pos := r']> (row st).
Proof.
  intros Hsyn Hrun. destruct fuel as [|fuel]; [discriminate|].
  cbn [UpdateSyntax] in Hrun. bind_inv Hrun.
  destruct (rsize a <? 0); [discriminate|].
  cbn [syntax set_rows row] in Hrun. rewrite Hsyn in Hrun.
  injection Hrun as <-. eexists. reflexivity.
Qed.

Lemma UpdateRow_no_syntax_frame (fuel : nat) (st : State) (pos : nat)
    (st' : State) :
  syntax st = None ->
  UpdateRow fuel st pos = Returns st' ->
  exists r', row st' = <[pos := r']> (row st).
Proof.
  intros Hsyn. unfold UpdateRow. intros Hrun. bind_inv Hrun.
  destruct (_ <? size a); [discriminate|].
  destruct (UINT32_MAX <? _); [discriminate|].
  destruct (_ <? _); [discriminate|].
  apply UpdateSyntax_no_syntax in Hrun as [r' Hr']; [|exact Hsyn].
  exists r'. rewrite Hr'. cbn [row set_rows].
  apply list_insert_insert_eq.
Qed.

Lemma numbered_insert (rows : list Row) (pos : nat) (r r' : Row) :
  numbered rows -> rows !! pos = Some r -> idx r' = idx r ->
  numbered (<[pos := r']> rows).
Proof.
  intros Hnum Hr Hidx j rj Hj.
  destruct (decide (j = pos)) as [->|Hne].
  - rewrite list_lookup_insert_eq in Hj
      by (eapply lookup_lt_Some; eassumption).
    injection Hj as <-. rewrite Hidx. now apply Hnum.
  - rewrite list_lookup_insert_ne in Hj by congruence. now apply Hnum.
Qed.

(** In an array numbered by position the recursion of [UpdateSyntax] goes
    to the rows behind [pos]: the rows before it stay as they are. *)
Lemma UpdateSyntax_rows_before (fuel : nat) :
  forall (st : State) (pos : nat) (st' : State),
    numbered (row st) ->
    Z.of_nat (length (row st)) <= INT_MAX ->
    UpdateSyntax fuel st pos = Returns st' ->
    take pos (row st') = take pos (row st).
Proof.
  induction fuel as [|fuel IH]; intros st pos st' Hnum Hmax Hrun;
    [discriminate|].
  cbn [UpdateSyntax] in Hrun.
  bind_inv Hrun. apply array_get_Returns in E as [_ Hr].
  rewrite Nat2Z.id in Hr.
  assert (pos < length (row st))%nat as Hpos
    by (eapply lookup_lt_Some; eassumption).
  destruct (rsize a <? 0); [discriminate|].
  cbn [syntax set_rows row] in Hrun.
  set (r0 := set_hl _ a) in Hrun.
  destruct (syntax st) as [syn|].
  2:{ injection Hrun as <-. cbn [row set_rows].
      now rewrite take_insert_ge by lia. }
  bind_inv Hrun. clear E. bind_inv Hrun. clear E.
  destruct a1 as [h returned].
  rewrite list_insert_insert_eq in Hrun.
  set (r1 := set_hl h r0) in Hrun.
  destruct returned.
  { injection Hrun as <-. cbn [row set_rows].
    now rewrite take_insert_ge by lia. }
  bind_inv Hrun. clear E. bind_inv Hrun.
  injection Hrun as <-. cbn [row set_rows].
  assert (forall rows : list Row,
            take pos (alter (set_hl_oc a1) pos rows) = take pos rows)
    as Halter.
  { intros rows. apply list_eq. intros j.
    destruct (lt_dec j pos) as [Hlt|Hge].
    - rewrite !lookup_take_lt by lia.
      apply list_lookup_alter_ne. lia.
    - rewrite !lookup_take_ge by lia. reflexivity. }
  rewrite Halter.
  assert (idx a = Z.of_nat pos) as Hidx by (now apply Hnum).
  destruct (_ && _).
  - destruct (wrap_int (idx r1 + 1) <? 0); [discriminate|].
    change (idx r1) with (idx a) in E. rewrite Hidx in E.
    assert (wrap_int (Z.of_nat pos + 1) = Z.of_nat pos + 1) as Hw
      by (apply wrap_int_id; unfold INT_MIN, INT_MAX in *; lia).
    rewrite Hw in E.
    replace (Z.to_nat (Z.of_nat pos + 1)) with (S pos) in E by lia.
    apply IH in E.
    + cbn [row set_rows] in E.
      apply (f_equal (take pos)) in E.
      rewrite !take_take in E.
      replace (pos `min` S pos)%nat with pos in E by lia.
      rewrite E. now rewrite take_insert_ge by lia.
    + cbn [row set_rows]. now apply (numbered_insert _ _ a).
    + cbn [row set_rows]. now rewrite length_insert.
  - injection E as <-. cbn [row set_rows].
    now rewrite take_insert_ge by lia.
Qed.

Lemma UpdateRow_rows_before (fuel : nat) (st : State) (pos : nat)
    (st' : State) :
  numbered (row st) ->
  Z.of_nat (length (row st)) <= INT_MAX ->
  UpdateRow fuel st pos = Returns st' ->
  take pos (row st') = take pos (row st).
Proof.
  intros Hnum Hmax. unfold UpdateRow. intros Hrun. bind_inv Hrun.
  apply array_get_Returns in E as [_ Hr]. rewrite Nat2Z.id in Hr.
  destruct (_ <? size a); [discriminate|].
  destruct (UINT32_MAX <? _); [discriminate|].
  destruct (_ <? _); [discriminate|].
  apply UpdateSyntax_rows_before in Hrun.
  - rewrite Hrun. cbn [row set_rows]. now rewrite take_insert_ge by lia.
  - cbn [row set_rows]. now apply (numbered_insert _ _ a).
  - cbn [row set_rows]. now rewrite length_insert.
Qed.

(** [UpdateSyntax] goes on to another row only when it changes [hl_oc]:
    where the row at [pos] comes out with the [hl_oc] it had, it is the
    only row written. *)
Lemma UpdateSyntax_same_hl_oc (fuel : nat) (st : State) (pos : nat)
    (r r' : Row) (st' : State) :
  row st !! pos = Some r ->
  UpdateSyntax fuel st pos = Returns st' ->
  row st' !! pos = Some r' -> hl_oc r' = hl_oc r ->
  row st' = <[pos := r']> (row st).
Proof.
  intros Hr Hrun Hr' Hoc. destruct fuel as [|fuel]; [discriminate|].
  assert (pos < length (row st))%nat as Hpos
    by (eapply lookup_lt_Some; eassumption).
  cbn [UpdateSyntax] in Hrun. unfold array_get in Hrun.
  destruct (Z.ltb_spec (Z.of_nat pos) 0) as [?|_]; [lia|].
  rewrite Nat2Z.id, Hr in Hrun. cbn [bind] in Hrun.
  destruct (rsize r <? 0); [discriminate|].
  cbn [syntax set_rows row] in Hrun.
  set (r0 := set_hl _ r) in Hrun.
  destruct (syntax st) as [syn|].
  2:{ injection Hrun as <-. cbn [row set_rows] in *.
      rewrite list_lookup_insert_eq in Hr' by lia.
      now injection Hr' as <-. }
  bind_inv Hrun. clear E. bind_inv Hrun. clear E.
  destruct a0 as [h returned].
  rewrite list_insert_insert_eq in Hrun.
  set (r1 := set_hl h r0) in Hrun.
  destruct returned.
  { injection Hrun as <-. cbn [row set_rows] in *.
    rewrite list_lookup_insert_eq in Hr' by lia.
    now injection Hr' as <-. }
  bind_inv Hrun. clear E. bind_inv Hrun.
  injection Hrun as <-. cbn [row set_rows] in Hr' |- *.
  assert (length (row a1) = length (row st)) as Hlen.
  { destruct (_ && _).
    - destruct (_ <? 0); [discriminate|].
      apply UpdateSyntax_frame in E as [_ Hrows].
      cbn [row set_rows] in Hrows. apply (f_equal length) in Hrows.
      now rewrite !length_fmap, length_insert in Hrows.
    - injection E as <-. cbn [row set_rows]. apply length_insert. }
  rewrite list_lookup_alter_eq in Hr'.
  destruct (row a1 !! pos) as [ra|] eqn:Hra; [|discriminate Hr'].
  cbn in Hr'. injection Hr' as <-. cbn [hl_oc set_hl_oc] in Hoc.
  change (hl_oc r1) with (hl_oc r) in E. rewrite Hoc, Z.eqb_refl in E.
  cbn [negb andb] in E. injection E as <-. cbn [row set_rows] in *.
  rewrite list_lookup_insert_eq in Hra by lia. injection Hra as <-.
  apply list_eq. intros j. destruct (decide (j = pos)) as [->|Hne].
  - rewrite list_lookup_alter_eq, !list_lookup_insert_eq by lia.
    reflexivity.
  - rewrite list_lookup_alter_ne, !list_lookup_insert_ne by congruence.
    reflexivity.
Qed.

Lemma UpdateRow_same_hl_oc (fuel : nat) (st : State) (pos : nat)
    (r r' : Row) (st' : State) :
  row st !! pos = Some r ->
  UpdateRow fuel st pos = Returns st' ->
  row st' !! pos = Some r' -> hl_oc r' = hl_oc r ->
  row st' = <[pos := r']> (row st).
Proof.
  intros Hr. unfold UpdateRow, array_get.
  destruct (Z.ltb_spec (Z.of_nat pos) 0) as [?|_]; [lia|].
  rewrite Nat2Z.id, Hr. cbn [bind].
  destruct (_ <? size r); [discriminate|].
  destruct (UINT32_MAX <? _); [discriminate|].
  destruct (_ <? _); [discriminate|].
  intros Hrun Hr' Hoc.
  assert (pos < length (row st))%nat by (eapply lookup_lt_Some; eassumption).
  eapply UpdateSyntax_same_hl_oc in Hrun; [| |exact Hr'|].
  - rewrite Hrun. cbn [row set_rows]. apply list_insert_insert_eq.
  - cbn [row set_rows]. now apply list_lookup_insert_eq.
  - exact Hoc.
Qed.

Lemma row_but_idx_incr_idx (rows : list Row) :
  row_but_idx <$> (incr_idx <$> rows) = row_but_idx <$> rows.
Proof. rewrite <- list_fmap_compose. reflexivity. Qed.

Lemma take_inserted_rows (rows : list Row) (n at_ : Z) (s : bytes) (len : Z) :
  (Z.to_nat at_ <= length rows)%nat ->
  take (Z.to_nat at_) (inserted_rows rows n at_ s len)
  = take (Z.to_nat at_) rows.
Proof.
  intros Hat. unfold inserted_rows.
  now rewrite take_app_length' by (rewrite length_take; lia).
Qed.

Lemma drop_inserted_rows (rows : list Row) (n at_ : Z) (s : bytes) (len : Z) :
  (Z.to_nat at_ <= length rows)%nat ->
  drop (Z.to_nat at_ + 1) (inserted_rows rows n at_ s len)
  = (if negb (at_ =? n) then incr_idx <$> drop (Z.to_nat at_) rows
     else drop (Z.to_nat at_) rows).
Proof.
  intros Hat. unfold inserted_rows.
  replace (Z.to_nat at_ + 1)%nat
    with (length (take (Z.to_nat at_) rows) + 1)%nat
    by (rewrite length_take; lia).
  rewrite <- drop_drop, drop_app_length. cbn [drop]. now rewrite drop_0.
Qed.

(** C6, as the code has it: when [InsertRow] at [at] returns, [DeleteRow]
    at [at] returns too and leaves as many rows as there were, each with
    the [size], the characters, the [render] and the [rsize] it had; the
    rows before [at] also keep their [idx], and they are as they were in
    every member where no syntax is selected or the rows were numbered by
    their positions.  What the pair does not give back is the
    highlighting that [UpdateSyntax] has redone behind the new row, and it
    goes on behind the new row only when that row ends inside a comment:
    where the new row has come out with [hl_oc = 0], and so wherever no
    syntax is selected, [hl] and [hl_oc] of all rows are as before.
    Inserted behind the last row and deleted again, a row leaves the whole
    sequence as it was.  With no syntax selected, [InsertRow] of a row
    that [UpdateRow] accepts does return. *)
Theorem InsertRow_DeleteRow_restores_content
    (s : State) (at_ : Z) (str : bytes) (len : Z) :
  numrows s = Z.of_nat (length (row s)) ->
  0 <= at_ <= numrows s ->
  numrows s < INT_MAX ->
  (forall s1,
     InsertRow s at_ str len = Returns s1 ->
     exists s2,
       DeleteRow s1 at_ = Returns s2
       /\ numrows s2 = numrows s
       /\ length (row s2) = length (row s)
       /\ row_content <$> row s2 = row_content <$> row s
       /\ row_text <$> take (Z.to_nat at_) (row s2)
          = row_text <$> take (Z.to_nat at_) (row s)
       /\ (syntax s = None \/ numbered (row s) ->
           take (Z.to_nat at_) (row s2) = take (Z.to_nat at_) (row s))
       /\ (syntax s = None
           \/ (exists r1, row s1 !! Z.to_nat at_ = Some r1 /\ hl_oc r1 = 0) ->
           row_but_idx <$> row s2 = row_but_idx <$> row s
           /\ take (Z.to_nat at_) (row s2) = take (Z.to_nat at_) (row s))
       /\ (at_ = numrows s -> row s2 = row s))
  /\ (syntax s = None -> 0 <= len <= Z.of_nat (length str) ->
      9 * len < 2 ^ 31 ->
      exists s1, InsertRow s at_ str len = Returns s1).
Proof.
  intros Hnum Hat Hmax. split; [|intros; now apply InsertRow_returns].
  intros s1 Hrun.
  apply InsertRow_Returns_inv in Hrun as (st & Hupd & ->); [|assumption..].
  set (rows := inserted_rows _ _ _ _ _) in Hupd.
  assert (length rows = S (length (row s))) as Hlen
    by (apply inserted_rows_length; lia).
  assert (rows !! Z.to_nat at_ = Some (inserted_row at_ str len)) as Hnew.
  { subst rows. unfold inserted_rows.
    rewrite lookup_app_r by (rewrite length_take; lia).
    rewrite length_take.
    replace (Z.to_nat at_ - Z.to_nat at_ `min` length (row s))%nat
      with 0%nat by lia.
    reflexivity. }
  assert (take (Z.to_nat at_) rows = take (Z.to_nat at_) (row s)) as Htake
    by (apply take_inserted_rows; lia).
  pose proof Hupd as Hframe.
  apply UpdateRow_frame in Hframe as (Hst & r & r' & _ & _ & Htext).
  cbn [row set_rows] in Htext.
  assert (numrows st = numrows s) as Hnst
    by (apply (f_equal numrows) in Hst; exact Hst).
  assert (length (row st) = S (length (row s))) as Hlst.
  { apply (f_equal length) in Htext.
    rewrite !length_fmap, length_insert in Htext. lia. }
  rewrite Hnst.
  assert (wrap_int (numrows s + 1) = numrows s + 1) as Hw
    by (apply wrap_int_id; unfold INT_MIN, INT_MAX in *; lia).
  rewrite Hw.
  eexists. split.
  { apply DeleteRow_eq; cbn [numrows row set_numrows_dirty]; lia. }
  cbn [numrows row set_numrows_dirty set_rows].
  assert (forall l : list Row,
            take (Z.to_nat at_)
              (take (Z.to_nat at_) (row st) ++ l)
            = take (Z.to_nat at_) (row st)) as Hfront.
  { intros l. apply take_app_length'. rewrite length_take. lia. }
  rewrite Hfront.
  (* where the new row is the only one that [UpdateRow] has written *)
  assert (forall r1,
            row st = <[Z.to_nat at_ := r1]> rows ->
            row_but_idx
              <$> (take (Z.to_nat at_) (row st)
                   ++ (incr_idx <$> drop (Z.to_nat at_ + 1) (row st)))
            = row_but_idx <$> row s
            /\ take (Z.to_nat at_) (row st) = take (Z.to_nat at_) (row s))
    as Halone.
  { intros r1 Hr1. rewrite Hr1.
    rewrite take_insert_ge, drop_insert_lt by lia.
    rewrite Htake. split; [|reflexivity].
    subst rows. rewrite drop_inserted_rows by lia.
    rewrite fmap_app, row_but_idx_incr_idx.
    destruct (negb _).
    - rewrite row_but_idx_incr_idx, <- fmap_app. now rewrite take_drop.
    - rewrite <- fmap_app. now rewrite take_drop. }
  split; [|split; [|split; [|split; [|split; [|split]]]]].
  - replace (numrows s + 1 - 1) with (numrows s) by lia.
    apply wrap_int_id. unfold INT_MIN, INT_MAX in *. lia.
  - rewrite length_app, length_take, length_fmap, length_drop. lia.
  - eapply delete_inserted_content; [|exact Htext]. lia.
  - rewrite fmap_take, Htext, <- fmap_take.
    rewrite take_insert_ge by lia. now rewrite Htake.
  - intros [Hsyn|Hnumd].
    + apply UpdateRow_no_syntax_frame in Hupd as [r1 Hr1]; [|exact Hsyn].
      apply (Halone r1 Hr1).
    + apply UpdateRow_rows_before in Hupd.
      * rewrite Hupd. cbn [row set_rows]. exact Htake.
      * cbn [row set_rows]. subst rows. rewrite Hnum.
        apply inserted_rows_numbered; [exact Hnumd|lia|lia].
      * cbn [row set_rows]. rewrite Hlen. unfold INT_MAX in *. lia.
  - intros [Hsyn|(r1 & Hr1 & Hoc)].
    + apply UpdateRow_no_syntax_frame in Hupd as [r1 Hr1]; [|exact Hsyn].
      apply (Halone r1 Hr1).
    + apply (Halone r1).
      apply (UpdateRow_same_hl_oc _ _ _ (inserted_row at_ str len) r1)
        in Hupd; [exact Hupd|exact Hnew|exact Hr1|exact Hoc].
  - intros ->.
    apply UpdateRow_last_row with (r := inserted_row (numrows s) str len)
      in Hupd as [r1 Hr1];
      [|exact Hnew|cbn [numrows set_rows idx inserted_row]; lia
       |cbn [idx inserted_row]; lia].
    rewrite Hr1. cbn [row set_rows]. subst rows. unfold inserted_rows.
    rewrite Z.eqb_refl. cbn [negb].
    rewrite Hnum, Nat2Z.id, (take_ge (row s)), (drop_ge (row s)) by lia.
    rewrite take_insert_ge, drop_insert_lt by lia.
    rewrite take_app_length.
    rewrite drop_ge by (rewrite length_app; cbn [length]; lia).
    cbn [fmap list_fmap]. apply app_nil_r.
Qed.

(** A row inserted between the first and the second of three rows and
    deleted again, and a row inserted behind the last and deleted again. *)
Lemma InsertRow_DeleteRow_restores_content_witness :
  (exists s1 s2,
     InsertRow three_rows 1 (cstr "between") 7 = Returns s1
     /\ DeleteRow s1 1 = Returns s2
     /\ row_but_idx <$> row s2 = row_but_idx <$> row three_rows
     /\ take 1 (row s2) = [plain_row 0 "first row"])
  /\ (exists s1 s2,
        InsertRow three_rows 3 (cstr "fourth row") 10 = Returns s1
        /\ DeleteRow s1 3 = Returns s2
        /\ row s2 = row three_rows).
Proof.
  split.
  - destruct (InsertRow_DeleteRow_restores_content three_rows 1
                (cstr "between") 7) as [Hpair Hret].
    + reflexivity.
    + cbn. lia.
    + vm_compute. reflexivity.
    + destruct Hret as [s1 Hs1]; [reflexivity|cbn; lia|lia|].
      destruct (Hpair s1 Hs1) as (s2 & Hs2 & _ & _ & _ & _ & _ & Hhl & _).
      exists s1, s2. split; [exact Hs1|]. split; [exact Hs2|].
      apply (Hhl (or_introl eq_refl)).
  - destruct (InsertRow_DeleteRow_restores_content three_rows 3
                (cstr "fourth row") 10) as [Hpair Hret].
    + reflexivity.
    + cbn. lia.
    + vm_compute. reflexivity.
    + destruct Hret as [s1 Hs1]; [reflexivity|cbn; lia|lia|].
      destruct (Hpair s1 Hs1) as (s2 & Hs2 & _ & _ & _ & _ & _ & _ & Hsame).
      exists s1, s2. split; [exact Hs1|]. split; [exact Hs2|].
      apply Hsame. reflexivity.
Defined.

(** With the C syntax selected, the opening of a comment inserted before
    the row [x] and deleted again leaves that row highlighted as a
    comment, and flagged as ending inside one, where it was normal text
    before; the row [y] behind it is not reached.  The characters of both
    rows are as they were. *)
Lemma InsertRow_DeleteRow_counterexample :
  exists s1 s2,
    InsertRow c_file_x_y 0 (cstr "/*") 2 = Returns s1
    /\ DeleteRow s1 0 = Returns s2
    /\ chars <$> row c_file_x_y = [cstr "x"; cstr "y"]
    /\ hl <$> row c_file_x_y = [[HL_NORMAL]; [HL_NORMAL]]
    /\ hl_oc <$> row c_file_x_y = [0; 0]
    /\ hl_oc <$> row s1 = [1; 1; 0]
    /\ chars <$> row s2 = [cstr "x"; cstr "y"]
    /\ hl <$> row s2 = [[HL_MLCOMMENT]; [HL_NORMAL]]
    /\ hl_oc <$> row s2 = [1; 0]
    /\ row_but_idx <$> row s2 <> row_but_idx <$> row c_file_x_y
    /\ row s2 <> row c_file_x_y.
Proof.
  eexists _, _. split; [vm_compute; reflexivity|].
  split; [vm_compute; reflexivity|].
  do 7 (split; [vm_compute; reflexivity|]).
  split; intros Heq.
  - apply (f_equal (fmap (fun t : Z * bytes * ascii * bytes * Z * list Z * Z =>
                            snd t))) in Heq.
    vm_compute in Heq. discriminate Heq.
  - apply (f_equal (fmap hl_oc)) in Heq. vm_compute in Heq. discriminate Heq.
Qed.
(** * Further properties of the codec *)

Section codec_cases.
Context `{H : Host}.

Lemma cipher_failure_not_ok (e : plusaes_Error) :
  ok (status (cipher_failure e)) = false.
Proof. destruct e; reflexivity. Qed.

Lemma cipher_failure_empty (e : plusaes_Error) :
  exists c m,
    cipher_failure e = CreateCryptoStateWithStatus c m
    /\ c ∈ [kInvalidKeySize; kInvalidKey; kInvalidIvSize; kUnknownError].
Proof.
  destruct e; do 2 eexists; (split; [reflexivity|]);
    repeat first [apply list_elem_of_here|apply list_elem_of_further].
Qed.

(** The outcomes of [DecryptAES256CBC] on an input with a whole header and
    a password that is not empty, by the size field [n]. *)
Lemma DecryptAES256CBC_cases (c k : bytes) (a : CryptoAlgorithm) :
  (32 <= length c)%nat -> k <> [] ->
  let n := GetPlaintextSizeFromCiphertext (drop 8 c) in
  let out := decrypt_cbc (drop 32 c) (HashRawKey k)
               (null_terminated_iv (take 16 (drop 16 c))) n in
  (n = 0 /\ exists d, DecryptAES256CBC c k a = Returns d
                      /\ ok (status d) = true)
  \/ (n <> 0 /\ exists e, new_vector n = Throws e
                          /\ DecryptAES256CBC c k a = Throws e)
  \/ (n <> 0 /\ new_vector n = Returns tt /\ fst out = kErrorOk
      /\ exists d, DecryptAES256CBC c k a = Returns d
                   /\ ok (status d) = true)
  \/ (n <> 0 /\ new_vector n = Returns tt /\ fst out <> kErrorOk
      /\ DecryptAES256CBC c k a = Returns (cipher_failure (fst out))).
Proof.
  intros Hlen Hk n out.
  rewrite DecryptAES256CBC_eq by assumption. cbv zeta. fold n out.
  destruct (Z.eqb_spec n 0) as [Hz|Hnz].
  { left. split; [exact Hz|]. eexists. split; reflexivity. }
  right.
  destruct (new_vector_cases n)
    as [[_ Hv]|[(_ & _ & Hv)|(_ & _ & Hv)]]; rewrite Hv; cbn [bind].
  - left. split; [exact Hnz|]. now exists length_error.
  - left. split; [exact Hnz|]. now exists bad_alloc.
  - right. destruct (fst out) eqn:Hout.
    + left. split; [exact Hnz|]. split; [reflexivity|].
      split; [reflexivity|]. eexists. split; reflexivity.
    + right. repeat split; try discriminate; assumption.
    + right. repeat split; try discriminate; assumption.
    + right. repeat split; try discriminate; assumption.
    + right. repeat split; try discriminate; assumption.
Qed.

End codec_cases.

(** [IsKeyCorrect] returns or throws.  It returns [true] exactly when the
    file can be read, the algorithm is AES-256-CBC, the file has a whole
    header, the password is not empty, and either the size field is zero
    or the vector of that size is allocated and the cipher decrypts the
    rest without an error.  It throws exactly when the file, the algorithm
    and the password are such and the size field is not zero and asks for
    a vector that is not allocated: [std::length_error] above
    [vector_max_size], [std::bad_alloc] where the allocator has no such
    block. *)
Theorem IsKeyCorrect_iff `{H : Host}
    (fs : FileSystem) (key path : bytes) (a : CryptoAlgorithm) :
  let framed c :=
    fs path = Some c /\ a = kAES256CBC /\ (32 <= length c)%nat
    /\ key <> [] in
  let size c := GetPlaintextSizeFromCiphertext (drop 8 c) in
  (IsKeyCorrect fs key path a = Returns true
   <-> exists c,
         framed c
         /\ (size c = 0
             \/ (new_vector (size c) = Returns tt
                 /\ fst (decrypt_cbc (drop 32 c) (HashRawKey key)
                           (null_terminated_iv (take 16 (drop 16 c)))
                           (size c))
                    = kErrorOk)))
  /\ (forall e,
        IsKeyCorrect fs key path a = Throws e
        <-> exists c,
              framed c /\ size c <> 0 /\ new_vector (size c) = Throws e)
  /\ (forall n,
        (new_vector n = Returns tt
         <-> n <= vector_max_size /\ allocates n = true)
        /\ (new_vector n = Throws length_error <-> vector_max_size < n)
        /\ (new_vector n = Throws bad_alloc
            <-> n <= vector_max_size /\ allocates n = false))
  /\ ((exists b, IsKeyCorrect fs key path a = Returns b)
      \/ (exists e, IsKeyCorrect fs key path a = Throws e)).
Proof.
  cbv zeta.
  assert (forall n,
             (new_vector n = Returns tt
              <-> n <= vector_max_size /\ allocates n = true)
             /\ (new_vector n = Throws length_error <-> vector_max_size < n)
             /\ (new_vector n = Throws bad_alloc
                 <-> n <= vector_max_size /\ allocates n = false)) as Hvec.
  { intros n. unfold new_vector.
    destruct (Z.ltb_spec vector_max_size n) as [Hbig|Hfit].
    - repeat split; try discriminate; try lia; intros [? _]; lia.
    - destruct (allocates n); repeat split; try discriminate; try lia;
        intros [_ [=]]. }
  unfold IsKeyCorrect, ReadFileToString.
  destruct (fs path) as [c|].
  2:{ split; [split; [discriminate|intros (c & ([=] & _) & _)]|].
      split; [intros e; split; [discriminate|intros (c & ([=] & _) & _)]|].
      split; [exact Hvec|]. left. now exists false. }
  unfold Decrypt. destruct a.
  { split; [split; [discriminate|intros (c' & (_ & [=] & _) & _)]|].
    split; [intros e; split; [discriminate|intros (c' & (_ & [=] & _) & _)]|].
    split; [exact Hvec|]. left. now exists false. }
  destruct (le_lt_dec 32 (length c)) as [Hlen|Hlen].
  2:{ rewrite DecryptAES256CBC_short by assumption. cbn [bind].
      split; [split; [discriminate|]|].
      { intros (c' & ([= <-] & _ & ? & _) & _). lia. }
      split; [intros e; split; [discriminate|]|].
      { intros (c' & ([= <-] & _ & ? & _) & _). lia. }
      split; [exact Hvec|]. left. now exists false. }
  destruct (decide (key = [])) as [->|Hk].
  { rewrite DecryptAES256CBC_empty_key by assumption. cbn [bind].
    split; [split; [discriminate|]|].
    { intros (c' & (_ & _ & _ & Hne) & _). now destruct Hne. }
    split; [intros e; split; [discriminate|]|].
    { intros (c' & (_ & _ & _ & Hne) & _). now destruct Hne. }
    split; [exact Hvec|]. left. now exists false. }
  destruct (DecryptAES256CBC_cases c key kAES256CBC Hlen Hk)
    as [(Hz & d & -> & Hok)
       |[(Hnz & e & Hv & ->)
        |[(Hnz & Hv & Hout & d & -> & Hok)
         |(Hnz & Hv & Hout & ->)]]]; cbn [bind].
  - rewrite Hok. split; [split; [intros _|reflexivity]|].
    { exists c. auto 10. }
    split; [intros e; split; [discriminate|]|].
    { intros (c' & ([= <-] & _) & Hne & _). contradiction. }
    split; [exact Hvec|]. left. now exists true.
  - split; [split; [discriminate|]|].
    { intros (c' & ([= <-] & _) & [Hz|[Hv' _]]); [contradiction|].
      rewrite Hv in Hv'. discriminate. }
    split.
    { intros e'. split.
      - intros [= <-]. exists c. auto 10.
      - intros (c' & ([= <-] & _) & _ & Hv'). congruence. }
    split; [exact Hvec|]. right. now exists e.
  - rewrite Hok. split; [split; [intros _|reflexivity]|].
    { exists c. split; [auto|]. right. auto. }
    split; [intros e; split; [discriminate|]|].
    { intros (c' & ([= <-] & _) & _ & Hv'). rewrite Hv in Hv'.
      discriminate. }
    split; [exact Hvec|]. left. now exists true.
  - rewrite cipher_failure_not_ok.
    split; [split; [discriminate|]|].
    { intros (c' & ([= <-] & _) & [Hz|[_ Hok]]); contradiction. }
    split; [intros e; split; [discriminate|]|].
    { intros (c' & ([= <-] & _) & _ & Hv'). rewrite Hv in Hv'.
      discriminate. }
    split; [exact Hvec|]. left. now exists false.
Qed.

(** [Decrypt] returns a state or throws, and it throws only from the
    vector it sizes by the size field of an input that has a whole header,
    under a password that is not empty.  A state it returns that is not ok
    has no plaintext, no ciphertext and no key in it.  For AES-256-CBC the
    status of such a state holds one of the codes [kInvalidDataSize],
    [kInvalidKeySize], [kInvalidKey], [kInvalidIvSize] and
    [kUnknownError], never one of the four header codes; for any other
    algorithm the state is the default one, and its status holds no code
    at all. *)
Theorem Decrypt_failure_carries_no_data `{H : Host}
    (c k : bytes) (a : CryptoAlgorithm) :
  ((exists d, Decrypt c k a = Returns d)
   \/ (exists e,
         Decrypt c k a = Throws e
         /\ a = kAES256CBC /\ (32 <= length c)%nat /\ k <> []
         /\ GetPlaintextSizeFromCiphertext (drop 8 c) <> 0
         /\ new_vector (GetPlaintextSizeFromCiphertext (drop 8 c))
            = Throws e))
  /\ forall d,
       Decrypt c k a = Returns d ->
       ok (status d) = false ->
       plaintext d = [] /\ ciphertext d = []
       /\ raw_key d = [] /\ hashed_key d = []
       /\ (a = kAES256CBC ->
           exists e,
             status d = Some e
             /\ code e ∈ [kInvalidDataSize; kInvalidKeySize; kInvalidKey;
                          kInvalidIvSize; kUnknownError])
       /\ (a <> kAES256CBC -> d = CryptoState_default /\ status d = None).
Proof.
  assert (forall code' msg d,
             d = CreateCryptoStateWithStatus code' msg ->
             code' ∈ [kInvalidDataSize; kInvalidKeySize; kInvalidKey;
                      kInvalidIvSize; kUnknownError] ->
             plaintext d = [] /\ ciphertext d = []
             /\ raw_key d = [] /\ hashed_key d = []
             /\ (kAES256CBC = kAES256CBC ->
                 exists e,
                   status d = Some e
                   /\ code e ∈ [kInvalidDataSize; kInvalidKeySize;
                                kInvalidKey; kInvalidIvSize; kUnknownError])
             /\ (kAES256CBC <> kAES256CBC ->
                 d = CryptoState_default /\ status d = None)) as Hfail.
  { intros code' msg d -> Hcode.
    do 4 (split; [reflexivity|]). split.
    - intros _. eexists. split; [reflexivity|exact Hcode].
    - intros Hne. now destruct Hne. }
  unfold Decrypt. destruct a.
  { split; [left; now eexists|].
    intros d [= <-] _. do 4 (split; [reflexivity|]).
    split; [intros [=]|intros _; split; reflexivity]. }
  destruct (le_lt_dec 32 (length c)) as [Hlen|Hlen].
  2:{ rewrite DecryptAES256CBC_short by assumption.
      split; [left; now eexists|].
      intros d [= <-] _. eapply Hfail; [reflexivity|].
      apply list_elem_of_here. }
  destruct (decide (k = [])) as [->|Hk].
  { rewrite DecryptAES256CBC_empty_key by assumption.
    split; [left; now eexists|].
    intros d [= <-] _. eapply Hfail; [reflexivity|].
    apply list_elem_of_further, list_elem_of_here. }
  destruct (DecryptAES256CBC_cases c k kAES256CBC Hlen Hk)
    as [(Hz & d & -> & Hok)
       |[(Hnz & e & Hv & ->)
        |[(Hnz & Hv & Hout & d & -> & Hok)
         |(Hnz & Hv & Hout & ->)]]].
  - split; [left; now eexists|]. intros d' [= <-]. congruence.
  - split; [right; exists e; auto 10|]. intros d' [=].
  - split; [left; now eexists|]. intros d' [= <-]. congruence.
  - split; [left; now eexists|]. intros d' [= <-] _.
    destruct (cipher_failure_empty
                (fst (decrypt_cbc (drop 32 c) (HashRawKey k)
                        (null_terminated_iv (take 16 (drop 16 c)))
                        (GetPlaintextSizeFromCiphertext (drop 8 c)))))
      as (code' & msg & Heq & Hcode).
    eapply Hfail; [exact Heq|].
    apply list_elem_of_further. exact Hcode.
Qed.

Lemma Decrypt_failure_carries_no_data_witness :
  let H := reference_host true in
  exists d,
    Decrypt (cstr "malformed") (cstr "pw") kAES256CBC = Returns d
    /\ plaintext d = [] /\ ciphertext d = [].
Proof.
  intros H.
  destruct (@Decrypt_failure_carries_no_data (reference_host true)
              (cstr "malformed") (cstr "pw") kAES256CBC) as [_ Hfail].
  eexists. split; [reflexivity|].
  destruct (Hfail _ eq_refl eq_refl) as (Hp & Hc & _).
  split; assumption.
Defined.

(** Nothing in front of the size field is looked at: two inputs that agree
    from offset 8 on are decrypted to the same state, whatever their magic
    number, algorithm tag and version bytes are. *)
Theorem Decrypt_ignores_magic_and_version `{H : Host}
    (c c' k : bytes) (a : CryptoAlgorithm) :
  (8 <= length c)%nat -> (8 <= length c')%nat ->
  drop 8 c = drop 8 c' ->
  Decrypt c k a = Decrypt c' k a.
Proof.
  intros Hc Hc' Heq.
  assert (length c = length c') as Hlen.
  { apply (f_equal length) in Heq. rewrite !length_drop in Heq. lia. }
  unfold Decrypt. destruct a; [reflexivity|].
  destruct (le_lt_dec 32 (length c)) as [H32|H32].
  2:{ rewrite !DecryptAES256CBC_short by lia. reflexivity. }
  destruct (decide (k = [])) as [->|Hk].
  { rewrite !DecryptAES256CBC_empty_key by lia. reflexivity. }
  rewrite !DecryptAES256CBC_eq by (assumption || lia). cbv zeta.
  replace (drop 16 c) with (drop 8 (drop 8 c)) by (rewrite drop_drop; reflexivity).
  replace (drop 32 c) with (drop 24 (drop 8 c)) by (rewrite drop_drop; reflexivity).
  replace (drop 16 c') with (drop 8 (drop 8 c')) by (rewrite drop_drop; reflexivity).
  replace (drop 32 c') with (drop 24 (drop 8 c')) by (rewrite drop_drop; reflexivity).
  rewrite Heq. reflexivity.
Qed.

Lemma Decrypt_ignores_magic_and_version_witness :
  let H := reference_host true in
  let body := replicate 8 NUL ++ cstr "0123456789abcdef" ++ cstr "data" in
  Decrypt (cstr "ETTE1001" ++ body) (cstr "pw") kAES256CBC
  = Decrypt (cstr "not ette" ++ body) (cstr "pw") kAES256CBC.
Proof.
  intros H body.
  apply (@Decrypt_ignores_magic_and_version (reference_host true)).
  - cbn. lia.
  - cbn. lia.
  - reflexivity.
Defined.



(** The container of a successful encryption: the four bytes of the magic
    number and what the host reads behind them, the four bytes ["1001"],
    the size field, the sixteen bytes of the IV, and the output of the
    cipher; the state records the plaintext's length and the padded size
    asked of the cipher.  Where nothing is read behind the magic number
    the container begins with ["ETTE1001"] and the decoder of the same
    host reads the length of the plaintext at offset 8; otherwise the size
    field, and everything behind it, lies further back by what was
    read. *)
Theorem Encrypt_container_layout `{H : Host} (p k iv0 behind : bytes) :
  length iv0 = 16%nat ->
  Z.of_nat (length p) < 2 ^ 64 ->
  length (hash256_hex_string k) = 64%nat ->
  behind_magic_number = Some behind ->
  forall e,
    EncryptAES256CBC p k iv0 = Returns e ->
    ok (status e) = true ->
    let n := Z.of_nat (length p) in
    let out := snd (encrypt_cbc p (HashRawKey k) (null_terminated_iv iv0)
                      (get_padded_encrypted_size n) true) in
    ciphertext e
      = cstr "ETTE" ++ behind ++ cstr "1001"
        ++ ConstructPlaintextSizeHeaderForCiphertext n
        ++ null_terminated_iv iv0 ++ out
    /\ length (ciphertext e) = (32 + length behind + length out)%nat
    /\ GetPlaintextSizeFromCiphertext
         (drop (8 + length behind) (ciphertext e)) = n
    /\ (behind = [] ->
        take 8 (ciphertext e) = cstr "ETTE1001"
        /\ GetPlaintextSizeFromCiphertext (drop 8 (ciphertext e)) = n)
    /\ plaintext_size e = n
    /\ ciphertext_size e = get_padded_encrypted_size n
    /\ plaintext e = p /\ raw_key e = k /\ algorithm e = kAES256CBC.
Proof.
  intros Hiv Hlen Hhash Hbehind e He Hok. cbv zeta.
  assert (u64 (Z.of_nat (length p)) = Z.of_nat (length p)) as Hn
    by (unfold u64; apply Z.mod_small; lia).
  destruct (key_vector_eq k Hhash) as [Hkv Hkey].
  unfold EncryptAES256CBC in He. case_bool_decide as Hk.
  { injection He as <-. discriminate Hok. }
  rewrite Hiv, Hkey, Hkv, Hn in He.
  change (16 <? Z.to_nat kHeaderIvSize)%nat with false in He.
  change (32 <? 32)%nat with false in He. cbv iota in He.
  destruct (encrypt_cbc _ _ _ _ _) as [err ct]. cbn [snd].
  unfold string_of_kHeaderMagicNumber in He. rewrite Hbehind in He.
  destruct err; cbn [bind] in He;
    [|injection He as <-; discriminate Hok..].
  assert (e = {| raw_key := k; hashed_key := HashRawKey k; plaintext := p;
                 ciphertext :=
                   frame behind (Z.of_nat (length p))
                     (null_terminated_iv iv0) ct;
                 iv := iv0;
                 ciphertext_size :=
                   get_padded_encrypted_size (Z.of_nat (length p));
                 plaintext_size := Z.of_nat (length p);
                 algorithm := kAES256CBC;
                 status := Status_void kOk "" |}) as ->
    by (injection He as <-; reflexivity).
  cbn [ciphertext plaintext_size ciphertext_size plaintext raw_key algorithm].
  pose proof (null_terminated_iv_length iv0 Hiv) as Hiv'.
  unfold frame.
  change (to_string kVersionMajor) with (cstr "0").
  change (to_string kVersionMinor) with (cstr "0").
  change (to_string kVersionPatch) with (cstr "1").
  change kHeaderMagicNumber with (cstr "ETTE").
  assert ((cstr "ETTE" ++ behind) ++ cstr "1" ++ cstr "0" ++ cstr "0"
          ++ cstr "1"
          ++ ConstructPlaintextSizeHeaderForCiphertext (Z.of_nat (length p))
          ++ null_terminated_iv iv0 ++ ct
          = (cstr "ETTE" ++ behind ++ cstr "1001")
            ++ ConstructPlaintextSizeHeaderForCiphertext
                 (Z.of_nat (length p))
            ++ null_terminated_iv iv0 ++ ct) as ->
    by (now rewrite <- !app_assoc).
  assert (length (cstr "ETTE" ++ behind ++ cstr "1001")
          = (8 + length behind)%nat) as Hmagic.
  { rewrite !length_app. change (length (cstr "ETTE")) with 4%nat.
    change (length (cstr "1001")) with 4%nat. lia. }
  split; [now rewrite <- !app_assoc|]. split.
  { rewrite !length_app, ConstructPlaintextSizeHeader_length, Hiv'.
    rewrite <- !length_app, Hmagic. lia. }
  split.
  { rewrite drop_app_length' by (symmetry; exact Hmagic).
    apply GetPlaintextSize_ConstructHeader. lia. }
  split; [|repeat split].
  intros ->. split; [reflexivity|].
  change (drop 8 ((cstr "ETTE" ++ [] ++ cstr "1001")
                  ++ ConstructPlaintextSizeHeaderForCiphertext
                       (Z.of_nat (length p))
                  ++ null_terminated_iv iv0 ++ ct))
    with (ConstructPlaintextSizeHeaderForCiphertext (Z.of_nat (length p))
          ++ null_terminated_iv iv0 ++ ct).
  apply GetPlaintextSize_ConstructHeader. lia.
Qed.

Lemma Encrypt_container_layout_witness :
  let H := reference_host_behind (cstr "1") true in
  let iv0 :=
    to_char <$> [0; 1; 2; 3; 4; 5; 6; 7; 8; 9; 10; 11; 12; 13; 14; 15] in
  exists e,
    EncryptAES256CBC (cstr "hello") (cstr "test") iv0 = Returns e
    /\ length (ciphertext e) = 49%nat
    /\ take 9 (ciphertext e) = cstr "ETTE11001"
    /\ plaintext_size e = 5 /\ ciphertext_size e = 16.
Proof.
  intros H iv0.
  assert (Z.of_nat (length (cstr "hello")) < 2 ^ 64) as Hlen
    by (vm_compute; reflexivity).
  eexists. split; [reflexivity|].
  lazymatch goal with
  | |- context [ciphertext ?e] =>
      pose proof (@Encrypt_container_layout
                    (reference_host_behind (cstr "1") true) (cstr "hello")
                    (cstr "test") iv0 (cstr "1") eq_refl Hlen eq_refl eq_refl
                    e eq_refl eq_refl)
        as (Hct & Hlayout & _ & _ & Hps & Hcs & _)
  end.
  rewrite Hct. repeat split; assumption || reflexivity.
Defined.

(** The byte order of the size field belongs to the host: on a big-endian
    host the least significant byte comes first and the decoder of that host
    reads the size back; the header written on a little-endian host and read
    on a big-endian one gives the size with its eight bytes in reverse
    order, so a size below 256 is read as that size times [2^56]. *)
Theorem size_header_across_byte_orders
    (Hle Hbe : Host) (n : Z) (rest : bytes) :
  @little_endian_host Hle = true ->
  @little_endian_host Hbe = false ->
  0 <= n < 2 ^ 64 ->
  uchar <$> @ConstructPlaintextSizeHeaderForCiphertext Hbe n
    = [n mod 256; n / 2 ^ 8 mod 256; n / 2 ^ 16 mod 256; n / 2 ^ 24 mod 256;
       n / 2 ^ 32 mod 256; n / 2 ^ 40 mod 256; n / 2 ^ 48 mod 256;
       n / 2 ^ 56 mod 256]
  /\ @GetPlaintextSizeFromCiphertext Hbe
       (@ConstructPlaintextSizeHeaderForCiphertext Hbe n ++ rest) = n
  /\ @ConstructPlaintextSizeHeaderForCiphertext Hbe n
     = reverse (@ConstructPlaintextSizeHeaderForCiphertext Hle n)
  /\ (n < 256 ->
      @GetPlaintextSizeFromCiphertext Hbe
        (@ConstructPlaintextSizeHeaderForCiphertext Hle n ++ rest)
      = n * 2 ^ 56).
Proof.
  intros Hl Hb Hn. split; [|split; [|split]].
  - unfold ConstructPlaintextSizeHeaderForCiphertext, IsSystemLittleEndian.
    rewrite Hb. cbn [fmap list_fmap].
    rewrite !uchar_byte, !Z.shiftr_div_pow2 by lia. reflexivity.
  - now apply GetPlaintextSize_ConstructHeader.
  - unfold ConstructPlaintextSizeHeaderForCiphertext, IsSystemLittleEndian.
    rewrite Hl, Hb. reflexivity.
  - intros Hsmall.
    unfold GetPlaintextSizeFromCiphertext,
      ConstructPlaintextSizeHeaderForCiphertext, IsSystemLittleEndian.
    rewrite Hl, Hb. cbn [app length].
    destruct (Z.ltb_spec
      (Z.of_nat (S (S (S (S (S (S (S (S (length rest)))))))))) 8) as [?|_];
      [lia|].
    unfold byte_at. cbn [nth].
    rewrite !uchar_byte.
    rewrite !Z.shiftr_div_pow2 by lia.
    rewrite !(Z.div_small n) by lia.
    rewrite (Z.mod_small n) by lia.
    change (0 mod 256) with 0. rewrite !Z.shiftl_0_l, !Z.lor_0_r.
    apply Z.shiftl_mul_pow2. lia.
Qed.

Lemma size_header_across_byte_orders_witness :
  @GetPlaintextSizeFromCiphertext (reference_host false)
    (@ConstructPlaintextSizeHeaderForCiphertext (reference_host true) 5
     ++ cstr "rest")
  = 5 * 2 ^ 56.
Proof.
  apply (size_header_across_byte_orders (reference_host true)
           (reference_host false) 5 (cstr "rest")); reflexivity || lia.
Defined.

(** * Further properties of the row store *)

Lemma row_key_of_row_text (l1 l2 : list Row) :
  row_text <$> l1 = row_text <$> l2 -> row_key <$> l1 = row_key <$> l2.
Proof.
  intros Heq.
  change row_key with ((fun t : Z * Z * bytes * ascii * bytes * Z =>
    let '(i, s, c, _, _, _) := t in (i, s, c)) ∘ row_text).
  rewrite !list_fmap_compose. now rewrite Heq.
Qed.

Lemma UpdateRow_keys (fuel : nat) (st : State) (pos : nat) (st' : State) :
  UpdateRow fuel st pos = Returns st' ->
  set_rows [] st' = set_rows [] st
  /\ row_key <$> row st' = row_key <$> row st.
Proof.
  intros Hrun. apply UpdateRow_frame in Hrun
    as (Hst & r & r' & Hr & Hkey & Htext).
  split; [exact Hst|].
  apply row_key_of_row_text in Htext. rewrite Htext.
  rewrite list_fmap_insert. apply list_insert_id.
  rewrite list_lookup_fmap, Hr. cbn. unfold row_key. now rewrite Hkey.
Qed.

Lemma chars_of_row_key (l1 l2 : list Row) :
  row_key <$> l1 = row_key <$> l2 ->
  chars <$> l1 = chars <$> l2 /\ size <$> l1 = size <$> l2
  /\ idx <$> l1 = idx <$> l2.
Proof.
  intros Heq.
  change chars with (snd ∘ row_key).
  change size with ((snd ∘ fst) ∘ row_key).
  change idx with ((fst ∘ fst) ∘ row_key).
  rewrite !(list_fmap_compose row_key). now rewrite Heq.
Qed.

(** With no syntax selected, [UpdateRow] returns for every row that passes
    its length check, and what it returns is the state with the row
    rendered and all of it highlighted as normal text. *)
Lemma UpdateRow_no_syntax (fuel : nat) (st : State) (pos : nat) (r : Row) :
  row st !! pos = Some r ->
  0 <= size r <= Z.of_nat (length (chars r)) ->
  9 * size r < 2 ^ 31 ->
  syntax st = None ->
  let rd := render_chars (take (Z.to_nat (size r)) (chars r)) 0 in
  UpdateRow (S fuel) st pos
  = Returns (set_rows
               (<[pos := set_hl (replicate (length rd) HL_NORMAL)
                           (set_render rd (Z.of_nat (length rd)) r)]>
                  (row st)) st).
Proof.
  intros Hr Hsize Hshort Hsyn rd. unfold UpdateRow, array_get.
  destruct (Z.ltb_spec (Z.of_nat pos) 0) as [?|_]; [lia|].
  rewrite Nat2Z.id, Hr. cbn [bind].
  destruct (Z.ltb_spec (Z.of_nat (length (chars r))) (size r)) as [?|_];
    [lia|].
  set (cs := take (Z.to_nat (size r)) (chars r)) in *.
  assert (length cs = Z.to_nat (size r)) as Hcs
    by (subst cs; rewrite length_take; lia).
  pose proof (count_tabs_bounds cs) as Htabs.
  pose proof (render_chars_length cs 0) as Hrd.
  rewrite Hcs in Htabs, Hrd. fold rd in Hrd.
  assert (u64 (size r + (count_tabs cs * 8) mod 2 ^ 32 + 0 * 9 mod 2 ^ 32 + 1)
          = size r + count_tabs cs * 8 + 1) as ->.
  { unfold u64. rewrite (Z.mod_small (count_tabs cs * 8)) by lia.
    rewrite (Z.mod_small (0 * 9)) by lia. rewrite Z.mod_small by lia. lia. }
  destruct (Z.ltb_spec UINT32_MAX (size r + count_tabs cs * 8 + 1)) as [?|_];
    [unfold UINT32_MAX in *; lia|].
  fold rd.
  destruct (Z.ltb_spec (size r + count_tabs cs * 8 + 1)
              (Z.of_nat (length rd) + 1)) as [?|_]; [lia|].
  cbn [UpdateSyntax]. unfold array_get.
  destruct (Z.ltb_spec (Z.of_nat pos) 0) as [?|_]; [lia|].
  cbn [row set_rows]. rewrite Nat2Z.id.
  rewrite list_lookup_insert_eq by (eapply lookup_lt_Some; eassumption).
  cbn [bind rsize set_render].
  rewrite wrap_int_id by (unfold INT_MIN, INT_MAX; lia).
  destruct (Z.ltb_spec (Z.of_nat (length rd)) 0) as [?|_]; [lia|].
  cbn [syntax set_rows]. rewrite Hsyn, Nat2Z.id.
  rewrite list_insert_insert_eq. reflexivity.
Qed.

Lemma rows_text_chars (rows : list Row) :
  rows_text rows = concat ((fun c => c ++ [LF]) <$> (chars <$> rows)).
Proof. unfold rows_text. now rewrite <- list_fmap_compose. Qed.

Lemma rows_text_app (l1 l2 : list Row) :
  rows_text (l1 ++ l2) = rows_text l1 ++ rows_text l2.
Proof. unfold rows_text. now rewrite fmap_app, concat_app. Qed.

Lemma rows_text_eq (l1 l2 : list Row) :
  chars <$> l1 = chars <$> l2 -> rows_text l1 = rows_text l2.
Proof. intros Heq. now rewrite !rows_text_chars, Heq. Qed.

Lemma InsertRow_keys (s : State) (at_ : Z) (str : bytes) (len : Z)
    (s1 : State) :
  numrows s = Z.of_nat (length (row s)) ->
  0 <= at_ <= numrows s ->
  InsertRow s at_ str len = Returns s1 ->
  row_key <$> row s1
    = row_key <$> inserted_rows (row s) (numrows s) at_ str len
  /\ set_rows [] s1
     = set_rows [] (set_numrows_dirty (wrap_int (numrows s + 1))
                      (wrap_int (dirty s + 1)) s)
  /\ 0 <= len <= Z.of_nat (length str).
Proof.
  intros Hnum Hat Hrun.
  assert (0 <= len <= Z.of_nat (length str)) as Hlen.
  { unfold InsertRow in Hrun.
    destruct (Z.ltb_spec (numrows s) at_) as [?|_]; [lia|].
    destruct (Z.ltb_spec len 0), (Z.ltb_spec (Z.of_nat (length str)) len);
      rewrite ?orb_true_r in Hrun; try discriminate Hrun. lia. }
  apply InsertRow_Returns_inv in Hrun as (st & Hupd & ->); [|assumption..].
  apply UpdateRow_keys in Hupd as [Hst Hkeys].
  cbn [row set_rows set_numrows_dirty] in *.
  split; [exact Hkeys|]. split; [|exact Hlen].
  assert (numrows st = numrows s) as ->
    by (apply (f_equal numrows) in Hst; exact Hst).
  assert (dirty st = dirty s) as ->
    by (apply (f_equal dirty) in Hst; exact Hst).
  change (set_numrows_dirty (wrap_int (numrows s + 1))
            (wrap_int (dirty s + 1)) (set_rows [] st)
          = set_numrows_dirty (wrap_int (numrows s + 1))
              (wrap_int (dirty s + 1)) (set_rows [] s)).
  rewrite Hst. reflexivity.
Qed.

Lemma inserted_rows_chars (rows : list Row) (n at_ : Z) (s : bytes) (len : Z) :
  chars <$> inserted_rows rows n at_ s len
  = take (Z.to_nat at_) (chars <$> rows) ++ take (Z.to_nat len) s
    :: drop (Z.to_nat at_) (chars <$> rows).
Proof.
  unfold inserted_rows. rewrite fmap_app, fmap_cons, fmap_take.
  cbn [chars inserted_row]. do 2 f_equal.
  destruct (negb _); [rewrite <- list_fmap_compose|]; now rewrite fmap_drop.
Qed.

(** [InsertRow] puts the new row at [at], in front of the row that was
    there: the text of the file gains one line, the rows stay numbered by
    their positions where they were, [numrows] and [dirty] grow by one, and
    a well-formed state stays well-formed.  A position behind the end of
    the rows changes nothing. *)
Theorem InsertRow_inserts_line
    (s : State) (at_ : Z) (str : bytes) (len : Z) (s1 : State) :
  numrows s = Z.of_nat (length (row s)) ->
  0 <= at_ ->
  numrows s < INT_MAX ->
  InsertRow s at_ str len = Returns s1 ->
  (numrows s < at_ -> s1 = s)
  /\ (at_ <= numrows s ->
      chars <$> row s1
        = take (Z.to_nat at_) (chars <$> row s) ++ take (Z.to_nat len) str
          :: drop (Z.to_nat at_) (chars <$> row s)
      /\ rows_text (row s1)
         = rows_text (take (Z.to_nat at_) (row s))
           ++ take (Z.to_nat len) str ++ [LF]
           ++ rows_text (drop (Z.to_nat at_) (row s))
      /\ numrows s1 = numrows s + 1
      /\ numrows s1 = Z.of_nat (length (row s1))
      /\ dirty s1 = wrap_int (dirty s + 1)
      /\ (numbered (row s) -> numbered (row s1))
      /\ (Forall row_wf (row s) -> len <= INT_MAX ->
          Forall row_wf (row s1))).
Proof.
  intros Hnum Hat Hmax Hrun. split.
  { intros Hgt. unfold InsertRow in Hrun.
    destruct (Z.ltb_spec (numrows s) at_) as [_|?]; [|lia].
    now injection Hrun as <-. }
  intros Hle.
  apply InsertRow_keys in Hrun as (Hkeys & Hst & Hlen); [|assumption || lia..].
  apply chars_of_row_key in Hkeys as (Hchars & Hsize & Hidx).
  assert (chars <$> row s1
          = take (Z.to_nat at_) (chars <$> row s) ++ take (Z.to_nat len) str
            :: drop (Z.to_nat at_) (chars <$> row s)) as Hc
    by (rewrite Hchars; apply inserted_rows_chars).
  assert (numrows s1 = numrows s + 1) as Hn1.
  { apply (f_equal numrows) in Hst. cbn in Hst. rewrite Hst.
    apply wrap_int_id. unfold INT_MIN, INT_MAX in *. lia. }
  split; [exact Hc|]. split; [|split; [exact Hn1|split; [|split; [|split]]]].
  - rewrite (rows_text_chars (row s1)), Hc, fmap_app, fmap_cons, concat_app.
    cbn [concat]. rewrite <- fmap_take, <- fmap_drop, <- !rows_text_chars.
    now rewrite <- app_assoc.
  - rewrite Hn1. apply (f_equal length) in Hchars.
    rewrite !length_fmap, inserted_rows_length in Hchars by lia. lia.
  - apply (f_equal dirty) in Hst. exact Hst.
  - intros Hnumd. eapply numbered_of_idx; [exact Hidx|].
    rewrite Hnum. apply inserted_rows_numbered; [assumption|lia..].
  - intros Hwf Hlenmax.
    assert (Forall row_wf (inserted_rows (row s) (numrows s) at_ str len))
      as Hwf1.
    { unfold inserted_rows. apply Forall_app. split; [now apply Forall_take|].
      constructor.
      - unfold row_wf. cbn [size chars inserted_row].
        rewrite wrap_int_id by (unfold INT_MIN, INT_MAX in *; lia).
        rewrite length_take. lia.
      - destruct (negb _); [|now apply Forall_drop].
        apply Forall_fmap. eapply Forall_impl; [apply Forall_drop, Hwf|].
        intros r Hr. exact Hr. }
    apply Forall_lookup. intros j r Hr.
    assert ((size <$> row s1) !! j = Some (size r)) as Hs
      by (rewrite list_lookup_fmap, Hr; reflexivity).
    assert ((chars <$> row s1) !! j = Some (chars r)) as Hcj
      by (rewrite list_lookup_fmap, Hr; reflexivity).
    rewrite Hsize, list_lookup_fmap in Hs. rewrite Hchars, list_lookup_fmap in Hcj.
    destruct (inserted_rows _ _ _ _ _ !! j) as [r0|] eqn:Hr0; [|discriminate].
    injection Hs as Hs. injection Hcj as Hcj.
    eapply Forall_lookup in Hwf1; [|exact Hr0].
    unfold row_wf in *. congruence.
Qed.

Lemma InsertRow_inserts_line_witness :
  exists s1,
    InsertRow three_rows 1 (cstr "new row") 7 = Returns s1
    /\ chars <$> row s1
       = [cstr "first row"; cstr "new row"; cstr "second row";
          cstr "third row"]
    /\ numbered (row s1).
Proof.
  destruct (InsertRow_returns three_rows 1 (cstr "new row") 7)
    as [s1 Hs1]; [reflexivity|cbn; lia|cbn; lia|lia|reflexivity|].
  exists s1. split; [exact Hs1|].
  destruct (InsertRow_inserts_line three_rows 1 (cstr "new row") 7 s1)
    as [_ Hin]; [reflexivity|lia|vm_compute; reflexivity|exact Hs1|].
  destruct Hin as (Hc & _ & _ & _ & _ & Hnumd & _); [cbn; lia|].
  split; [exact Hc|]. apply Hnumd.
  intros [|[|[|j]]] r [= <-]; reflexivity.
Defined.

(** * Rendering and highlighting a row *)

Lemma tab_fill_replicate (fuel : nat) :
  forall idx : Z,
    0 <= idx -> 7 - idx mod 8 <= Z.of_nat fuel ->
    tab_fill fuel idx = replicate (Z.to_nat (7 - idx mod 8)) " "%char.
Proof.
  induction fuel as [|fuel IH]; intros idx Hidx Hfuel.
  - replace (Z.to_nat (7 - idx mod 8)) with 0%nat
      by (pose proof (Z.mod_pos_bound idx 8); lia).
    reflexivity.
  - cbn [tab_fill]. destruct (Z.eqb_spec ((idx + 1) mod 8) 0) as [H0|H0];
      cbn [negb].
    + replace (Z.to_nat (7 - idx mod 8)) with 0%nat; [reflexivity|].
      revert H0. Z.div_mod_to_equations. lia.
    + assert ((idx + 1) mod 8 = idx mod 8 + 1) as Hmod
        by (revert H0; Z.div_mod_to_equations; lia).
      rewrite IH by lia. rewrite Hmod.
      replace (Z.to_nat (7 - idx mod 8))
        with (S (Z.to_nat (7 - (idx mod 8 + 1))))
        by (pose proof (Z.mod_pos_bound idx 8);
            pose proof (Z.mod_pos_bound (idx + 1) 8); lia).
      reflexivity.
Qed.

Lemma render_chars_app (a b : bytes) :
  forall idx : Z,
    render_chars (a ++ b) idx
    = render_chars a idx
      ++ render_chars b (idx + Z.of_nat (length (render_chars a idx))).
Proof.
  induction a as [|c a IH]; intros idx; cbn [app render_chars length].
  - now rewrite Z.add_0_r.
  - case_bool_decide.
    + rewrite IH. cbn [app length]. rewrite <- app_assoc, length_app.
      f_equal. f_equal. f_equal. f_equal. lia.
    + rewrite IH. cbn [app length]. f_equal. f_equal. f_equal. lia.
Qed.

Lemma render_chars_no_tab (cs : bytes) :
  forall idx : Z,
    Forall (fun c => uchar c <> TAB) cs -> render_chars cs idx = cs.
Proof.
  induction cs as [|c cs IH]; intros idx Hcs; [reflexivity|].
  apply Forall_cons in Hcs as [Hc Hcs]. cbn [render_chars].
  rewrite bool_decide_eq_false_2 by exact Hc. now rewrite IH.
Qed.

Lemma render_chars_tab_free (cs : bytes) :
  forall idx : Z, Forall (fun c => uchar c <> TAB) (render_chars cs idx).
Proof.
  induction cs as [|c cs IH]; intros idx; cbn [render_chars]; [constructor|].
  case_bool_decide.
  - constructor; [discriminate|]. apply Forall_app. split; [|apply IH].
    generalize (idx + 1). generalize 8%nat.
    intros n. induction n as [|n IHn]; intros z; cbn [tab_fill];
      [constructor|].
    destruct (negb _); constructor; [discriminate|apply IHn].
  - constructor; [assumption|apply IH].
Qed.

(** The tab stops of [UpdateRow]: a tab is written as one to eight spaces,
    as many as it takes for the next character to land in a column that is
    one less than a multiple of eight (7, 15, 23, ... counting from 0);
    nothing else of the row is changed, no tab is left in the result, and
    a row without tabs is rendered as it is. *)
Theorem UpdateRow_tab_stops (pre post : bytes) :
  let col := Z.of_nat (length (render_chars pre 0)) in
  let k := Z.to_nat (8 - (col + 1) mod 8) in
  render_chars (pre ++ to_char TAB :: post) 0
  = render_chars pre 0 ++ replicate k " "%char
    ++ render_chars post (col + Z.of_nat k)
  /\ (1 <= k <= 8)%nat
  /\ (col + Z.of_nat k + 1) mod 8 = 0
  /\ Forall (fun c => uchar c <> TAB)
            (render_chars (pre ++ to_char TAB :: post) 0)
  /\ (Forall (fun c => uchar c <> TAB) post ->
      render_chars post (col + Z.of_nat k) = post).
Proof.
  intros col k.
  assert (0 <= (col + 1) mod 8 < 8) as Hmod by (apply Z.mod_pos_bound; lia).
  split; [|split; [lia|split; [|split]]].
  - rewrite render_chars_app. fold col. f_equal. rewrite Z.add_0_l.
    cbn [render_chars].
    rewrite bool_decide_eq_true_2 by reflexivity.
    rewrite tab_fill_replicate by (cbn; lia).
    replace k with (S (Z.to_nat (7 - (col + 1) mod 8))) by lia.
    cbn [replicate app]. rewrite length_replicate.
    do 3 f_equal. lia.
  - unfold k. rewrite Z2Nat.id by lia.
    revert Hmod. Z.div_mod_to_equations. lia.
  - apply render_chars_tab_free.
  - apply render_chars_no_tab.
Qed.

Lemma array_set_length {A} (a : list A) (i : Z) (v : A) (a' : list A) :
  array_set a i v = Returns a' -> length a' = length a.
Proof.
  unfold array_set. destruct (i <? 0); [discriminate|].
  destruct (_ <? _)%nat; [|discriminate].
  intros [= <-]. apply length_insert.
Qed.

Lemma array_fill_length {A} (a : list A) (i : nat) (n : Z) (v : A)
    (a' : list A) :
  array_fill a i n v = Returns a' -> length a' = length a.
Proof.
  unfold array_fill. destruct (n <? 0); [discriminate|].
  destruct (Nat.leb_spec (i + Z.to_nat n) (length a)); [|discriminate].
  intros [= <-]. rewrite !length_app, length_take, length_replicate, length_drop.
  lia.
Qed.

Ltac highlight_step H IH :=
  match type of H with
  | Returns _ = Returns _ => injection H as <- <-
  | highlight _ _ _ _ _ _ _ _ = Returns _ => apply IH in H
  | bind (array_set ?a ?i ?v) _ = Returns _ =>
      let E := fresh "E" in
      destruct (array_set a i v) eqn:E; cbn [bind] in H;
      [apply array_set_length in E|discriminate H..]
  | bind (array_fill ?a ?i ?n ?v) _ = Returns _ =>
      let E := fresh "E" in
      destruct (array_fill a i n v) eqn:E; cbn [bind] in H;
      [apply array_fill_length in E|discriminate H..]
  | bind ?m _ = Returns _ =>
      let E := fresh "E" in
      destruct m eqn:E; cbn [bind] in H; [clear E|discriminate H..]
  | (if ?b then _ else _) = Returns _ => destruct b
  | match ?x with Some _ => _ | None => _ end = Returns _ =>
      destruct x as [[? ?]|]
  end.

Lemma highlight_length (fuel : nat) (syn : Syntax) (r : Row) :
  forall (i : nat) (prev_sep : bool) (in_string : Z) (in_comment : bool)
         (hl0 h : list Z) (returned : bool),
    highlight fuel syn r i prev_sep in_string in_comment hl0
    = Returns (h, returned) ->
    length h = length hl0.
Proof.
  induction fuel as [|fuel IH];
    intros i prev_sep in_string in_comment hl0 h returned Hrun;
    [discriminate|].
  cbn [highlight] in Hrun. cbv zeta in Hrun.
  repeat highlight_step Hrun IH; congruence.
Qed.

Lemma UpdateSyntax_hl (fuel : nat) :
  forall (st : State) (pos : nat) (st' : State),
    UpdateSyntax fuel st pos = Returns st' ->
    forall (j : nat) (r' : Row),
      row st' !! j = Some r' ->
      exists r0,
        row st !! j = Some r0
        /\ row_text r' = row_text r0
        /\ ((j <> pos /\ hl r' = hl r0)
            \/ length (hl r') = Z.to_nat (rsize r')).
Proof.
  induction fuel as [|fuel IH]; intros st pos st' Hrun; [discriminate|].
  cbn [UpdateSyntax] in Hrun.
  bind_inv Hrun. apply array_get_Returns in E as [_ Hr].
  rewrite Nat2Z.id in Hr.
  destruct (rsize a <? 0); [discriminate|].
  cbn [syntax set_rows row] in Hrun.
  set (r0 := set_hl _ a) in Hrun.
  assert (pos < length (row st))%nat as Hpos
    by (eapply lookup_lt_Some; eassumption).
  assert (forall (h : list Z) (j : nat) (r' : Row),
             length h = Z.to_nat (rsize a) ->
             <[pos := set_hl h r0]> (row st) !! j = Some r' ->
             exists r1, row st !! j = Some r1 /\ row_text r' = row_text r1
               /\ ((j <> pos /\ hl r' = hl r1)
                   \/ length (hl r') = Z.to_nat (rsize r'))) as Hins.
  { intros h j r' Hh Hj. destruct (decide (j = pos)) as [->|Hne].
    - rewrite list_lookup_insert_eq in Hj by lia. injection Hj as <-.
      exists a. split; [exact Hr|]. split; [reflexivity|]. right. exact Hh.
    - rewrite list_lookup_insert_ne in Hj by congruence.
      exists r'. split; [exact Hj|]. split; [reflexivity|]. left. now split. }
  destruct (syntax st) as [syn|].
  2:{ injection Hrun as <-. cbn [row set_rows]. intros j r' Hj.
      apply (Hins (replicate (Z.to_nat (rsize a)) HL_NORMAL)).
      - apply length_replicate.
      - exact Hj. }
  bind_inv Hrun. clear E. bind_inv Hrun.
  destruct a1 as [h returned].
  apply highlight_length in E. cbn [hl r0 set_hl] in E.
  rewrite length_replicate in E.
  rewrite list_insert_insert_eq in Hrun.
  change (set_hl h r0) with (set_hl h (set_hl h r0)) in Hins.
  destruct returned.
  { injection Hrun as <-. cbn [row set_rows]. intros j r' Hj.
    now apply (Hins h). }
  bind_inv Hrun. clear E0. bind_inv Hrun.
  injection Hrun as <-. cbn [row set_rows]. intros j r' Hj.
  assert (exists r2, row a2 !! j = Some r2 /\ row_text r' = row_text r2
                     /\ hl r' = hl r2) as (r2 & Hr2 & Htext & Hhl).
  { destruct (decide (j = pos)) as [->|Hne].
    - rewrite list_lookup_alter_eq in Hj.
      destruct (row a2 !! pos) as [r2|]; [|discriminate].
      injection Hj as <-. exists r2. now repeat split.
    - rewrite list_lookup_alter_ne in Hj by congruence.
      exists r'. now repeat split. }
  assert (exists r1, <[pos := set_hl h r0]> (row st) !! j = Some r1
                     /\ row_text r2 = row_text r1
                     /\ (hl r2 = hl r1
                         \/ length (hl r2) = Z.to_nat (rsize r2)))
    as (r1 & Hr1 & Htext1 & Hhl1).
  { destruct (_ && _).
    - destruct (_ <? 0); [discriminate|].
      eapply IH in E0 as (r1 & Hr1 & Htext1 & Hhl1); [|exact Hr2].
      cbn [row set_rows] in Hr1. exists r1. split; [exact Hr1|].
      split; [exact Htext1|]. destruct Hhl1 as [[_ ?]|?]; [now left|now right].
    - injection E0 as <-. cbn [row set_rows] in Hr2.
      exists r2. split; [exact Hr2|]. split; [reflexivity|now left]. }
  apply (Hins h) in Hr1 as (r3 & Hr3 & Htext3 & Hhl3); [|exact E].
  exists r3. split; [exact Hr3|]. split; [congruence|].
  assert (rsize r' = rsize r2) as Hrs by (unfold row_text in Htext; congruence).
  assert (rsize r2 = rsize r1) as Hrs1
      by (unfold row_text in Htext1; congruence).
  rewrite Hhl, Hrs.
  destruct Hhl1 as [Heq|Hlen]; [|now right].
  rewrite Heq, Hrs1. destruct Hhl3 as [[Hne Heq3]|Hlen3]; [|now right].
  left. split; [exact Hne|exact Heq3].
Qed.

Lemma UpdateRow_spec
    (fuel : nat) (st : State) (pos : nat) (r : Row) (st' : State) :
  row st !! pos = Some r ->
  9 * size r < 2 ^ 31 ->
  UpdateRow fuel st pos = Returns st' ->
  set_rows [] st' = set_rows [] st
  /\ (exists r',
        row st' !! pos = Some r'
        /\ row_key r' = row_key r
        /\ render r' = render_chars (take (Z.to_nat (size r)) (chars r)) 0
        /\ rsize r' = Z.of_nat (length (render r'))
        /\ length (hl r') = length (render r')
        /\ chars_end r' = chars_end r)
  /\ (forall (j : nat) (r1 : Row),
        j <> pos -> row st' !! j = Some r1 ->
        exists r0,
          row st !! j = Some r0 /\ row_text r1 = row_text r0
          /\ (hl r1 = hl r0 \/ length (hl r1) = Z.to_nat (rsize r1))).
Proof.
  intros Hr Hsize Hrun.
  pose proof (UpdateRow_frame _ _ _ _ Hrun) as [Hst _].
  split; [exact Hst|].
  unfold UpdateRow, array_get in Hrun.
  destruct (Z.ltb_spec (Z.of_nat pos) 0) as [?|_]; [lia|].
  rewrite Nat2Z.id, Hr in Hrun. cbn [bind] in Hrun.
  destruct (Z.ltb_spec (Z.of_nat (length (chars r))) (size r)) as [?|Hlen];
    [discriminate|].
  destruct (UINT32_MAX <? _); [discriminate|].
  destruct (_ <? _); [discriminate|].
  set (cs := take (Z.to_nat (size r)) (chars r)) in *.
  set (rd := render_chars cs 0) in *.
  assert (pos < length (row st))%nat as Hpos
    by (eapply lookup_lt_Some; eassumption).
  assert (wrap_int (Z.of_nat (length rd)) = Z.of_nat (length rd)) as Hwrap.
  { apply wrap_int_id. unfold INT_MIN, INT_MAX.
    pose proof (render_chars_length cs 0) as Hrd. fold rd in Hrd.
    pose proof (count_tabs_bounds cs) as Htabs.
    assert (Z.of_nat (length cs) <= Z.max 0 (size r))
      by (unfold cs; rewrite length_take; lia).
    lia. }
  rewrite Hwrap in Hrun.
  pose proof (UpdateSyntax_hl _ _ _ _ Hrun) as Hhl.
  cbn [row set_rows] in Hhl.
  split.
  - destruct (row st' !! pos) as [r'|] eqn:Hr'.
    2:{ apply UpdateSyntax_frame in Hrun as [_ Hrows].
        apply (f_equal length) in Hrows.
        rewrite !length_fmap in Hrows. cbn [row set_rows] in Hrows.
        rewrite length_insert in Hrows.
        apply lookup_ge_None in Hr'. lia. }
    exists r'. split; [reflexivity|].
    destruct (Hhl pos r' Hr') as (r0 & Hr0 & Htext & Hlenhl).
    rewrite list_lookup_insert_eq in Hr0 by lia. injection Hr0 as <-.
    unfold row_text in Htext.
    cbn [idx size chars chars_end render rsize set_render] in Htext.
    injection Htext as Hi Hs Hc He Hrd Hrs.
    split; [unfold row_key; congruence|]. split; [exact Hrd|].
    split; [congruence|]. split; [|exact He].
    destruct Hlenhl as [[Hne _]|Hlenhl]; [contradiction|].
    rewrite Hlenhl, Hrs, Hrd. apply Nat2Z.id.
  - intros j r1 Hne Hj. destruct (Hhl j r1 Hj) as (r0 & Hr0 & Htext & Hlenhl).
    rewrite list_lookup_insert_ne in Hr0 by congruence.
    exists r0. split; [exact Hr0|]. split; [exact Htext|].
    destruct Hlenhl as [[_ ?]|?]; [now left|now right].
Qed.

Lemma render_chars_bounds (cs : bytes) :
  forall idx : Z,
    0 <= idx ->
    Z.of_nat (length cs) <= Z.of_nat (length (render_chars cs idx))
    /\ Z.of_nat (length (render_chars cs idx))
       <= Z.of_nat (length cs) + 7 * count_tabs cs.
Proof.
  induction cs as [|c cs IH]; intros idx Hidx;
    [change (count_tabs []) with 0; cbn; lia|].
  rewrite count_tabs_cons. cbn [render_chars length].
  case_bool_decide.
  - cbn [length]. rewrite length_app.
    pose proof (Z.mod_pos_bound (idx + 1) 8).
    rewrite tab_fill_replicate by (cbn; lia). rewrite length_replicate.
    specialize (IH (idx + 1 + Z.of_nat (Z.to_nat (7 - (idx + 1) mod 8)))).
    lia.
  - cbn [length]. specialize (IH (idx + 1)). lia.
Qed.

(** When [UpdateRow] returns for a row whose [size] is the length of its
    characters, the render of the row is its characters with the tabs
    expanded: it holds no tab and is at most seven columns longer for each
    tab.  [rsize] is the length of the render, and the highlight array has
    one entry for each rendered character.  The characters, sizes and
    indexes of all rows, the renders of the other rows and the rest of the
    state are as before; a row whose highlighting was redone because a
    comment was opened or closed above it has an array of the length of
    its render as well. *)
Theorem UpdateRow_render_and_highlight
    (fuel : nat) (st : State) (pos : nat) (r : Row) (st' : State) :
  row st !! pos = Some r -> row_wf r ->
  9 * size r < 2 ^ 31 ->
  UpdateRow fuel st pos = Returns st' ->
  (exists r',
     row st' !! pos = Some r'
     /\ idx r' = idx r /\ size r' = size r /\ chars r' = chars r
     /\ render r' = render_chars (chars r) 0
     /\ Forall (fun c => uchar c <> TAB) (render r')
     /\ rsize r' = Z.of_nat (length (render r'))
     /\ size r <= rsize r' <= size r + 7 * count_tabs (chars r)
     /\ length (hl r') = length (render r'))
  /\ set_rows [] st' = set_rows [] st
  /\ (forall (j : nat) (r1 : Row),
        j <> pos -> row st' !! j = Some r1 ->
        exists r0,
          row st !! j = Some r0 /\ row_text r1 = row_text r0
          /\ (hl r1 = hl r0 \/ length (hl r1) = Z.to_nat (rsize r1))).
Proof.
  intros Hr Hwf Hsize Hrun. unfold row_wf in Hwf.
  destruct (UpdateRow_spec fuel st pos r st' Hr Hsize Hrun)
    as (Hst & (r' & Hr' & Hkey & Hrd & Hrs & Hhl & _) & Hothers).
  split; [|split; [exact Hst|exact Hothers]].
  exists r'. unfold row_key in Hkey. injection Hkey as Hidx Hsz Hchars.
  rewrite Hwf, Nat2Z.id, firstn_all in Hrd.
  destruct (render_chars_bounds (chars r) 0) as [Hlo Hhi]; [lia|].
  rewrite <- Hrd, <- Hrs, <- Hwf in Hlo, Hhi.
  repeat split; try assumption.
  rewrite Hrd. apply render_chars_tab_free.
Qed.

Lemma UpdateRow_render_and_highlight_witness :
  exists st' r',
    UpdateRow 3 c_file 0 = Returns st'
    /\ row st' !! 0%nat = Some r'
    /\ render r' = cstr "int x = 10; /* ten */"
    /\ length (hl r') = length (render r').
Proof.
  destruct (UpdateRow 3 c_file 0) as [st'| | | |] eqn:Hrun;
    [|vm_compute in Hrun; discriminate Hrun..].
  destruct (UpdateRow_render_and_highlight 3 c_file 0
              (plain_row 0 "int x = 10; /* ten */") st')
    as ((r' & Hr' & _ & _ & _ & Hrd & _ & _ & _ & Hhl) & _);
    [reflexivity|reflexivity|vm_compute; reflexivity|exact Hrun|].
  exists st', r'. split; [reflexivity|]. split; [exact Hr'|].
  split; [|exact Hhl]. rewrite Hrd. reflexivity.
Defined.

Lemma UpdateRow_tab_stops_witness :
  render_chars (cstr "ab" ++ to_char TAB :: cstr "cd") 0
  = cstr "ab     cd".
Proof.
  destruct (UpdateRow_tab_stops (cstr "ab") (cstr "cd"))
    as (Heq & _ & _ & _ & Hpost).
  rewrite Heq, Hpost; [reflexivity|].
  repeat constructor; discriminate.
Defined.

(** * Choosing the syntax by the file name *)

Lemma find_from_first (needle : bytes) (haystack : bytes) :
  forall (pos q : nat),
    find_from haystack needle pos = Some q ->
    exists k,
      q = (pos + k)%nat /\ (k <= length haystack)%nat
      /\ take (length needle) (drop k haystack) = needle
      /\ forall k', (k' < k)%nat ->
           take (length needle) (drop k' haystack) <> needle.
Proof.
  induction haystack as [|c h IH]; intros pos q; cbn [find_from].
  - case_bool_decide as Hp; [|discriminate]. intros [= <-].
    exists 0%nat. repeat split; [lia|cbn; lia|exact Hp|lia].
  - case_bool_decide as Hp.
    + intros [= <-]. exists 0%nat. repeat split; [lia|cbn; lia|exact Hp|lia].
    + intros Hq. apply IH in Hq as (k & -> & Hk & Hat & Hleast).
      exists (S k). repeat split; [lia|cbn [length]; lia|exact Hat|].
      intros [|k'] Hk'; [exact Hp|]. cbn [drop]. apply Hleast. lia.
Qed.

Lemma find_from_None (needle : bytes) (haystack : bytes) :
  forall (pos k : nat),
    find_from haystack needle pos = None ->
    take (length needle) (drop k haystack) <> needle.
Proof.
  induction haystack as [|c h IH]; intros pos k; cbn [find_from].
  - case_bool_decide as Hp; [discriminate|]. intros _.
    now rewrite drop_nil.
  - case_bool_decide as Hp; [discriminate|]. intros Hq.
    destruct k as [|k]; [exact Hp|]. cbn [drop]. eapply IH. exact Hq.
Qed.

Lemma find_from_least (needle : bytes) (haystack : bytes) :
  forall (pos k : nat),
    take (length needle) (drop k haystack) = needle ->
    (forall k', (k' < k)%nat ->
       take (length needle) (drop k' haystack) <> needle) ->
    (k <= length haystack)%nat ->
    find_from haystack needle pos = Some (pos + k)%nat.
Proof.
  induction haystack as [|c h IH]; intros pos k Hat Hleast Hk;
    cbn [find_from].
  - cbn [length] in Hk. assert (k = 0)%nat as -> by lia.
    rewrite bool_decide_eq_true_2 by exact Hat. f_equal. lia.
  - destruct k as [|k].
    + rewrite bool_decide_eq_true_2 by exact Hat. f_equal. lia.
    + rewrite bool_decide_eq_false_2 by (apply (Hleast 0%nat); lia).
      rewrite (IH (S pos) k); [f_equal; lia|exact Hat| |cbn [length] in Hk; lia].
      intros k' Hk'. apply (Hleast (S k')). lia.
Qed.

(** A pattern that begins with a dot matches when the first place where it
    occurs in the name is the end of the name. *)
Lemma filematch_any_true (filename : bytes) (patterns : list bytes) :
  Forall (fun pat => exists pat', pat = "."%char :: pat') patterns ->
  filematch_any filename patterns = true ->
  exists pat p,
    pat ∈ patterns /\ string_find filename pat = Some p
    /\ (p + length pat = length filename)%nat.
Proof.
  induction patterns as [|pat pats IH]; intros Hdots; cbn [filematch_any];
    [discriminate|].
  apply Forall_cons in Hdots as [(pat' & ->) Hdots].
  destruct (string_find filename ("."%char :: pat')) as [p|] eqn:Hfind.
  - cbn [nth]. rewrite bool_decide_eq_true_2 by reflexivity.
    cbn [negb orb]. case_bool_decide as Hend.
    + intros _. exists ("."%char :: pat'), p.
      split; [left|]. split; [exact Hfind|exact Hend].
    + intros Hrest. destruct (IH Hdots Hrest) as (pat & q & Hin & Hq & Hend').
      exists pat, q. split; [now right|]. now split.
  - intros Hrest. destruct (IH Hdots Hrest) as (pat & q & Hin & Hq & Hend').
    exists pat, q. split; [now right|]. now split.
Qed.

Lemma filematch_any_intro (filename : bytes) (patterns : list bytes)
    (pat : bytes) (p : nat) :
  pat ∈ patterns -> string_find filename pat = Some p ->
  (p + length pat = length filename)%nat ->
  filematch_any filename patterns = true.
Proof.
  intros Hin Hfind Hend.
  induction patterns as [|pat0 pats IH]; [inversion Hin|].
  cbn [filematch_any]. apply elem_of_cons in Hin as [<-|Hin].
  - rewrite Hfind. rewrite (bool_decide_eq_true_2 (_ = length filename))
      by exact Hend.
    now rewrite orb_true_r.
  - destruct (string_find filename pat0); [|now apply IH].
    destruct (_ || _); [reflexivity|now apply IH].
Qed.

Lemma string_find_suffix (filename pat : bytes) (p : nat) :
  string_find filename pat = Some p ->
  (p + length pat = length filename)%nat ->
  filename = take p filename ++ pat.
Proof.
  intros Hfind Hend. apply find_from_first in Hfind as (k & -> & _ & Hat & _).
  cbn [Nat.add] in *.
  rewrite take_ge in Hat by (rewrite length_drop; lia).
  rewrite <- Hat. symmetry. apply take_drop.
Qed.

Lemma no_dot_no_match (ext' pat' : bytes) (k : nat) :
  "."%char ∉ ext' ->
  take (S (length pat')) (drop k ext') <> "."%char :: pat'.
Proof.
  intros Hdot Heq. apply Hdot.
  destruct (drop k ext') as [|c rest] eqn:Hdrop; [discriminate|].
  cbn in Heq. injection Heq as -> _.
  apply (list_elem_of_lookup_2 _ k).
  rewrite <- (Nat.add_0_r k), <- lookup_drop, Hdrop. reflexivity.
Qed.

(** In a name with one dot the place where a pattern occurs first is where
    the dot is. *)
Lemma string_find_single_dot (base ext' pat' : bytes) :
  "."%char ∉ base -> "."%char ∉ ext' ->
  string_find (base ++ "."%char :: ext') ("."%char :: pat')
  = if bool_decide (take (length pat') ext' = pat')
    then Some (length base) else None.
Proof.
  intros Hbase Hext. unfold string_find.
  assert (forall k, (k < length base)%nat ->
            take (length ("."%char :: pat'))
                 (drop k (base ++ "."%char :: ext')) <> "."%char :: pat')
    as Hbefore.
  { intros k Hk Heq. rewrite drop_app_le in Heq by lia.
    destruct (drop k base) as [|c rest] eqn:Hdrop.
    - apply (f_equal length) in Hdrop. rewrite length_drop in Hdrop.
      cbn in Hdrop. lia.
    - cbn in Heq. injection Heq as -> _. apply Hbase.
      apply (list_elem_of_lookup_2 _ k).
      rewrite <- (Nat.add_0_r k), <- lookup_drop, Hdrop. reflexivity. }
  case_bool_decide as Hat.
  - rewrite <- (Nat.add_0_l (length base)). apply find_from_least.
    + rewrite drop_app_length. cbn [length take]. now rewrite Hat.
    + exact Hbefore.
    + rewrite length_app. lia.
  - destruct (find_from _ _ 0) as [q|] eqn:Hfind; [|reflexivity].
    exfalso. apply find_from_first in Hfind as (k & _ & Hk & Hk_at & _).
    destruct (lt_eq_lt_dec k (length base)) as [[Hlt | ->] | Hgt].
    + now apply (Hbefore k).
    + rewrite drop_app_length in Hk_at. cbn [length take] in Hk_at.
      injection Hk_at as Hk_at. contradiction.
    + apply (no_dot_no_match ext' pat' (k - length base - 1)); [exact Hext|].
      rewrite drop_app_ge in Hk_at by lia.
      replace (k - length base)%nat with (S (k - length base - 1)) in Hk_at
        by lia.
      exact Hk_at.
Qed.

Lemma filematch_any_single_dot (base ext' : bytes) (patterns : list bytes) :
  "."%char ∉ base -> "."%char ∉ ext' ->
  Forall (fun pat => exists pat', pat = "."%char :: pat') patterns ->
  ("."%char :: ext') ∈ patterns ->
  filematch_any (base ++ "."%char :: ext') patterns = true.
Proof.
  intros Hbase Hext Hdots Hin.
  apply (filematch_any_intro _ _ ("."%char :: ext') (length base)).
  - exact Hin.
  - rewrite string_find_single_dot by assumption.
    rewrite bool_decide_eq_true_2; [reflexivity|]. apply firstn_all.
  - rewrite length_app. reflexivity.
Qed.

Lemma C_HL_extensions_dots :
  Forall (fun pat => exists pat', pat = "."%char :: pat') C_HL_extensions.
Proof. repeat constructor; eexists; reflexivity. Qed.

(** [SelectSyntaxHighlight] sets nothing but [syntax].  It selects the C
    syntax for every name that is a stem without a dot followed by one of
    the extensions; when it selects a syntax, the name ends with one of the
    extensions.  But only the first place where an extension occurs is
    looked at: a name that ends with [.c] and has another [.c] before it
    (my.config.c, a.cpp.c) gets no syntax and the state stays as it is. *)
Theorem SelectSyntaxHighlight_first_occurrence (st : State) :
  (forall filename : bytes,
     let st' := SelectSyntaxHighlight st filename in
     set_syntax (syntax st) st' = st
     /\ (st' = st
         \/ (syntax st' = HLDB !! 0%nat
             /\ exists stem ext,
                  ext ∈ C_HL_extensions /\ filename = stem ++ ext)))
  /\ (forall stem ext : bytes,
        "."%char ∉ stem -> ext ∈ C_HL_extensions ->
        syntax (SelectSyntaxHighlight st (stem ++ ext)) = HLDB !! 0%nat)
  /\ (forall pre mid : bytes,
        SelectSyntaxHighlight st (pre ++ cstr ".c" ++ mid ++ cstr ".c") = st).
Proof.
  split; [|split].
  - intros filename st'. unfold st', SelectSyntaxHighlight, HLDB.
    cbn [select_syntax filematch].
    destruct (filematch_any filename C_HL_extensions) eqn:Hmatch.
    + split; [destruct st; reflexivity|]. right. split; [reflexivity|].
      apply filematch_any_true in Hmatch as (pat & p & Hin & Hfind & Hend);
        [|exact C_HL_extensions_dots].
      exists (take p filename), pat. split; [exact Hin|].
      now apply string_find_suffix.
    + split; [destruct st; reflexivity|now left].
  - intros stem ext Hstem Hext. unfold SelectSyntaxHighlight, HLDB.
    cbn [select_syntax filematch].
    assert (exists ext', ext = "."%char :: ext' /\ "."%char ∉ ext')
      as (ext' & -> & Hext').
    { unfold C_HL_extensions in Hext. cbn [fmap list_fmap] in Hext.
      repeat (apply elem_of_cons in Hext as [->|Hext];
              [eexists; split; [reflexivity|];
               intros Hin; repeat (apply elem_of_cons in Hin as [Hin|Hin];
                                   [discriminate Hin|]);
               inversion Hin|]).
      inversion Hext. }
    rewrite filematch_any_single_dot;
      [reflexivity|assumption|assumption|exact C_HL_extensions_dots|exact Hext].
  - intros pre mid. unfold SelectSyntaxHighlight, HLDB.
    cbn [select_syntax filematch].
    destruct (filematch_any _ C_HL_extensions) eqn:Hmatch; [|reflexivity].
    exfalso.
    apply filematch_any_true in Hmatch as (pat & p & Hin & Hfind & Hend);
      [|exact C_HL_extensions_dots].
    set (f := pre ++ cstr ".c" ++ mid ++ cstr ".c") in *.
    pose proof (string_find_suffix _ _ _ Hfind Hend) as Hsuffix.
    assert (reverse f = reverse (cstr ".c") ++ reverse (pre ++ cstr ".c" ++ mid))
      as Hrev.
    { unfold f. rewrite !app_assoc, reverse_app. now rewrite <- !app_assoc. }
    apply (f_equal reverse) in Hsuffix. rewrite reverse_app, Hrev in Hsuffix.
    unfold C_HL_extensions in Hin. cbn [fmap list_fmap] in Hin.
    apply elem_of_cons in Hin as [->|Hin].
    + (* [.c] itself: it occurs before the end *)
      apply find_from_first in Hfind as (k & -> & _ & _ & Hleast).
      apply (Hleast (length pre)).
      * unfold f in Hend. rewrite !length_app in Hend. cbn in Hend.
        cbn. lia.
      * unfold f. rewrite drop_app_length. reflexivity.
    + repeat (apply elem_of_cons in Hin as [->|Hin];
              [vm_compute in Hsuffix; discriminate Hsuffix|]).
      inversion Hin.
Qed.

Lemma SelectSyntaxHighlight_first_occurrence_witness :
  syntax (SelectSyntaxHighlight State_new (cstr "main.cpp")) = HLDB !! 0%nat
  /\ SelectSyntaxHighlight State_new (cstr "my.config.c") = State_new.
Proof.
  destruct (SelectSyntaxHighlight_first_occurrence State_new)
    as (_ & Hsel & Hnot).
  split.
  - apply (Hsel (cstr "main") (cstr ".cpp")).
    + intros Hin.
      repeat (apply elem_of_cons in Hin as [Hin|Hin]; [discriminate Hin|]).
      inversion Hin.
    + unfold C_HL_extensions. cbn [fmap list_fmap].
      do 2 apply list_elem_of_further. apply list_elem_of_here.
  - apply (Hnot (cstr "my") (cstr "onfig")).
Defined.

(** * Editing a row *)

Lemma row_chars_wf (r : Row) : row_wf r -> row_chars r = Returns (chars r).
Proof.
  unfold row_wf, row_chars. intros Hwf.
  destruct (Z.ltb_spec (size r) 0) as [?|_]; [lia|].
  destruct (Z.ltb_spec (Z.of_nat (length (chars r))) (size r)) as [?|_]; [lia|].
  cbn [orb]. rewrite Hwf, Nat2Z.id, firstn_all. reflexivity.
Qed.

Lemma row_key_insert (rows : list Row) (pos : nat) (r : Row) :
  row_key <$> <[pos := r]> rows = <[pos := row_key r]> (row_key <$> rows).
Proof. apply list_fmap_insert. Qed.

(** The characters of the row after [RowInsertChar]: those before [at],
    with spaces up to [at] where the row is shorter, [c], and those that
    were at [at] and behind it. *)
Lemma RowInsertChar_inv (st : State) (pos : nat) (at_ c : Z) (r : Row)
    (st' : State) :
  row st !! pos = Some r -> row_wf r ->
  0 <= at_ < INT_MAX -> size r < INT_MAX ->
  RowInsertChar st pos at_ c = Returns st' ->
  let cs' := take (Z.to_nat at_)
               (chars r ++ replicate (Z.to_nat (at_ - size r)) " "%char)
             ++ to_char c :: drop (Z.to_nat at_) (chars r) in
  set_rows [] st' = set_rows [] (set_dirty (wrap_int (dirty st + 1)) st)
  /\ row_key <$> row st'
     = <[pos := (idx r, Z.of_nat (length cs'), cs')]> (row_key <$> row st).
Proof.
  intros Hr Hwf Hat Hsize. unfold RowInsertChar, array_get.
  destruct (Z.ltb_spec (Z.of_nat pos) 0) as [?|_]; [lia|].
  rewrite Nat2Z.id, Hr. cbn [bind]. rewrite (row_chars_wf r Hwf). cbn [bind].
  pose proof Hwf as Hlen. unfold row_wf in Hlen.
  assert (0 <= size r) as Hsize0 by lia.
  unfold INT_MAX in *.
  intros Hrun.
  set (cs' := take (Z.to_nat at_)
                (chars r ++ replicate (Z.to_nat (at_ - size r)) " "%char)
              ++ to_char c :: drop (Z.to_nat at_) (chars r)).
  assert (exists r1,
            (if size r <? at_
             then Returns
                    (set_chars_end NUL
                       (set_chars
                          (chars r
                           ++ replicate (Z.to_nat (wrap_int (at_ - size r)))
                                " "%char ++ [to_char c])
                          (wrap_int
                             (size r
                              + wrap_int (wrap_int (at_ - size r) + 1))) r))
             else if at_ <? 0 then Undefined
                  else Returns
                         (set_chars
                            (take (Z.to_nat at_) (chars r)
                             ++ to_char c :: drop (Z.to_nat at_) (chars r))
                            (wrap_int (size r + 1)) r)) = Returns r1
            /\ row_key r1 = (idx r, Z.of_nat (length cs'), cs'))
    as (r1 & Hr1 & Hkey).
  { destruct (Z.ltb_spec (size r) at_) as [Hlt|Hge].
    - eexists. split; [reflexivity|]. unfold row_key.
      cbn [idx size chars set_chars set_chars_end].
      rewrite (wrap_int_id (at_ - size r)) by (unfold INT_MIN, INT_MAX; lia).
      rewrite (wrap_int_id (at_ - size r + 1))
        by (unfold INT_MIN, INT_MAX; lia).
      rewrite wrap_int_id by (unfold INT_MIN, INT_MAX; lia).
      assert (cs' = chars r ++ replicate (Z.to_nat (at_ - size r)) " "%char
                    ++ [to_char c]) as ->.
      { unfold cs'. rewrite take_ge
          by (rewrite length_app, length_replicate; lia).
        rewrite drop_ge by lia. now rewrite <- app_assoc. }
      f_equal. f_equal.
      rewrite !length_app, length_replicate. cbn [length]. lia.
    - destruct (Z.ltb_spec at_ 0) as [?|_]; [lia|].
      eexists. split; [reflexivity|]. unfold row_key.
      cbn [idx size chars set_chars set_chars_end].
      rewrite wrap_int_id by (unfold INT_MIN, INT_MAX; lia).
      assert (cs' = take (Z.to_nat at_) (chars r)
                    ++ to_char c :: drop (Z.to_nat at_) (chars r)) as ->.
      { unfold cs'. replace (Z.to_nat (at_ - size r)) with 0%nat by lia.
        cbn [replicate]. now rewrite app_nil_r. }
      f_equal. f_equal.
      rewrite length_app, length_take. cbn [length]. rewrite length_drop. lia. }
  rewrite Hr1 in Hrun. cbn [bind] in Hrun.
  bind_inv Hrun. injection Hrun as <-.
  apply UpdateRow_keys in E as [Hst Hkeys].
  cbn [row set_rows] in Hkeys. rewrite row_key_insert, Hkey in Hkeys.
  split; [|exact Hkeys].
  unfold set_dirty.
  assert (numrows a = numrows st) as ->
    by (apply (f_equal numrows) in Hst; exact Hst).
  assert (dirty a = dirty st) as ->
    by (apply (f_equal dirty) in Hst; exact Hst).
  change (set_numrows_dirty (numrows st) (wrap_int (dirty st + 1))
            (set_rows [] a)
          = set_numrows_dirty (numrows st) (wrap_int (dirty st + 1))
              (set_rows [] st)).
  rewrite Hst. reflexivity.
Qed.

Lemma RowDeleteChar_inv (st : State) (pos : nat) (at_ : Z) (r : Row)
    (st' : State) :
  row st !! pos = Some r -> row_wf r ->
  0 <= at_ < size r -> 9 * size r < 2 ^ 31 ->
  RowDeleteChar st pos at_ = Returns st' ->
  let cs' := take (Z.to_nat at_) (chars r)
             ++ drop (Z.to_nat at_ + 1) (chars r) in
  set_rows [] st' = set_rows [] (set_dirty (wrap_int (dirty st + 1)) st)
  /\ row_key <$> row st'
     = <[pos := (idx r, size r - 1, cs')]> (row_key <$> row st)
  /\ Z.of_nat (length cs') = size r - 1
  /\ exists r',
       row st' !! pos = Some r'
       /\ render r' = render_chars (cs' ++ [chars_end r]) 0
       /\ rsize r' = Z.of_nat (length (render r'))
       /\ chars_end r' = chars_end r.
Proof.
  intros Hr Hwf Hat Hsize. unfold RowDeleteChar, array_get.
  destruct (Z.ltb_spec (Z.of_nat pos) 0) as [?|_]; [lia|].
  rewrite Nat2Z.id, Hr. cbn [bind].
  destruct (Z.leb_spec (size r) at_) as [?|_]; [lia|].
  rewrite (row_chars_wf r Hwf). cbn [bind].
  destruct (Z.ltb_spec at_ 0) as [?|_]; [lia|].
  pose proof Hwf as Hlen. unfold row_wf in Hlen.
  intros Hrun.
  set (cs' := take (Z.to_nat at_) (chars r)
              ++ drop (Z.to_nat at_ + 1) (chars r)) in *.
  assert (Z.of_nat (length cs') = size r - 1) as Hlen'.
  { unfold cs'. rewrite length_app, length_take, length_drop. lia. }
  bind_inv Hrun. rename a into st1.
  assert (pos < length (row st))%nat as Hpos
    by (eapply lookup_lt_Some; eassumption).
  pose proof (UpdateRow_keys _ _ _ _ E) as [Hst Hkeys].
  cbn [row set_rows] in Hkeys.
  eapply UpdateRow_spec in E
    as (_ & (r1 & Hr1 & Hkey1 & Hrd & Hrs & _ & Hend1) & _);
    [|cbn [row set_rows]; apply list_lookup_insert_eq; lia
     |cbn [size set_chars set_chars_end]; exact Hsize].
  cbn [size chars set_chars set_chars_end] in Hrd.
  rewrite take_ge in Hrd by (rewrite length_app; cbn [length]; lia).
  rewrite Hr1 in Hrun. cbn [bind] in Hrun.
  injection Hrun as <-. cbn [row set_rows set_dirty set_numrows_dirty].
  unfold row_key in Hkey1. cbn [idx size chars set_chars set_chars_end] in Hkey1.
  injection Hkey1 as Hidx1 Hsize1 _.
  split; [|split; [|split; [exact Hlen'|]]].
  - unfold set_dirty.
    assert (numrows st1 = numrows st) as Hn
      by (apply (f_equal numrows) in Hst; exact Hst).
    assert (dirty st1 = dirty st) as Hd
      by (apply (f_equal dirty) in Hst; exact Hst).
    cbn [numrows dirty set_rows]. rewrite Hn, Hd.
    change (set_numrows_dirty (numrows st) (wrap_int (dirty st + 1))
              (set_rows [] st1)
            = set_numrows_dirty (numrows st) (wrap_int (dirty st + 1))
                (set_rows [] st)).
    rewrite Hst. reflexivity.
  - rewrite row_key_insert, Hkeys, row_key_insert, list_insert_insert_eq.
    f_equal. unfold row_key. cbn [idx size chars set_chars set_chars_end].
    rewrite Hidx1, Hsize1.
    rewrite wrap_int_id by (unfold INT_MIN, INT_MAX; lia). reflexivity.
  - eexists. split.
    + apply list_lookup_insert_eq.
      apply (f_equal length) in Hkeys. rewrite !length_fmap in Hkeys.
      rewrite length_insert in Hkeys. lia.
    + cbn [render rsize chars_end set_chars set_chars_end].
      split; [exact Hrd|]. split; [exact Hrs|exact Hend1].
Qed.

Lemma UpdateRow_returns_plain (fuel : nat) (st : State) (pos : nat) (r : Row) :
  row st !! pos = Some r ->
  0 <= size r <= Z.of_nat (length (chars r)) ->
  9 * size r < 2 ^ 31 ->
  syntax st = None ->
  exists st', UpdateRow (S fuel) st pos = Returns st'.
Proof.
  intros Hr Hsize Hmax Hsyn. eexists.
  now apply (UpdateRow_no_syntax fuel st pos r).
Qed.

Lemma lookup_row_key (rows : list Row) (pos : nat) (k : Z * Z * bytes) :
  (row_key <$> rows) !! pos = Some k ->
  exists r1, rows !! pos = Some r1 /\ row_key r1 = k.
Proof.
  rewrite list_lookup_fmap. destruct (rows !! pos) as [r1|]; cbn; [|discriminate].
  intros [= <-]. now exists r1.
Qed.

Lemma update_after_set_returns (st : State) (pos : nat) (r1 : Row) :
  (pos < length (row st))%nat ->
  0 <= size r1 <= Z.of_nat (length (chars r1)) ->
  9 * size r1 < 2 ^ 31 ->
  syntax st = None ->
  exists st',
    UpdateRow (UpdateSyntax_fuel (<[pos := r1]> (row st)))
              (set_rows (<[pos := r1]> (row st)) st) pos
    = Returns st'.
Proof.
  intros Hpos Hsize Hmax Hsyn.
  apply (UpdateRow_returns_plain _ _ pos r1); try assumption.
  cbn [row set_rows]. now apply list_lookup_insert_eq.
Qed.

Lemma RowInsertChar_returns (st : State) (pos : nat) (at_ c : Z) (r : Row) :
  row st !! pos = Some r -> row_wf r ->
  0 <= at_ -> 9 * (Z.max (size r) at_ + 1) < 2 ^ 31 ->
  syntax st = None ->
  exists st', RowInsertChar st pos at_ c = Returns st'.
Proof.
  intros Hr Hwf Hat Hmax Hsyn. unfold RowInsertChar, array_get.
  destruct (Z.ltb_spec (Z.of_nat pos) 0) as [?|_]; [lia|].
  rewrite Nat2Z.id, Hr. cbn [bind]. rewrite (row_chars_wf r Hwf). cbn [bind].
  pose proof Hwf as Hlen. unfold row_wf in Hlen.
  assert (pos < length (row st))%nat as Hpos
    by (eapply lookup_lt_Some; eassumption).
  destruct (Z.ltb_spec (size r) at_) as [Hlt|Hge]; cbn [bind row set_rows].
  - match goal with
    | |- context [UpdateRow _ (set_rows (<[pos := ?r1]> _) _) _] =>
        destruct (update_after_set_returns st pos r1) as [st' Hst'];
          [exact Hpos| | |exact Hsyn|]
    end.
    + cbn [size chars set_chars set_chars_end].
      rewrite (wrap_int_id (at_ - size r)) by (unfold INT_MIN, INT_MAX; lia).
      rewrite (wrap_int_id (at_ - size r + 1))
        by (unfold INT_MIN, INT_MAX; lia).
      rewrite wrap_int_id by (unfold INT_MIN, INT_MAX; lia).
      rewrite !length_app, length_replicate. cbn [length]. lia.
    + cbn [size set_chars set_chars_end].
      rewrite (wrap_int_id (at_ - size r)) by (unfold INT_MIN, INT_MAX; lia).
      rewrite (wrap_int_id (at_ - size r + 1))
        by (unfold INT_MIN, INT_MAX; lia).
      rewrite wrap_int_id by (unfold INT_MIN, INT_MAX; lia). lia.
    + rewrite Hst'. cbn [bind]. eexists. reflexivity.
  - destruct (Z.ltb_spec at_ 0) as [?|_]; [lia|]. cbn [bind row set_rows].
    match goal with
    | |- context [UpdateRow _ (set_rows (<[pos := ?r1]> _) _) _] =>
        destruct (update_after_set_returns st pos r1) as [st' Hst'];
          [exact Hpos| | |exact Hsyn|]
    end.
    + cbn [size chars set_chars set_chars_end].
      rewrite wrap_int_id by (unfold INT_MIN, INT_MAX; lia).
      rewrite length_app, length_take. cbn [length]. rewrite length_drop. lia.
    + cbn [size set_chars set_chars_end].
      rewrite wrap_int_id by (unfold INT_MIN, INT_MAX; lia). lia.
    + rewrite Hst'. cbn [bind]. eexists. reflexivity.
Qed.

Lemma RowDeleteChar_returns (st : State) (pos : nat) (at_ : Z) (r : Row) :
  row st !! pos = Some r -> row_wf r ->
  0 <= at_ -> 9 * size r < 2 ^ 31 ->
  syntax st = None ->
  exists st', RowDeleteChar st pos at_ = Returns st'.
Proof.
  intros Hr Hwf Hat Hmax Hsyn. unfold RowDeleteChar, array_get.
  destruct (Z.ltb_spec (Z.of_nat pos) 0) as [?|_]; [lia|].
  rewrite Nat2Z.id, Hr. cbn [bind].
  destruct (Z.leb_spec (size r) at_) as [?|Hlt]; [eexists; reflexivity|].
  rewrite (row_chars_wf r Hwf). cbn [bind].
  destruct (Z.ltb_spec at_ 0) as [?|_]; [lia|].
  pose proof Hwf as Hlen. unfold row_wf in Hlen.
  assert (pos < length (row st))%nat as Hpos
    by (eapply lookup_lt_Some; eassumption).
  set (moved := take (Z.to_nat at_) (chars r)
                ++ drop (Z.to_nat at_ + 1) (chars r)).
  assert (Z.of_nat (length moved) = size r - 1) as Hmoved.
  { unfold moved. rewrite length_app, length_take, length_drop. lia. }
  set (st0 := set_rows (<[pos := set_chars (moved ++ [chars_end r]) (size r) r]>
                          (row st)) st).
  destruct (UpdateRow_returns_plain (S (length (row st0))) st0 pos
              (set_chars (moved ++ [chars_end r]) (size r) r)) as [st1 Hst1];
    [unfold st0; cbn [row set_rows]; apply list_lookup_insert_eq; lia
    | | |exact Hsyn|].
  - cbn [size chars set_chars set_chars_end]. rewrite length_app. cbn [length]. lia.
  - exact Hmax.
  - unfold UpdateSyntax_fuel. rewrite Hst1. cbn [bind].
    apply UpdateRow_keys in Hst1 as [_ Hkeys].
    apply (f_equal length) in Hkeys. rewrite !length_fmap in Hkeys.
    unfold st0 in Hkeys. cbn [row set_rows] in Hkeys.
    rewrite length_insert in Hkeys.
    destruct (row st1 !! pos) as [r1|] eqn:Hr1.
    + cbn [bind]. eexists. reflexivity.
    + apply lookup_ge_None in Hr1. lia.
Qed.

(** What [RowInsertChar] puts in at a place inside the row or at its end,
    [RowDeleteChar] takes out again at the same place: the characters,
    sizes and indexes of all rows are as before, and [dirty] has been
    incremented twice.  In between, the row has [c] at [at] and the
    characters from [at] on one place to the right.  With no syntax
    selected both calls return. *)
Theorem RowInsertChar_RowDeleteChar_roundtrip
    (st : State) (pos : nat) (at_ c : Z) (r : Row) :
  row st !! pos = Some r -> row_wf r ->
  0 <= at_ <= size r -> 9 * (size r + 1) < 2 ^ 31 ->
  (forall st1 st2 : State,
     RowInsertChar st pos at_ c = Returns st1 ->
     RowDeleteChar st1 pos at_ = Returns st2 ->
     (chars <$> row st1) !! pos
       = Some (take (Z.to_nat at_) (chars r)
               ++ to_char c :: drop (Z.to_nat at_) (chars r))
     /\ row_key <$> row st2 = row_key <$> row st
     /\ set_rows [] st2
        = set_rows []
            (set_dirty (wrap_int (wrap_int (dirty st + 1) + 1)) st))
  /\ (syntax st = None ->
      exists st1 st2,
        RowInsertChar st pos at_ c = Returns st1
        /\ RowDeleteChar st1 pos at_ = Returns st2).
Proof.
  intros Hr Hwf Hat Hmax.
  pose proof Hwf as Hlen. unfold row_wf in Hlen.
  assert (pos < length (row st))%nat as Hpos
    by (eapply lookup_lt_Some; eassumption).
  set (cs1 := take (Z.to_nat at_) (chars r)
              ++ to_char c :: drop (Z.to_nat at_) (chars r)).
  assert (Z.of_nat (length cs1) = size r + 1) as Hlen1.
  { unfold cs1. rewrite length_app, length_take. cbn [length].
    rewrite length_drop. lia. }
  assert (forall st1,
            RowInsertChar st pos at_ c = Returns st1 ->
            set_rows [] st1
            = set_rows [] (set_dirty (wrap_int (dirty st + 1)) st)
            /\ row_key <$> row st1
               = <[pos := (idx r, size r + 1, cs1)]> (row_key <$> row st))
    as Hins.
  { intros st1 H1.
    eapply RowInsertChar_inv in H1 as [Hst1 Hkeys1];
      [|exact Hr|exact Hwf|unfold INT_MAX; lia..].
    split; [exact Hst1|]. rewrite Hkeys1.
    replace (Z.to_nat (at_ - size r)) with 0%nat by lia.
    cbn [replicate]. rewrite app_nil_r. fold cs1. now rewrite Hlen1. }
  split.
  - intros st1 st2 H1 H2. destruct (Hins st1 H1) as [Hst1 Hkeys1].
    assert (exists r1, row st1 !! pos = Some r1
                       /\ row_key r1 = (idx r, size r + 1, cs1))
      as (r1 & Hr1 & Hkey1).
    { apply lookup_row_key. rewrite Hkeys1. apply list_lookup_insert_eq.
      rewrite length_fmap. lia. }
    unfold row_key in Hkey1. injection Hkey1 as Hidx1 Hsize1 Hchars1.
    split; [rewrite list_lookup_fmap, Hr1; cbn; now rewrite Hchars1|].
    eapply RowDeleteChar_inv in H2 as (Hst2 & Hkeys2 & _);
      [|exact Hr1|unfold row_wf; rewrite Hsize1, Hchars1; lia
       |rewrite Hsize1; lia|rewrite Hsize1; lia].
    split.
    + rewrite Hkeys2, Hkeys1, list_insert_insert_eq.
      apply list_insert_id. rewrite list_lookup_fmap, Hr. cbn.
      unfold row_key. rewrite Hidx1, Hsize1, Hchars1. do 2 f_equal.
      * f_equal. lia.
      * unfold cs1. rewrite take_app_le by (rewrite length_take; lia).
        rewrite take_take, Nat.min_id.
        rewrite drop_app_ge by (rewrite length_take; lia).
        rewrite length_take.
        replace (Z.to_nat at_ + 1 - Z.to_nat at_ `min` length (chars r))%nat
          with 1%nat by lia.
        cbn [drop]. rewrite drop_0. symmetry. apply take_drop.
    + rewrite Hst2. unfold set_dirty.
      assert (numrows st1 = numrows st) as ->
        by (apply (f_equal numrows) in Hst1; exact Hst1).
      assert (dirty st1 = wrap_int (dirty st + 1)) as ->
        by (apply (f_equal dirty) in Hst1; exact Hst1).
      change (set_numrows_dirty (numrows st)
                (wrap_int (wrap_int (dirty st + 1) + 1)) (set_rows [] st1)
              = set_numrows_dirty (numrows st)
                  (wrap_int (wrap_int (dirty st + 1) + 1)) (set_rows [] st)).
      rewrite Hst1. reflexivity.
  - intros Hsyn.
    destruct (RowInsertChar_returns st pos at_ c r) as [st1 H1];
      [assumption|assumption|lia|lia|assumption|].
    destruct (Hins st1 H1) as [Hst1 Hkeys1].
    assert (exists r1, row st1 !! pos = Some r1
                       /\ row_key r1 = (idx r, size r + 1, cs1))
      as (r1 & Hr1 & Hkey1).
    { apply lookup_row_key. rewrite Hkeys1. apply list_lookup_insert_eq.
      rewrite length_fmap. lia. }
    unfold row_key in Hkey1. injection Hkey1 as Hidx1 Hsize1 Hchars1.
    destruct (RowDeleteChar_returns st1 pos at_ r1) as [st2 H2];
      [exact Hr1|unfold row_wf; rewrite Hsize1, Hchars1; lia|lia
      |rewrite Hsize1; lia| |].
    + apply (f_equal syntax) in Hst1. cbn in Hst1. congruence.
    + exists st1, st2. now split.
Qed.

Lemma RowInsertChar_RowDeleteChar_roundtrip_witness :
  exists st1 st2,
    RowInsertChar three_rows 1 3 (uchar "x"%char) = Returns st1
    /\ RowDeleteChar st1 1 3 = Returns st2
    /\ (chars <$> row st1) !! 1%nat = Some (cstr "secxond row")
    /\ row_key <$> row st2 = row_key <$> row three_rows.
Proof.
  destruct (RowInsertChar_RowDeleteChar_roundtrip three_rows 1 3
              (uchar "x"%char) (plain_row 1 "second row"))
    as [Hround Hruns];
    [reflexivity|reflexivity|cbn; lia|cbn; lia|].
  destruct (Hruns eq_refl) as (st1 & st2 & H1 & H2).
  destruct (Hround st1 st2 H1 H2) as (Hmid & Hkeys & _).
  exists st1, st2. repeat split; assumption.
Defined.

(** [RowDeleteChar] takes the character at [at] out of the row; behind the
    end of the row it does nothing.  [memmove] moves the byte behind the
    characters along with them and [UpdateRow] runs before [size] is
    reduced, so the render that is left is that of the characters and of
    the byte that was behind them in the buffer: unless that byte is a
    tab, the render has it as its last character, and [rsize] counts
    it.  The byte is the terminator in a row made from a terminated
    string; it is [s[len]] in a row that [InsertRow] made from the first
    [len] bytes of a longer string. *)
Theorem RowDeleteChar_renders_byte_behind
    (st : State) (pos : nat) (at_ : Z) (r : Row) (st' : State) :
  row st !! pos = Some r -> row_wf r ->
  0 <= at_ -> 9 * size r < 2 ^ 31 ->
  RowDeleteChar st pos at_ = Returns st' ->
  (size r <= at_ -> st' = st)
  /\ (at_ < size r ->
      exists r',
        row st' !! pos = Some r'
        /\ chars r' = take (Z.to_nat at_) (chars r)
                      ++ drop (Z.to_nat at_ + 1) (chars r)
        /\ size r' = size r - 1 /\ row_wf r'
        /\ chars_end r' = chars_end r
        /\ render r' = render_chars (chars r' ++ [chars_end r]) 0
        /\ rsize r' = Z.of_nat (length (render r'))
        /\ (uchar (chars_end r) <> TAB ->
            render r' = render_chars (chars r') 0 ++ [chars_end r]
            /\ rsize r'
               = Z.of_nat (length (render_chars (chars r') 0)) + 1)).
Proof.
  intros Hr Hwf Hat Hmax Hrun. split.
  - intros Hge. unfold RowDeleteChar, array_get in Hrun.
    destruct (Z.ltb_spec (Z.of_nat pos) 0) as [?|_]; [lia|].
    rewrite Nat2Z.id, Hr in Hrun. cbn [bind] in Hrun.
    destruct (Z.leb_spec (size r) at_) as [_|?]; [|lia].
    now injection Hrun as <-.
  - intros Hlt.
    eapply RowDeleteChar_inv in Hrun
      as (_ & Hkeys & Hlen & r' & Hr' & Hrd & Hrs & Hend);
      [|exact Hr|exact Hwf|lia|exact Hmax].
    assert (pos < length (row st))%nat as Hpos
      by (eapply lookup_lt_Some; eassumption).
    assert ((row_key <$> row st') !! pos
            = Some (idx r, size r - 1,
                    take (Z.to_nat at_) (chars r)
                    ++ drop (Z.to_nat at_ + 1) (chars r))) as Hk
      by (rewrite Hkeys; apply list_lookup_insert_eq;
          rewrite length_fmap; lia).
    rewrite list_lookup_fmap, Hr' in Hk. cbn in Hk.
    unfold row_key in Hk. injection Hk as _ Hsize Hchars.
    exists r'. split; [exact Hr'|]. split; [exact Hchars|].
    split; [exact Hsize|]. split; [unfold row_wf; rewrite Hsize, Hchars; lia|].
    split; [exact Hend|].
    rewrite <- Hchars in Hrd.
    split; [exact Hrd|]. split; [exact Hrs|].
    intros Hnotab. rewrite render_chars_app in Hrd.
    cbn [render_chars] in Hrd.
    rewrite bool_decide_eq_false_2 in Hrd by exact Hnotab.
    split; [exact Hrd|]. rewrite Hrs, Hrd, length_app. cbn [length]. lia.
Qed.

(** A row made by [InsertRow] from the first six bytes of
    ["fourth row"], which has the blank behind them, and its first
    character deleted. *)
Lemma RowDeleteChar_renders_byte_behind_witness :
  exists st1 st' r',
    InsertRow State_new 0 (cstr "fourth row") 6 = Returns st1
    /\ RowDeleteChar st1 0 0 = Returns st'
    /\ row st' !! 0%nat = Some r'
    /\ chars r' = cstr "ourth"
    /\ render r' = cstr "ourth "
    /\ rsize r' = 6.
Proof.
  set (r := set_chars_end " "%char (plain_row 0 "fourth")).
  set (st1 := set_numrows_dirty 1 1 (set_rows [r] State_new)).
  assert (InsertRow State_new 0 (cstr "fourth row") 6 = Returns st1) as Hins
    by (vm_compute; reflexivity).
  destruct (RowDeleteChar_returns st1 0 0 r)
    as [st' Hrun]; [reflexivity|reflexivity|lia|cbn; lia|reflexivity|].
  destruct (RowDeleteChar_renders_byte_behind st1 0 0 r st')
    as [_ Hdel]; [reflexivity|reflexivity|lia|cbn; lia|exact Hrun|].
  destruct Hdel as (r' & Hr' & Hchars & _ & _ & _ & _ & _ & Hrd);
    [cbn; lia|].
  destruct Hrd as [Hrd Hrs]; [discriminate|].
  exists st1, st', r'. split; [exact Hins|].
  split; [exact Hrun|]. split; [exact Hr'|].
  split; [exact Hchars|]. rewrite Hrd, Hrs, Hchars. split; reflexivity.
Defined.

(** * Editing at the cursor *)

Lemma scalars_eq (a b : State) :
  set_rows [] a = set_rows [] b ->
  cx a = cx b /\ cy a = cy b /\ rowoff a = rowoff b /\ coloff a = coloff b
  /\ screenrows a = screenrows b /\ screencols a = screencols b
  /\ numrows a = numrows b /\ dirty a = dirty b
  /\ entry_password a = entry_password b
  /\ typing_password a = typing_password b
  /\ syntax a = syntax b.
Proof.
  intros Heq.
  assert (existing_file_password_state a = existing_file_password_state b)
    as Hex by (apply (f_equal existing_file_password_state) in Heq; exact Heq).
  assert (new_file_password_state a = new_file_password_state b)
    as Hnew by (apply (f_equal new_file_password_state) in Heq; exact Heq).
  repeat split;
    [apply (f_equal cx) in Heq|apply (f_equal cy) in Heq
    |apply (f_equal rowoff) in Heq|apply (f_equal coloff) in Heq
    |apply (f_equal screenrows) in Heq|apply (f_equal screencols) in Heq
    |apply (f_equal numrows) in Heq|apply (f_equal dirty) in Heq
    |apply (f_equal entry_password) in Heq
    |unfold typing_password; now rewrite Hex, Hnew
    |apply (f_equal syntax) in Heq]; exact Heq.
Qed.

Lemma unedited_of_scalars (a b : State) :
  set_rows [] a = set_rows [] b -> unedited a = unedited b.
Proof.
  intros Heq.
  apply (f_equal (fun s => set_entry_password []
                             (set_cursor 0 0 0 0 (set_numrows_dirty 0 0 s))))
    in Heq.
  exact Heq.
Qed.

(** The character [InsertChar] puts into the row: an asterisk while a
    password is typed. *)
Lemma InsertChar_inv (st : State) (c : Z) (r : Row) (st' : State) :
  let filerow := rowoff st + cy st in
  let filecol := coloff st + cx st in
  let shown := if typing_password st then uchar "*"%char else c in
  let cs' := take (Z.to_nat filecol)
               (chars r ++ replicate (Z.to_nat (filecol - size r)) " "%char)
             ++ to_char shown :: drop (Z.to_nat filecol) (chars r) in
  0 <= filerow < numrows st -> numrows st <= INT_MAX ->
  0 <= cx st -> 0 <= coloff st -> filecol < INT_MAX ->
  row st !! Z.to_nat filerow = Some r -> row_wf r -> size r < INT_MAX ->
  InsertChar st c = Returns st' ->
  row_key <$> row st'
    = <[Z.to_nat filerow := (idx r, Z.of_nat (length cs'), cs')]>
        (row_key <$> row st)
  /\ entry_password st'
     = (if typing_password st then entry_password st ++ [to_char c]
        else entry_password st)
  /\ coloff st' + cx st' = filecol + 1
  /\ 0 <= cx st' /\ 0 <= coloff st'
  /\ ((cx st' = cx st + 1 /\ coloff st' = coloff st)
      \/ (cx st' = cx st /\ coloff st' = coloff st + 1))
  /\ unedited st' = unedited st
  /\ cy st' = cy st /\ rowoff st' = rowoff st /\ numrows st' = numrows st
  /\ dirty st' = wrap_int (wrap_int (dirty st + 1) + 1).
Proof.
  intros filerow filecol shown cs' Hrow Hnum Hcx Hcoloff Hcol Hr Hwf Hsize.
  unfold InsertChar.
  rewrite (wrap_int_id (rowoff st + cy st))
    by (unfold INT_MIN, INT_MAX in *; fold filerow; lia).
  rewrite (wrap_int_id (coloff st + cx st))
    by (unfold INT_MIN, INT_MAX in *; fold filecol; lia).
  fold filerow filecol.
  destruct (Z.leb_spec (numrows st) filerow) as [?|_]; [lia|]. cbn [bind].
  destruct (Z.ltb_spec filerow 0) as [?|_]; [lia|].
  intros Hrun. bind_inv Hrun. rename a into st2. injection Hrun as <-.
  assert (exists st1,
             RowInsertChar st1 (Z.to_nat filerow) filecol shown = Returns st2
             /\ row st1 = row st
             /\ set_rows [] st1
                = set_rows []
                    (set_entry_password
                       (if typing_password st
                        then entry_password st ++ [to_char c]
                        else entry_password st) st))
    as (st1 & Hrun & Hrows1 & Hst1).
  { unfold shown. destruct (typing_password st).
    - eexists. split; [exact E|]. split; reflexivity.
    - exists st. split; [exact E|]. split; [reflexivity|].
      destruct st; reflexivity. }
  clear E.
  eapply RowInsertChar_inv in Hrun as [Hst2 Hkeys];
    [|rewrite Hrows1; exact Hr|exact Hwf|lia|exact Hsize].
  fold cs' in Hkeys. rewrite Hrows1 in Hkeys.
  pose proof (scalars_eq _ _ Hst1)
    as (Hcx1 & Hcy1 & Hro1 & Hco1 & Hsr1 & Hsc1 & Hn1 & Hd1 & Hep1 & Htp1
        & Hsyn1).
  pose proof (scalars_eq _ _ Hst2)
    as (Hcx2 & Hcy2 & Hro2 & Hco2 & Hsr2 & Hsc2 & Hn2 & Hd2 & Hep2 & Htp2
        & Hsyn2).
  cbn in Hcx1, Hcy1, Hro1, Hco1, Hsr1, Hsc1, Hn1, Hd1, Hep1.
  cbn in Hcx2, Hcy2, Hro2, Hco2, Hsr2, Hsc2, Hn2, Hd2, Hep2.
  assert (cx st2 = cx st) as Hcx' by congruence.
  assert (coloff st2 = coloff st) as Hco' by congruence.
  assert (screencols st2 = screencols st) as Hsc' by congruence.
  assert (dirty st2 = wrap_int (dirty st + 1)) as Hd' by congruence.
  split; [|split; [|split; [|split; [|split; [|split; [|split; [|split; [|split; [|split]]]]]]]]].
  - destruct (_ =? _); cbn [row set_dirty set_numrows_dirty set_cursor];
      exact Hkeys.
  - destruct (_ =? _);
      cbn [entry_password set_dirty set_numrows_dirty set_cursor]; congruence.
  - destruct (_ =? _);
      cbn [cx coloff set_dirty set_numrows_dirty set_cursor];
      rewrite Hcx', Hco', wrap_int_id
        by (unfold INT_MIN, INT_MAX in *; fold filecol; lia);
      fold filecol; lia.
  - destruct (_ =? _);
      cbn [cx coloff set_dirty set_numrows_dirty set_cursor];
      rewrite ?Hcx', ?Hco', ?wrap_int_id
        by (unfold INT_MIN, INT_MAX in *; fold filecol; lia);
      lia.
  - destruct (_ =? _);
      cbn [cx coloff set_dirty set_numrows_dirty set_cursor];
      rewrite ?Hcx', ?Hco', ?wrap_int_id
        by (unfold INT_MIN, INT_MAX in *; fold filecol; lia);
      lia.
  - destruct (_ =? _);
      cbn [cx coloff set_dirty set_numrows_dirty set_cursor];
      rewrite ?Hcx', ?Hco', ?wrap_int_id
        by (unfold INT_MIN, INT_MAX in *; fold filecol; lia);
      [right|left]; split; congruence.
  - transitivity (unedited st2); [destruct (_ =? _); reflexivity|].
    rewrite (unedited_of_scalars _ _ Hst2).
    apply (unedited_of_scalars _ _ Hst1).
  - destruct (_ =? _); cbn [cy set_dirty set_numrows_dirty set_cursor];
      congruence.
  - destruct (_ =? _); cbn [rowoff set_dirty set_numrows_dirty set_cursor];
      congruence.
  - destruct (_ =? _); cbn [numrows set_dirty set_numrows_dirty set_cursor];
      congruence.
  - destruct (_ =? _); cbn [dirty set_dirty set_numrows_dirty set_cursor];
      now rewrite Hd'.
Qed.

Lemma InsertChar_returns (st : State) (c : Z) (r : Row) :
  let filerow := rowoff st + cy st in
  let filecol := coloff st + cx st in
  0 <= filerow < numrows st -> numrows st <= INT_MAX ->
  0 <= filecol ->
  row st !! Z.to_nat filerow = Some r -> row_wf r ->
  9 * (Z.max (size r) filecol + 1) < 2 ^ 31 ->
  syntax st = None ->
  exists st', InsertChar st c = Returns st'.
Proof.
  intros filerow filecol Hrow Hnum Hcol Hr Hwf Hmax Hsyn.
  unfold InsertChar.
  rewrite (wrap_int_id (rowoff st + cy st))
    by (unfold INT_MIN, INT_MAX in *; fold filerow; lia).
  rewrite (wrap_int_id (coloff st + cx st))
    by (unfold INT_MIN, INT_MAX in *; fold filecol; lia).
  fold filerow filecol.
  destruct (Z.leb_spec (numrows st) filerow) as [?|_]; [lia|]. cbn [bind].
  destruct (Z.ltb_spec filerow 0) as [?|_]; [lia|].
  destruct (typing_password st).
  - edestruct (RowInsertChar_returns
                 (set_entry_password (entry_password st ++ [to_char c]) st)
                 (Z.to_nat filerow) filecol (uchar "*"%char) r) as [st2 H2];
      [exact Hr|exact Hwf|lia|exact Hmax|exact Hsyn|].
    rewrite H2. cbn [bind]. eexists. reflexivity.
  - edestruct (RowInsertChar_returns st (Z.to_nat filerow) filecol c r)
      as [st2 H2]; [exact Hr|exact Hwf|lia|exact Hmax|exact Hsyn|].
    rewrite H2. cbn [bind]. eexists. reflexivity.
Qed.

(** [DeleteChar] with the cursor behind a character of its row. *)
Lemma DeleteChar_inv (st : State) (r : Row) (st' : State) :
  let filerow := rowoff st + cy st in
  let filecol := coloff st + cx st in
  let cs' := take (Z.to_nat (filecol - 1)) (chars r)
             ++ drop (Z.to_nat filecol) (chars r) in
  0 <= filerow < numrows st -> numrows st <= INT_MAX ->
  0 <= cx st -> 0 <= coloff st -> 0 < filecol <= size r ->
  row st !! Z.to_nat filerow = Some r -> row_wf r ->
  9 * size r < 2 ^ 31 ->
  DeleteChar st = Returns st' ->
  row_key <$> row st'
    = <[Z.to_nat filerow := (idx r, size r - 1, cs')]> (row_key <$> row st)
  /\ (typing_password st = true ->
      entry_password st'
      = take (length (entry_password st) - 1) (entry_password st))
  /\ (typing_password st = false -> entry_password st' = entry_password st)
  /\ coloff st' + cx st' = filecol - 1
  /\ 0 <= cx st' /\ 0 <= coloff st'
  /\ ((cx st' = cx st - 1 /\ coloff st' = coloff st)
      \/ (cx st' = cx st /\ coloff st' = coloff st - 1))
  /\ unedited st' = unedited st
  /\ cy st' = cy st /\ rowoff st' = rowoff st /\ numrows st' = numrows st
  /\ dirty st' = wrap_int (wrap_int (dirty st + 1) + 1)
  /\ exists r',
       row st' !! Z.to_nat filerow = Some r'
       /\ render r' = render_chars cs' 0
       /\ rsize r' = Z.of_nat (length (render r'))
       /\ length (hl r') = length (render r').
Proof.
  intros filerow filecol cs' Hrow Hnum Hcx Hcoloff Hcol Hr Hwf Hsize.
  pose proof Hwf as Hlen. unfold row_wf in Hlen.
  unfold DeleteChar.
  rewrite (wrap_int_id (rowoff st + cy st))
    by (unfold INT_MIN, INT_MAX in *; fold filerow; lia).
  rewrite (wrap_int_id (coloff st + cx st))
    by (unfold INT_MIN, INT_MAX in *; fold filecol; lia).
  fold filerow filecol.
  destruct (Z.leb_spec (numrows st) filerow) as [?|_]; [lia|].
  destruct (Z.eqb_spec filecol 0) as [?|_]; [lia|]. cbn [orb andb].
  unfold array_get at 1.
  destruct (Z.ltb_spec filerow 0) as [?|_]; [lia|].
  rewrite Hr. cbn [bind].
  rewrite (wrap_int_id (filecol - 1)) by (unfold INT_MIN, INT_MAX in *; lia).
  intros Hrun. bind_inv Hrun. rename a into st1.
  assert (row st1 = row st
          /\ set_rows [] st1
             = set_rows []
                 (set_entry_password
                    (if typing_password st
                     then take (length (entry_password st) - 1)
                               (entry_password st)
                     else entry_password st) st))
    as [Hrows1 Hst1].
  { destruct (typing_password st).
    - destruct (bool_decide _); [discriminate|]. injection E as <-.
      split; reflexivity.
    - injection E as <-. split; [reflexivity|]. destruct st; reflexivity. }
  clear E. bind_inv Hrun. rename a into st2.
  eapply RowDeleteChar_inv in E as (Hst2 & Hkeys2 & Hlen2 & _);
    [|rewrite Hrows1; exact Hr|exact Hwf|lia|exact Hsize].
  rewrite Hrows1 in Hkeys2.
  replace (Z.to_nat (filecol - 1) + 1)%nat with (Z.to_nat filecol)
    in Hkeys2, Hlen2 by lia.
  fold cs' in Hkeys2, Hlen2.
  bind_inv Hrun. rename a into st3. injection Hrun as <-.
  pose proof (scalars_eq _ _ Hst1)
    as (Hcx1 & Hcy1 & Hro1 & Hco1 & Hsr1 & Hsc1 & Hn1 & Hd1 & Hep1 & Htp1
        & Hsyn1).
  pose proof (scalars_eq _ _ Hst2)
    as (Hcx2 & Hcy2 & Hro2 & Hco2 & Hsr2 & Hsc2 & Hn2 & Hd2 & Hep2 & Htp2
        & Hsyn2).
  cbn in Hcx1, Hcy1, Hro1, Hco1, Hsr1, Hsc1, Hn1, Hd1, Hep1.
  cbn in Hcx2, Hcy2, Hro2, Hco2, Hsr2, Hsc2, Hn2, Hd2, Hep2.
  assert (cx st2 = cx st) as Hcx' by congruence.
  assert (coloff st2 = coloff st) as Hco' by congruence.
  assert (dirty st2 = wrap_int (dirty st + 1)) as Hd' by congruence.
  set (moved := if (cx st2 =? 0) && negb (coloff st2 =? 0)
                then set_cursor (cx st2) (cy st2) (rowoff st2)
                       (wrap_int (coloff st2 - 1)) st2
                else set_cursor (wrap_int (cx st2 - 1)) (cy st2) (rowoff st2)
                       (coloff st2) st2) in *.
  assert (row moved = row st2) as Hrowm by (unfold moved; now destruct (_ && _)).
  assert (set_rows [] (set_cursor 0 0 0 0 moved)
          = set_rows [] (set_cursor 0 0 0 0 st2)) as Hrestm
    by (unfold moved; now destruct (_ && _)).
  assert ((cx moved = cx st - 1 /\ coloff moved = coloff st)
          \/ (cx moved = cx st /\ coloff moved = coloff st - 1)) as Hcursor.
  { unfold moved. rewrite Hcx', Hco'.
    destruct (Z.eqb_spec (cx st) 0) as [Hz|Hnz];
      [destruct (Z.eqb_spec (coloff st) 0) as [Hz'|Hnz']|];
      cbn [andb negb cx coloff set_cursor];
      rewrite wrap_int_id by (unfold INT_MIN, INT_MAX in *; lia);
      try (now left); try (now right). }
  assert (0 <= cx moved /\ 0 <= coloff moved) as Hpos.
  { unfold moved. rewrite Hcx', Hco'.
    destruct (Z.eqb_spec (cx st) 0) as [Hz|Hnz];
      [destruct (Z.eqb_spec (coloff st) 0) as [Hz'|Hnz']|];
      cbn [andb negb cx coloff set_cursor];
      rewrite ?wrap_int_id by (unfold INT_MIN, INT_MAX in *; lia);
      unfold filecol in Hcol; lia. }
  assert (cy moved = cy st /\ rowoff moved = rowoff st
          /\ numrows moved = numrows st /\ dirty moved = dirty st2
          /\ entry_password moved = entry_password st2) as Hsame.
  { unfold moved. destruct (_ && _);
      cbn [cy rowoff numrows dirty entry_password set_cursor];
      repeat split; congruence. }
  destruct Hsame as (Hcym & Hrom & Hnm & Hdm & Hepm).
  assert (exists r2, row moved !! Z.to_nat filerow = Some r2
                     /\ row_key r2 = (idx r, size r - 1, cs'))
    as (r2 & Hr2 & Hkey2).
  { apply lookup_row_key. rewrite Hrowm, Hkeys2.
    apply list_lookup_insert_eq. rewrite length_fmap.
    eapply lookup_lt_Some. exact Hr. }
  unfold row_key in Hkey2. injection Hkey2 as Hidx2 Hsize2 Hchars2.
  pose proof (UpdateRow_keys _ _ _ _ E) as [Hst3 Hkeys3].
  eapply UpdateRow_spec in E
    as (_ & (r3 & Hr3 & Hkey3 & Hrd3 & Hrs3 & Hhl3 & _) & _);
    [|exact Hr2|rewrite Hsize2; lia].
  pose proof (scalars_eq _ _ Hst3)
    as (Hcx3 & Hcy3 & Hro3 & Hco3 & Hsr3 & Hsc3 & Hn3 & Hd3 & Hep3 & Htp3
        & Hsyn3).
  cbn [row cx cy rowoff coloff numrows dirty entry_password
       set_dirty set_numrows_dirty].
  split; [rewrite Hkeys3, Hrowm; exact Hkeys2|].
  split; [intros Htp; rewrite Hep3, Hepm, Hep2, Hep1, Htp; reflexivity|].
  split; [intros Htp; rewrite Hep3, Hepm, Hep2, Hep1, Htp; reflexivity|].
  split; [rewrite Hcx3, Hco3; unfold filecol; lia|].
  split; [lia|]. split; [lia|].
  split; [rewrite Hcx3, Hco3; exact Hcursor|].
  split.
  { transitivity (unedited st3); [reflexivity|].
    rewrite (unedited_of_scalars _ _ Hst3).
    transitivity (unedited st2).
    - apply (f_equal (fun s => set_entry_password []
                                 (set_numrows_dirty 0 0 s))) in Hrestm.
      exact Hrestm.
    - rewrite (unedited_of_scalars _ _ Hst2).
      apply (unedited_of_scalars _ _ Hst1). }
  split; [congruence|]. split; [congruence|]. split; [congruence|].
  split; [congruence|].
  exists r3. split; [exact Hr3|].
  rewrite Hsize2, Hchars2 in Hrd3.
  rewrite take_ge in Hrd3 by lia.
  split; [exact Hrd3|]. split; [exact Hrs3|exact Hhl3].
Qed.

Lemma DeleteChar_returns (st : State) (r : Row) :
  let filerow := rowoff st + cy st in
  let filecol := coloff st + cx st in
  0 <= filerow < numrows st -> numrows st <= INT_MAX ->
  0 < filecol <= size r ->
  row st !! Z.to_nat filerow = Some r -> row_wf r ->
  9 * size r < 2 ^ 31 ->
  (typing_password st = true -> entry_password st <> []) ->
  syntax st = None ->
  exists st', DeleteChar st = Returns st'.
Proof.
  intros filerow filecol Hrow Hnum Hcol Hr Hwf Hsize Hpw Hsyn.
  pose proof Hwf as Hlen. unfold row_wf in Hlen.
  unfold DeleteChar.
  rewrite (wrap_int_id (rowoff st + cy st))
    by (unfold INT_MIN, INT_MAX in *; fold filerow; lia).
  rewrite (wrap_int_id (coloff st + cx st))
    by (unfold INT_MIN, INT_MAX in *; fold filecol; lia).
  fold filerow filecol.
  destruct (Z.leb_spec (numrows st) filerow) as [?|_]; [lia|].
  destruct (Z.eqb_spec filecol 0) as [?|_]; [lia|]. cbn [orb andb].
  unfold array_get at 1.
  destruct (Z.ltb_spec filerow 0) as [?|_]; [lia|].
  rewrite Hr. cbn [bind].
  rewrite (wrap_int_id (filecol - 1)) by (unfold INT_MIN, INT_MAX in *; lia).
  assert (exists st1,
            (if typing_password st
             then if bool_decide (entry_password st = []) then Undefined
                  else Returns
                         (set_entry_password
                            (take (length (entry_password st) - 1)
                               (entry_password st)) st)
             else Returns st) = Returns st1
            /\ row st1 = row st /\ syntax st1 = syntax st)
    as (st1 & -> & Hrows1 & Hsyn1).
  { destruct (typing_password st).
    - rewrite bool_decide_eq_false_2 by (now apply Hpw).
      eexists. repeat split.
    - eexists. repeat split. }
  cbn [bind].
  destruct (RowDeleteChar_returns st1 (Z.to_nat filerow) (filecol - 1) r)
    as [st2 H2]; [rewrite Hrows1; exact Hr|exact Hwf|lia|exact Hsize
                 |congruence|].
  rewrite H2. cbn [bind].
  eapply RowDeleteChar_inv in H2 as (Hst2 & Hkeys2 & Hlen2 & _);
    [|rewrite Hrows1; exact Hr|exact Hwf|lia|exact Hsize].
  set (moved := if (cx st2 =? 0) && negb (coloff st2 =? 0)
                then set_cursor (cx st2) (cy st2) (rowoff st2)
                       (wrap_int (coloff st2 - 1)) st2
                else set_cursor (wrap_int (cx st2 - 1)) (cy st2) (rowoff st2)
                       (coloff st2) st2).
  assert (row moved = row st2 /\ syntax moved = syntax st2) as [Hrowm Hsynm]
    by (unfold moved; now destruct (_ && _)).
  assert (exists r2, row moved !! Z.to_nat filerow = Some r2
                     /\ row_key r2
                        = (idx r, size r - 1,
                           take (Z.to_nat (filecol - 1)) (chars r)
                           ++ drop (Z.to_nat (filecol - 1) + 1) (chars r)))
    as (r2 & Hr2 & Hkey2).
  { apply lookup_row_key. rewrite Hrowm, Hkeys2.
    apply list_lookup_insert_eq. rewrite length_fmap, Hrows1.
    eapply lookup_lt_Some. exact Hr. }
  unfold row_key in Hkey2. injection Hkey2 as Hidx2 Hsize2 Hchars2.
  destruct (UpdateRow_returns_plain (S (length (row moved))) moved
              (Z.to_nat filerow) r2) as [st3 H3];
    [exact Hr2|rewrite Hsize2, Hchars2; lia|rewrite Hsize2; lia| |].
  - apply scalars_eq in Hst2. cbn in Hst2. rewrite Hsynm.
    destruct Hst2 as (_ & _ & _ & _ & _ & _ & _ & _ & _ & _ & ->).
    congruence.
  - unfold UpdateSyntax_fuel. rewrite H3. cbn [bind]. eexists. reflexivity.
Qed.

(** [RowInsertChar] leaves in every other row all but the highlighting,
    and with no syntax selected every other row as it is. *)
Lemma RowInsertChar_rows (st : State) (pos : nat) (at_ c : Z) (st' : State) :
  RowInsertChar st pos at_ c = Returns st' ->
  (exists r', row_text <$> row st' = row_text <$> <[pos := r']> (row st))
  /\ (syntax st = None -> exists r', row st' = <[pos := r']> (row st)).
Proof.
  unfold RowInsertChar. intros Hrun.
  bind_inv Hrun. bind_inv Hrun. bind_inv Hrun. bind_inv Hrun.
  injection Hrun as <-. cbn [row set_dirty].
  match goal with
  | H : UpdateRow _ _ _ = Returns _ |- _ => rename H into Hupd
  end.
  split.
  - apply UpdateRow_frame in Hupd as (_ & r & r' & _ & _ & Htext).
    cbn [row set_rows] in Htext. rewrite list_insert_insert_eq in Htext.
    eauto.
  - intros Hsyn.
    apply UpdateRow_no_syntax_frame in Hupd as [r' Hr']; [|exact Hsyn].
    cbn [row set_rows] in Hr'. rewrite list_insert_insert_eq in Hr'. eauto.
Qed.

Lemma InsertChar_rows (st : State) (c : Z) (st' : State) :
  let filerow := rowoff st + cy st in
  0 <= filerow < numrows st -> numrows st <= INT_MAX ->
  InsertChar st c = Returns st' ->
  (exists r',
     row_text <$> row st'
     = row_text <$> <[Z.to_nat filerow := r']> (row st))
  /\ (syntax st = None ->
      exists r', row st' = <[Z.to_nat filerow := r']> (row st)).
Proof.
  intros filerow Hrow Hnum. unfold InsertChar.
  rewrite (wrap_int_id (rowoff st + cy st))
    by (unfold INT_MIN, INT_MAX in *; fold filerow; lia).
  fold filerow.
  destruct (Z.leb_spec (numrows st) filerow) as [?|_]; [lia|]. cbn [bind].
  destruct (Z.ltb_spec filerow 0) as [?|_]; [lia|].
  intros Hrun. bind_inv Hrun. injection Hrun as <-.
  assert (row (set_dirty (wrap_int (dirty
            (if cx a =? wrap_int (screencols a - 1)
             then set_cursor (cx a) (cy a) (rowoff a)
                    (wrap_int (coloff a + 1)) a
             else set_cursor (wrap_int (cx a + 1)) (cy a) (rowoff a)
                    (coloff a) a) + 1))
            (if cx a =? wrap_int (screencols a - 1)
             then set_cursor (cx a) (cy a) (rowoff a)
                    (wrap_int (coloff a + 1)) a
             else set_cursor (wrap_int (cx a + 1)) (cy a) (rowoff a)
                    (coloff a) a)) = row a) as ->
    by (destruct (_ =? _); reflexivity).
  destruct (typing_password st); apply RowInsertChar_rows in E; exact E.
Qed.

(** [InsertChar] with the cursor on a row of the file puts the character
    into that row at the column of the cursor, after as many spaces as the
    row is short of that column, and moves the cursor one column to the
    right.  While a password is typed it is an asterisk that goes into the
    row, and the character is appended to [entry_password].  Every other
    row keeps its [idx], [size], characters, [render] and [rsize]; its
    highlighting may be redone where a syntax is selected, and with no
    syntax selected no other row changes in any member.  Nothing else of
    the state changes, but [dirty], which is incremented twice.  With no
    syntax selected the call returns. *)
Theorem InsertChar_at_cursor (st : State) (c : Z) (r : Row) :
  let filerow := rowoff st + cy st in
  let filecol := coloff st + cx st in
  let shown := if typing_password st then uchar "*"%char else c in
  let cs' := take (Z.to_nat filecol)
               (chars r ++ replicate (Z.to_nat (filecol - size r)) " "%char)
             ++ to_char shown :: drop (Z.to_nat filecol) (chars r) in
  0 <= filerow < numrows st -> numrows st <= INT_MAX ->
  0 <= cx st -> 0 <= coloff st ->
  row st !! Z.to_nat filerow = Some r -> row_wf r ->
  9 * (Z.max (size r) filecol + 1) < 2 ^ 31 ->
  (forall st' : State,
     InsertChar st c = Returns st' ->
     row_key <$> row st'
       = <[Z.to_nat filerow := (idx r, Z.of_nat (length cs'), cs')]>
           (row_key <$> row st)
     /\ (exists r',
           row_text <$> row st'
           = row_text <$> <[Z.to_nat filerow := r']> (row st))
     /\ (syntax st = None ->
         exists r', row st' = <[Z.to_nat filerow := r']> (row st))
     /\ entry_password st'
        = (if typing_password st then entry_password st ++ [to_char c]
           else entry_password st)
     /\ coloff st' + cx st' = filecol + 1
     /\ cy st' = cy st /\ rowoff st' = rowoff st
     /\ numrows st' = numrows st
     /\ unedited st' = unedited st
     /\ dirty st' = wrap_int (wrap_int (dirty st + 1) + 1))
  /\ (syntax st = None -> exists st', InsertChar st c = Returns st').
Proof.
  intros filerow filecol shown cs' Hrow Hnum Hcx Hcoloff Hr Hwf Hmax.
  split.
  - intros st' Hrun.
    destruct (InsertChar_rows st c st' Hrow Hnum Hrun) as [Htext Hplain].
    eapply InsertChar_inv in Hrun
      as (Hkeys & Hep & Hcol & _ & _ & _ & Hrest & Hcy & Hro & Hn & Hd);
      [|exact Hrow|exact Hnum|exact Hcx|exact Hcoloff
       |unfold INT_MAX; fold filecol; lia|exact Hr|exact Hwf
       |unfold INT_MAX; lia].
    repeat split; assumption.
  - intros Hsyn. apply (InsertChar_returns st c r); try assumption.
    fold filecol. unfold filecol. lia.
Qed.

(** A character of a password typed behind the prompt, and an asterisk
    typed behind the [/] of a C file: the row [x] below keeps its
    character and comes to lie in a comment. *)
Lemma InsertChar_at_cursor_witness :
  (exists st',
     InsertChar password_prompt (uchar "s"%char) = Returns st'
     /\ chars <$> row st' = [cstr "Enter password: *"]
     /\ entry_password st' = cstr "s"
     /\ coloff st' + cx st' = 17)
  /\ (exists st',
        InsertChar c_file_slash (uchar "*"%char) = Returns st'
        /\ chars <$> row st' = [cstr "/*"; cstr "x"]
        /\ render <$> row st' = [cstr "/*"; cstr "x"]
        /\ hl <$> row c_file_slash = [[HL_NORMAL]; [HL_NORMAL]]
        /\ hl <$> row st' = [[HL_MLCOMMENT; HL_MLCOMMENT]; [HL_MLCOMMENT]]).
Proof.
  split.
  - destruct (InsertChar_at_cursor password_prompt (uchar "s"%char)
                (plain_row 0 "Enter password: ")) as [Hins Hruns];
      [cbn; lia|vm_compute; discriminate|cbn; lia|cbn; lia|reflexivity
      |reflexivity|vm_compute; reflexivity|].
    destruct (Hruns eq_refl) as [st' Hrun].
    destruct (Hins st' Hrun) as (Hkeys & _ & _ & Hep & Hcol & _).
    exists st'. split; [exact Hrun|].
    assert (chars <$> row st' = snd <$> (row_key <$> row st')) as Hchars
      by (rewrite <- list_fmap_compose; reflexivity).
    split; [rewrite Hchars, Hkeys; reflexivity|].
    split; [exact Hep|exact Hcol].
  - destruct (InsertChar_at_cursor c_file_slash (uchar "*"%char)
                (plain_row 0 "/")) as [Hins _];
      [vm_compute; split; [discriminate|reflexivity]
      |vm_compute; discriminate|vm_compute; discriminate
      |vm_compute; discriminate|reflexivity
      |reflexivity|vm_compute; reflexivity|].
    destruct (InsertChar c_file_slash (uchar "*"%char))
      as [st'| | | |] eqn:Hrun; try (vm_compute in Hrun; discriminate Hrun).
    destruct (Hins st' eq_refl) as (Hkeys & _).
    exists st'. split; [reflexivity|].
    assert (chars <$> row st' = snd <$> (row_key <$> row st')) as Hchars
      by (rewrite <- list_fmap_compose; reflexivity).
    split; [rewrite Hchars, Hkeys; reflexivity|].
    vm_compute in Hrun. injection Hrun as <-.
    repeat split.
Defined.

Lemma delete_inserted_char (cs : bytes) (n : nat) (x : ascii) :
  (n <= length cs)%nat ->
  take n (take n cs ++ x :: drop n cs)
  ++ drop (S n) (take n cs ++ x :: drop n cs) = cs.
Proof.
  intros Hn. rewrite take_app_le by (rewrite length_take; lia).
  rewrite take_take, Nat.min_id.
  rewrite drop_app_ge by (rewrite length_take; lia).
  rewrite length_take.
  replace (S n - n `min` length cs)%nat with 1%nat by lia.
  cbn [drop]. rewrite drop_0. apply take_drop.
Qed.

Lemma unedited_typing (a b : State) :
  unedited a = unedited b ->
  typing_password a = typing_password b /\ syntax a = syntax b.
Proof.
  intros Heq.
  assert (existing_file_password_state a = existing_file_password_state b)
    as Hex by (apply (f_equal existing_file_password_state) in Heq; exact Heq).
  assert (new_file_password_state a = new_file_password_state b)
    as Hnew by (apply (f_equal new_file_password_state) in Heq; exact Heq).
  split; [unfold typing_password; now rewrite Hex, Hnew|].
  apply (f_equal syntax) in Heq. exact Heq.
Qed.

(** Backspace undoes typing: [DeleteChar] after [InsertChar], with the
    cursor in a row of the file and not behind its end, gives back the
    characters, sizes and indexes of all rows, the password typed so far,
    and the place of the cursor in the file; [dirty] has been incremented
    four times.  With no syntax selected both calls return. *)
Theorem InsertChar_DeleteChar_roundtrip (st : State) (c : Z) (r : Row) :
  let filerow := rowoff st + cy st in
  let filecol := coloff st + cx st in
  0 <= filerow < numrows st -> numrows st <= INT_MAX ->
  0 <= cx st -> 0 <= coloff st -> filecol <= size r ->
  row st !! Z.to_nat filerow = Some r -> row_wf r ->
  9 * (size r + 1) < 2 ^ 31 ->
  (forall st1 st2 : State,
     InsertChar st c = Returns st1 -> DeleteChar st1 = Returns st2 ->
     row_key <$> row st2 = row_key <$> row st
     /\ entry_password st2 = entry_password st
     /\ coloff st2 + cx st2 = filecol
     /\ rowoff st2 + cy st2 = filerow
     /\ numrows st2 = numrows st
     /\ unedited st2 = unedited st
     /\ dirty st2
        = wrap_int (wrap_int (wrap_int (wrap_int (dirty st + 1) + 1) + 1) + 1))
  /\ (syntax st = None ->
      exists st1 st2,
        InsertChar st c = Returns st1 /\ DeleteChar st1 = Returns st2).
Proof.
  intros filerow filecol Hrow Hnum Hcx Hcoloff Hcol Hr Hwf Hmax.
  pose proof Hwf as Hlen. unfold row_wf in Hlen.
  assert (0 <= filecol) as Hcol0 by (unfold filecol; lia).
  set (shown := if typing_password st then uchar "*"%char else c).
  set (cs1 := take (Z.to_nat filecol) (chars r)
              ++ to_char shown :: drop (Z.to_nat filecol) (chars r)).
  assert (Z.of_nat (length cs1) = size r + 1) as Hlen1.
  { unfold cs1. rewrite length_app, length_take. cbn [length].
    rewrite length_drop. lia. }
  assert (forall st1,
            InsertChar st c = Returns st1 ->
            exists r1,
              row st1 !! Z.to_nat (rowoff st1 + cy st1) = Some r1
              /\ row_key r1 = (idx r, size r + 1, cs1)
              /\ row_key <$> row st1
                 = <[Z.to_nat filerow := (idx r, size r + 1, cs1)]>
                     (row_key <$> row st)
              /\ entry_password st1
                 = (if typing_password st
                    then entry_password st ++ [to_char c]
                    else entry_password st)
              /\ coloff st1 + cx st1 = filecol + 1
              /\ 0 <= cx st1 /\ 0 <= coloff st1
              /\ rowoff st1 + cy st1 = filerow
              /\ numrows st1 = numrows st
              /\ unedited st1 = unedited st
              /\ dirty st1 = wrap_int (wrap_int (dirty st + 1) + 1))
    as Hins.
  { intros st1 H1.
    eapply InsertChar_inv in H1
      as (Hkeys & Hep & Hc1 & Hcx1 & Hco1 & _ & Hrest & Hcy & Hro & Hn & Hd);
      [|exact Hrow|exact Hnum|exact Hcx|exact Hcoloff
       |unfold INT_MAX; fold filecol; lia|exact Hr|exact Hwf
       |unfold INT_MAX; lia].
    fold filerow filecol shown in Hkeys, Hc1.
    replace (Z.to_nat (filecol - size r)) with 0%nat in Hkeys by lia.
    cbn [replicate] in Hkeys. rewrite app_nil_r in Hkeys.
    fold cs1 in Hkeys. rewrite Hlen1 in Hkeys.
    assert (rowoff st1 + cy st1 = filerow) as Hfr
      by (unfold filerow; congruence).
    destruct (lookup_row_key (row st1) (Z.to_nat filerow)
                (idx r, size r + 1, cs1)) as (r1 & Hr1 & Hkey1).
    { rewrite Hkeys. apply list_lookup_insert_eq. rewrite length_fmap.
      eapply lookup_lt_Some. exact Hr. }
    exists r1. rewrite Hfr. repeat split; assumption. }
  assert (forall r1 : Row,
            row_key r1 = (idx r, size r + 1, cs1) ->
            row_wf r1 /\ size r1 = size r + 1 /\ chars r1 = cs1
            /\ idx r1 = idx r) as Hrow1.
  { intros r1 Hkey1. unfold row_key in Hkey1.
    injection Hkey1 as Hidx1 Hsize1 Hchars1.
    repeat split; try assumption. unfold row_wf. rewrite Hsize1, Hchars1.
    lia. }
  split.
  - intros st1 st2 H1 H2.
    destruct (Hins st1 H1)
      as (r1 & Hr1 & Hkey1 & Hkeys1 & Hep1 & Hc1 & Hcx1 & Hco1 & Hfr1 & Hn1
          & Hrest1 & Hd1).
    destruct (Hrow1 r1 Hkey1) as (Hwf1 & Hsize1 & Hchars1 & Hidx1).
    destruct (unedited_typing _ _ Hrest1) as [Htp1 _].
    eapply DeleteChar_inv in H2
      as (Hkeys2 & Hep2t & Hep2f & Hc2 & _ & _ & _ & Hrest2 & Hcy2 & Hro2
          & Hn2 & Hd2 & _);
      [|rewrite Hfr1, Hn1; exact Hrow|rewrite Hn1; exact Hnum|exact Hcx1
       |exact Hco1|rewrite Hc1, Hsize1; lia|exact Hr1|exact Hwf1
       |rewrite Hsize1; lia].
    rewrite Hfr1, Hc1, Hsize1, Hidx1, Hchars1 in Hkeys2.
    replace (Z.to_nat (filecol + 1 - 1)) with (Z.to_nat filecol) in Hkeys2
      by lia.
    replace (Z.to_nat (filecol + 1)) with (S (Z.to_nat filecol)) in Hkeys2
      by lia.
    unfold cs1 in Hkeys2 at 1 2. rewrite delete_inserted_char in Hkeys2 by lia.
    split.
    { rewrite Hkeys2, Hkeys1, list_insert_insert_eq.
      apply list_insert_id. rewrite list_lookup_fmap, Hr. cbn.
      unfold row_key. do 2 f_equal. f_equal. lia. }
    split.
    { destruct (typing_password st) eqn:Htp.
      - rewrite Hep2t by congruence. rewrite Hep1, length_app. cbn [length].
        replace (length (entry_password st) + 1 - 1)%nat
          with (length (entry_password st)) by lia.
        apply take_app_length.
      - rewrite Hep2f by congruence. exact Hep1. }
    split; [lia|]. split; [lia|]. split; [congruence|].
    split; [congruence|]. rewrite Hd2, Hd1. reflexivity.
  - intros Hsyn.
    destruct (InsertChar_returns st c r) as [st1 H1];
      [exact Hrow|exact Hnum|exact Hcol0|exact Hr|exact Hwf
      |fold filecol; lia|exact Hsyn|].
    destruct (Hins st1 H1)
      as (r1 & Hr1 & Hkey1 & Hkeys1 & Hep1 & Hc1 & Hcx1 & Hco1 & Hfr1 & Hn1
          & Hrest1 & Hd1).
    destruct (Hrow1 r1 Hkey1) as (Hwf1 & Hsize1 & Hchars1 & Hidx1).
    destruct (unedited_typing _ _ Hrest1) as [Htp1 Hsyn1].
    destruct (DeleteChar_returns st1 r1) as [st2 H2];
      [rewrite Hfr1, Hn1; exact Hrow|rewrite Hn1; exact Hnum
      |rewrite Hc1, Hsize1; lia|exact Hr1|exact Hwf1|rewrite Hsize1; lia
      | |congruence|].
    + intros Htp. rewrite Hep1. rewrite Htp1 in Htp. rewrite Htp.
      intros Habs. apply app_eq_nil in Habs as [_ Habs]. discriminate.
    + exists st1, st2. now split.
Qed.

Lemma InsertChar_DeleteChar_roundtrip_witness :
  exists st1 st2,
    InsertChar password_prompt (uchar "s"%char) = Returns st1
    /\ DeleteChar st1 = Returns st2
    /\ entry_password st1 = cstr "s"
    /\ entry_password st2 = []
    /\ chars <$> row st2 = [cstr "Enter password: "]
    /\ coloff st2 + cx st2 = 16.
Proof.
  destruct (InsertChar_DeleteChar_roundtrip password_prompt (uchar "s"%char)
              (plain_row 0 "Enter password: ")) as [Hround Hruns];
    [cbn; lia|vm_compute; discriminate|cbn; lia|cbn; lia|cbn; lia|reflexivity
    |reflexivity|vm_compute; reflexivity|].
  destruct (Hruns eq_refl) as (st1 & st2 & H1 & H2).
  destruct (Hround st1 st2 H1 H2) as (Hkeys & Hep & Hcol & _).
  exists st1, st2. split; [exact H1|]. split; [exact H2|].
  split; [vm_compute in H1; injection H1 as <-; reflexivity|].
  split; [exact Hep|].
  assert (chars <$> row st2 = snd <$> (row_key <$> row st2)) as Hchars
    by (rewrite <- list_fmap_compose; reflexivity).
  split; [rewrite Hchars, Hkeys; reflexivity|exact Hcol].
Defined.

(** * Lines: Enter and Backspace at the start of a row *)

Lemma inserted_rows_wf (rows : list Row) (n at_ : Z) (s : bytes) (len : Z) :
  Forall row_wf rows -> 0 <= len <= Z.of_nat (length s) -> len <= INT_MAX ->
  Forall row_wf (inserted_rows rows n at_ s len).
Proof.
  intros Hwf Hlen Hmax. unfold inserted_rows. apply Forall_app.
  split; [now apply Forall_take|]. constructor.
  - unfold row_wf. cbn [size chars inserted_row].
    rewrite wrap_int_id by (unfold INT_MIN, INT_MAX in *; lia).
    rewrite length_take. lia.
  - destruct (negb _); [|now apply Forall_drop].
    apply Forall_fmap. eapply Forall_impl; [apply Forall_drop, Hwf|].
    intros r Hr. exact Hr.
Qed.

Lemma row_wf_of_keys (l1 l2 : list Row) :
  row_key <$> l1 = row_key <$> l2 -> Forall row_wf l2 -> Forall row_wf l1.
Proof.
  intros Hkeys Hwf. apply Forall_lookup. intros j r Hr.
  assert ((row_key <$> l2) !! j = Some (row_key r)) as Hk
    by (rewrite <- Hkeys, list_lookup_fmap, Hr; reflexivity).
  apply lookup_row_key in Hk as (r2 & Hr2 & Hkey).
  eapply Forall_lookup in Hwf; [|exact Hr2].
  unfold row_key in Hkey. injection Hkey as _ Hsize Hchars.
  unfold row_wf in *. congruence.
Qed.

Lemma numbered_of_keys (l1 l2 : list Row) :
  row_key <$> l1 = row_key <$> l2 -> numbered l2 -> numbered l1.
Proof.
  intros Hkeys. apply numbered_of_idx.
  now apply chars_of_row_key in Hkeys as (_ & _ & Hidx).
Qed.

Lemma chars_of_keys (l1 l2 : list Row) :
  row_key <$> l1 = row_key <$> l2 -> chars <$> l1 = chars <$> l2.
Proof. intros Hkeys. now apply chars_of_row_key in Hkeys as (H & _). Qed.

Lemma split_rows_chars (rows : list Row) (n fr fc : Z) (r : Row) :
  rows !! Z.to_nat fr = Some r -> row_wf r ->
  0 <= fr -> 0 <= fc <= size r ->
  chars <$> split_rows rows n fr fc r
  = take (Z.to_nat fr) (chars <$> rows)
    ++ [take (Z.to_nat fc) (chars r); drop (Z.to_nat fc) (chars r)]
    ++ drop (S (Z.to_nat fr)) (chars <$> rows).
Proof.
  intros Hr Hwf Hfr Hfc. unfold row_wf in Hwf. unfold split_rows.
  assert (Z.to_nat fr < length rows)%nat as Hlt
    by (eapply lookup_lt_Some; exact Hr).
  assert (drop (Z.to_nat fr) (chars <$> rows)
          = chars r :: drop (S (Z.to_nat fr)) (chars <$> rows)) as Hdrop.
  { rewrite <- !fmap_drop. erewrite drop_S by exact Hr. reflexivity. }
  destruct (Z.eqb_spec fc 0) as [->|Hne].
  - rewrite inserted_rows_chars, Hdrop. reflexivity.
  - rewrite list_fmap_insert, inserted_rows_chars. cbn [chars set_chars set_chars_end].
    replace (Z.to_nat (fr + 1)) with (S (Z.to_nat fr)) by lia.
    rewrite (take_ge (drop (Z.to_nat fc) (chars r)))
      by (rewrite length_drop; lia).
    rewrite insert_app_l
      by (rewrite length_take, length_fmap; lia).
    rewrite (take_S_r _ _ (chars r))
      by (rewrite list_lookup_fmap, Hr; reflexivity).
    rewrite insert_app_r_alt by (rewrite length_take; lia).
    rewrite length_take, length_fmap.
    replace (Z.to_nat fr - Z.to_nat fr `min` length rows)%nat with 0%nat
      by lia.
    cbn [insert list_insert app]. now rewrite <- app_assoc.
Qed.

Lemma split_rows_wf (rows : list Row) (n fr fc : Z) (r : Row) :
  Forall row_wf rows -> row_wf r -> 0 <= fc <= size r -> size r <= INT_MAX ->
  Forall row_wf (split_rows rows n fr fc r).
Proof.
  intros Hrows Hwf Hfc Hmax. unfold row_wf in Hwf. unfold split_rows.
  destruct (fc =? 0).
  - apply inserted_rows_wf; [exact Hrows|cbn; lia|unfold INT_MAX; lia].
  - apply Forall_insert.
    + apply inserted_rows_wf; [exact Hrows|rewrite length_drop; lia|lia].
    + unfold row_wf. cbn [size chars set_chars set_chars_end]. rewrite length_take. lia.
Qed.

Lemma split_rows_numbered (rows : list Row) (fr fc : Z) (r : Row) :
  rows !! Z.to_nat fr = Some r ->
  numbered rows -> 0 <= fr -> Z.of_nat (length rows) < INT_MAX ->
  numbered (split_rows rows (Z.of_nat (length rows)) fr fc r).
Proof.
  intros Hr Hnum Hfr Hmax. unfold split_rows.
  assert (Z.to_nat fr < length rows)%nat as Hlt
    by (eapply lookup_lt_Some; exact Hr).
  destruct (fc =? 0).
  - apply inserted_rows_numbered; [exact Hnum|lia|exact Hmax].
  - intros j r' Hj. destruct (decide (j = Z.to_nat fr)) as [->|Hne].
    + rewrite list_lookup_insert_eq in Hj
        by (rewrite inserted_rows_length; lia).
      injection Hj as <-. cbn [idx set_chars set_chars_end]. now apply Hnum.
    + rewrite list_lookup_insert_ne in Hj by congruence.
      eapply (inserted_rows_numbered rows (fr + 1));
        [exact Hnum|lia|exact Hmax|exact Hj].
Qed.

Lemma split_rows_length (rows : list Row) (n fr fc : Z) (r : Row) :
  0 <= fr < Z.of_nat (length rows) ->
  length (split_rows rows n fr fc r) = S (length rows).
Proof.
  intros Hfr. unfold split_rows. destruct (fc =? 0).
  - apply inserted_rows_length. lia.
  - rewrite length_insert. apply inserted_rows_length. lia.
Qed.

Lemma fixcursor_spec (s : State) :
  0 <= cy s -> 0 <= rowoff s -> rowoff s + cy s < INT_MAX ->
  cx (fixcursor s) = 0 /\ coloff (fixcursor s) = 0
  /\ rowoff (fixcursor s) + cy (fixcursor s) = rowoff s + cy s + 1
  /\ 0 <= cy (fixcursor s) /\ 0 <= rowoff (fixcursor s)
  /\ row (fixcursor s) = row s
  /\ numrows (fixcursor s) = numrows s /\ dirty (fixcursor s) = dirty s
  /\ entry_password (fixcursor s) = entry_password s
  /\ unedited (fixcursor s) = unedited s.
Proof.
  intros Hcy Hro Hmax. unfold fixcursor.
  destruct (cy s =? wrap_int (screenrows s - 1));
    cbn [cx cy rowoff coloff row numrows dirty entry_password set_cursor];
    rewrite wrap_int_id by (unfold INT_MIN, INT_MAX in *; lia);
    repeat split; lia.
Qed.

(** The byte behind the string has no part in the characters of the row
    that [InsertRow] makes. *)
Lemma row_key_inserted_rows_end
    (rows : list Row) (n at_ : Z) (s : bytes) (e : ascii) (len : Z) :
  Z.of_nat (length s) = len ->
  row_key <$> inserted_rows rows n at_ (s ++ [e]) len
  = row_key <$> inserted_rows rows n at_ s len.
Proof.
  intros Hlen. unfold inserted_rows.
  rewrite !fmap_app, !fmap_cons. do 2 f_equal.
  unfold row_key, inserted_row. cbn [idx size chars].
  rewrite take_app_length' by lia. now rewrite take_ge by lia.
Qed.

Lemma InsertNewLine_inv (st : State) (r : Row) (st' : State) :
  let filerow := rowoff st + cy st in
  let filecol := coloff st + cx st in
  let fc := Z.min filecol (size r) in
  numrows st = Z.of_nat (length (row st)) ->
  0 <= rowoff st -> 0 <= cy st -> filerow < numrows st ->
  numrows st < INT_MAX ->
  0 <= cx st -> 0 <= coloff st -> filecol <= INT_MAX ->
  row st !! Z.to_nat filerow = Some r -> row_wf r -> size r <= INT_MAX ->
  InsertNewLine st = Returns st' ->
  row_key <$> row st'
    = row_key <$> split_rows (row st) (numrows st) filerow fc r
  /\ cx st' = 0 /\ coloff st' = 0
  /\ rowoff st' + cy st' = filerow + 1
  /\ 0 <= cy st' /\ 0 <= rowoff st'
  /\ numrows st' = numrows st + 1
  /\ dirty st' = wrap_int (dirty st + 1)
  /\ entry_password st' = entry_password st
  /\ unedited st' = unedited st.
Proof.
  intros filerow filecol fc Hnum Hro Hcy Hrow Hmax Hcx Hco Hcol Hr Hwf Hsize.
  pose proof Hwf as Hlen. unfold row_wf in Hlen.
  unfold InsertNewLine.
  rewrite (wrap_int_id (rowoff st + cy st))
    by (unfold INT_MIN, INT_MAX in *; fold filerow; lia).
  rewrite (wrap_int_id (coloff st + cx st))
    by (unfold INT_MIN, INT_MAX in *; fold filecol; lia).
  fold filerow filecol.
  destruct (Z.leb_spec (numrows st) filerow) as [?|_]; [lia|].
  unfold array_get at 1.
  assert (0 <= filerow) as Hfr0 by (unfold filerow; lia).
  destruct (Z.ltb_spec filerow 0) as [?|_]; [lia|].
  rewrite Hr. cbn [bind].
  assert ((if size r <=? filecol then size r else filecol) = fc) as ->
    by (unfold fc; destruct (Z.leb_spec (size r) filecol); lia).
  assert (0 <= fc <= size r) as Hfc by (unfold fc, filecol; lia).
  assert (forall s1 s2 : State,
            set_rows [] s1
            = set_rows []
                (set_numrows_dirty (wrap_int (numrows st + 1))
                   (wrap_int (dirty st + 1)) st) ->
            set_rows [] s2 = set_rows [] s1 ->
            cx (fixcursor s2) = 0 /\ coloff (fixcursor s2) = 0
            /\ rowoff (fixcursor s2) + cy (fixcursor s2) = filerow + 1
            /\ 0 <= cy (fixcursor s2) /\ 0 <= rowoff (fixcursor s2)
            /\ numrows (fixcursor s2) = numrows st + 1
            /\ dirty (fixcursor s2) = wrap_int (dirty st + 1)
            /\ entry_password (fixcursor s2) = entry_password st
            /\ unedited (fixcursor s2) = unedited st) as Hfix.
  { intros s1 s2 Hs1 Hs2.
    pose proof (scalars_eq _ _ Hs1)
      as (Hcx1 & Hcy1 & Hro1 & Hco1 & _ & _ & Hn1 & Hd1 & Hep1 & _).
    pose proof (scalars_eq _ _ Hs2)
      as (Hcx2 & Hcy2 & Hro2 & Hco2 & _ & _ & Hn2 & Hd2 & Hep2 & _).
    cbn in Hcx1, Hcy1, Hro1, Hco1, Hn1, Hd1, Hep1.
    destruct (fixcursor_spec s2)
      as (Hfx & Hfco & Hffr & Hfcy & Hfro & _ & Hfn & Hfd & Hfep & Hfun);
      [lia|lia|unfold filerow in Hrow; lia|].
    rewrite Hfx, Hfco, Hffr, Hfn, Hfd, Hfep, Hfun.
    rewrite (wrap_int_id (numrows st + 1)) in Hn1
      by (unfold INT_MIN, INT_MAX in *; lia).
    repeat split; try (unfold filerow; lia); try congruence.
    rewrite (unedited_of_scalars _ _ Hs2), (unedited_of_scalars _ _ Hs1).
    reflexivity. }
  unfold split_rows.
  destruct (Z.eqb_spec fc 0) as [Hz|Hnz].
  - intros Hrun. bind_inv Hrun. injection Hrun as <-.
    eapply InsertRow_keys in E as (Hkeys & Hst1 & _); [|exact Hnum|lia].
    split; [|now apply (Hfix a a)].
    destruct (fixcursor_spec a) as (_ & _ & _ & _ & _ & -> & _).
    + apply scalars_eq in Hst1. cbn in Hst1. lia.
    + apply scalars_eq in Hst1. cbn in Hst1. lia.
    + apply scalars_eq in Hst1. cbn in Hst1. unfold filerow in Hrow. lia.
    + exact Hkeys.
  - rewrite (row_chars_wf r Hwf). cbn [bind].
    destruct (Z.ltb_spec fc 0) as [?|_]; [lia|].
    rewrite (wrap_int_id (filerow + 1)) by (unfold INT_MIN, INT_MAX in *; lia).
    rewrite (wrap_int_id (size r - fc)) by (unfold INT_MIN, INT_MAX in *; lia).
    intros Hrun. bind_inv Hrun. rename a into s1.
    eapply InsertRow_keys in E as (Hkeys1 & Hst1 & _); [|exact Hnum|lia].
    assert (Z.to_nat filerow < length (row st))%nat as Hlt
      by (eapply lookup_lt_Some; exact Hr).
    destruct (lookup_row_key (row s1) (Z.to_nat filerow) (row_key r))
      as (r1 & Hr1 & Hkey1).
    { rewrite Hkeys1, list_lookup_fmap. unfold inserted_rows.
      rewrite lookup_app_l by (rewrite length_take; lia).
      rewrite lookup_take_lt by lia. rewrite Hr. reflexivity. }
    unfold array_get in Hrun.
    destruct (Z.ltb_spec filerow 0) as [?|_]; [lia|].
    rewrite Hr1 in Hrun. cbn [bind] in Hrun.
    bind_inv Hrun. rename a into s2. injection Hrun as <-.
    apply UpdateRow_keys in E as [Hst2 Hkeys2].
    cbn [row set_rows] in Hkeys2.
    split; [|now apply (Hfix s1 s2)].
    destruct (fixcursor_spec s2) as (_ & _ & _ & _ & _ & -> & _).
    + apply scalars_eq in Hst1, Hst2. cbn in Hst1, Hst2. lia.
    + apply scalars_eq in Hst1, Hst2. cbn in Hst1, Hst2. lia.
    + apply scalars_eq in Hst1, Hst2. cbn in Hst1, Hst2.
      unfold filerow in Hrow. lia.
    + rewrite Hkeys2, !row_key_insert, Hkeys1.
      rewrite row_key_inserted_rows_end by (rewrite length_drop; lia).
      f_equal.
      unfold row_key in *. cbn [idx size chars set_chars set_chars_end].
      injection Hkey1 as -> _ ->. reflexivity.
Qed.

Lemma InsertNewLine_returns (st : State) (r : Row) :
  let filerow := rowoff st + cy st in
  let filecol := coloff st + cx st in
  numrows st = Z.of_nat (length (row st)) ->
  0 <= filerow < numrows st -> numrows st < INT_MAX ->
  0 <= filecol <= INT_MAX ->
  row st !! Z.to_nat filerow = Some r -> row_wf r ->
  9 * size r < 2 ^ 31 ->
  syntax st = None ->
  exists st', InsertNewLine st = Returns st'.
Proof.
  intros filerow filecol Hnum Hrow Hmax Hcol Hr Hwf Hsize Hsyn.
  pose proof Hwf as Hlen. unfold row_wf in Hlen.
  unfold InsertNewLine.
  rewrite (wrap_int_id (rowoff st + cy st))
    by (unfold INT_MIN, INT_MAX in *; fold filerow; lia).
  rewrite (wrap_int_id (coloff st + cx st))
    by (unfold INT_MIN, INT_MAX in *; fold filecol; lia).
  fold filerow filecol.
  destruct (Z.leb_spec (numrows st) filerow) as [?|_]; [lia|].
  unfold array_get at 1.
  destruct (Z.ltb_spec filerow 0) as [?|_]; [lia|].
  rewrite Hr. cbn [bind].
  set (fc := if size r <=? filecol then size r else filecol).
  assert (0 <= fc <= size r) as Hfc
    by (unfold fc; destruct (Z.leb_spec (size r) filecol); lia).
  destruct (Z.eqb_spec fc 0) as [Hz|Hnz].
  - destruct (InsertRow_returns st filerow [] 0) as [s1 H1];
      [exact Hnum|lia|cbn; lia|lia|exact Hsyn|].
    rewrite H1. cbn [bind]. eexists. reflexivity.
  - rewrite (row_chars_wf r Hwf). cbn [bind].
    destruct (Z.ltb_spec fc 0) as [?|_]; [lia|].
    rewrite (wrap_int_id (filerow + 1)) by (unfold INT_MIN, INT_MAX in *; lia).
    rewrite (wrap_int_id (size r - fc)) by (unfold INT_MIN, INT_MAX in *; lia).
    destruct (InsertRow_returns st (filerow + 1)
                (drop (Z.to_nat fc) (chars r) ++ [chars_end r])
                (size r - fc)) as [s1 H1];
      [exact Hnum|lia|rewrite length_app, length_drop; lia|lia|exact Hsyn|].
    rewrite H1. cbn [bind].
    eapply InsertRow_keys in H1 as (Hkeys1 & Hst1 & _); [|exact Hnum|lia].
    assert (Z.to_nat filerow < length (row st))%nat as Hlt
      by (eapply lookup_lt_Some; exact Hr).
    destruct (lookup_row_key (row s1) (Z.to_nat filerow) (row_key r))
      as (r1 & Hr1 & Hkey1).
    { rewrite Hkeys1, list_lookup_fmap. unfold inserted_rows.
      rewrite lookup_app_l by (rewrite length_take; lia).
      rewrite lookup_take_lt by lia. rewrite Hr. reflexivity. }
    unfold array_get.
    destruct (Z.ltb_spec filerow 0) as [?|_]; [lia|].
    rewrite Hr1. cbn [bind].
    unfold row_key in Hkey1. injection Hkey1 as _ _ Hchars1.
    destruct (update_after_set_returns s1 (Z.to_nat filerow)
                (set_chars_end NUL
                   (set_chars (take (Z.to_nat fc) (chars r1)) fc r1)))
      as [s2 H2].
    + eapply lookup_lt_Some. exact Hr1.
    + cbn [size chars set_chars set_chars_end]. rewrite Hchars1, length_take. lia.
    + cbn [size set_chars set_chars_end]. lia.
    + apply scalars_eq in Hst1. cbn in Hst1.
      destruct Hst1 as (_ & _ & _ & _ & _ & _ & _ & _ & _ & _ & ->).
      exact Hsyn.
    + cbn [row set_rows]. rewrite H2. cbn [bind]. eexists. reflexivity.
Qed.

(** Enter with the cursor in a row of the file cuts that row at the column
    of the cursor (at its end when the cursor is behind it): the text of
    the file gains one line feed there.  The cursor goes to the start of
    the next row; [numrows] and [dirty] grow by one; a well-formed state
    stays well-formed and rows that were numbered by their positions stay
    so.  With no syntax selected the call returns. *)
Theorem InsertNewLine_splits_row (st : State) (r : Row) :
  let filerow := rowoff st + cy st in
  let filecol := coloff st + cx st in
  let fc := Z.to_nat (Z.min filecol (size r)) in
  numrows st = Z.of_nat (length (row st)) ->
  0 <= rowoff st -> 0 <= cy st -> filerow < numrows st ->
  numrows st < INT_MAX ->
  0 <= cx st -> 0 <= coloff st -> filecol <= INT_MAX ->
  row st !! Z.to_nat filerow = Some r -> row_wf r ->
  9 * size r < 2 ^ 31 ->
  (forall st' : State,
     InsertNewLine st = Returns st' ->
     chars <$> row st'
       = take (Z.to_nat filerow) (chars <$> row st)
         ++ [take fc (chars r); drop fc (chars r)]
         ++ drop (S (Z.to_nat filerow)) (chars <$> row st)
     /\ rows_text (row st')
        = rows_text (take (Z.to_nat filerow) (row st))
          ++ take fc (chars r) ++ [LF] ++ drop fc (chars r) ++ [LF]
          ++ rows_text (drop (S (Z.to_nat filerow)) (row st))
     /\ cx st' = 0 /\ coloff st' = 0
     /\ rowoff st' + cy st' = filerow + 1
     /\ numrows st' = numrows st + 1
     /\ numrows st' = Z.of_nat (length (row st'))
     /\ dirty st' = wrap_int (dirty st + 1)
     /\ unedited st' = unedited st
     /\ (Forall row_wf (row st) -> Forall row_wf (row st'))
     /\ (numbered (row st) -> numbered (row st')))
  /\ (syntax st = None -> exists st', InsertNewLine st = Returns st').
Proof.
  intros filerow filecol fc Hnum Hro Hcy Hrow Hmax Hcx Hco Hcol Hr Hwf Hsize.
  pose proof Hwf as Hlen. unfold row_wf in Hlen.
  assert (0 <= filerow) as Hfr0 by (unfold filerow; lia).
  assert (0 <= filecol) as Hfc0 by (unfold filecol; lia).
  split.
  - intros st' Hrun.
    eapply InsertNewLine_inv in Hrun
      as (Hkeys & Hcx' & Hco' & Hfr' & _ & _ & Hn' & Hd' & _ & Hrest);
      [|exact Hnum|exact Hro|exact Hcy|exact Hrow|exact Hmax|exact Hcx
       |exact Hco|exact Hcol|exact Hr|exact Hwf|unfold INT_MAX; lia].
    fold filerow filecol in Hkeys.
    assert (chars <$> row st'
            = take (Z.to_nat filerow) (chars <$> row st)
              ++ [take fc (chars r); drop fc (chars r)]
              ++ drop (S (Z.to_nat filerow)) (chars <$> row st)) as Hchars.
    { rewrite (chars_of_keys _ _ Hkeys).
      apply split_rows_chars; [exact Hr|exact Hwf|lia|lia]. }
    split; [exact Hchars|].
    split.
    { rewrite (rows_text_chars (row st')), Hchars.
      rewrite !fmap_app, !concat_app. cbn [fmap list_fmap concat].
      rewrite <- fmap_take, <- fmap_drop, <- !rows_text_chars.
      rewrite app_nil_r, <- !app_assoc. reflexivity. }
    split; [exact Hcx'|]. split; [exact Hco'|]. split; [exact Hfr'|].
    split; [exact Hn'|].
    split.
    { rewrite Hn'. apply (f_equal length) in Hkeys.
      rewrite !length_fmap, split_rows_length in Hkeys by lia. lia. }
    split; [exact Hd'|]. split; [exact Hrest|].
    split.
    + intros Hwfs. eapply row_wf_of_keys; [exact Hkeys|].
      apply split_rows_wf; [exact Hwfs|exact Hwf|lia|unfold INT_MAX; lia].
    + intros Hnumd. eapply numbered_of_keys; [exact Hkeys|].
      rewrite Hnum. apply split_rows_numbered; [exact Hr|exact Hnumd|lia|lia].
  - intros Hsyn. apply (InsertNewLine_returns st r); try assumption.
    + fold filerow. lia.
    + fold filecol. lia.
Qed.

Lemma InsertNewLine_splits_row_witness :
  exists st',
    InsertNewLine (set_cursor 6 1 0 0 (set_window 24 80 three_rows))
    = Returns st'
    /\ chars <$> row st'
       = [cstr "first row"; cstr "second"; cstr " row"; cstr "third row"]
    /\ cx st' = 0 /\ cy st' = 2.
Proof.
  destruct (InsertNewLine_splits_row
              (set_cursor 6 1 0 0 (set_window 24 80 three_rows))
              (plain_row 1 "second row")) as [Hsplit Hruns];
    [reflexivity|cbn; lia|cbn; lia|cbn; lia|vm_compute; reflexivity
    |cbn; lia|cbn; lia|vm_compute; discriminate|reflexivity|reflexivity
    |vm_compute; reflexivity|].
  destruct (Hruns eq_refl) as [st' Hrun].
  destruct (Hsplit st' Hrun) as (Hchars & _ & Hcx & _).
  exists st'. split; [exact Hrun|]. split; [exact Hchars|].
  split; [exact Hcx|]. vm_compute in Hrun. injection Hrun as <-. reflexivity.
Defined.

Lemma RowAppendString_inv (st : State) (pos : nat) (s : bytes) (len : Z)
    (r : Row) (st' : State) :
  row st !! pos = Some r -> row_wf r ->
  0 <= len <= Z.of_nat (length s) -> size r + len <= INT_MAX ->
  RowAppendString st pos s len = Returns st' ->
  set_rows [] st' = set_rows [] (set_dirty (wrap_int (dirty st + 1)) st)
  /\ row_key <$> row st'
     = <[pos := (idx r, size r + len, chars r ++ take (Z.to_nat len) s)]>
         (row_key <$> row st).
Proof.
  intros Hr Hwf Hlen Hmax. unfold RowAppendString, array_get.
  destruct (Z.ltb_spec (Z.of_nat pos) 0) as [?|_]; [lia|].
  rewrite Nat2Z.id, Hr. cbn [bind]. rewrite (row_chars_wf r Hwf). cbn [bind].
  unfold row_wf in Hwf.
  destruct (Z.ltb_spec len 0) as [?|_]; [lia|].
  destruct (Z.ltb_spec (Z.of_nat (length s)) len) as [?|_]; [lia|].
  cbn [orb]. intros Hrun. bind_inv Hrun. injection Hrun as <-.
  apply UpdateRow_keys in E as [Hst Hkeys].
  cbn [row set_rows] in Hkeys. rewrite row_key_insert in Hkeys.
  unfold row_key at 2 in Hkeys. cbn [idx size chars set_chars set_chars_end] in Hkeys.
  rewrite (wrap_int_id len) in Hkeys by (unfold INT_MIN, INT_MAX in *; lia).
  rewrite wrap_int_id in Hkeys by (unfold INT_MIN, INT_MAX in *; lia).
  split; [|exact Hkeys].
  pose proof (scalars_eq _ _ Hst) as (_ & _ & _ & _ & _ & _ & Hn & Hd & _).
  cbn in Hn, Hd. unfold set_dirty. rewrite Hn, Hd.
  apply (f_equal (set_numrows_dirty (numrows st) (wrap_int (dirty st + 1))))
    in Hst.
  exact Hst.
Qed.

Lemma RowAppendString_returns (st : State) (pos : nat) (s : bytes) (len : Z)
    (r : Row) :
  row st !! pos = Some r -> row_wf r ->
  0 <= len <= Z.of_nat (length s) -> 9 * (size r + len) < 2 ^ 31 ->
  syntax st = None ->
  exists st', RowAppendString st pos s len = Returns st'.
Proof.
  intros Hr Hwf Hlen Hmax Hsyn. unfold RowAppendString, array_get.
  destruct (Z.ltb_spec (Z.of_nat pos) 0) as [?|_]; [lia|].
  rewrite Nat2Z.id, Hr. cbn [bind]. rewrite (row_chars_wf r Hwf). cbn [bind].
  unfold row_wf in Hwf.
  destruct (Z.ltb_spec len 0) as [?|_]; [lia|].
  destruct (Z.ltb_spec (Z.of_nat (length s)) len) as [?|_]; [lia|].
  cbn [orb row set_rows].
  match goal with
  | |- context [UpdateRow _ (set_rows (<[pos := ?r1]> _) _) _] =>
      destruct (update_after_set_returns st pos r1) as [st' Hst'];
        [eapply lookup_lt_Some; exact Hr| | |exact Hsyn|]
  end.
  - cbn [size chars set_chars set_chars_end].
    rewrite (wrap_int_id len) by (unfold INT_MIN, INT_MAX; lia).
    rewrite wrap_int_id by (unfold INT_MIN, INT_MAX; lia).
    rewrite length_app, length_take. lia.
  - cbn [size set_chars set_chars_end].
    rewrite (wrap_int_id len) by (unfold INT_MIN, INT_MAX; lia).
    rewrite wrap_int_id by (unfold INT_MIN, INT_MAX; lia). lia.
  - rewrite Hst'. cbn [bind]. eexists. reflexivity.
Qed.

Lemma row_key_incr_idx (rows : list Row) :
  row_key <$> (incr_idx <$> rows) = incr_key <$> (row_key <$> rows).
Proof. rewrite <- !list_fmap_compose. reflexivity. Qed.

Lemma joined_rows_keys (rows1 rows : list Row) (fr : Z) (prev r : Row) :
  row_key <$> rows1
  = <[Z.to_nat (fr - 1) :=
        (idx prev, size prev + size r, chars prev ++ chars r)]>
      (row_key <$> rows) ->
  row_key <$> (take (Z.to_nat fr) rows1
               ++ (incr_idx <$> drop (Z.to_nat fr + 1) rows1))
  = row_key <$> joined_rows rows fr prev r.
Proof.
  intros Hkeys. unfold joined_rows.
  rewrite !fmap_app, !row_key_incr_idx, !fmap_take, !fmap_drop.
  rewrite Hkeys, row_key_insert. reflexivity.
Qed.

Lemma joined_rows_chars (rows : list Row) (fr : Z) (prev r : Row) :
  0 < fr -> rows !! Z.to_nat (fr - 1) = Some prev ->
  chars <$> joined_rows rows fr prev r
  = take (Z.to_nat (fr - 1)) (chars <$> rows)
    ++ [chars prev ++ chars r]
    ++ drop (Z.to_nat fr + 1) (chars <$> rows).
Proof.
  intros Hfr Hprev. unfold joined_rows.
  assert (Z.to_nat (fr - 1) < length rows)%nat as Hlt
    by (eapply lookup_lt_Some; exact Hprev).
  rewrite fmap_app, <- list_fmap_compose.
  replace (Z.to_nat fr) with (S (Z.to_nat (fr - 1))) by lia.
  erewrite take_S_r by (apply list_lookup_insert_eq; exact Hlt).
  rewrite take_insert_ge by lia.
  rewrite drop_insert_lt by lia.
  rewrite fmap_app, fmap_take, <- fmap_drop, <- app_assoc. reflexivity.
Qed.

Lemma joined_rows_length (rows : list Row) (fr : Z) (prev r : Row) :
  0 < fr < Z.of_nat (length rows) ->
  length (joined_rows rows fr prev r) = (length rows - 1)%nat.
Proof.
  intros Hfr. unfold joined_rows.
  rewrite length_app, length_fmap, length_take, length_drop, length_insert.
  lia.
Qed.

Lemma joined_rows_wf (rows : list Row) (fr : Z) (prev r : Row) :
  Forall row_wf rows -> row_wf prev -> row_wf r ->
  Forall row_wf (joined_rows rows fr prev r).
Proof.
  intros Hrows Hprev Hr. unfold joined_rows, row_wf in *.
  assert (Forall (fun r0 => size r0 = Z.of_nat (length (chars r0)))
            (<[Z.to_nat (fr - 1) :=
                 set_chars (chars prev ++ chars r) (size prev + size r)
                   prev]> rows)) as Hins.
  { apply Forall_insert; [exact Hrows|].
    cbn [size chars set_chars set_chars_end]. rewrite length_app. lia. }
  apply Forall_app. split; [now apply Forall_take|].
  apply Forall_fmap. eapply Forall_impl; [apply Forall_drop, Hins|].
  intros r0 Hr0. exact Hr0.
Qed.

(** [DeleteChar] with the cursor at the start of a row that is not the
    first. *)
Lemma DeleteChar_join_inv (st : State) (prev r : Row) (st' : State) :
  let filerow := rowoff st + cy st in
  numrows st = Z.of_nat (length (row st)) ->
  0 <= rowoff st -> 0 <= cy st -> 0 < filerow < numrows st ->
  numrows st <= INT_MAX ->
  cx st = 0 -> coloff st = 0 -> 0 <= screencols st <= INT_MAX ->
  row st !! Z.to_nat (filerow - 1) = Some prev -> row_wf prev ->
  row st !! Z.to_nat filerow = Some r -> row_wf r ->
  9 * (size prev + size r) < 2 ^ 31 ->
  DeleteChar st = Returns st' ->
  row_key <$> row st' = row_key <$> joined_rows (row st) filerow prev r
  /\ rowoff st' + cy st' = filerow - 1
  /\ 0 <= cy st' /\ -1 <= rowoff st'
  /\ coloff st' + cx st' = size prev
  /\ (size prev < screencols st -> cx st' = size prev /\ coloff st' = 0)
  /\ (screencols st <= size prev ->
      cx st' = 2 * size prev - screencols st - 1
      /\ coloff st' = screencols st - size prev + 1)
  /\ numrows st' = numrows st - 1
  /\ dirty st' = wrap_int (wrap_int (wrap_int (dirty st + 1) + 1) + 1)
  /\ entry_password st' = entry_password st
  /\ unedited st' = unedited st.
Proof.
  intros filerow Hnum Hro Hcy Hrow Hmax Hcx Hco Hsc Hprev Hwfp Hr Hwf Hsize.
  pose proof Hwf as Hlen. unfold row_wf in Hlen.
  pose proof Hwfp as Hlenp. unfold row_wf in Hlenp.
  unfold DeleteChar.
  rewrite (wrap_int_id (rowoff st + cy st))
    by (unfold INT_MIN, INT_MAX in *; fold filerow; lia).
  rewrite Hcx, Hco. change (wrap_int (0 + 0)) with 0.
  fold filerow.
  destruct (Z.leb_spec (numrows st) filerow) as [?|_]; [lia|].
  destruct (Z.eqb_spec filerow 0) as [?|_]; [lia|].
  cbn [orb andb Z.eqb]. unfold array_get.
  destruct (Z.ltb_spec filerow 0) as [?|_]; [lia|].
  destruct (Z.ltb_spec (filerow - 1) 0) as [?|_]; [lia|].
  rewrite Hr, Hprev. cbn [bind]. rewrite (row_chars_wf r Hwf). cbn [bind].
  intros Hrun. bind_inv Hrun. rename a into st1.
  eapply RowAppendString_inv in E as [Hst1 Hkeys1];
    [|exact Hprev|exact Hwfp|lia|unfold INT_MAX; lia].
  rewrite Hlen, Nat2Z.id, firstn_all, <- Hlen in Hkeys1.
  pose proof (scalars_eq _ _ Hst1)
    as (Hcx1 & Hcy1 & Hro1 & Hco1 & Hsr1 & Hsc1 & Hn1 & Hd1 & Hep1 & _).
  cbn in Hcx1, Hcy1, Hro1, Hco1, Hsr1, Hsc1, Hn1, Hd1, Hep1.
  assert (length (row st1) = length (row st)) as Hlen1.
  { apply (f_equal length) in Hkeys1.
    rewrite length_insert, !length_fmap in Hkeys1. exact Hkeys1. }
  rewrite DeleteRow_eq in Hrun by (rewrite ?Hn1, ?Hlen1; lia).
  cbn [bind] in Hrun.
  set (st2 := set_numrows_dirty _ _ _) in Hrun.
  assert (row_key <$> row st2 = row_key <$> joined_rows (row st) filerow prev r)
    as Hkeys2.
  { unfold st2. cbn [row set_rows set_numrows_dirty].
    now apply joined_rows_keys. }
  assert (cx st2 = 0 /\ cy st2 = cy st /\ rowoff st2 = rowoff st
          /\ coloff st2 = 0 /\ screencols st2 = screencols st
          /\ numrows st2 = numrows st - 1
          /\ dirty st2 = wrap_int (wrap_int (dirty st + 1) + 1)
          /\ entry_password st2 = entry_password st
          /\ unedited st2 = unedited st)
    as (Hcx2 & Hcy2 & Hro2 & Hco2 & Hsc2 & Hn2 & Hd2 & Hep2 & Hrest2).
  { unfold st2.
    cbn [cx cy rowoff coloff screencols numrows dirty entry_password
         set_rows set_numrows_dirty].
    rewrite Hn1, Hd1.
    rewrite (wrap_int_id (numrows st - 1))
      by (unfold INT_MIN, INT_MAX in *; lia).
    repeat split; try congruence.
    transitivity (unedited st1); [reflexivity|].
    apply (unedited_of_scalars _ _ Hst1). }
  clearbody st2.
  set (st3 := if cy st2 =? 0
              then set_cursor (cx st2) (cy st2) (wrap_int (rowoff st2 - 1))
                     (coloff st2) st2
              else set_cursor (cx st2) (wrap_int (cy st2 - 1)) (rowoff st2)
                     (coloff st2) st2) in Hrun.
  assert (rowoff st3 + cy st3 = filerow - 1 /\ 0 <= cy st3
          /\ -1 <= rowoff st3 /\ coloff st3 = 0
          /\ screencols st3 = screencols st /\ row st3 = row st2
          /\ numrows st3 = numrows st2 /\ dirty st3 = dirty st2
          /\ entry_password st3 = entry_password st2
          /\ unedited st3 = unedited st2)
    as (Hfr3 & Hcy3 & Hro3 & Hco3 & Hsc3 & Hrow3 & Hn3 & Hd3 & Hep3 & Hrest3).
  { unfold st3. destruct (Z.eqb_spec (cy st2) 0) as [Hz|Hnz];
      cbn [cx cy rowoff coloff screencols row numrows dirty entry_password
           set_cursor];
      rewrite wrap_int_id by (unfold INT_MIN, INT_MAX, filerow in *; lia);
      unfold filerow; repeat split; try lia; try congruence. }
  clearbody st3.
  set (st4 := set_cursor (size prev) (cy st3) (rowoff st3) (coloff st3) st3)
    in Hrun.
  injection Hrun as <-.
  cbn [row cx cy rowoff coloff numrows dirty entry_password
       set_dirty set_numrows_dirty].
  assert (unedited st4 = unedited st) as Hrest4
    by (transitivity (unedited st3); [reflexivity|congruence]).
  destruct (Z.leb_spec (screencols st3) (size prev)) as [Hle|Hgt];
    rewrite Hsc3 in *; rewrite ?Hco3;
    cbn [row cx cy rowoff coloff screencols numrows dirty entry_password
         set_cursor st4].
  - rewrite (wrap_int_id (screencols st - size prev))
      by (unfold INT_MIN, INT_MAX in *; lia).
    rewrite (wrap_int_id (screencols st - size prev + 1))
      by (unfold INT_MIN, INT_MAX in *; lia).
    rewrite !wrap_int_id by (unfold INT_MIN, INT_MAX in *; lia).
    split; [rewrite Hrow3; exact Hkeys2|].
    repeat split; try exact Hrest4; try lia; try congruence.
  - split; [rewrite Hrow3; exact Hkeys2|].
    repeat split; try exact Hrest4; try lia; try congruence.
Qed.

Lemma DeleteChar_join_returns (st : State) (prev r : Row) :
  let filerow := rowoff st + cy st in
  numrows st = Z.of_nat (length (row st)) ->
  0 < filerow < numrows st -> numrows st <= INT_MAX ->
  cx st = 0 -> coloff st = 0 ->
  row st !! Z.to_nat (filerow - 1) = Some prev -> row_wf prev ->
  row st !! Z.to_nat filerow = Some r -> row_wf r ->
  9 * (size prev + size r) < 2 ^ 31 ->
  syntax st = None ->
  exists st', DeleteChar st = Returns st'.
Proof.
  intros filerow Hnum Hrow Hmax Hcx Hco Hprev Hwfp Hr Hwf Hsize Hsyn.
  pose proof Hwf as Hlen. unfold row_wf in Hlen.
  pose proof Hwfp as Hlenp. unfold row_wf in Hlenp.
  unfold DeleteChar.
  rewrite (wrap_int_id (rowoff st + cy st))
    by (unfold INT_MIN, INT_MAX in *; fold filerow; lia).
  rewrite Hcx, Hco. change (wrap_int (0 + 0)) with 0.
  fold filerow.
  destruct (Z.leb_spec (numrows st) filerow) as [?|_]; [lia|].
  destruct (Z.eqb_spec filerow 0) as [?|_]; [lia|].
  cbn [orb andb Z.eqb]. unfold array_get.
  destruct (Z.ltb_spec filerow 0) as [?|_]; [lia|].
  destruct (Z.ltb_spec (filerow - 1) 0) as [?|_]; [lia|].
  rewrite Hr, Hprev. cbn [bind]. rewrite (row_chars_wf r Hwf). cbn [bind].
  destruct (RowAppendString_returns st (Z.to_nat (filerow - 1)) (chars r)
              (size r) prev) as [st1 H1];
    [exact Hprev|exact Hwfp|lia|exact Hsize|exact Hsyn|].
  rewrite H1. cbn [bind].
  eapply RowAppendString_inv in H1 as [Hst1 Hkeys1];
    [|exact Hprev|exact Hwfp|lia|unfold INT_MAX; lia].
  pose proof (scalars_eq _ _ Hst1) as (_ & _ & _ & _ & _ & _ & Hn1 & _).
  cbn in Hn1.
  assert (length (row st1) = length (row st)) as Hlen1.
  { apply (f_equal length) in Hkeys1.
    rewrite length_insert, !length_fmap in Hkeys1. exact Hkeys1. }
  rewrite DeleteRow_eq by (rewrite ?Hn1, ?Hlen1; lia).
  cbn [bind]. eexists. reflexivity.
Qed.

(** Backspace at the start of a row that is not the first appends the row
    to the one before it and removes it: the text of the file loses the
    line feed between the two.  The cursor goes to the place in the file
    where the rows were joined.  [numrows] is one less and [dirty] has been
    incremented three times.  When the row before is as long as the window
    is wide or longer, [cx] is set to twice its length less the width and
    one: for a longer row that is a column beyond the window, and [coloff]
    is zero or negative.  With no syntax selected the call returns. *)
Theorem DeleteChar_joins_rows (st : State) (prev r : Row) :
  let filerow := rowoff st + cy st in
  numrows st = Z.of_nat (length (row st)) ->
  0 <= rowoff st -> 0 <= cy st -> 0 < filerow < numrows st ->
  numrows st <= INT_MAX ->
  cx st = 0 -> coloff st = 0 -> 0 <= screencols st <= INT_MAX ->
  row st !! Z.to_nat (filerow - 1) = Some prev -> row_wf prev ->
  row st !! Z.to_nat filerow = Some r -> row_wf r ->
  9 * (size prev + size r) < 2 ^ 31 ->
  (forall st' : State,
     DeleteChar st = Returns st' ->
     chars <$> row st'
       = take (Z.to_nat (filerow - 1)) (chars <$> row st)
         ++ [chars prev ++ chars r]
         ++ drop (Z.to_nat filerow + 1) (chars <$> row st)
     /\ rows_text (row st')
        = rows_text (take (Z.to_nat (filerow - 1)) (row st))
          ++ chars prev ++ chars r ++ [LF]
          ++ rows_text (drop (Z.to_nat filerow + 1) (row st))
     /\ rowoff st' + cy st' = filerow - 1
     /\ coloff st' + cx st' = size prev
     /\ (size prev < screencols st -> cx st' = size prev /\ coloff st' = 0)
     /\ (screencols st <= size prev ->
         cx st' = 2 * size prev - screencols st - 1
         /\ coloff st' = screencols st - size prev + 1)
     /\ numrows st' = numrows st - 1
     /\ numrows st' = Z.of_nat (length (row st'))
     /\ dirty st' = wrap_int (wrap_int (wrap_int (dirty st + 1) + 1) + 1)
     /\ unedited st' = unedited st
     /\ (Forall row_wf (row st) -> Forall row_wf (row st')))
  /\ (syntax st = None -> exists st', DeleteChar st = Returns st').
Proof.
  intros filerow Hnum Hro Hcy Hrow Hmax Hcx Hco Hsc Hprev Hwfp Hr Hwf Hsize.
  split.
  - intros st' Hrun.
    eapply DeleteChar_join_inv in Hrun
      as (Hkeys & Hfr & _ & _ & Hcol & Hin & Hout & Hn & Hd & _ & Hrest);
      [|exact Hnum|exact Hro|exact Hcy|exact Hrow|exact Hmax|exact Hcx
       |exact Hco|exact Hsc|exact Hprev|exact Hwfp|exact Hr|exact Hwf
       |exact Hsize].
    fold filerow in Hkeys.
    assert (chars <$> row st'
            = take (Z.to_nat (filerow - 1)) (chars <$> row st)
              ++ [chars prev ++ chars r]
              ++ drop (Z.to_nat filerow + 1) (chars <$> row st)) as Hchars.
    { rewrite (chars_of_keys _ _ Hkeys).
      apply joined_rows_chars; [lia|exact Hprev]. }
    split; [exact Hchars|].
    split.
    { rewrite (rows_text_chars (row st')), Hchars.
      rewrite !fmap_app, !concat_app. cbn [fmap list_fmap concat].
      rewrite <- fmap_take, <- fmap_drop, <- !rows_text_chars.
      rewrite app_nil_r, <- !app_assoc. reflexivity. }
    split; [exact Hfr|]. split; [exact Hcol|]. split; [exact Hin|].
    split; [exact Hout|]. split; [exact Hn|].
    split.
    { rewrite Hn. apply (f_equal length) in Hkeys.
      rewrite !length_fmap, joined_rows_length in Hkeys by lia. lia. }
    split; [exact Hd|]. split; [exact Hrest|].
    intros Hwfs. eapply row_wf_of_keys; [exact Hkeys|].
    now apply joined_rows_wf.
  - intros Hsyn. now apply (DeleteChar_join_returns st prev r).
Qed.

Lemma DeleteChar_joins_rows_witness :
  exists st',
    DeleteChar (set_cursor 0 1 0 0 (set_window 24 8 three_rows))
    = Returns st'
    /\ chars <$> row st' = [cstr "first rowsecond row"; cstr "third row"]
    /\ cx st' = 9 /\ coloff st' = 0 /\ screencols st' = 8.
Proof.
  destruct (DeleteChar_joins_rows
              (set_cursor 0 1 0 0 (set_window 24 8 three_rows))
              (plain_row 0 "first row") (plain_row 1 "second row"))
    as [Hjoin Hruns];
    [reflexivity|cbn; lia|cbn; lia|cbn; lia|vm_compute; discriminate
    |reflexivity|reflexivity|vm_compute; split; discriminate
    |reflexivity|reflexivity|reflexivity|reflexivity
    |vm_compute; reflexivity|].
  destruct (Hruns eq_refl) as [st' Hrun].
  destruct (Hjoin st' Hrun) as (Hchars & _ & _ & _ & _ & Hout & _).
  destruct Hout as [Hcx Hco]; [cbn; lia|].
  exists st'. split; [exact Hrun|]. split; [exact Hchars|].
  split; [exact Hcx|]. split; [exact Hco|].
  vm_compute in Hrun. injection Hrun as <-. reflexivity.
Defined.

Lemma lookup_chars (rows : list Row) (j : nat) (cs : bytes) :
  Forall row_wf rows -> (chars <$> rows) !! j = Some cs ->
  exists r, rows !! j = Some r /\ chars r = cs /\ row_wf r
            /\ size r = Z.of_nat (length cs).
Proof.
  intros Hwf. rewrite list_lookup_fmap.
  destruct (rows !! j) as [r|] eqn:Hr; [|discriminate].
  intros [= <-]. exists r. eapply Forall_lookup in Hwf; [|exact Hr].
  repeat split; try assumption.
Qed.

(** Backspace undoes Enter: [DeleteChar] after [InsertNewLine], with the
    cursor in a row of a well-formed file, gives back the characters of
    all rows, so the text of the file, and the place of the cursor in the
    file, at the end of the row if it was behind it.  [numrows] is as
    before and [dirty] has been incremented four times.  With no syntax
    selected both calls return. *)
Theorem InsertNewLine_DeleteChar_roundtrip (st : State) (r : Row) :
  let filerow := rowoff st + cy st in
  let filecol := coloff st + cx st in
  numrows st = Z.of_nat (length (row st)) -> Forall row_wf (row st) ->
  0 <= rowoff st -> 0 <= cy st -> filerow < numrows st ->
  numrows st < INT_MAX ->
  0 <= cx st -> 0 <= coloff st -> filecol <= INT_MAX ->
  0 <= screencols st <= INT_MAX ->
  row st !! Z.to_nat filerow = Some r ->
  9 * size r < 2 ^ 31 ->
  (forall st1 st2 : State,
     InsertNewLine st = Returns st1 -> DeleteChar st1 = Returns st2 ->
     chars <$> row st2 = chars <$> row st
     /\ rows_text (row st2) = rows_text (row st)
     /\ Forall row_wf (row st2)
     /\ rowoff st2 + cy st2 = filerow
     /\ coloff st2 + cx st2 = Z.min filecol (size r)
     /\ numrows st2 = numrows st
     /\ unedited st2 = unedited st
     /\ dirty st2
        = wrap_int (wrap_int (wrap_int (wrap_int (dirty st + 1) + 1) + 1) + 1))
  /\ (syntax st = None ->
      exists st1 st2,
        InsertNewLine st = Returns st1 /\ DeleteChar st1 = Returns st2).
Proof.
  intros filerow filecol Hnum Hwfs Hro Hcy Hrow Hmax Hcx Hco Hcol Hsc Hr Hsize.
  assert (row_wf r) as Hwf by (eapply Forall_lookup in Hwfs; eassumption).
  pose proof Hwf as Hlen. unfold row_wf in Hlen.
  assert (0 <= filerow) as Hfr0 by (unfold filerow; lia).
  assert (0 <= filecol) as Hfc0 by (unfold filecol; lia).
  assert (Z.to_nat filerow < length (row st))%nat as Hlt
    by (eapply lookup_lt_Some; exact Hr).
  set (fc := Z.to_nat (Z.min filecol (size r))).
  set (C := chars <$> row st).
  assert (forall st1 : State,
            InsertNewLine st = Returns st1 ->
            exists prev1 r1,
              row st1 !! Z.to_nat (rowoff st1 + cy st1 - 1) = Some prev1
              /\ row st1 !! Z.to_nat (rowoff st1 + cy st1) = Some r1
              /\ chars prev1 = take fc (chars r)
              /\ chars r1 = drop fc (chars r)
              /\ size prev1 = Z.of_nat fc
              /\ size r1 = size r - Z.of_nat fc
              /\ row_wf prev1 /\ row_wf r1
              /\ chars <$> row st1
                 = take (Z.to_nat filerow) C
                   ++ [take fc (chars r); drop fc (chars r)]
                   ++ drop (S (Z.to_nat filerow)) C
              /\ Forall row_wf (row st1)
              /\ numrows st1 = Z.of_nat (length (row st1))
              /\ numrows st1 = numrows st + 1
              /\ rowoff st1 + cy st1 = filerow + 1
              /\ 0 <= cy st1 /\ 0 <= rowoff st1
              /\ cx st1 = 0 /\ coloff st1 = 0
              /\ dirty st1 = wrap_int (dirty st + 1)
              /\ unedited st1 = unedited st) as Hsplit.
  { intros st1 H1.
    eapply InsertNewLine_inv in H1
      as (Hkeys & Hcx1 & Hco1 & Hfr1 & Hcy1 & Hro1 & Hn1 & Hd1 & _ & Hrest1);
      [|exact Hnum|exact Hro|exact Hcy|exact Hrow|exact Hmax|exact Hcx
       |exact Hco|exact Hcol|exact Hr|exact Hwf|unfold INT_MAX; lia].
    fold filerow filecol in Hkeys, Hfr1.
    assert (chars <$> row st1
            = take (Z.to_nat filerow) C
              ++ [take fc (chars r); drop fc (chars r)]
              ++ drop (S (Z.to_nat filerow)) C) as Hchars1.
    { rewrite (chars_of_keys _ _ Hkeys).
      apply split_rows_chars; [exact Hr|exact Hwf|lia|lia]. }
    assert (Forall row_wf (row st1)) as Hwf1.
    { eapply row_wf_of_keys; [exact Hkeys|].
      apply split_rows_wf; [exact Hwfs|exact Hwf|lia|unfold INT_MAX; lia]. }
    assert (length (take (Z.to_nat filerow) C) = Z.to_nat filerow) as Htake
      by (unfold C; rewrite length_take, length_fmap; lia).
    destruct (lookup_chars (row st1) (Z.to_nat filerow) (take fc (chars r)))
      as (prev1 & Hprev1 & Hcp & Hwfp & Hsp); [exact Hwf1| |].
    { rewrite Hchars1, lookup_app_r by lia.
      rewrite Htake, Nat.sub_diag. reflexivity. }
    destruct (lookup_chars (row st1) (S (Z.to_nat filerow))
                (drop fc (chars r)))
      as (r1 & Hr1 & Hcr & Hwfr & Hsr); [exact Hwf1| |].
    { rewrite Hchars1, lookup_app_r by lia.
      rewrite Htake. replace (S (Z.to_nat filerow) - Z.to_nat filerow)%nat
        with 1%nat by lia. reflexivity. }
    exists prev1, r1. rewrite Hfr1.
    replace (Z.to_nat (filerow + 1 - 1)) with (Z.to_nat filerow) by lia.
    replace (Z.to_nat (filerow + 1)) with (S (Z.to_nat filerow)) by lia.
    rewrite length_take in Hsp. rewrite length_drop in Hsr.
    repeat split; try assumption; try lia.
    rewrite Hn1. apply (f_equal length) in Hkeys.
    rewrite !length_fmap, split_rows_length in Hkeys by lia. lia. }
  split.
  - intros st1 st2 H1 H2.
    destruct (Hsplit st1 H1)
      as (prev1 & r1 & Hprev1 & Hr1 & Hcp & Hcr & Hsp & Hsr & Hwfp & Hwfr
          & Hchars1 & Hwf1 & Hnum1 & Hn1 & Hfr1 & Hcy1 & Hro1 & Hcx1 & Hco1
          & Hd1 & Hrest1).
    assert (screencols st1 = screencols st) as Hsc1
      by (apply (f_equal screencols) in Hrest1; exact Hrest1).
    eapply DeleteChar_join_inv in H2
      as (Hkeys2 & Hfr2 & _ & _ & Hcol2 & _ & _ & Hn2 & Hd2 & _ & Hrest2);
      [|exact Hnum1|exact Hro1|exact Hcy1|lia|lia|exact Hcx1|exact Hco1
       |rewrite Hsc1; exact Hsc|exact Hprev1|exact Hwfp|exact Hr1|exact Hwfr
       |lia].
    assert (chars <$> row st2 = C) as Hchars2.
    { rewrite (chars_of_keys _ _ Hkeys2).
      rewrite joined_rows_chars by (lia || exact Hprev1).
      rewrite Hchars1, Hfr1, Hcp, Hcr, take_drop.
      replace (Z.to_nat (filerow + 1 - 1)) with (Z.to_nat filerow) by lia.
      assert (length (take (Z.to_nat filerow) C) = Z.to_nat filerow) as Htake
        by (unfold C; rewrite length_take, length_fmap; lia).
      rewrite take_app_length' by lia.
      replace (Z.to_nat (filerow + 1) + 1)%nat
        with (length (take (Z.to_nat filerow) C) + 2)%nat by lia.
      rewrite drop_app_add. cbn [drop app].
      unfold C. rewrite <- (take_drop_middle (chars <$> row st)
                              (Z.to_nat filerow) (chars r)) at 3
        by (rewrite list_lookup_fmap, Hr; reflexivity).
      reflexivity. }
    split; [exact Hchars2|].
    split; [now apply rows_text_eq|].
    split.
    { eapply row_wf_of_keys; [exact Hkeys2|]. now apply joined_rows_wf. }
    split; [lia|]. split; [rewrite Hcol2, Hsp; unfold fc; lia|].
    split; [lia|]. split; [congruence|]. rewrite Hd2, Hd1. reflexivity.
  - intros Hsyn.
    destruct (InsertNewLine_returns st r) as [st1 H1];
      [exact Hnum|fold filerow; lia|exact Hmax|fold filecol; lia|exact Hr
      |exact Hwf|exact Hsize|exact Hsyn|].
    destruct (Hsplit st1 H1)
      as (prev1 & r1 & Hprev1 & Hr1 & Hcp & Hcr & Hsp & Hsr & Hwfp & Hwfr
          & Hchars1 & Hwf1 & Hnum1 & Hn1 & Hfr1 & Hcy1 & Hro1 & Hcx1 & Hco1
          & Hd1 & Hrest1).
    destruct (DeleteChar_join_returns st1 prev1 r1) as [st2 H2];
      [exact Hnum1|lia|lia|exact Hcx1|exact Hco1|exact Hprev1|exact Hwfp
      |exact Hr1|exact Hwfr|lia| |].
    + destruct (unedited_typing _ _ Hrest1) as [_ ->]. exact Hsyn.
    + exists st1, st2. now split.
Qed.

Lemma InsertNewLine_DeleteChar_roundtrip_witness :
  exists st1 st2,
    InsertNewLine (set_cursor 6 1 0 0 (set_window 24 80 three_rows))
    = Returns st1
    /\ DeleteChar st1 = Returns st2
    /\ chars <$> row st2
       = [cstr "first row"; cstr "second row"; cstr "third row"]
    /\ coloff st2 + cx st2 = 6.
Proof.
  destruct (InsertNewLine_DeleteChar_roundtrip
              (set_cursor 6 1 0 0 (set_window 24 80 three_rows))
              (plain_row 1 "second row")) as [Hround Hruns];
    [reflexivity|repeat constructor|cbn; lia|cbn; lia|cbn; lia
    |vm_compute; reflexivity|cbn; lia|cbn; lia|vm_compute; discriminate
    |vm_compute; split; discriminate|reflexivity|vm_compute; reflexivity|].
  destruct (Hruns eq_refl) as (st1 & st2 & H1 & H2).
  destruct (Hround st1 st2 H1 H2) as (Hchars & _ & _ & _ & Hcol & _).
  exists st1, st2. split; [exact H1|]. split; [exact H2|].
  split; [exact Hchars|exact Hcol].
Defined.

(** * Typing below the last row *)

Lemma inserted_rows_at_end (rows : list Row) (s : bytes) (len : Z) :
  inserted_rows rows (Z.of_nat (length rows)) (Z.of_nat (length rows)) s len
  = rows ++ [inserted_row (Z.of_nat (length rows)) s len].
Proof.
  unfold inserted_rows. rewrite Z.eqb_refl, Nat2Z.id, firstn_all, drop_all.
  reflexivity.
Qed.

Lemma add_empty_rows_inv (fuel : nat) :
  forall (st : State) (filerow : Z) (st1 : State),
    numrows st = Z.of_nat (length (row st)) ->
    numrows st <= filerow + 1 -> filerow < INT_MAX ->
    add_empty_rows fuel st filerow = Returns st1 ->
    let k := Z.to_nat (filerow + 1 - numrows st) in
    row_key <$> row st1
      = (row_key <$> row st) ++ empty_keys (length (row st)) k
    /\ numrows st1 = filerow + 1
    /\ dirty st1 = dirty_after k (dirty st)
    /\ set_rows [] (set_numrows_dirty 0 0 st1)
       = set_rows [] (set_numrows_dirty 0 0 st).
Proof.
  induction fuel as [|fuel IH]; intros st filerow st1 Hnum Hle Hmax;
    cbn [add_empty_rows].
  - destruct (Z.leb_spec (numrows st) filerow) as [?|Hgt]; [discriminate|].
    intros [= <-]. replace (Z.to_nat (filerow + 1 - numrows st)) with 0%nat
      by lia.
    cbn. rewrite app_nil_r. repeat split. lia.
  - destruct (Z.leb_spec (numrows st) filerow) as [Hlow|Hgt].
    + intros Hrun. bind_inv Hrun. rename a into st0.
      eapply InsertRow_keys in E as (Hkeys & Hst0 & _); [|exact Hnum|lia].
      pose proof (scalars_eq _ _ Hst0)
        as (_ & _ & _ & _ & _ & _ & Hn0 & Hd0 & _).
      cbn in Hn0, Hd0.
      rewrite wrap_int_id in Hn0 by (unfold INT_MIN, INT_MAX in *; lia).
      rewrite Hnum, inserted_rows_at_end, fmap_app in Hkeys.
      assert (length (row st0) = S (length (row st))) as Hlen0.
      { apply (f_equal length) in Hkeys.
        rewrite length_app, !length_fmap in Hkeys. cbn in Hkeys. lia. }
      eapply IH in Hrun as (Hkeys1 & Hn1 & Hd1 & Hst1);
        [|lia|lia|exact Hmax].
      rewrite Hn0 in Hkeys1, Hd1.
      replace (Z.to_nat (filerow + 1 - numrows st))
        with (S (Z.to_nat (filerow + 1 - (numrows st + 1)))) by lia.
      split; [|split; [exact Hn1|split]].
      * rewrite Hkeys1, Hkeys, Hlen0, <- app_assoc. f_equal.
      * rewrite Hd1, Hd0. unfold dirty_after. symmetry.
        apply (Nat.iter_succ_r _ (fun d => wrap_int (d + 1)) (dirty st)).
      * rewrite Hst1.
        apply (f_equal (set_numrows_dirty 0 0)) in Hst0. exact Hst0.
    + intros [= <-]. replace (Z.to_nat (filerow + 1 - numrows st)) with 0%nat
        by lia.
      cbn. rewrite app_nil_r. repeat split. lia.
Qed.

Lemma add_empty_rows_returns (fuel : nat) :
  forall (st : State) (filerow : Z),
    numrows st = Z.of_nat (length (row st)) ->
    filerow < INT_MAX -> syntax st = None ->
    (Z.to_nat (filerow + 1 - numrows st) <= fuel)%nat ->
    exists st1, add_empty_rows fuel st filerow = Returns st1.
Proof.
  induction fuel as [|fuel IH]; intros st filerow Hnum Hmax Hsyn Hfuel;
    cbn [add_empty_rows].
  - destruct (Z.leb_spec (numrows st) filerow) as [?|Hgt]; [lia|].
    eexists. reflexivity.
  - destruct (Z.leb_spec (numrows st) filerow) as [Hlow|Hgt];
      [|eexists; reflexivity].
    destruct (InsertRow_returns st (numrows st) [] 0) as [st0 H0];
      [exact Hnum|lia|cbn; lia|lia|exact Hsyn|].
    rewrite H0. cbn [bind].
    eapply InsertRow_keys in H0 as (Hkeys & Hst0 & _); [|exact Hnum|lia].
    pose proof (scalars_eq _ _ Hst0)
      as (_ & _ & _ & _ & _ & _ & Hn0 & _ & _ & _ & Hsyn0).
    cbn in Hn0, Hsyn0.
    rewrite wrap_int_id in Hn0 by (unfold INT_MIN, INT_MAX in *; lia).
    rewrite Hnum, inserted_rows_at_end, fmap_app in Hkeys.
    apply (f_equal length) in Hkeys.
    rewrite length_app, !length_fmap in Hkeys. cbn in Hkeys.
    apply IH; [lia|exact Hmax|congruence|lia].
Qed.

Lemma InsertChar_grow (st st1 : State) (c : Z) :
  let filerow := rowoff st + cy st in
  0 <= numrows st <= filerow -> filerow < INT_MAX ->
  add_empty_rows (Z.to_nat (filerow - numrows st + 1)) st filerow
  = Returns st1 ->
  set_rows [] (set_numrows_dirty 0 0 st1)
  = set_rows [] (set_numrows_dirty 0 0 st) ->
  numrows st1 = filerow + 1 ->
  InsertChar st c = InsertChar st1 c.
Proof.
  intros filerow Hlow Hmax Hrun Hst1 Hn1.
  assert (cx st1 = cx st /\ cy st1 = cy st /\ rowoff st1 = rowoff st
          /\ coloff st1 = coloff st) as (Hcx & Hcy & Hro & Hco).
  { repeat split;
      [apply (f_equal cx) in Hst1|apply (f_equal cy) in Hst1
      |apply (f_equal rowoff) in Hst1|apply (f_equal coloff) in Hst1];
      exact Hst1. }
  unfold InsertChar. rewrite Hcx, Hcy, Hro, Hco.
  fold filerow. rewrite Hn1.
  assert (wrap_int filerow = filerow) as ->
    by (apply wrap_int_id; unfold INT_MIN, INT_MAX in *;
        unfold filerow in *; lia).
  destruct (Z.leb_spec (numrows st) filerow) as [_|?]; [|lia].
  destruct (Z.leb_spec (filerow + 1) filerow) as [?|_]; [lia|].
  rewrite Hrun. reflexivity.
Qed.

Lemma empty_keys_snoc (n k : nat) :
  empty_keys n (S k) = empty_keys n k ++ [(Z.of_nat (n + k), 0, [])].
Proof. unfold empty_keys. rewrite seq_S, fmap_app. reflexivity. Qed.

Lemma empty_keys_chars (n k : nat) :
  snd <$> empty_keys n k = replicate k [].
Proof.
  unfold empty_keys. rewrite <- list_fmap_compose.
  revert n. induction k as [|k IH]; intros n; [reflexivity|].
  cbn [seq fmap list_fmap replicate]. f_equal. apply IH.
Qed.

Lemma InsertChar_below_inv (st : State) (c : Z) (st' : State) :
  let filerow := rowoff st + cy st in
  let filecol := coloff st + cx st in
  let shown := if typing_password st then uchar "*"%char else c in
  let k := Z.to_nat (filerow - numrows st) in
  numrows st = Z.of_nat (length (row st)) ->
  numrows st <= filerow -> filerow < INT_MAX ->
  0 <= cx st -> 0 <= coloff st -> filecol < INT_MAX ->
  InsertChar st c = Returns st' ->
  row_key <$> row st'
    = (row_key <$> row st) ++ empty_keys (length (row st)) k
      ++ [(filerow, filecol + 1,
           replicate (Z.to_nat filecol) " "%char ++ [to_char shown])]
  /\ entry_password st'
     = (if typing_password st then entry_password st ++ [to_char c]
        else entry_password st)
  /\ coloff st' + cx st' = filecol + 1
  /\ 0 <= cx st' /\ 0 <= coloff st'
  /\ cy st' = cy st /\ rowoff st' = rowoff st
  /\ numrows st' = filerow + 1
  /\ unedited st' = unedited st
  /\ dirty st' = dirty_after (k + 3) (dirty st).
Proof.
  intros filerow filecol shown k Hnum Hlow Hmax Hcx Hco Hcol Hrun.
  assert (0 <= numrows st) as Hn0 by lia.
  destruct (add_empty_rows (Z.to_nat (filerow - numrows st + 1)) st filerow)
    as [st1| | | |] eqn:Hrows;
    try (unfold InsertChar in Hrun;
         rewrite (wrap_int_id (rowoff st + cy st)) in Hrun
           by (unfold INT_MIN, INT_MAX in *; fold filerow; lia);
         fold filerow in Hrun;
         destruct (Z.leb_spec (numrows st) filerow) as [_|?]; [|lia];
         rewrite Hrows in Hrun; discriminate Hrun).
  destruct (add_empty_rows_inv (Z.to_nat (filerow - numrows st + 1)) st
              filerow st1 Hnum)
    as (Hkeys1 & Hn1 & Hd1 & Hst1); [lia|exact Hmax|exact Hrows|].
  rewrite (InsertChar_grow st st1 c) in Hrun
    by (assumption || fold filerow; lia).
  replace (Z.to_nat (filerow + 1 - numrows st)) with (S k) in Hkeys1, Hd1
    by (unfold k; lia).
  rewrite empty_keys_snoc in Hkeys1.
  replace (Z.of_nat (length (row st) + k)) with filerow in Hkeys1
    by (unfold k; lia).
  assert (cx st1 = cx st /\ cy st1 = cy st /\ rowoff st1 = rowoff st
          /\ coloff st1 = coloff st /\ unedited st1 = unedited st
          /\ entry_password st1 = entry_password st)
    as (Hcx1 & Hcy1 & Hro1 & Hco1 & Hrest1 & Hep1).
  { repeat split;
      [apply (f_equal cx) in Hst1|apply (f_equal cy) in Hst1
      |apply (f_equal rowoff) in Hst1|apply (f_equal coloff) in Hst1
      |apply (f_equal (fun s => set_entry_password []
                                  (set_cursor 0 0 0 0 s))) in Hst1
      |apply (f_equal entry_password) in Hst1];
      exact Hst1. }
  destruct (unedited_typing _ _ Hrest1) as [Htp1 _].
  assert (length (row st1) = S (length (row st) + k)) as Hlen1.
  { apply (f_equal length) in Hkeys1.
    rewrite !length_app, !length_fmap in Hkeys1. cbn [length] in Hkeys1.
    unfold empty_keys in Hkeys1. rewrite length_fmap, length_seq in Hkeys1.
    lia. }
  assert (Z.to_nat filerow = (length (row st) + k)%nat) as Hfr
    by (unfold k; lia).
  destruct (lookup_row_key (row st1) (Z.to_nat filerow) (filerow, 0, []))
    as (r1 & Hr1 & Hkey1).
  { rewrite Hkeys1, app_assoc, lookup_app_r;
      rewrite length_app, length_fmap; unfold empty_keys;
      rewrite length_fmap, length_seq; [|lia].
    rewrite Hfr, Nat.sub_diag. reflexivity. }
  unfold row_key in Hkey1. injection Hkey1 as Hidx1 Hsize1 Hchars1.
  eapply InsertChar_inv in Hrun
    as (Hkeys & Hep & Hc & Hcx' & Hco' & _ & Hrest & Hcy' & Hro' & Hn' & Hd');
    [|rewrite Hro1, Hcy1, Hn1; fold filerow; lia
     |rewrite Hn1; unfold INT_MAX in *; lia|lia|lia
     |rewrite Hco1, Hcx1; exact Hcol
     |rewrite Hro1, Hcy1; exact Hr1
     |unfold row_wf; rewrite Hsize1, Hchars1; reflexivity
     |rewrite Hsize1; unfold INT_MAX; lia].
  rewrite Hro1, Hcy1, Hco1, Hcx1, Htp1, Hidx1, Hsize1, Hchars1 in Hkeys.
  fold filerow filecol shown in Hkeys.
  rewrite Z.sub_0_r, app_nil_l, drop_nil in Hkeys.
  rewrite take_ge in Hkeys by (rewrite length_replicate; lia).
  rewrite length_app, length_replicate in Hkeys. cbn [length] in Hkeys.
  replace (Z.of_nat (Z.to_nat filecol + 1)) with (filecol + 1) in Hkeys
    by lia.
  split.
  { rewrite Hkeys, Hkeys1, Hfr, app_assoc.
    rewrite insert_app_r_alt;
      rewrite length_app, length_fmap; unfold empty_keys;
      rewrite length_fmap, length_seq; [|lia].
    rewrite Nat.sub_diag. cbn [insert list_insert].
    now rewrite <- app_assoc. }
  rewrite Htp1, Hep1 in Hep. rewrite Hco1, Hcx1 in Hc.
  split; [exact Hep|]. split; [exact Hc|]. split; [exact Hcx'|].
  split; [exact Hco'|]. split; [congruence|]. split; [congruence|].
  split; [congruence|]. split; [congruence|].
  rewrite Hd', Hd1. unfold dirty_after.
  replace (k + 3)%nat with (S (S (S k))) by lia. reflexivity.
Qed.

Lemma InsertChar_below_returns (st : State) (c : Z) :
  let filerow := rowoff st + cy st in
  let filecol := coloff st + cx st in
  numrows st = Z.of_nat (length (row st)) ->
  numrows st <= filerow -> filerow < INT_MAX ->
  0 <= filecol -> 9 * (filecol + 1) < 2 ^ 31 ->
  syntax st = None ->
  exists st', InsertChar st c = Returns st'.
Proof.
  intros filerow filecol Hnum Hlow Hmax Hcol Hsize Hsyn.
  destruct (add_empty_rows_returns (Z.to_nat (filerow - numrows st + 1)) st
              filerow) as [st1 Hrows];
    [exact Hnum|exact Hmax|exact Hsyn|lia|].
  destruct (add_empty_rows_inv (Z.to_nat (filerow - numrows st + 1)) st
              filerow st1 Hnum)
    as (Hkeys1 & Hn1 & Hd1 & Hst1); [lia|exact Hmax|exact Hrows|].
  rewrite (InsertChar_grow st st1 c)
    by (assumption || fold filerow; lia).
  set (k := Z.to_nat (filerow - numrows st)).
  replace (Z.to_nat (filerow + 1 - numrows st)) with (S k) in Hkeys1
    by (unfold k; lia).
  rewrite empty_keys_snoc in Hkeys1.
  replace (Z.of_nat (length (row st) + k)) with filerow in Hkeys1
    by (unfold k; lia).
  assert (cx st1 = cx st /\ cy st1 = cy st /\ rowoff st1 = rowoff st
          /\ coloff st1 = coloff st /\ syntax st1 = syntax st)
    as (Hcx1 & Hcy1 & Hro1 & Hco1 & Hsyn1).
  { repeat split;
      [apply (f_equal cx) in Hst1|apply (f_equal cy) in Hst1
      |apply (f_equal rowoff) in Hst1|apply (f_equal coloff) in Hst1
      |apply (f_equal syntax) in Hst1];
      exact Hst1. }
  assert (Z.to_nat filerow = (length (row st) + k)%nat) as Hfr
    by (unfold k; lia).
  destruct (lookup_row_key (row st1) (Z.to_nat filerow) (filerow, 0, []))
    as (r1 & Hr1 & Hkey1).
  { rewrite Hkeys1, app_assoc, lookup_app_r;
      rewrite length_app, length_fmap; unfold empty_keys;
      rewrite length_fmap, length_seq; [|lia].
    rewrite Hfr, Nat.sub_diag. reflexivity. }
  unfold row_key in Hkey1. injection Hkey1 as Hidx1 Hsize1 Hchars1.
  apply (InsertChar_returns st1 c r1).
  - rewrite Hro1, Hcy1, Hn1. fold filerow. lia.
  - rewrite Hn1. unfold INT_MAX in *. lia.
  - rewrite Hco1, Hcx1. exact Hcol.
  - rewrite Hro1, Hcy1. exact Hr1.
  - unfold row_wf. rewrite Hsize1, Hchars1. reflexivity.
  - rewrite Hsize1, Hco1, Hcx1. fold filecol. lia.
  - congruence.
Qed.

(** [InsertChar] with the cursor below the last row of the file first adds
    empty rows down to the row of the cursor, then puts the character into
    that row behind as many spaces as the column of the cursor counts.  The
    rows that were there keep their [idx], [size] and characters,
    [numrows] counts the rows down to the cursor, and [dirty] has been
    incremented once for each new row and twice more.  With no syntax
    selected the call returns. *)
Theorem InsertChar_below_last_row (st : State) (c : Z) :
  let filerow := rowoff st + cy st in
  let filecol := coloff st + cx st in
  let shown := if typing_password st then uchar "*"%char else c in
  let k := Z.to_nat (filerow - numrows st) in
  numrows st = Z.of_nat (length (row st)) ->
  numrows st <= filerow -> filerow < INT_MAX ->
  0 <= cx st -> 0 <= coloff st -> 9 * (filecol + 1) < 2 ^ 31 ->
  (forall st' : State,
     InsertChar st c = Returns st' ->
     chars <$> row st'
       = (chars <$> row st) ++ replicate k []
         ++ [replicate (Z.to_nat filecol) " "%char ++ [to_char shown]]
     /\ row_key <$> take (length (row st)) (row st') = row_key <$> row st
     /\ numrows st' = filerow + 1
     /\ numrows st' = Z.of_nat (length (row st'))
     /\ coloff st' + cx st' = filecol + 1
     /\ rowoff st' + cy st' = filerow
     /\ dirty st' = dirty_after (k + 3) (dirty st)
     /\ unedited st' = unedited st
     /\ (Forall row_wf (row st) -> Forall row_wf (row st'))
     /\ (numbered (row st) -> numbered (row st')))
  /\ (syntax st = None -> exists st', InsertChar st c = Returns st').
Proof.
  intros filerow filecol shown k Hnum Hlow Hmax Hcx Hco Hsize.
  assert (0 <= filecol) as Hcol0 by (unfold filecol; lia).
  split.
  - intros st' Hrun.
    eapply InsertChar_below_inv in Hrun
      as (Hkeys & _ & Hc & _ & _ & Hcy' & Hro' & Hn' & Hrest & Hd');
      [|exact Hnum|exact Hlow|exact Hmax|exact Hcx|exact Hco
       |unfold INT_MAX; fold filecol; lia].
    fold filerow filecol shown k in Hkeys, Hc, Hn', Hd'.
    assert (length (row st') = (length (row st) + k + 1)%nat) as Hlen'.
    { apply (f_equal length) in Hkeys.
      rewrite !length_app, !length_fmap in Hkeys. unfold empty_keys in Hkeys.
      rewrite length_fmap, length_seq in Hkeys. cbn [length] in Hkeys. lia. }
    assert (forall r', row st' !! (length (row st) + k)%nat = Some r' ->
              row_key r'
              = (filerow, filecol + 1,
                 replicate (Z.to_nat filecol) " "%char ++ [to_char shown]))
      as Hlast.
    { intros r' Hr'.
      assert ((row_key <$> row st') !! (length (row st) + k)%nat
              = Some (row_key r')) as Hk
        by (rewrite list_lookup_fmap, Hr'; reflexivity).
      assert (length ((row_key <$> row st) ++ empty_keys (length (row st)) k)
              = (length (row st) + k)%nat) as Hlenk
        by (rewrite length_app, length_fmap; unfold empty_keys;
            now rewrite length_fmap, length_seq).
      rewrite Hkeys, app_assoc, lookup_app_r in Hk by (rewrite Hlenk; lia).
      rewrite Hlenk, Nat.sub_diag in Hk.
      change (Some (filerow, filecol + 1,
                    replicate (Z.to_nat filecol) " "%char ++ [to_char shown])
              = Some (row_key r')) in Hk.
      congruence. }
    assert (forall j r', (j < length (row st) + k)%nat ->
              row st' !! j = Some r' ->
              (exists r0, row st !! j = Some r0 /\ row_key r' = row_key r0)
              \/ ((length (row st) <= j)%nat
                  /\ row_key r' = (Z.of_nat j, 0, []))) as Hbefore.
    { intros j r' Hj Hr'.
      assert ((row_key <$> row st') !! j = Some (row_key r')) as Hk
        by (rewrite list_lookup_fmap, Hr'; reflexivity).
      rewrite Hkeys in Hk.
      destruct (Nat.lt_ge_cases j (length (row st))) as [Hlt|Hge].
      - left. rewrite lookup_app_l in Hk by (rewrite length_fmap; lia).
        apply lookup_row_key in Hk as (r0 & Hr0 & Hkey0). eauto.
      - right. split; [exact Hge|].
        rewrite lookup_app_r in Hk by (rewrite length_fmap; lia).
        rewrite length_fmap in Hk.
        rewrite lookup_app_l in Hk
          by (unfold empty_keys; rewrite length_fmap, length_seq; lia).
        unfold empty_keys in Hk. rewrite list_lookup_fmap in Hk.
        rewrite lookup_seq_lt in Hk by lia. cbn in Hk.
        unfold row_key. injection Hk as <- <- <-. do 2 f_equal. lia. }
    split.
    { assert (chars <$> row st' = snd <$> (row_key <$> row st')) as ->
        by (rewrite <- list_fmap_compose; reflexivity).
      rewrite Hkeys, !fmap_app, empty_keys_chars.
      rewrite <- list_fmap_compose. reflexivity. }
    split.
    { rewrite fmap_take, Hkeys.
      apply take_app_length'. now rewrite length_fmap. }
    split; [exact Hn'|]. split; [rewrite Hn', Hlen'; unfold k; lia|].
    split; [exact Hc|]. split; [unfold filerow; lia|]. split; [exact Hd'|].
    split; [exact Hrest|]. split.
    + intros Hwfs. apply Forall_lookup. intros j r' Hr'.
      assert (j < length (row st'))%nat as Hj
        by (eapply lookup_lt_Some; exact Hr').
      destruct (decide (j = (length (row st) + k)%nat)) as [->|Hne].
      * specialize (Hlast r' Hr'). unfold row_key in Hlast.
        injection Hlast as _ Hs Hcs. unfold row_wf.
        rewrite Hs, Hcs, length_app, length_replicate. cbn [length]. lia.
      * destruct (Hbefore j r' ltac:(lia) Hr')
          as [(r0 & Hr0 & Hkey0)|[_ Hkey0]].
        -- eapply Forall_lookup in Hwfs; [|exact Hr0].
           unfold row_key in Hkey0. injection Hkey0 as _ Hs Hcs.
           unfold row_wf in *. congruence.
        -- unfold row_key in Hkey0. injection Hkey0 as _ Hs Hcs.
           unfold row_wf. rewrite Hs, Hcs. reflexivity.
    + intros Hnumd j r' Hr'.
      assert (j < length (row st'))%nat as Hj
        by (eapply lookup_lt_Some; exact Hr').
      destruct (decide (j = (length (row st) + k)%nat)) as [->|Hne].
      * specialize (Hlast r' Hr'). unfold row_key in Hlast.
        injection Hlast as Hi _ _. rewrite Hi. unfold k. lia.
      * destruct (Hbefore j r' ltac:(lia) Hr')
          as [(r0 & Hr0 & Hkey0)|[_ Hkey0]].
        -- unfold row_key in Hkey0. injection Hkey0 as Hi _ _.
           rewrite Hi. now apply Hnumd.
        -- unfold row_key in Hkey0. now injection Hkey0 as Hi _ _.
  - intros Hsyn. apply InsertChar_below_returns; assumption.
Qed.

Lemma InsertChar_below_last_row_witness :
  exists st',
    InsertChar (set_cursor 2 5 0 0 (set_window 24 80 three_rows))
      (uchar "x"%char) = Returns st'
    /\ chars <$> row st'
       = [cstr "first row"; cstr "second row"; cstr "third row"; []; [];
          cstr "  x"]
    /\ numrows st' = 6.
Proof.
  destruct (InsertChar_below_last_row
              (set_cursor 2 5 0 0 (set_window 24 80 three_rows))
              (uchar "x"%char)) as [Hins Hruns];
    [reflexivity|cbn; lia|vm_compute; reflexivity|cbn; lia|cbn; lia
    |vm_compute; reflexivity|].
  destruct (Hruns eq_refl) as [st' Hrun].
  destruct (Hins st' Hrun) as (Hchars & _ & Hn & _).
  exists st'. split; [exact Hrun|]. split; [exact Hchars|exact Hn].
Defined.

(** * The password dialogues *)

Lemma to_char_schar (c : ascii) : to_char (schar c) = c.
Proof.
  unfold schar. destruct (uchar c <? 128); [apply to_char_uchar|].
  unfold to_char. replace ((uchar c - 256) mod 256) with (uchar c mod 256)
    by (rewrite <- (Z.mod_add (uchar c) (-1) 256) by lia; f_equal; lia).
  apply to_char_uchar.
Qed.

Lemma InsertChar_at_end (st : State) (cs : bytes) (c : Z) :
  at_end_of_row st cs -> 9 * (Z.of_nat (length cs) + 1) < 2 ^ 31 ->
  let shown := if typing_password st then uchar "*"%char else c in
  exists st',
    InsertChar st c = Returns st'
    /\ at_end_of_row st' (cs ++ [to_char shown])
    /\ entry_password st'
       = (if typing_password st then entry_password st ++ [to_char c]
          else entry_password st)
    /\ unedited st' = unedited st.
Proof.
  intros (Hkeys & Hn & Hfr & Hfc & Hcx & Hco & Hsyn) Hsize shown.
  destruct (lookup_row_key (row st) 0 (0, Z.of_nat (length cs), cs))
    as (r & Hr & Hkey); [rewrite Hkeys; reflexivity|].
  unfold row_key in Hkey. injection Hkey as Hidx Hsz Hchars.
  assert (row_wf r) as Hwf by (unfold row_wf; congruence).
  destruct (InsertChar_returns st c r) as [st' Hrun];
    [rewrite Hfr, Hn; lia|rewrite Hn; unfold INT_MAX; lia|lia
    |rewrite Hfr; exact Hr|exact Hwf|rewrite Hfc, Hsz; lia|exact Hsyn|].
  exists st'. split; [exact Hrun|].
  eapply InsertChar_inv in Hrun
    as (Hkeys' & Hep & Hc & Hcx' & Hco' & _ & Hrest & Hcy' & Hro' & Hn' & _);
    [|rewrite Hfr, Hn; lia|rewrite Hn; unfold INT_MAX; lia|exact Hcx
     |exact Hco|rewrite Hfc; unfold INT_MAX; lia|rewrite Hfr; exact Hr
     |exact Hwf|rewrite Hsz; unfold INT_MAX; lia].
  fold shown in Hkeys'.
  rewrite Hfr, Hfc, Hsz, Hidx, Hchars, Hkeys, Z.sub_diag in Hkeys'.
  cbn [replicate Z.to_nat insert list_insert] in Hkeys'.
  rewrite app_nil_r, Nat2Z.id, firstn_all, drop_all in Hkeys'.
  split; [|split; [exact Hep|exact Hrest]].
  unfold at_end_of_row. rewrite Hkeys', length_app. cbn [length].
  destruct (unedited_typing _ _ Hrest) as [_ Hsyn'].
  repeat split; try lia; try congruence.
Qed.

Lemma InsertChar_cleared (st : State) (c : Z) :
  cleared st ->
  let shown := if typing_password st then uchar "*"%char else c in
  exists st',
    InsertChar st c = Returns st'
    /\ at_end_of_row st' [to_char shown]
    /\ entry_password st'
       = (if typing_password st then entry_password st ++ [to_char c]
          else entry_password st)
    /\ unedited st' = unedited st.
Proof.
  intros (Hrows & Hn & Hcx & Hcy & Hro & Hco & Hsyn) shown.
  destruct (InsertChar_below_returns st c) as [st' Hrun];
    [rewrite Hn, Hrows; reflexivity|rewrite Hn, Hro, Hcy; lia
    |rewrite Hro, Hcy; unfold INT_MAX; lia|rewrite Hco, Hcx; lia
    |rewrite Hco, Hcx; lia|exact Hsyn|].
  exists st'. split; [exact Hrun|].
  eapply InsertChar_below_inv in Hrun
    as (Hkeys & Hep & Hc & Hcx' & Hco' & Hcy' & Hro' & Hn' & Hrest & _);
    [|rewrite Hn, Hrows; reflexivity|rewrite Hn, Hro, Hcy; lia
     |rewrite Hro, Hcy; unfold INT_MAX; lia|lia|lia
     |rewrite Hco, Hcx; unfold INT_MAX; lia].
  fold shown in Hkeys.
  rewrite Hro, Hcy, Hco, Hcx, Hn, Hrows in Hkeys. cbn in Hkeys.
  rewrite Hro, Hcy in Hn'. rewrite Hco, Hcx in Hc.
  split; [|split; [exact Hep|exact Hrest]].
  destruct (unedited_typing _ _ Hrest) as [_ Hsyn'].
  unfold at_end_of_row. rewrite Hkeys. cbn [length].
  repeat split; try lia; try congruence.
Qed.

Lemma InsertString_at_end (s : bytes) :
  forall (st : State) (cs : bytes),
    at_end_of_row st cs -> typing_password st = false ->
    9 * (Z.of_nat (length cs + length s) + 1) < 2 ^ 31 ->
    exists st',
      InsertString st s = Returns st'
      /\ at_end_of_row st' (cs ++ s)
      /\ entry_password st' = entry_password st
      /\ unedited st' = unedited st.
Proof.
  induction s as [|c s IH]; intros st cs Hend Htp Hsize.
  - exists st. rewrite app_nil_r.
    split; [reflexivity|split; [exact Hend|split; reflexivity]].
  - cbn [InsertString length] in *.
    destruct (InsertChar_at_end st cs (schar c) Hend)
      as (st1 & H1 & Hend1 & Hep1 & Hrest1); [lia|].
    rewrite Htp, to_char_schar in Hend1. rewrite Htp in Hep1.
    rewrite H1. cbn [bind].
    destruct (unedited_typing _ _ Hrest1) as [Htp1 _].
    destruct (IH st1 (cs ++ [c]) Hend1) as (st' & Hrun & Hend' & Hep' & Hrest');
      [congruence|rewrite length_app; cbn [length]; lia|].
    exists st'. rewrite <- app_assoc in Hend'.
    split; [exact Hrun|split; [exact Hend'|split; congruence]].
Qed.

Lemma InsertString_cleared (st : State) (c : ascii) (s : bytes) :
  cleared st -> typing_password st = false ->
  9 * (Z.of_nat (length s) + 2) < 2 ^ 31 ->
  exists st',
    InsertString st (c :: s) = Returns st'
    /\ at_end_of_row st' (c :: s)
    /\ entry_password st' = entry_password st
    /\ unedited st' = unedited st.
Proof.
  intros Hclear Htp Hsize. cbn [InsertString].
  destruct (InsertChar_cleared st (schar c) Hclear)
    as (st1 & H1 & Hend1 & Hep1 & Hrest1).
  rewrite Htp, to_char_schar in Hend1. rewrite Htp in Hep1.
  rewrite H1. cbn [bind].
  destruct (unedited_typing _ _ Hrest1) as [Htp1 _].
  destruct (InsertString_at_end s st1 [c] Hend1)
    as (st' & Hrun & Hend' & Hep' & Hrest');
    [congruence|cbn [length]; lia|].
  exists st'. split; [exact Hrun|split; [exact Hend'|split; congruence]].
Qed.

Lemma ProcessKeyPressPasswordMode_plain (fuel : nat) (tty : Terminal)
    (st : State) (c : Z) :
  plain_key c = true ->
  ProcessKeyPressPasswordMode fuel tty st c
  = bind (InsertChar st c) (fun st' => Returns (st', false, tty)).
Proof.
  unfold plain_key. intros Hplain.
  apply negb_true_iff, bool_decide_eq_false in Hplain.
  unfold ProcessKeyPressPasswordMode.
  repeat (apply not_elem_of_cons in Hplain as [? Hplain]).
  destruct (Z.eqb_spec c 0) as [?|_]; [contradiction|]. cbn [negb bind].
  repeat match goal with
         | |- context [c =? ?k] =>
             destruct (Z.eqb_spec c k) as [?|_]; [contradiction|]
         end.
  reflexivity.
Qed.

Lemma ProcessKeyPressPasswordMode_ENTER (fuel : nat) (tty : Terminal)
    (st : State) :
  ProcessKeyPressPasswordMode fuel tty st ENTER = Returns (st, true, tty).
Proof. reflexivity. Qed.

Lemma provided_lookup (pre : list Z) (c : Z) (post : list Z) :
  PasswordDialogue.provided (pre ++ c :: post) (Z.of_nat (length pre))
  = Returns c.
Proof.
  unfold PasswordDialogue.provided.
  rewrite bool_decide_eq_false_2 by (now destruct pre).
  unfold array_get.
  destruct (Z.ltb_spec (Z.of_nat (length pre)) 0) as [?|_]; [lia|].
  rewrite Nat2Z.id, list_lookup_middle by reflexivity. reflexivity.
Qed.


Lemma typing_password_new (st : State) :
  new_file_password_state st = NewFilePasswordState.kTypingEnterPassword
  \/ new_file_password_state st
     = NewFilePasswordState.kTypingConfirmPassword ->
  typing_password st = true.
Proof.
  unfold typing_password. intros [-> | ->];
    rewrite ?orb_true_r; reflexivity.
Qed.

Lemma unedited_new_tag (a b : State) :
  unedited a = unedited b ->
  new_file_password_state a = new_file_password_state b.
Proof.
  intros Heq. apply (f_equal new_file_password_state) in Heq. exact Heq.
Qed.

(** Typing [ks] and Enter while the new password is entered. *)
Lemma new_file_typing_Enter (ks : list Z) :
  forall (st : State) (cs : bytes) (pre post : list Z)
         (fuel : nat) (tty : Terminal) (password confirm : bytes),
    new_file_password_state st = NewFilePasswordState.kTypingEnterPassword ->
    at_end_of_row st cs ->
    Forall (fun c => plain_key c = true) ks ->
    9 * (Z.of_nat (length cs + length ks) + 1) < 2 ^ 31 ->
    Z.of_nat (length pre + length ks) < INT_MAX ->
    exists st',
      at_end_of_row st' (cs ++ replicate (length ks) "*"%char)
      /\ entry_password st' = entry_password st ++ (to_char <$> ks)
      /\ unedited st' = unedited st
      /\ PasswordDialogue.new_file_loop (length ks + 1 + fuel) tty st
           (pre ++ ks ++ ENTER :: post) password confirm
           (Z.of_nat (length pre))
         = PasswordDialogue.new_file_loop fuel tty
             (set_new_file_password_state
                NewFilePasswordState.kEnterPasswordCompleted st')
             (pre ++ ks ++ ENTER :: post) (entry_password st') confirm
             (Z.of_nat (length pre + length ks + 1)).
Proof.
  induction ks as [|c ks IH];
    intros st cs pre post fuel tty password confirm Htag Hend Hplain Hsize
      Hidx.
  - exists st. rewrite app_nil_r.
    split; [exact Hend|]. split; [now rewrite app_nil_r|].
    split; [reflexivity|].
    cbn [length Nat.add app PasswordDialogue.new_file_loop].
    rewrite Htag, provided_lookup. cbn [bind].
    rewrite ProcessKeyPressPasswordMode_ENTER. cbn [bind].
    rewrite wrap_int_id by (unfold INT_MIN, INT_MAX in *; lia).
    unfold GetPasswordFromState. do 2 f_equal. lia.
  - apply Forall_cons in Hplain as [Hc Hplain]. cbn [length] in *.
    destruct (InsertChar_at_end st cs c Hend)
      as (st1 & H1 & Hend1 & Hep1 & Hrest1); [lia|].
    rewrite (typing_password_new st) in Hend1, Hep1 by (rewrite Htag; auto).
    destruct (IH st1 (cs ++ ["*"%char]) (pre ++ [c]) post fuel tty password
                confirm) as (st' & Hend' & Hep' & Hrest' & Hloop).
    + rewrite (unedited_new_tag _ _ Hrest1). exact Htag.
    + exact Hend1.
    + exact Hplain.
    + rewrite length_app. cbn [length]. lia.
    + rewrite length_app. cbn [length]. lia.
    + exists st'. rewrite <- app_assoc in Hend'.
      split; [exact Hend'|].
      split; [rewrite Hep', Hep1, <- app_assoc; reflexivity|].
      split; [congruence|].
      rewrite <- app_assoc in Hloop. cbn [app] in Hloop.
      rewrite length_app in Hloop. cbn [length] in Hloop.
      replace (Z.of_nat (length pre + 1 + length ks + 1))
        with (Z.of_nat (length pre + S (length ks) + 1)) in Hloop by lia.
      etransitivity; [|exact Hloop].
      cbn [Nat.add app PasswordDialogue.new_file_loop].
      rewrite Htag, provided_lookup. cbn [bind].
      rewrite ProcessKeyPressPasswordMode_plain by exact Hc.
      rewrite H1. cbn [bind].
      rewrite wrap_int_id by (unfold INT_MIN, INT_MAX in *; lia).
      f_equal. lia.
Qed.

(** Typing [ks] and Enter while the new password is confirmed. *)
Lemma new_file_typing_Confirm (ks : list Z) :
  forall (st : State) (cs : bytes) (pre post : list Z)
         (fuel : nat) (tty : Terminal) (password confirm : bytes),
    new_file_password_state st = NewFilePasswordState.kTypingConfirmPassword ->
    at_end_of_row st cs ->
    Forall (fun c => plain_key c = true) ks ->
    9 * (Z.of_nat (length cs + length ks) + 1) < 2 ^ 31 ->
    Z.of_nat (length pre + length ks) < INT_MAX ->
    exists st',
      at_end_of_row st' (cs ++ replicate (length ks) "*"%char)
      /\ entry_password st' = entry_password st ++ (to_char <$> ks)
      /\ unedited st' = unedited st
      /\ PasswordDialogue.new_file_loop (length ks + 1 + fuel) tty st
           (pre ++ ks ++ ENTER :: post) password confirm
           (Z.of_nat (length pre))
         = PasswordDialogue.new_file_loop fuel tty
             (set_new_file_password_state
                NewFilePasswordState.kConfirmPasswordNeedsCheck st')
             (pre ++ ks ++ ENTER :: post) password (entry_password st')
             (Z.of_nat (length pre + length ks + 1)).
Proof.
  induction ks as [|c ks IH];
    intros st cs pre post fuel tty password confirm Htag Hend Hplain Hsize
      Hidx.
  - exists st. rewrite app_nil_r.
    split; [exact Hend|]. split; [now rewrite app_nil_r|].
    split; [reflexivity|].
    cbn [length Nat.add app PasswordDialogue.new_file_loop].
    rewrite Htag, provided_lookup. cbn [bind].
    rewrite ProcessKeyPressPasswordMode_ENTER. cbn [bind].
    rewrite wrap_int_id by (unfold INT_MIN, INT_MAX in *; lia).
    unfold GetPasswordFromState. do 2 f_equal. lia.
  - apply Forall_cons in Hplain as [Hc Hplain]. cbn [length] in *.
    destruct (InsertChar_at_end st cs c Hend)
      as (st1 & H1 & Hend1 & Hep1 & Hrest1); [lia|].
    rewrite (typing_password_new st) in Hend1, Hep1 by (rewrite Htag; auto).
    destruct (IH st1 (cs ++ ["*"%char]) (pre ++ [c]) post fuel tty password
                confirm) as (st' & Hend' & Hep' & Hrest' & Hloop).
    + rewrite (unedited_new_tag _ _ Hrest1). exact Htag.
    + exact Hend1.
    + exact Hplain.
    + rewrite length_app. cbn [length]. lia.
    + rewrite length_app. cbn [length]. lia.
    + exists st'. rewrite <- app_assoc in Hend'.
      split; [exact Hend'|].
      split; [rewrite Hep', Hep1, <- app_assoc; reflexivity|].
      split; [congruence|].
      rewrite <- app_assoc in Hloop. cbn [app] in Hloop.
      rewrite length_app in Hloop. cbn [length] in Hloop.
      replace (Z.of_nat (length pre + 1 + length ks + 1))
        with (Z.of_nat (length pre + S (length ks) + 1)) in Hloop by lia.
      etransitivity; [|exact Hloop].
      cbn [Nat.add app PasswordDialogue.new_file_loop].
      rewrite Htag, provided_lookup. cbn [bind].
      rewrite ProcessKeyPressPasswordMode_plain by exact Hc.
      rewrite H1. cbn [bind].
      rewrite wrap_int_id by (unfold INT_MIN, INT_MAX in *; lia).
      f_equal. lia.
Qed.

Lemma ClearScreen_cleared (s : State) :
  syntax s = None -> cleared (ClearScreen s).
Proof. intros Hsyn. unfold cleared. now repeat split. Qed.

Lemma not_typing_password (s : State) :
  existing_file_password_state s <> ExistingFilePasswordState.kTyping ->
  new_file_password_state s <> NewFilePasswordState.kTypingEnterPassword ->
  new_file_password_state s <> NewFilePasswordState.kTypingConfirmPassword ->
  typing_password s = false.
Proof.
  intros Hex Hn1 Hn2. unfold typing_password.
  now rewrite !bool_decide_eq_false_2 by assumption.
Qed.

Lemma outside_dialogue_of_unedited (a b : State) :
  unedited a = unedited b -> outside_dialogue a = outside_dialogue b.
Proof. unfold outside_dialogue. now intros ->. Qed.

Lemma unedited_existing_tag (a b : State) :
  unedited a = unedited b ->
  existing_file_password_state a = existing_file_password_state b.
Proof.
  intros Heq. apply (f_equal existing_file_password_state) in Heq.
  exact Heq.
Qed.

(** A prompt is shown: it is typed into the first row of a cleared screen,
    and the dialogue goes on to read an entry. *)
Lemma show_prompt (s : State) (c : ascii) (prompt : bytes)
    (tag : NewFilePasswordState.t) :
  cleared s ->
  typing_password s = false ->
  (length prompt < 40)%nat ->
  exists s1,
    InsertString s (c :: prompt) = Returns s1
    /\ at_end_of_row
         (set_new_file_password_state tag
            (set_indelible_msg (c :: prompt) s1)) (c :: prompt)
    /\ entry_password
         (set_new_file_password_state tag
            (set_indelible_msg (c :: prompt) s1)) = entry_password s
    /\ outside_dialogue
         (set_new_file_password_state tag
            (set_indelible_msg (c :: prompt) s1))
       = outside_dialogue s
    /\ existing_file_password_state
         (set_new_file_password_state tag
            (set_indelible_msg (c :: prompt) s1))
       = existing_file_password_state s.
Proof.
  intros Hclear Htp Hlen.
  destruct (InsertString_cleared s c prompt)
    as (s1 & Hrun & Hend & Hep & Hrest); [exact Hclear|exact Htp|lia|].
  exists s1. split; [exact Hrun|]. split; [exact Hend|].
  split; [exact Hep|]. split.
  - transitivity (outside_dialogue s1); [reflexivity|].
    rewrite (outside_dialogue_of_unedited _ _ Hrest). reflexivity.
  - cbn [existing_file_password_state set_new_file_password_state
         set_indelible_msg].
    rewrite (unedited_existing_tag _ _ Hrest). reflexivity.
Qed.

(** One failed confirmation: the entry is read, found to differ from the
    password, and the prompt to try again is shown. *)
Lemma new_file_retry (w : list Z) (s : State) (cs : bytes)
    (pre post : list Z) (fuel : nat) (tty : Terminal)
    (password confirm : bytes) :
  new_file_password_state s = NewFilePasswordState.kTypingConfirmPassword ->
  existing_file_password_state s <> ExistingFilePasswordState.kTyping ->
  at_end_of_row s cs -> (length cs < 40)%nat -> entry_password s = [] ->
  Forall (fun c => plain_key c = true) w ->
  to_char <$> w <> password ->
  9 * (Z.of_nat (length w) + 41) < 2 ^ 31 ->
  Z.of_nat (length pre + length w) < INT_MAX ->
  exists s2,
    new_file_password_state s2
    = NewFilePasswordState.kTypingConfirmPassword
    /\ existing_file_password_state s2 = existing_file_password_state s
    /\ (exists cs2, at_end_of_row s2 cs2 /\ (length cs2 < 40)%nat)
    /\ entry_password s2 = []
    /\ outside_dialogue s2 = outside_dialogue s
    /\ PasswordDialogue.new_file_loop (length w + 3 + fuel) tty s
         (pre ++ w ++ ENTER :: post) password confirm
         (Z.of_nat (length pre))
       = PasswordDialogue.new_file_loop fuel tty s2
           (pre ++ w ++ ENTER :: post) password (to_char <$> w)
           (Z.of_nat (length pre + length w + 1)).
Proof.
  intros Htag Hex Hend Hlen Hep Hplain Hdiff Hsize Hidx.
  destruct (new_file_typing_Confirm w s cs pre post (2 + fuel) tty password
              confirm Htag Hend Hplain)
    as (s1 & Hend1 & Hep1 & Hrest1 & Hloop1); [lia|exact Hidx|].
  rewrite Hep in Hep1. cbn [app] in Hep1.
  set (t2 := set_new_file_password_state
               NewFilePasswordState.kConfirmPasswordNeedsCheck s1) in *.
  set (t3 := set_new_file_password_state
               NewFilePasswordState.kShowRetryConfirmPassword t2).
  assert (syntax t3 = None) as Hsyn3
    by (destruct Hend1 as (_ & _ & _ & _ & _ & _ & Hsyn); exact Hsyn).
  assert (existing_file_password_state t3 = existing_file_password_state s)
    as Hex3 by (apply (unedited_existing_tag s1 s Hrest1)).
  destruct (show_prompt (ClearScreen t3) "P"%char
              (cstr "assword mismatch. Confirm password: ")
              NewFilePasswordState.kTypingConfirmPassword)
    as (s4 & Hrun4 & Hend4 & Hep4 & Hout4 & Hex4).
  { now apply ClearScreen_cleared. }
  { apply not_typing_password; [|discriminate..].
    change (existing_file_password_state t3
            <> ExistingFilePasswordState.kTyping).
    now rewrite Hex3. }
  { cbn. lia. }
  exists (set_new_file_password_state
            NewFilePasswordState.kTypingConfirmPassword
            (set_indelible_msg
               ("P"%char :: cstr "assword mismatch. Confirm password: ") s4)).
  split; [reflexivity|].
  split; [rewrite Hex4; exact Hex3|].
  split; [eexists; split; [exact Hend4|cbn; lia]|].
  split; [exact Hep4|].
  split.
  { rewrite Hout4. transitivity (outside_dialogue s1); [reflexivity|].
    now apply outside_dialogue_of_unedited. }
  replace (length w + 3 + fuel)%nat with (length w + 1 + (2 + fuel))%nat
    by lia.
  rewrite Hloop1. fold t2. rewrite Hep1.
  cbn [Nat.add PasswordDialogue.new_file_loop].
  change (new_file_password_state t2)
    with NewFilePasswordState.kConfirmPasswordNeedsCheck.
  cbv iota.
  rewrite bool_decide_eq_false_2 by congruence.
  fold t3. cbn [PasswordDialogue.new_file_loop].
  change (new_file_password_state t3)
    with NewFilePasswordState.kShowRetryConfirmPassword.
  cbv iota.
  change (cstr "Password mismatch. Confirm password: ")
    with ("P"%char :: cstr "assword mismatch. Confirm password: ").
  rewrite Hrun4. reflexivity.
Qed.

Lemma new_file_retries (wrongs : list (list Z)) :
  forall (s : State) (cs : bytes) (pre post : list Z) (fuel : nat)
         (tty : Terminal) (password confirm : bytes),
    new_file_password_state s
    = NewFilePasswordState.kTypingConfirmPassword ->
    existing_file_password_state s <> ExistingFilePasswordState.kTyping ->
    at_end_of_row s cs -> (length cs < 40)%nat -> entry_password s = [] ->
    Forall (Forall (fun c => plain_key c = true)) wrongs ->
    Forall (fun w => to_char <$> w <> password) wrongs ->
    Forall (fun w => 9 * (Z.of_nat (length w) + 41) < 2 ^ 31) wrongs ->
    Z.of_nat (length pre + length (concat (entry <$> wrongs))) < INT_MAX ->
    exists s2 confirm2,
      new_file_password_state s2
      = NewFilePasswordState.kTypingConfirmPassword
      /\ existing_file_password_state s2 = existing_file_password_state s
      /\ (exists cs2, at_end_of_row s2 cs2 /\ (length cs2 < 40)%nat)
      /\ entry_password s2 = []
      /\ outside_dialogue s2 = outside_dialogue s
      /\ PasswordDialogue.new_file_loop
           (sum_list ((fun w => length w + 3)%nat <$> wrongs) + fuel) tty s
           (pre ++ concat (entry <$> wrongs) ++ post) password confirm
           (Z.of_nat (length pre))
         = PasswordDialogue.new_file_loop fuel tty s2
             (pre ++ concat (entry <$> wrongs) ++ post) password confirm2
             (Z.of_nat (length pre + length (concat (entry <$> wrongs)))).
Proof.
  induction wrongs as [|w ws IH];
    intros s cs pre post fuel tty password confirm Htag Hex Hend Hlen Hep
      Hplain Hdiff Hsize Hidx.
  - exists s, confirm. cbn [fmap list_fmap concat sum_list length app].
    rewrite Nat.add_0_r.
    repeat (split; [first [assumption|reflexivity|eauto]|]). reflexivity.
  - apply Forall_cons in Hplain as [Hw Hplain].
    apply Forall_cons in Hdiff as [Hdw Hdiff].
    apply Forall_cons in Hsize as [Hsw Hsize].
    cbn [fmap list_fmap concat sum_list] in *.
    unfold entry at 1 in Hidx. rewrite !length_app in Hidx.
    cbn [length] in Hidx.
    destruct (new_file_retry w s cs pre (concat (entry <$> ws) ++ post)
                (sum_list ((fun w => length w + 3)%nat <$> ws) + fuel) tty
                password confirm)
      as (s1 & Htag1 & Hex1 & (cs1 & Hend1 & Hlen1) & Hep1 & Hout1 & Hloop1);
      try assumption; [lia|].
    destruct (IH s1 cs1 (pre ++ entry w) post fuel tty password
                (to_char <$> w))
      as (s2 & confirm2 & Htag2 & Hex2 & Hcs2 & Hep2 & Hout2 & Hloop2);
      try assumption.
    { now rewrite Hex1. }
    { unfold entry at 1. rewrite !length_app. cbn [length]. lia. }
    exists s2, confirm2.
    split; [exact Htag2|]. split; [congruence|]. split; [exact Hcs2|].
    split; [exact Hep2|]. split; [congruence|].
    assert (pre ++ (entry w ++ concat (entry <$> ws)) ++ post
            = pre ++ w ++ ENTER :: concat (entry <$> ws) ++ post) as Hkeys1
      by (unfold entry at 1; now rewrite <- !app_assoc).
    assert (pre ++ (entry w ++ concat (entry <$> ws)) ++ post
            = (pre ++ entry w) ++ concat (entry <$> ws) ++ post) as Hkeys2
      by (now rewrite <- !app_assoc).
    replace (length w + 3 + sum_list ((fun w => length w + 3)%nat <$> ws)
             + fuel)%nat
      with (length w + 3
            + (sum_list ((fun w => length w + 3)%nat <$> ws) + fuel))%nat
      by lia.
    rewrite Hkeys1, Hloop1, <- Hkeys1, Hkeys2.
    replace (Z.of_nat (length pre + length w + 1))
      with (Z.of_nat (length (pre ++ entry w)))
      by (unfold entry; rewrite !length_app; cbn [length]; lia).
    rewrite Hloop2. do 2 f_equal.
    unfold entry at 1 3. rewrite !length_app. cbn [length]. lia.
Qed.

(** The dialogue for a new file on provided keys.  From a cleared screen,
    when the keys are those of a password and Enter, then any number of
    entries that are not the password, each with Enter, then the password
    and Enter again, [HandleNewFileEncryption] returns: [password] is the
    password entered, byte for byte; the screen, the password typed so far
    and the message that cannot be deleted are cleared; nothing else of
    the state has changed but [unlock_state] and the state of the
    dialogue.  Keys behind the last Enter are not read. *)
Theorem HandleNewFileEncryption_sets_confirmed_password
    (st : State) (pw : list Z) (wrongs : list (list Z)) (rest : list Z)
    (tty : Terminal) (fuel : nat) :
  cleared st -> entry_password st = [] ->
  existing_file_password_state st <> ExistingFilePasswordState.kTyping ->
  Forall (fun c => plain_key c = true) pw ->
  Forall (Forall (fun c => plain_key c = true)) wrongs ->
  Forall (fun w => to_char <$> w <> to_char <$> pw) wrongs ->
  Forall (fun w => 9 * (Z.of_nat (length w) + 41) < 2 ^ 31) (pw :: wrongs) ->
  Z.of_nat (length (entry pw ++ concat (entry <$> wrongs) ++ entry pw))
  < INT_MAX ->
  PasswordDialogue.HandleNewFileEncryption
    (new_file_rounds pw wrongs + fuel) tty st
    (entry pw ++ concat (entry <$> wrongs) ++ entry pw ++ rest)
  = Returns
      (set_password (to_char <$> pw)
         (set_indelible_msg []
            (set_new_file_password_state
               NewFilePasswordState.kConfirmPasswordNeedsCheck
               (set_unlock_state kNewFile (ClearScreen st)))),
       tty).
Proof.
  intros Hclear Hep Hex Hpw Hwrongs Hdiff Hsize Hidx.
  apply Forall_cons in Hsize as [Hspw Hsize].
  unfold entry at 1 3 in Hidx. rewrite !length_app in Hidx.
  cbn [length] in Hidx.
  set (keys := entry pw ++ concat (entry <$> wrongs) ++ entry pw ++ rest).
  set (W := sum_list ((fun w => length w + 3)%nat <$> wrongs)).
  unfold PasswordDialogue.HandleNewFileEncryption.
  set (s0 := set_new_file_password_state
               NewFilePasswordState.kShowEnterPassword
               (set_unlock_state kNewFile st)).
  (* the first prompt *)
  destruct (show_prompt s0 "E"%char (cstr "nter password: ")
              NewFilePasswordState.kTypingEnterPassword)
    as (s1 & Hrun1 & Hend1 & Hep1 & Hout1 & Hex1).
  { exact Hclear. }
  { apply not_typing_password; [exact Hex|discriminate..]. }
  { cbn. lia. }
  set (t1 := set_new_file_password_state
               NewFilePasswordState.kTypingEnterPassword
               (set_indelible_msg
                  ("E"%char :: cstr "nter password: ") s1)) in *.
  (* the password *)
  destruct (new_file_typing_Enter pw t1
              ("E"%char :: cstr "nter password: ") []
              (concat (entry <$> wrongs) ++ entry pw ++ rest)
              (length pw + 3 + W + fuel) tty [] [])
    as (s2 & Hend2 & Hep2 & Hrest2 & Hloop2);
    [reflexivity|exact Hend1|exact Hpw
    |change (length ("E"%char :: cstr "nter password: ")) with 16%nat; lia
    |cbn [length]; lia|].
  set (t2 := set_new_file_password_state
               NewFilePasswordState.kEnterPasswordCompleted s2) in *.
  assert (entry_password s2 = to_char <$> pw) as Hpass.
  { rewrite Hep2, Hep1.
    change (entry_password s0) with (entry_password st).
    now rewrite Hep. }
  assert (syntax t2 = None) as Hsyn2
    by (destruct Hend2 as (_ & _ & _ & _ & _ & _ & Hsyn); exact Hsyn).
  assert (existing_file_password_state t2 = existing_file_password_state st)
    as Hex2.
  { transitivity (existing_file_password_state t1);
      [apply (unedited_existing_tag s2 t1 Hrest2)|exact Hex1]. }
  (* the prompt to confirm it *)
  destruct (show_prompt (ClearScreen t2) "C"%char (cstr "onfirm password: ")
              NewFilePasswordState.kTypingConfirmPassword)
    as (s3 & Hrun3 & Hend3 & Hep3 & Hout3 & Hex3).
  { now apply ClearScreen_cleared. }
  { apply not_typing_password; [|discriminate..].
    change (existing_file_password_state t2
            <> ExistingFilePasswordState.kTyping).
    now rewrite Hex2. }
  { cbn. lia. }
  set (t3 := set_new_file_password_state
               NewFilePasswordState.kTypingConfirmPassword
               (set_indelible_msg
                  ("C"%char :: cstr "onfirm password: ") s3)) in *.
  (* the entries that fail *)
  destruct (new_file_retries wrongs t3
              ("C"%char :: cstr "onfirm password: ") (entry pw)
              (entry pw ++ rest) (length pw + 2 + fuel) tty
              (to_char <$> pw) [])
    as (s4 & confirm4 & Htag4 & Hex4 & (cs4 & Hend4 & Hlen4) & Hep4 & Hout4
        & Hloop4);
    [reflexivity|rewrite Hex3; change (existing_file_password_state t2
                                        <> ExistingFilePasswordState.kTyping);
                 now rewrite Hex2
    |exact Hend3|cbn; lia|exact Hep3|exact Hwrongs|exact Hdiff|exact Hsize
    |unfold entry at 1; rewrite length_app; cbn [length]; lia|].
  (* the entry that confirms *)
  destruct (new_file_typing_Confirm pw s4 cs4
              (entry pw ++ concat (entry <$> wrongs)) rest (1 + fuel) tty
              (to_char <$> pw) confirm4)
    as (s5 & Hend5 & Hep5 & Hrest5 & Hloop5);
    [exact Htag4|exact Hend4|exact Hpw|lia
    |unfold entry at 1; rewrite !length_app; cbn [length]; lia|].
  rewrite Hep4 in Hep5. cbn [app] in Hep5.
  (* the rounds *)
  replace (new_file_rounds pw wrongs + fuel)%nat
    with (S (length pw + 1 + (length pw + 3 + W + fuel)))
    by (unfold new_file_rounds; fold W; lia).
  cbn [PasswordDialogue.new_file_loop].
  change (new_file_password_state s0)
    with NewFilePasswordState.kShowEnterPassword.
  cbv iota.
  change (cstr "Enter password: ") with ("E"%char :: cstr "nter password: ").
  rewrite Hrun1. cbn [bind]. fold t1.
  assert (keys = [] ++ pw ++ ENTER :: concat (entry <$> wrongs)
                 ++ entry pw ++ rest) as Hkeys2
    by (unfold keys, entry at 1; now rewrite <- app_assoc).
  rewrite Hkeys2.
  change (PasswordDialogue.new_file_loop
            (length pw + 1 + (length pw + 3 + W + fuel)) tty t1
            ([] ++ pw ++ ENTER :: concat (entry <$> wrongs)
             ++ entry pw ++ rest) [] [] 0)
    with (PasswordDialogue.new_file_loop
            (length pw + 1 + (length pw + 3 + W + fuel)) tty t1
            ([] ++ pw ++ ENTER :: concat (entry <$> wrongs)
             ++ entry pw ++ rest) [] [] (Z.of_nat (length (@nil Z)))).
  rewrite Hloop2. fold t2. rewrite <- Hkeys2, Hpass.
  replace (length pw + 3 + W + fuel)%nat
    with (S (W + (length pw + 2 + fuel))) by lia.
  cbn [PasswordDialogue.new_file_loop].
  change (new_file_password_state t2)
    with NewFilePasswordState.kEnterPasswordCompleted.
  cbv iota.
  change (cstr "Confirm password: ")
    with ("C"%char :: cstr "onfirm password: ").
  rewrite Hrun3. cbn [bind]. fold t3.
  replace (Z.of_nat (length (@nil Z) + length pw + 1))
    with (Z.of_nat (length (entry pw)))
    by (unfold entry; rewrite length_app; cbn [length]; lia).
  unfold keys, W. rewrite Hloop4.
  assert (entry pw ++ concat (entry <$> wrongs) ++ entry pw ++ rest
          = (entry pw ++ concat (entry <$> wrongs)) ++ pw ++ ENTER :: rest)
    as Hkeys5 by (unfold entry at 3; now rewrite <- !app_assoc).
  rewrite Hkeys5.
  replace (length (entry pw) + length (concat (entry <$> wrongs)))%nat
    with (length (entry pw ++ concat (entry <$> wrongs)))
    by (now rewrite length_app).
  replace (length pw + 2 + fuel)%nat with (length pw + 1 + (1 + fuel))%nat
    by lia.
  rewrite Hloop5, Hep5.
  cbn [Nat.add PasswordDialogue.new_file_loop
       new_file_password_state set_new_file_password_state].
  rewrite bool_decide_eq_true_2 by reflexivity.
  (* the state that is returned *)
  do 2 f_equal.
  assert (outside_dialogue s5 = outside_dialogue (set_unlock_state kNewFile st))
    as Hout5.
  { rewrite (outside_dialogue_of_unedited _ _ Hrest5), Hout4, Hout3.
    transitivity (outside_dialogue s2); [reflexivity|].
    rewrite (outside_dialogue_of_unedited _ _ Hrest2), Hout1. reflexivity. }
  assert (existing_file_password_state s5 = existing_file_password_state st)
    as Hex5.
  { rewrite (unedited_existing_tag _ _ Hrest5), Hex4, Hex3. exact Hex2. }
  transitivity
    (set_password (to_char <$> pw)
       (set_new_file_password_state
          NewFilePasswordState.kConfirmPasswordNeedsCheck
          (set_existing_file_password_state
             (existing_file_password_state s5) (outside_dialogue s5))));
    [reflexivity|].
  rewrite Hout5, Hex5. reflexivity.
Qed.

Lemma HandleNewFileEncryption_sets_confirmed_password_witness :
  PasswordDialogue.HandleNewFileEncryption 30 []
    (set_window 24 80 State_new)
    ((uchar <$> cstr "s3cret") ++ [ENTER] ++ (uchar <$> cstr "secret")
     ++ [ENTER] ++ (uchar <$> cstr "s3cret") ++ [ENTER])
  = Returns
      (set_password (cstr "s3cret")
         (set_new_file_password_state
            NewFilePasswordState.kConfirmPasswordNeedsCheck
            (set_unlock_state kNewFile (set_window 24 80 State_new))), []).
Proof.
  pose proof (HandleNewFileEncryption_sets_confirmed_password
                (set_window 24 80 State_new) (uchar <$> cstr "s3cret")
                [uchar <$> cstr "secret"] [] [] 4) as Hrun.
  apply Hrun.
  - repeat split.
  - reflexivity.
  - discriminate.
  - repeat constructor.
  - repeat constructor.
  - repeat constructor. discriminate.
  - repeat constructor; vm_compute; reflexivity.
  - vm_compute. reflexivity.
Defined.

(** * Keys from the terminal *)

Lemma wait_byte_timeouts (n : nat) :
  forall (fuel : nat) (r : read_result) (rest : Terminal),
    (n < fuel)%nat -> timed_out r = false ->
    wait_byte fuel (replicate n Timeout ++ r :: rest)
    = match r with
      | Byte c => Returns (c, rest)
      | _ => Exits 1
      end.
Proof.
  induction n as [|n IH]; intros fuel r rest Hfuel Hr;
    (destruct fuel as [|fuel]; [lia|]); cbn [replicate app wait_byte read1].
  - destruct r; [reflexivity|discriminate Hr|reflexivity].
  - apply IH; [lia|exact Hr].
Qed.

Lemma wait_byte_idle (fuel : nat) : wait_byte fuel [] = OutOfFuel.
Proof. induction fuel as [|fuel IH]; [reflexivity|exact IH]. Qed.

(** [ReadKey] waits as long as the reads time out.  A byte that is not
    ESC is the key, as a signed character, so a byte above 127 is a
    negative key; a failing read ends the program with status 1; ESC
    followed by a time-out is the key ESC; ESC, an opening bracket and one
    of the letters A, B, C, D, H, F are the arrow keys, Home and End, and
    ESC [ 3 ~, ESC [ 5 ~ and ESC [ 6 ~ are Delete, Page Up and Page Down.
    Nothing behind the key is read.  On a terminal that stays idle
    [ReadKey] does not return. *)
Theorem ReadKey_decodes (n fuel : nat) (rest : Terminal) :
  (n < fuel)%nat ->
  let idle := replicate n Timeout in
  let esc := Byte (to_char ESC) in
  (forall c : ascii,
     schar c <> ESC ->
     ReadKey fuel (idle ++ Byte c :: rest) = Returns (schar c, rest)
     /\ (128 <= uchar c -> schar c < 0))
  /\ ReadKey fuel (idle ++ ReadError :: rest) = Exits 1
  /\ ReadKey fuel (idle ++ esc :: Timeout :: rest) = Returns (ESC, rest)
  /\ ReadKey fuel (idle ++ [esc]) = Returns (ESC, [])
  /\ (forall (x : ascii) (key : Z),
        (x, key) ∈ [("A"%char, ARROW_UP); ("B"%char, ARROW_DOWN);
                    ("C"%char, ARROW_RIGHT); ("D"%char, ARROW_LEFT);
                    ("H"%char, HOME_KEY); ("F"%char, END_KEY)] ->
        ReadKey fuel (idle ++ esc :: Byte "["%char :: Byte x :: rest)
        = Returns (key, rest))
  /\ (forall (x : ascii) (key : Z),
        (x, key) ∈ [("3"%char, DEL_KEY); ("5"%char, PAGE_UP);
                    ("6"%char, PAGE_DOWN)] ->
        ReadKey fuel
          (idle ++ esc :: Byte "["%char :: Byte x :: Byte "~"%char :: rest)
        = Returns (key, rest))
  /\ (forall fuel' : nat, ReadKey fuel' [] = OutOfFuel).
Proof.
  intros Hfuel idle esc. unfold ReadKey, idle, esc.
  destruct fuel as [|fuel]; [lia|].
  repeat split.
  - rewrite wait_byte_timeouts by (lia || reflexivity).
    cbn [bind decode_key].
    destruct (Z.eqb_spec (schar c) ESC) as [?|_]; [contradiction|].
    reflexivity.
  - unfold schar. intros Hc.
    destruct (Z.ltb_spec (uchar c) 128) as [?|_]; [lia|].
    pose proof (uchar_range c). lia.
  - now rewrite wait_byte_timeouts by (lia || reflexivity).
  - now rewrite wait_byte_timeouts by (lia || reflexivity).
  - now rewrite wait_byte_timeouts by (lia || reflexivity).
  - intros x key Hin. rewrite wait_byte_timeouts by (lia || reflexivity).
    repeat (apply elem_of_cons in Hin as [[= -> ->]|Hin]; [reflexivity|]).
    inversion Hin.
  - intros x key Hin. rewrite wait_byte_timeouts by (lia || reflexivity).
    repeat (apply elem_of_cons in Hin as [[= -> ->]|Hin]; [reflexivity|]).
    inversion Hin.
  - intros fuel'. now rewrite wait_byte_idle.
Qed.

Lemma ReadKey_decodes_witness :
  ReadKey 3 [Timeout; Timeout; Byte (to_char 195); Byte (to_char 169)]
  = Returns (-61, [Byte (to_char 169)]).
Proof.
  destruct (ReadKey_decodes 2 3 [Byte (to_char 169)]) as [Hplain _];
    [lia|].
  destruct (Hplain (to_char 195)) as [Hkey _]; [discriminate|].
  exact Hkey.
Defined.

(** * The dialogue for an existing file *)

Lemma typing_password_existing (st : State) :
  existing_file_password_state st = ExistingFilePasswordState.kTyping ->
  typing_password st = true.
Proof. unfold typing_password. now intros ->. Qed.

Lemma show_prompt_existing (s : State) (c : ascii) (prompt : bytes) :
  cleared s ->
  typing_password s = false ->
  (length prompt < 40)%nat ->
  exists s1,
    InsertString s (c :: prompt) = Returns s1
    /\ at_end_of_row
         (set_existing_file_password_state ExistingFilePasswordState.kTyping
            (set_indelible_msg (c :: prompt) s1)) (c :: prompt)
    /\ entry_password
         (set_existing_file_password_state ExistingFilePasswordState.kTyping
            (set_indelible_msg (c :: prompt) s1)) = entry_password s
    /\ outside_dialogue
         (set_existing_file_password_state ExistingFilePasswordState.kTyping
            (set_indelible_msg (c :: prompt) s1))
       = outside_dialogue s
    /\ new_file_password_state
         (set_existing_file_password_state ExistingFilePasswordState.kTyping
            (set_indelible_msg (c :: prompt) s1))
       = new_file_password_state s
    /\ crypto_algorithm
         (set_existing_file_password_state ExistingFilePasswordState.kTyping
            (set_indelible_msg (c :: prompt) s1))
       = crypto_algorithm s.
Proof.
  intros Hclear Htp Hlen.
  destruct (InsertString_cleared s c prompt)
    as (s1 & Hrun & Hend & Hep & Hrest); [exact Hclear|exact Htp|lia|].
  exists s1. split; [exact Hrun|]. split; [exact Hend|].
  split; [exact Hep|]. split; [|split].
  - transitivity (outside_dialogue s1); [reflexivity|].
    rewrite (outside_dialogue_of_unedited _ _ Hrest). reflexivity.
  - apply (unedited_new_tag s1 s Hrest).
  - apply (f_equal crypto_algorithm) in Hrest. exact Hrest.
Qed.

Section existing_file_dialogue.
Context `{H : Host}.
Variables (fs : FileSystem) (now : Z) (filename : bytes).

(** Typing [ks] and Enter while the password of the file is entered. *)
Lemma existing_file_typing (ks : list Z) :
  forall (st : State) (cs : bytes) (pre post : list Z)
         (fuel : nat) (tty : Terminal) (password : bytes),
    existing_file_password_state st = ExistingFilePasswordState.kTyping ->
    at_end_of_row st cs ->
    Forall (fun c => plain_key c = true) ks ->
    9 * (Z.of_nat (length cs + length ks) + 1) < 2 ^ 31 ->
    Z.of_nat (length pre + length ks) < INT_MAX ->
    exists st',
      at_end_of_row st' (cs ++ replicate (length ks) "*"%char)
      /\ entry_password st' = entry_password st ++ (to_char <$> ks)
      /\ unedited st' = unedited st
      /\ PasswordDialogue.existing_file_loop (length ks + 1 + fuel) fs now
           tty st filename (pre ++ ks ++ ENTER :: post) password
           (Z.of_nat (length pre))
         = PasswordDialogue.existing_file_loop fuel fs now tty
             (set_existing_file_password_state
                ExistingFilePasswordState.kEnterPasswordNeedsCheck st')
             filename (pre ++ ks ++ ENTER :: post) (entry_password st')
             (Z.of_nat (length pre + length ks + 1)).
Proof.
  induction ks as [|c ks IH];
    intros st cs pre post fuel tty password Htag Hend Hplain Hsize Hidx.
  - exists st. rewrite app_nil_r.
    split; [exact Hend|]. split; [now rewrite app_nil_r|].
    split; [reflexivity|].
    cbn [length Nat.add app PasswordDialogue.existing_file_loop].
    rewrite Htag, provided_lookup. cbn [bind].
    rewrite ProcessKeyPressPasswordMode_ENTER. cbn [bind].
    rewrite wrap_int_id by (unfold INT_MIN, INT_MAX in *; lia).
    unfold GetPasswordFromState. do 2 f_equal. lia.
  - apply Forall_cons in Hplain as [Hc Hplain]. cbn [length] in *.
    destruct (InsertChar_at_end st cs c Hend)
      as (st1 & H1 & Hend1 & Hep1 & Hrest1); [lia|].
    rewrite (typing_password_existing st Htag) in Hend1, Hep1.
    destruct (IH st1 (cs ++ ["*"%char]) (pre ++ [c]) post fuel tty password)
      as (st' & Hend' & Hep' & Hrest' & Hloop).
    + rewrite (unedited_existing_tag _ _ Hrest1). exact Htag.
    + exact Hend1.
    + exact Hplain.
    + rewrite length_app. cbn [length]. lia.
    + rewrite length_app. cbn [length]. lia.
    + exists st'. rewrite <- app_assoc in Hend'.
      split; [exact Hend'|].
      split; [rewrite Hep', Hep1, <- app_assoc; reflexivity|].
      split; [congruence|].
      rewrite <- app_assoc in Hloop. cbn [app] in Hloop.
      rewrite length_app in Hloop. cbn [length] in Hloop.
      replace (Z.of_nat (length pre + 1 + length ks + 1))
        with (Z.of_nat (length pre + S (length ks) + 1)) in Hloop by lia.
      etransitivity; [|exact Hloop].
      cbn [Nat.add app PasswordDialogue.existing_file_loop].
      rewrite Htag, provided_lookup. cbn [bind].
      rewrite ProcessKeyPressPasswordMode_plain by exact Hc.
      rewrite H1. cbn [bind].
      rewrite wrap_int_id by (unfold INT_MIN, INT_MAX in *; lia).
      f_equal. lia.
Qed.

(** One entry that is not the password of the file: it is read, refused
    by [IsKeyCorrect], and the prompt to try again is shown. *)
Lemma existing_file_retry (w : list Z) (s : State) (cs : bytes)
    (pre post : list Z) (fuel : nat) (tty : Terminal) (password : bytes) :
  existing_file_password_state s = ExistingFilePasswordState.kTyping ->
  new_file_password_state s <> NewFilePasswordState.kTypingEnterPassword ->
  new_file_password_state s <> NewFilePasswordState.kTypingConfirmPassword ->
  at_end_of_row s cs -> (length cs < 40)%nat -> entry_password s = [] ->
  Forall (fun c => plain_key c = true) w ->
  IsKeyCorrect fs (to_char <$> w) filename (crypto_algorithm s)
  = Returns false ->
  9 * (Z.of_nat (length w) + 41) < 2 ^ 31 ->
  Z.of_nat (length pre + length w) < INT_MAX ->
  exists s2,
    existing_file_password_state s2 = ExistingFilePasswordState.kTyping
    /\ new_file_password_state s2 = new_file_password_state s
    /\ crypto_algorithm s2 = crypto_algorithm s
    /\ (exists cs2, at_end_of_row s2 cs2 /\ (length cs2 < 40)%nat)
    /\ entry_password s2 = []
    /\ outside_dialogue s2 = outside_dialogue s
    /\ PasswordDialogue.existing_file_loop (length w + 3 + fuel) fs now tty
         s filename (pre ++ w ++ ENTER :: post) password
         (Z.of_nat (length pre))
       = PasswordDialogue.existing_file_loop fuel fs now tty s2 filename
           (pre ++ w ++ ENTER :: post) (to_char <$> w)
           (Z.of_nat (length pre + length w + 1)).
Proof.
  intros Htag Hn1 Hn2 Hend Hlen Hep Hplain Hwrong Hsize Hidx.
  destruct (existing_file_typing w s cs pre post (2 + fuel) tty password
              Htag Hend Hplain)
    as (s1 & Hend1 & Hep1 & Hrest1 & Hloop1); [lia|exact Hidx|].
  rewrite Hep in Hep1. cbn [app] in Hep1.
  set (t2 := set_existing_file_password_state
               ExistingFilePasswordState.kEnterPasswordNeedsCheck s1) in *.
  set (t3 := set_existing_file_password_state
               ExistingFilePasswordState.kShowRetryPassword t2).
  assert (syntax t3 = None) as Hsyn3
    by (destruct Hend1 as (_ & _ & _ & _ & _ & _ & Hsyn); exact Hsyn).
  assert (new_file_password_state t3 = new_file_password_state s) as Hnew3
    by (apply (unedited_new_tag s1 s Hrest1)).
  assert (crypto_algorithm t2 = crypto_algorithm s) as Halg
    by (apply (f_equal crypto_algorithm) in Hrest1; exact Hrest1).
  destruct (show_prompt_existing (ClearScreen t3) "I"%char
              (cstr "ncorrect password. Try again: "))
    as (s4 & Hrun4 & Hend4 & Hep4 & Hout4 & Hnew4 & Halg4).
  { now apply ClearScreen_cleared. }
  { apply not_typing_password; [discriminate| |].
    - change (new_file_password_state t3
              <> NewFilePasswordState.kTypingEnterPassword).
      now rewrite Hnew3.
    - change (new_file_password_state t3
              <> NewFilePasswordState.kTypingConfirmPassword).
      now rewrite Hnew3. }
  { cbn. lia. }
  exists (set_existing_file_password_state ExistingFilePasswordState.kTyping
            (set_indelible_msg
               ("I"%char :: cstr "ncorrect password. Try again: ") s4)).
  split; [reflexivity|].
  split; [rewrite Hnew4; exact Hnew3|].
  split; [rewrite Halg4; exact Halg|].
  split; [eexists; split; [exact Hend4|cbn; lia]|].
  split; [exact Hep4|].
  split.
  { rewrite Hout4. transitivity (outside_dialogue s1); [reflexivity|].
    now apply outside_dialogue_of_unedited. }
  replace (length w + 3 + fuel)%nat with (length w + 1 + (2 + fuel))%nat
    by lia.
  rewrite Hloop1. fold t2. rewrite Hep1.
  cbn [Nat.add PasswordDialogue.existing_file_loop].
  change (existing_file_password_state t2)
    with ExistingFilePasswordState.kEnterPasswordNeedsCheck.
  cbv iota. rewrite Halg, Hwrong. cbn [bind].
  fold t3. cbn [PasswordDialogue.existing_file_loop].
  change (existing_file_password_state t3)
    with ExistingFilePasswordState.kShowRetryPassword.
  cbv iota.
  change (cstr "Incorrect password. Try again: ")
    with ("I"%char :: cstr "ncorrect password. Try again: ").
  rewrite Hrun4. reflexivity.
Qed.

Lemma existing_file_retries (wrongs : list (list Z)) :
  forall (s : State) (cs : bytes) (pre post : list Z) (fuel : nat)
         (tty : Terminal) (password : bytes),
    existing_file_password_state s = ExistingFilePasswordState.kTyping ->
    new_file_password_state s
    <> NewFilePasswordState.kTypingEnterPassword ->
    new_file_password_state s
    <> NewFilePasswordState.kTypingConfirmPassword ->
    at_end_of_row s cs -> (length cs < 40)%nat -> entry_password s = [] ->
    Forall (Forall (fun c => plain_key c = true)) wrongs ->
    Forall (fun w => IsKeyCorrect fs (to_char <$> w) filename
                       (crypto_algorithm s) = Returns false) wrongs ->
    Forall (fun w => 9 * (Z.of_nat (length w) + 41) < 2 ^ 31) wrongs ->
    Z.of_nat (length pre + length (concat (entry <$> wrongs))) < INT_MAX ->
    exists s2 password2,
      existing_file_password_state s2 = ExistingFilePasswordState.kTyping
      /\ new_file_password_state s2 = new_file_password_state s
      /\ crypto_algorithm s2 = crypto_algorithm s
      /\ (exists cs2, at_end_of_row s2 cs2 /\ (length cs2 < 40)%nat)
      /\ entry_password s2 = []
      /\ outside_dialogue s2 = outside_dialogue s
      /\ PasswordDialogue.existing_file_loop
           (sum_list ((fun w => length w + 3)%nat <$> wrongs) + fuel) fs now
           tty s filename (pre ++ concat (entry <$> wrongs) ++ post) password
           (Z.of_nat (length pre))
         = PasswordDialogue.existing_file_loop fuel fs now tty s2 filename
             (pre ++ concat (entry <$> wrongs) ++ post) password2
             (Z.of_nat (length pre + length (concat (entry <$> wrongs)))).
Proof.
  induction wrongs as [|w ws IH];
    intros s cs pre post fuel tty password Htag Hn1 Hn2 Hend Hlen Hep
      Hplain Hwrong Hsize Hidx.
  - exists s, password. cbn [fmap list_fmap concat sum_list length app].
    rewrite Nat.add_0_r.
    repeat (split; [first [assumption|reflexivity|eauto]|]). reflexivity.
  - apply Forall_cons in Hplain as [Hw Hplain].
    apply Forall_cons in Hwrong as [Hww Hwrong].
    apply Forall_cons in Hsize as [Hsw Hsize].
    cbn [fmap list_fmap concat sum_list] in *.
    unfold entry at 1 in Hidx. rewrite !length_app in Hidx.
    cbn [length] in Hidx.
    destruct (existing_file_retry w s cs pre
                (concat (entry <$> ws) ++ post)
                (sum_list ((fun w => length w + 3)%nat <$> ws) + fuel) tty
                password)
      as (s1 & Htag1 & Hnew1 & Halg1 & (cs1 & Hend1 & Hlen1) & Hep1 & Hout1
          & Hloop1);
      try assumption; [lia|].
    destruct (IH s1 cs1 (pre ++ entry w) post fuel tty (to_char <$> w))
      as (s2 & password2 & Htag2 & Hnew2 & Halg2 & Hcs2 & Hep2 & Hout2
          & Hloop2);
      try assumption.
    { now rewrite Hnew1. }
    { now rewrite Hnew1. }
    { now rewrite Halg1. }
    { unfold entry at 1. rewrite !length_app. cbn [length]. lia. }
    exists s2, password2.
    split; [exact Htag2|]. split; [congruence|]. split; [congruence|].
    split; [exact Hcs2|]. split; [exact Hep2|]. split; [congruence|].
    assert (pre ++ (entry w ++ concat (entry <$> ws)) ++ post
            = pre ++ w ++ ENTER :: concat (entry <$> ws) ++ post) as Hkeys1
      by (unfold entry at 1; now rewrite <- !app_assoc).
    assert (pre ++ (entry w ++ concat (entry <$> ws)) ++ post
            = (pre ++ entry w) ++ concat (entry <$> ws) ++ post) as Hkeys2
      by (now rewrite <- !app_assoc).
    replace (length w + 3 + sum_list ((fun w => length w + 3)%nat <$> ws)
             + fuel)%nat
      with (length w + 3
            + (sum_list ((fun w => length w + 3)%nat <$> ws) + fuel))%nat
      by lia.
    rewrite Hkeys1, Hloop1, <- Hkeys1, Hkeys2.
    replace (Z.of_nat (length pre + length w + 1))
      with (Z.of_nat (length (pre ++ entry w)))
      by (unfold entry; rewrite !length_app; cbn [length]; lia).
    rewrite Hloop2. do 2 f_equal.
    unfold entry at 1 3. rewrite !length_app. cbn [length]. lia.
Qed.

End existing_file_dialogue.

(** The dialogue on provided keys when the last entry is accepted. *)
Lemma existing_file_accepts `{H : Host}
    (fs : FileSystem) (now : Z) (filename : bytes)
    (st : State) (pw : list Z) (wrongs : list (list Z)) (rest : list Z)
    (tty : Terminal) (fuel : nat) :
  cleared st -> entry_password st = [] ->
  new_file_password_state st <> NewFilePasswordState.kTypingEnterPassword ->
  new_file_password_state st <> NewFilePasswordState.kTypingConfirmPassword ->
  Forall (fun c => plain_key c = true) pw ->
  Forall (Forall (fun c => plain_key c = true)) wrongs ->
  IsKeyCorrect fs (to_char <$> pw) filename (crypto_algorithm st)
  = Returns true ->
  Forall (fun w => IsKeyCorrect fs (to_char <$> w) filename
                     (crypto_algorithm st) = Returns false) wrongs ->
  Forall (fun w => 9 * (Z.of_nat (length w) + 41) < 2 ^ 31) (pw :: wrongs) ->
  Z.of_nat (length (concat (entry <$> wrongs) ++ entry pw)) < INT_MAX ->
  PasswordDialogue.HandleExistingFileEncryption
    (existing_file_rounds pw wrongs + fuel) fs now tty st filename
    (concat (entry <$> wrongs) ++ entry pw ++ rest)
  = Returns
      (SetStatusMessage now
         (set_password (to_char <$> pw)
            (set_indelible_msg []
               (set_existing_file_password_state
                  ExistingFilePasswordState.kEnterPasswordNeedsCheck
                  (ClearScreen st))))
         (cstr "Password correct."),
       tty).
Proof.
  intros Hclear Hep Hn1 Hn2 Hpw Hwrongs Hright Hwrong Hsize Hidx.
  apply Forall_cons in Hsize as [Hspw Hsize].
  unfold entry at 2 in Hidx. rewrite !length_app in Hidx.
  cbn [length] in Hidx.
  set (W := sum_list ((fun w => length w + 3)%nat <$> wrongs)).
  unfold PasswordDialogue.HandleExistingFileEncryption.
  set (s0 := set_existing_file_password_state
               ExistingFilePasswordState.kShowEnterPassword st).
  (* the first prompt *)
  destruct (show_prompt_existing s0 "E"%char (cstr "nter password: "))
    as (s1 & Hrun1 & Hend1 & Hep1 & Hout1 & Hnew1 & Halg1).
  { exact Hclear. }
  { apply not_typing_password; [discriminate|exact Hn1|exact Hn2]. }
  { cbn. lia. }
  set (t1 := set_existing_file_password_state
               ExistingFilePasswordState.kTyping
               (set_indelible_msg
                  ("E"%char :: cstr "nter password: ") s1)) in *.
  change (new_file_password_state s0) with (new_file_password_state st)
    in Hnew1.
  change (crypto_algorithm s0) with (crypto_algorithm st) in Halg1.
  change (entry_password s0) with (entry_password st) in Hep1.
  (* the entries that are refused *)
  destruct (existing_file_retries fs now filename wrongs t1
              ("E"%char :: cstr "nter password: ") [] (entry pw ++ rest)
              (length pw + 2 + fuel) tty [])
    as (s2 & password2 & Htag2 & Hnew2 & Halg2 & (cs2 & Hend2 & Hlen2)
        & Hep2 & Hout2 & Hloop2);
    [reflexivity|now rewrite Hnew1|now rewrite Hnew1|exact Hend1|cbn; lia
    |now rewrite Hep1|exact Hwrongs|now rewrite Halg1|exact Hsize
    |cbn [length Nat.add]; lia|].
  (* the entry that is accepted *)
  destruct (existing_file_typing fs now filename pw s2 cs2
              (concat (entry <$> wrongs)) rest (1 + fuel) tty password2)
    as (s3 & Hend3 & Hep3 & Hrest3 & Hloop3);
    [exact Htag2|exact Hend2|exact Hpw|lia|lia|].
  rewrite Hep2 in Hep3. cbn [app] in Hep3.
  (* the rounds *)
  replace (existing_file_rounds pw wrongs + fuel)%nat
    with (S (W + (length pw + 2 + fuel)))
    by (unfold existing_file_rounds; fold W; lia).
  cbn [PasswordDialogue.existing_file_loop].
  change (existing_file_password_state s0)
    with ExistingFilePasswordState.kShowEnterPassword.
  cbv iota.
  change (cstr "Enter password: ") with ("E"%char :: cstr "nter password: ").
  rewrite Hrun1. cbn [bind]. fold t1.
  change (PasswordDialogue.existing_file_loop (W + (length pw + 2 + fuel))
            fs now tty t1 filename
            (concat (entry <$> wrongs) ++ entry pw ++ rest) [] 0)
    with (PasswordDialogue.existing_file_loop (W + (length pw + 2 + fuel))
            fs now tty t1 filename
            ([] ++ concat (entry <$> wrongs) ++ entry pw ++ rest) []
            (Z.of_nat (length (@nil Z)))).
  unfold W. rewrite Hloop2. cbn [app length Nat.add].
  assert (concat (entry <$> wrongs) ++ entry pw ++ rest
          = concat (entry <$> wrongs) ++ pw ++ ENTER :: rest) as Hkeys
    by (unfold entry at 2; now rewrite <- !app_assoc).
  rewrite Hkeys.
  replace (length pw + 2 + fuel)%nat with (length pw + 1 + (1 + fuel))%nat
    by lia.
  rewrite Hloop3, Hep3.
  cbn [Nat.add PasswordDialogue.existing_file_loop
       existing_file_password_state set_existing_file_password_state].
  assert (crypto_algorithm s3 = crypto_algorithm st) as Halg3.
  { apply (f_equal crypto_algorithm) in Hrest3.
    change (crypto_algorithm s3 = crypto_algorithm s2) in Hrest3.
    congruence. }
  change (crypto_algorithm
            (set_existing_file_password_state
               ExistingFilePasswordState.kEnterPasswordNeedsCheck s3))
    with (crypto_algorithm s3).
  rewrite Halg3, Hright. cbn [bind].
  (* the state that is returned *)
  do 2 f_equal.
  apply (f_equal (fun s => SetStatusMessage now s (cstr "Password correct."))).
  assert (outside_dialogue s3 = outside_dialogue st) as Hout3.
  { rewrite (outside_dialogue_of_unedited _ _ Hrest3), Hout2, Hout1.
    reflexivity. }
  assert (new_file_password_state s3 = new_file_password_state st) as Hnew3.
  { rewrite (unedited_new_tag _ _ Hrest3). congruence. }
  transitivity
    (set_password (to_char <$> pw)
       (set_existing_file_password_state
          ExistingFilePasswordState.kEnterPasswordNeedsCheck
          (set_new_file_password_state
             (new_file_password_state s3) (outside_dialogue s3))));
    [reflexivity|].
  rewrite Hout3, Hnew3. reflexivity.
Qed.

(** The password under which [Encrypt] wrote a file is a correct key of
    that file, where nothing is read behind the magic number and the
    vector for the plaintext is allocated. *)
Lemma IsKeyCorrect_of_Encrypt `{H : Host}
    (fs : FileSystem) (path p k iv0 : bytes) (e : CryptoState) :
  HostContract H ->
  behind_magic_number = Some [] ->
  k <> [] -> length iv0 = 16%nat ->
  Z.of_nat (length p) <= vector_max_size ->
  (p <> [] -> allocates (Z.of_nat (length p)) = true) ->
  Encrypt p k iv0 kAES256CBC = Returns e ->
  fs path = Some (ciphertext e) ->
  IsKeyCorrect fs k path kAES256CBC = Returns true.
Proof.
  intros HC Hbehind Hk Hiv Hlen Halloc He Hfile.
  destruct (Decrypt_Encrypt p k iv0 HC Hbehind Hk Hiv Hlen Halloc)
    as (e' & d & He' & _ & _ & Hd & Hok & _).
  rewrite He in He'. injection He' as <-.
  unfold IsKeyCorrect, ReadFileToString. rewrite Hfile, Hd. cbn [bind].
  now rewrite Hok.
Qed.

(** A file that [Encrypt] wrote under a password is unlocked by that
    password, on a build in which nothing is read behind the magic number
    and on a host that has the vector for the plaintext.  From a cleared
    screen, when the provided keys are any number of entries that
    [IsKeyCorrect] refuses, each with Enter, and then the keys of the
    password and Enter, [HandleExistingFileEncryption] returns:
    [password] is the password typed, byte for byte, the status message
    is [Password correct.], the screen, the password typed so far and the
    message that cannot be deleted are cleared, and nothing else of the
    state has changed but the state of the dialogue.  Keys behind the
    last Enter are not read. *)
Theorem HandleExistingFileEncryption_unlocks_encrypted_file `{H : Host}
    (fs : FileSystem) (now : Z) (filename plain iv0 : bytes)
    (e : CryptoState)
    (st : State) (pw : list Z) (wrongs : list (list Z)) (rest : list Z)
    (tty : Terminal) (fuel : nat) :
  HostContract H ->
  behind_magic_number = Some [] ->
  pw <> [] -> length iv0 = 16%nat ->
  Z.of_nat (length plain) <= vector_max_size ->
  (plain <> [] -> allocates (Z.of_nat (length plain)) = true) ->
  Encrypt plain (to_char <$> pw) iv0 kAES256CBC = Returns e ->
  fs filename = Some (ciphertext e) ->
  crypto_algorithm st = kAES256CBC ->
  cleared st -> entry_password st = [] ->
  new_file_password_state st <> NewFilePasswordState.kTypingEnterPassword ->
  new_file_password_state st <> NewFilePasswordState.kTypingConfirmPassword ->
  Forall (fun c => plain_key c = true) pw ->
  Forall (Forall (fun c => plain_key c = true)) wrongs ->
  Forall (fun w => IsKeyCorrect fs (to_char <$> w) filename kAES256CBC
                   = Returns false) wrongs ->
  Forall (fun w => 9 * (Z.of_nat (length w) + 41) < 2 ^ 31) (pw :: wrongs) ->
  Z.of_nat (length (concat (entry <$> wrongs) ++ entry pw)) < INT_MAX ->
  PasswordDialogue.HandleExistingFileEncryption
    (existing_file_rounds pw wrongs + fuel) fs now tty st filename
    (concat (entry <$> wrongs) ++ entry pw ++ rest)
  = Returns
      (SetStatusMessage now
         (set_password (to_char <$> pw)
            (set_indelible_msg []
               (set_existing_file_password_state
                  ExistingFilePasswordState.kEnterPasswordNeedsCheck
                  (ClearScreen st))))
         (cstr "Password correct."),
       tty).
Proof.
  intros HC Hbehind Hne Hiv Hlen Halloc He Hfile Halg Hclear Hep Hn1 Hn2
    Hpw Hwrongs Hwrong Hsize Hidx.
  apply existing_file_accepts; try assumption.
  - rewrite Halg.
    apply (IsKeyCorrect_of_Encrypt fs filename plain (to_char <$> pw) iv0 e);
      try assumption.
    destruct pw; [now destruct Hne|discriminate].
  - now rewrite Halg.
Qed.

Lemma HandleExistingFileEncryption_unlocks_encrypted_file_witness :
  let H := reference_host true in
  let iv0 :=
    to_char <$> [0; 1; 2; 3; 4; 5; 6; 7; 8; 9; 10; 11; 12; 13; 14; 15] in
  exists e,
    Encrypt (cstr "hello") (cstr "s3cret") iv0 kAES256CBC = Returns e
    /\ let fs : FileSystem := fun path =>
         if bool_decide (path = cstr "notes.aes256cbc")
         then Some (ciphertext e) else None in
       let st :=
         set_crypto_algorithm kAES256CBC (set_window 24 80 State_new) in
       PasswordDialogue.HandleExistingFileEncryption 20 fs 7 [] st
         (cstr "notes.aes256cbc")
         ([ENTER] ++ (uchar <$> cstr "s3cret") ++ [ENTER])
       = Returns
           (SetStatusMessage 7
              (set_password (cstr "s3cret")
                 (set_existing_file_password_state
                    ExistingFilePasswordState.kEnterPasswordNeedsCheck st))
              (cstr "Password correct."), []).
Proof.
  intros H iv0. eexists. split; [reflexivity|]. intros fs st.
  lazymatch goal with
  | fs := (fun path => if _ then Some (ciphertext ?e) else None) |- _ =>
      pose proof (@HandleExistingFileEncryption_unlocks_encrypted_file H fs 7
                    (cstr "notes.aes256cbc") (cstr "hello") iv0 e st
                    (uchar <$> cstr "s3cret") [[]] [] [] 8) as Hrun
  end.
  apply Hrun.
  - apply reference_host_contract.
  - reflexivity.
  - discriminate.
  - reflexivity.
  - vm_compute. discriminate.
  - reflexivity.
  - reflexivity.
  - reflexivity.
  - reflexivity.
  - repeat split.
  - reflexivity.
  - discriminate.
  - discriminate.
  - repeat constructor.
  - repeat constructor.
  - repeat constructor.
  - repeat constructor; vm_compute; reflexivity.
  - vm_compute. reflexivity.
Defined.

(** * Comments behind tabs *)

Lemma render_chars_tabs_aligned (k : nat) (rest : bytes) :
  forall idx : Z,
    0 <= idx -> (idx + 1) mod 8 = 0 ->
    render_chars (replicate k (to_char TAB) ++ rest) idx
    = replicate (8 * k) " "%char
      ++ render_chars rest (idx + 8 * Z.of_nat k).
Proof.
  induction k as [|k IH]; intros idx Hidx Hmod.
  - cbn [replicate app Nat.mul]. now rewrite Z.add_0_r.
  - cbn [replicate app render_chars].
    rewrite bool_decide_eq_true_2 by reflexivity.
    rewrite tab_fill_replicate
      by (revert Hmod; Z.div_mod_to_equations; cbn; lia).
    assert ((idx + 1) mod 8 = 0 -> 7 - (idx + 1) mod 8 = 7) as Hseven by lia.
    rewrite Hseven by exact Hmod. rewrite length_replicate.
    rewrite IH by (revert Hmod; Z.div_mod_to_equations; lia).
    replace (8 * S k)%nat with (S (7 + 8 * k)) by lia.
    change (Z.to_nat 7) with 7%nat.
    change (replicate (S (7 + 8 * k)) " "%char)
      with (" "%char :: replicate (7 + 8 * k) " "%char).
    rewrite (replicate_add 7 (8 * k)). cbn [app]. rewrite <- app_assoc.
    do 4 f_equal. lia.
Qed.

Lemma render_chars_tabs (k : nat) (rest : bytes) :
  (0 < k)%nat ->
  render_chars (replicate k (to_char TAB) ++ rest) 0
  = replicate (8 * k - 1) " "%char
    ++ render_chars rest (8 * Z.of_nat k - 1).
Proof.
  destruct k as [|k]; [lia|]. intros _.
  cbn [replicate app render_chars].
  rewrite bool_decide_eq_true_2 by reflexivity.
  rewrite tab_fill_replicate
    by (change ((0 + 1) mod 8) with 1; change (Z.of_nat 8) with 8; lia).
  change (Z.to_nat (7 - (0 + 1) mod 8)) with 6%nat.
  rewrite length_replicate.
  change (0 + 1 + Z.of_nat 6) with 7.
  rewrite render_chars_tabs_aligned by first [lia|reflexivity].
  replace (8 * S k - 1)%nat with (S (6 + 8 * k)) by lia.
  change (replicate (S (6 + 8 * k)) " "%char)
    with (" "%char :: replicate (6 + 8 * k) " "%char).
  rewrite (replicate_add 6 (8 * k)). cbn [app]. rewrite <- app_assoc.
  do 4 f_equal. lia.
Qed.

Lemma skip_spaces_replicate (n : nat) (c : ascii) (rest : bytes) :
  forall i : nat,
    isspace (uchar c) = false ->
    skip_spaces (replicate n " "%char ++ c :: rest) i = (i + n)%nat.
Proof.
  induction n as [|n IH]; intros i Hc; cbn [replicate app skip_spaces].
  - rewrite Hc, andb_false_r. lia.
  - rewrite bool_decide_eq_false_2 by discriminate.
    change (isspace (uchar " ")) with true. cbn [negb andb].
    rewrite IH by exact Hc. lia.
Qed.

(** The rule for [//] comments of the loop of [UpdateSyntax]. *)
Lemma highlight_singleline_comment
    (fuel : nat) (syn : Syntax) (r : Row) (i : nat)
    (in_string : Z) (in_comment : bool) (h : list Z) :
  singleline_comment_start syn = cstr "//" ->
  render r !! i = Some "/"%char ->
  render r !! S i = Some "/"%char ->
  highlight (S fuel) syn r i true in_string in_comment h
  = (let* h := array_fill h i (size r - Z.of_nat i) HL_COMMENT in
     Returns (h, true)).
Proof.
  intros Hscs Hc Hc'. cbn [highlight]. cbv zeta. unfold char_at.
  rewrite Hc, Hc', Hscs. cbn [bind].
  rewrite bool_decide_eq_false_2 by discriminate.
  reflexivity.
Qed.

(** A [//] comment behind [k] tabs.  The tabs are rendered as [8 * k - 1]
    spaces and the comment starts at that offset of the render, but
    [UpdateSyntax] fills the highlight array from there with [size - i]
    entries, [size] being the length of the characters, not of the render.
    When the text behind the [//] is shorter than [7 * k - 3] characters
    the length is negative and the behaviour is undefined; otherwise
    [UpdateRow] returns, and the last entries of the highlight array, at
    least [7 * k - 1] of them, stay [HL_NORMAL]: the end of the comment is
    not highlighted as a comment. *)
Theorem UpdateRow_comment_behind_tabs
    (st : State) (syn : Syntax) (pos k : nat) (r : Row) (text : bytes)
    (fuel : nat) :
  syntax st = Some syn ->
  singleline_comment_start syn = cstr "//" ->
  row st !! pos = Some r ->
  idx r = Z.of_nat pos ->
  (pos = 0%nat
   \/ exists prev oc,
        row st !! (pos - 1)%nat = Some prev
        /\ RowHasOpenComment prev = Returns oc) ->
  (0 < k)%nat ->
  chars r = replicate k (to_char TAB) ++ cstr "//" ++ text ->
  size r = Z.of_nat (length (chars r)) ->
  9 * size r < 2 ^ 31 ->
  let i := (8 * k - 1)%nat in
  let rd := replicate i " "%char ++ cstr "//"
            ++ render_chars text (8 * Z.of_nat k + 1) in
  let n := Z.of_nat (length text) + 3 - 7 * Z.of_nat k in
  let tail := (length rd - length (chars r))%nat in
  UpdateRow (S fuel) st pos
  = (if n <? 0 then Undefined
     else Returns
            (set_rows
               (<[pos := set_hl (replicate i HL_NORMAL
                                 ++ replicate (Z.to_nat n) HL_COMMENT
                                 ++ replicate tail HL_NORMAL)
                           (set_render rd (Z.of_nat (length rd)) r)]>
                  (row st)) st))
  /\ (7 * k - 1 <= tail)%nat.
Proof.
  intros Hsyn Hscs Hr Hidx Hprev Hk Hchars Hsize Hshort i rd n tail.
  assert (render_chars (chars r) 0 = rd) as Hrd.
  { rewrite Hchars, render_chars_tabs by exact Hk.
    change (cstr "//" ++ text) with ("/"%char :: "/"%char :: text).
    cbn [render_chars].
    rewrite !bool_decide_eq_false_2 by discriminate.
    subst rd i.
    change (cstr "//" ++ render_chars text (8 * Z.of_nat k + 1))
      with ("/"%char :: "/"%char :: render_chars text (8 * Z.of_nat k + 1)).
    do 4 f_equal. lia. }
  assert (length (chars r) = (k + 2 + length text)%nat) as Hlen.
  { rewrite Hchars, !length_app, length_replicate.
    change (length (cstr "//")) with 2%nat. lia. }
  assert (length rd
          = (i + 2 + length (render_chars text (8 * Z.of_nat k + 1)))%nat)
    as Hlrd.
  { subst rd. rewrite !length_app, length_replicate.
    change (length (cstr "//")) with 2%nat. lia. }
  pose proof (render_chars_bounds text (8 * Z.of_nat k + 1)) as [Hlo _];
    [lia|].
  assert (7 * k - 1 <= tail)%nat as Htail by (subst tail i; lia).
  split; [|exact Htail].
  unfold UpdateRow, array_get.
  destruct (Z.ltb_spec (Z.of_nat pos) 0) as [?|_]; [lia|].
  rewrite Nat2Z.id, Hr. cbn [bind].
  destruct (Z.ltb_spec (Z.of_nat (length (chars r))) (size r)) as [?|_];
    [lia|].
  rewrite Hsize, Nat2Z.id, firstn_all.
  pose proof (count_tabs_bounds (chars r)) as Htabs.
  pose proof (render_chars_length (chars r) 0) as Hrdl.
  rewrite Hrd in Hrdl.
  assert (u64 (Z.of_nat (length (chars r))
               + (count_tabs (chars r) * 8) mod 2 ^ 32
               + 0 * 9 mod 2 ^ 32 + 1)
          = Z.of_nat (length (chars r)) + count_tabs (chars r) * 8 + 1) as ->.
  { unfold u64. rewrite (Z.mod_small (count_tabs (chars r) * 8)) by lia.
    rewrite (Z.mod_small (0 * 9)) by lia. rewrite Z.mod_small by lia. lia. }
  destruct (Z.ltb_spec UINT32_MAX
              (Z.of_nat (length (chars r)) + count_tabs (chars r) * 8 + 1))
    as [?|_]; [unfold UINT32_MAX in *; lia|].
  rewrite Hrd.
  destruct (Z.ltb_spec
              (Z.of_nat (length (chars r)) + count_tabs (chars r) * 8 + 1)
              (Z.of_nat (length rd) + 1)) as [?|_]; [lia|].
  rewrite wrap_int_id by (unfold INT_MIN, INT_MAX; lia).
  assert (pos < length (row st))%nat as Hpos
    by (eapply lookup_lt_Some; eassumption).
  cbn [UpdateSyntax]. unfold array_get.
  destruct (Z.ltb_spec (Z.of_nat pos) 0) as [?|_]; [lia|].
  cbn [row set_rows]. rewrite Nat2Z.id.
  rewrite list_lookup_insert_eq by exact Hpos.
  cbn [bind rsize set_render].
  destruct (Z.ltb_spec (Z.of_nat (length rd)) 0) as [?|_]; [lia|].
  cbn [syntax set_rows]. rewrite Hsyn, Nat2Z.id.
  rewrite list_insert_insert_eq.
  cbn [render set_hl set_render idx hl row set_rows].
  set (r1 := set_hl (replicate (length rd) HL_NORMAL)
               (set_render rd (Z.of_nat (length rd)) r)).
  (* the state of the comment at the start of the row *)
  assert (exists b : bool,
             (if 0 <? idx r
              then
                let* prev := (if idx r - 1 <? 0 then Undefined
                              else match <[pos := r1]> (row st)
                                         !! Z.to_nat (idx r - 1) with
                                   | Some x => Returns x
                                   | None => Undefined
                                   end) in
                let* oc := RowHasOpenComment prev in
                Returns (negb (oc =? 0))
              else Returns false) = Returns b) as [b ->].
  { destruct Hprev as [->|(prev & oc & Hp & Hoc)].
    - rewrite Hidx. exists false. reflexivity.
    - rewrite Hidx. destruct (Z.ltb_spec 0 (Z.of_nat pos)) as [Hpos0|_];
        [|now exists false].
      destruct (Z.ltb_spec (Z.of_nat pos - 1) 0) as [?|_]; [lia|].
      replace (Z.to_nat (Z.of_nat pos - 1)) with (pos - 1)%nat by lia.
      rewrite list_lookup_insert_ne by lia. rewrite Hp. cbn [bind].
      rewrite Hoc. cbn [bind]. eexists. reflexivity. }
  cbn [bind].
  (* the first character that is not a space *)
  assert (skip_spaces rd 0 = i) as ->.
  { subst rd. change (cstr "//" ++ render_chars text (8 * Z.of_nat k + 1))
      with ("/"%char :: "/"%char :: render_chars text (8 * Z.of_nat k + 1)).
    now rewrite skip_spaces_replicate. }
  rewrite (highlight_singleline_comment (length rd) syn r1 i 0 b
             (replicate (length rd) HL_NORMAL) Hscs).
  2:{ change (render r1) with rd. subst rd.
      rewrite lookup_app_r by (rewrite length_replicate; lia).
      rewrite length_replicate, Nat.sub_diag. reflexivity. }
  2:{ change (render r1) with rd. subst rd.
      rewrite lookup_app_r by (rewrite length_replicate; lia).
      rewrite length_replicate.
      replace (S i - i)%nat with 1%nat by lia. reflexivity. }
  change (size r1) with (size r). rewrite Hsize.
  replace (Z.of_nat (length (chars r)) - Z.of_nat i) with n
    by (subst n i; lia).
  unfold array_fill.
  destruct (Z.ltb_spec n 0) as [Hneg|Hn]; [reflexivity|].
  rewrite length_replicate.
  destruct (Nat.leb_spec (i + Z.to_nat n) (length rd)) as [_|?];
    [|subst n i; lia].
  cbn [bind]. rewrite list_insert_insert_eq.
  rewrite take_replicate, drop_replicate, Nat.min_l by lia.
  replace (length rd - (i + Z.to_nat n))%nat with tail
    by (subst tail n i; lia).
  reflexivity.
Qed.

Lemma UpdateRow_comment_behind_tabs_witness :
  let r := {| idx := 0; size := 5; rsize := 0;
              chars := to_char TAB :: cstr "// x"; chars_end := NUL;
              render := []; hl := []; hl_oc := 0 |} in
  let st := SelectSyntaxHighlight
              (set_numrows_dirty 1 0 (set_rows [r] State_new))
              (cstr "main.c") in
  UpdateRow 1 st 0 = Undefined.
Proof.
  intros r st.
  destruct (UpdateRow_comment_behind_tabs st
              {| filematch := C_HL_extensions;
                 keywords := C_HL_keywords;
                 singleline_comment_start := cstr "//";
                 multiline_comment_start := cstr "/*";
                 multiline_comment_end := cstr "*/";
                 flags := Z.lor HL_HIGHLIGHT_STRINGS HL_HIGHLIGHT_NUMBERS |}
              0 1 r (cstr " x") 0) as [Hrun _].
  - reflexivity.
  - reflexivity.
  - reflexivity.
  - reflexivity.
  - left. reflexivity.
  - lia.
  - reflexivity.
  - reflexivity.
  - vm_compute. reflexivity.
  - exact Hrun.
Defined.

(** * Moving the cursor *)

Lemma rowlen_bounds (st : State) (z : Z) :
  Forall (fun r => 0 <= size r <= INT_MAX) (row st) ->
  0 <= rowlen st z <= INT_MAX.
Proof.
  intros Hall. unfold rowlen.
  destruct (row st !! Z.to_nat z) as [r|] eqn:Hr;
    [|unfold INT_MAX; lia].
  rewrite Forall_forall in Hall. apply Hall.
  eapply list_elem_of_lookup_2; eassumption.
Qed.

Lemma row_at_lookup (st : State) (fr : Z) :
  numrows st = Z.of_nat (length (row st)) -> 0 <= fr ->
  row_at st fr = Returns (row st !! Z.to_nat fr).
Proof.
  intros Hnum Hfr. unfold row_at, array_get.
  destruct (Z.leb_spec (numrows st) fr) as [Hge|Hlt].
  - rewrite lookup_ge_None_2 by lia. reflexivity.
  - destruct (Z.ltb_spec fr 0) as [?|_]; [lia|].
    destruct (lookup_lt_is_Some_2 (row st) (Z.to_nat fr)) as [r Hr]; [lia|].
    rewrite Hr. reflexivity.
Qed.

Lemma array_get_rowlen (st : State) (fr : Z) :
  numrows st = Z.of_nat (length (row st)) -> 0 <= fr < numrows st ->
  exists r, array_get (row st) fr = Returns r /\ size r = rowlen st fr.
Proof.
  intros Hnum Hfr. unfold array_get, rowlen.
  destruct (Z.ltb_spec fr 0) as [?|_]; [lia|].
  destruct (lookup_lt_is_Some_2 (row st) (Z.to_nat fr)) as [r Hr]; [lia|].
  rewrite Hr. now exists r.
Qed.

Lemma rowlen_set_cursor (st : State) (x y ro co z : Z) :
  rowlen (set_cursor x y ro co st) z = rowlen st z.
Proof. reflexivity. Qed.

Ltac int_range := unfold INT_MIN, INT_MAX in *; lia.

(** The end of [MoveCursor] brings a cursor behind the end of its row back
    to the end of the row. *)
Lemma MoveCursor_fix_spec (st : State) :
  numrows st = Z.of_nat (length (row st)) ->
  Forall (fun r => 0 <= size r <= INT_MAX) (row st) ->
  0 <= rowoff st + cy st <= INT_MAX ->
  0 <= cx st -> 0 <= coloff st -> coloff st + cx st <= INT_MAX ->
  exists st',
    MoveCursor_fix st = Returns st'
    /\ set_cursor 0 0 0 0 st' = set_cursor 0 0 0 0 st
    /\ cy st' = cy st /\ rowoff st' = rowoff st
    /\ coloff st' + cx st'
       = Z.min (coloff st + cx st) (rowlen st (rowoff st + cy st))
    /\ 0 <= cx st' <= cx st /\ 0 <= coloff st'.
Proof.
  intros Hnum Hall Hfr Hcx Hco Hfc.
  pose proof (rowlen_bounds st (rowoff st + cy st) Hall) as Hrl.
  unfold MoveCursor_fix.
  rewrite ?wrap_int_id by int_range.
  rewrite row_at_lookup by (assumption || lia). cbn [bind].
  change (match row st !! Z.to_nat (rowoff st + cy st) with
          | Some r => size r
          | None => 0
          end) with (rowlen st (rowoff st + cy st)).
  destruct (Z.ltb_spec (rowlen st (rowoff st + cy st))
              (coloff st + cx st)) as [Hlong|Hfit].
  - cbn [cx cy rowoff coloff set_cursor].
    rewrite (wrap_int_id (coloff st + cx st
                          - rowlen st (rowoff st + cy st))) by int_range.
    rewrite ?wrap_int_id by int_range.
    destruct (Z.ltb_spec
                (cx st - (coloff st + cx st
                          - rowlen st (rowoff st + cy st))) 0)
      as [Hneg|Hpos].
    + eexists. split; [reflexivity|]. cbn [cx cy rowoff coloff set_cursor].
      rewrite ?wrap_int_id by int_range.
      split; [reflexivity|]. lia.
    + eexists. split; [reflexivity|]. cbn [cx cy rowoff coloff set_cursor].
      split; [reflexivity|]. lia.
  - exists st. split; [reflexivity|]. split; [reflexivity|]. lia.
Qed.

(** The [switch] of [MoveCursor] from a cursor on the text. *)
Lemma MoveCursor_switch_spec (st : State) (key : Z) :
  cursor_on_text st ->
  exists st1,
    MoveCursor_switch st key (rowoff st + cy st) (coloff st + cx st)
      (row st !! Z.to_nat (rowoff st + cy st)) = Returns st1
    /\ set_cursor 0 0 0 0 st1 = set_cursor 0 0 0 0 st
    /\ rowoff st1 + cy st1 = fst (file_position_after st key)
    /\ Z.min (coloff st1 + cx st1) (rowlen st (rowoff st1 + cy st1))
       = snd (file_position_after st key)
    /\ 0 <= rowoff st1 + cy st1 <= numrows st
    /\ 0 <= rowoff st1 /\ 0 <= coloff st1 /\ 0 <= cx st1
    /\ coloff st1 + cx st1 <= INT_MAX
    /\ (cx st < screencols st -> cx st1 < screencols st)
    /\ (cy st < screenrows st -> cy st1 < screenrows st)
    /\ (key = ARROW_LEFT -> rowoff st1 = rowoff st)
    /\ (0 <= cy st1
        \/ key = ARROW_LEFT /\ at_origin_of_scrolled_window st
           /\ cy st1 = -1).
Proof.
  intros (Hnum & Hmax & Hall & Hsr & Hsc & Hro & Hcy & Hco & Hcx & Hfr & Hfc).
  pose proof (rowlen_bounds st (rowoff st + cy st) Hall) as Hrl.
  pose proof (rowlen_bounds st (rowoff st + cy st - 1) Hall) as Hrlu.
  pose proof (rowlen_bounds st (rowoff st + cy st + 1) Hall) as Hrld.
  unfold MoveCursor_switch, file_position_after, at_origin_of_scrolled_window.
  destruct (Z.eqb_spec key ARROW_LEFT) as [->|Hnl].
  { destruct (Z.eqb_spec (cx st) 0) as [Hx0|Hx].
    - destruct (Z.eqb_spec (coloff st) 0) as [Hc0|Hc]; cbn [negb].
      + destruct (Z.ltb_spec 0 (coloff st + cx st)) as [?|_]; [lia|].
        destruct (Z.ltb_spec 0 (rowoff st + cy st)) as [Hup|Htop].
        * destruct (array_get_rowlen st (rowoff st + cy st - 1) Hnum)
            as (prev & -> & Hprev); [lia|].
          cbn [bind cx cy rowoff coloff screencols set_cursor].
          rewrite ?wrap_int_id by int_range.
          destruct (Z.ltb_spec (screencols st - 1) (size prev))
            as [Hwide|Hnarrow].
          -- eexists. split; [reflexivity|].
             cbn [cx cy rowoff coloff set_cursor fst snd].
             rewrite (wrap_int_id (size prev - screencols st)) by int_range.
             rewrite ?wrap_int_id by int_range.
             split; [reflexivity|].
             replace (rowoff st + (cy st - 1)) with (rowoff st + cy st - 1)
               by lia.
             repeat split; try lia; try int_range.
          -- eexists. split; [reflexivity|].
             cbn [cx cy rowoff coloff set_cursor fst snd].
             split; [reflexivity|].
             replace (rowoff st + (cy st - 1)) with (rowoff st + cy st - 1)
               by lia.
             repeat split; try lia; try int_range.
        * exists st. cbn [fst snd]. split; [reflexivity|].
          split; [reflexivity|]. repeat split; try lia; try int_range.
      + destruct (Z.ltb_spec 0 (coloff st + cx st)) as [_|?]; [|lia].
        eexists. split; [reflexivity|].
        cbn [cx cy rowoff coloff set_cursor fst snd].
        rewrite ?wrap_int_id by int_range.
        split; [reflexivity|]. repeat split; try lia; try int_range.
    - destruct (Z.ltb_spec 0 (coloff st + cx st)) as [_|?]; [|lia].
      eexists. split; [reflexivity|].
      cbn [cx cy rowoff coloff set_cursor fst snd].
      rewrite ?wrap_int_id by int_range.
      split; [reflexivity|]. repeat split; try lia; try int_range. }
  destruct (Z.eqb_spec key ARROW_RIGHT) as [->|Hnr].
  { destruct (Z.ltb_spec (rowoff st + cy st) (numrows st)) as [Hin|Hend].
    - assert (exists r, row st !! Z.to_nat (rowoff st + cy st) = Some r
                        /\ size r = rowlen st (rowoff st + cy st))
        as (r & Hr & Hsize).
      { unfold rowlen.
        destruct (lookup_lt_is_Some_2 (row st)
                    (Z.to_nat (rowoff st + cy st))) as [r Hr]; [lia|].
        rewrite Hr. now exists r. }
      rewrite Hr, Hsize.
      destruct (Z.ltb_spec (coloff st + cx st)
                  (rowlen st (rowoff st + cy st))) as [Hmid|Hlast].
      + rewrite ?wrap_int_id by int_range.
        destruct (Z.eqb_spec (cx st) (screencols st - 1)) as [Hedge|Hin'].
        * eexists. split; [reflexivity|].
          cbn [cx cy rowoff coloff set_cursor fst snd].
          rewrite ?wrap_int_id by int_range.
          split; [reflexivity|]. repeat split; try lia; try int_range.
        * eexists. split; [reflexivity|].
          cbn [cx cy rowoff coloff set_cursor fst snd].
          rewrite ?wrap_int_id by int_range.
          split; [reflexivity|]. repeat split; try lia; try int_range.
      + destruct (Z.eqb_spec (coloff st + cx st)
                    (rowlen st (rowoff st + cy st))) as [_|?]; [|lia].
        rewrite ?wrap_int_id by int_range.
        destruct (Z.eqb_spec (cy st) (screenrows st - 1)) as [Hedge|Hin'].
        * eexists. split; [reflexivity|].
          cbn [cx cy rowoff coloff set_cursor fst snd].
          rewrite ?wrap_int_id by int_range.
          split; [reflexivity|].
          replace (rowoff st + 1 + cy st) with (rowoff st + cy st + 1) by lia.
          repeat split; try lia; try int_range.
        * eexists. split; [reflexivity|].
          cbn [cx cy rowoff coloff set_cursor fst snd].
          rewrite ?wrap_int_id by int_range.
          split; [reflexivity|].
          replace (rowoff st + (cy st + 1)) with (rowoff st + cy st + 1)
            by lia.
          repeat split; try lia; try int_range.
    - rewrite lookup_ge_None_2 by lia.
      exists st. cbn [fst snd]. split; [reflexivity|].
      split; [reflexivity|]. repeat split; try lia; try int_range. }
  destruct (Z.eqb_spec key ARROW_UP) as [->|Hnu].
  { destruct (Z.eqb_spec (cy st) 0) as [Hy0|Hy].
    - destruct (Z.eqb_spec (rowoff st) 0) as [Hr0|Hr]; cbn [negb].
      + destruct (Z.ltb_spec 0 (rowoff st + cy st)) as [?|_]; [lia|].
        exists st. cbn [fst snd]. split; [reflexivity|].
        split; [reflexivity|]. repeat split; try lia; try int_range.
      + destruct (Z.ltb_spec 0 (rowoff st + cy st)) as [_|?]; [|lia].
        eexists. split; [reflexivity|].
        cbn [cx cy rowoff coloff set_cursor fst snd].
        rewrite ?wrap_int_id by int_range.
        split; [reflexivity|].
        replace (rowoff st - 1 + cy st) with (rowoff st + cy st - 1) by lia.
        repeat split; try lia; try int_range.
    - destruct (Z.ltb_spec 0 (rowoff st + cy st)) as [_|?]; [|lia].
      eexists. split; [reflexivity|].
      cbn [cx cy rowoff coloff set_cursor fst snd].
      rewrite ?wrap_int_id by int_range.
      split; [reflexivity|].
      replace (rowoff st + (cy st - 1)) with (rowoff st + cy st - 1) by lia.
      repeat split; try lia; try int_range. }
  destruct (Z.eqb_spec key ARROW_DOWN) as [->|Hnd].
  { destruct (Z.ltb_spec (rowoff st + cy st) (numrows st)) as [Hin|Hend].
    - rewrite ?wrap_int_id by int_range.
      destruct (Z.eqb_spec (cy st) (screenrows st - 1)) as [Hedge|Hin'].
      + eexists. split; [reflexivity|].
        cbn [cx cy rowoff coloff set_cursor fst snd].
        rewrite ?wrap_int_id by int_range.
        split; [reflexivity|].
        replace (rowoff st + 1 + cy st) with (rowoff st + cy st + 1) by lia.
        repeat split; try lia; try int_range.
      + eexists. split; [reflexivity|].
        cbn [cx cy rowoff coloff set_cursor fst snd].
        rewrite ?wrap_int_id by int_range.
        split; [reflexivity|].
        replace (rowoff st + (cy st + 1)) with (rowoff st + cy st + 1) by lia.
        repeat split; try lia; try int_range.
    - exists st. cbn [fst snd]. split; [reflexivity|].
      split; [reflexivity|]. repeat split; try lia; try int_range. }
  exists st. cbn [fst snd]. split; [reflexivity|].
  split; [reflexivity|]. repeat split; try lia; try int_range.
Qed.

Lemma MoveCursor_spec (st : State) (key : Z) :
  cursor_on_text st ->
  exists st',
    MoveCursor st key = Returns st'
    /\ set_cursor 0 0 0 0 st' = set_cursor 0 0 0 0 st
    /\ file_position st' = file_position_after st key
    /\ 0 <= rowoff st' + cy st' <= numrows st
    /\ coloff st' + cx st' <= rowlen st (rowoff st' + cy st')
    /\ 0 <= rowoff st' /\ 0 <= coloff st' /\ 0 <= cx st'
    /\ (cx st < screencols st -> cx st' < screencols st)
    /\ (cy st < screenrows st -> cy st' < screenrows st)
    /\ (key = ARROW_LEFT -> rowoff st' = rowoff st)
    /\ (0 <= cy st'
        \/ key = ARROW_LEFT /\ at_origin_of_scrolled_window st
           /\ cy st' = -1).
Proof.
  intros Hok.
  destruct (MoveCursor_switch_spec st key Hok)
    as (st1 & Hrun1 & Hframe1 & Hfr1 & Hfc1 & Hrange1 & Hro1 & Hco1 & Hcx1
        & Hmax1 & Hsc1 & Hsr1 & Hleft1 & Hcy1).
  destruct Hok as (Hnum & Hmax & Hall & Hsr & Hsc & Hro & Hcy & Hco & Hcx
                   & Hfr & Hfc).
  assert (row st1 = row st) as Hrows
    by (apply (f_equal row) in Hframe1; exact Hframe1).
  assert (numrows st1 = numrows st) as Hnum1
    by (apply (f_equal numrows) in Hframe1; exact Hframe1).
  destruct (MoveCursor_fix_spec st1)
    as (st' & Hrun & Hframe & Hcy' & Hro' & Hcol & Hcx' & Hco');
    [congruence|now rewrite Hrows|int_range|assumption..|].
  assert (forall z, rowlen st1 z = rowlen st z) as Hrl
    by (intros z; unfold rowlen; now rewrite Hrows).
  rewrite Hrl in Hcol.
  exists st'. split.
  { pose proof (rowlen_bounds st (rowoff st + cy st) Hall) as Hrl0.
    unfold MoveCursor. rewrite !wrap_int_id by int_range.
    rewrite row_at_lookup by (assumption || lia). cbn [bind].
    rewrite Hrun1. cbn [bind]. exact Hrun. }
  split; [congruence|].
  split.
  { unfold file_position. rewrite Hcy', Hro', Hcol, Hfc1, Hfr1.
    now destruct (file_position_after st key). }
  rewrite Hcy', Hro'.
  split; [exact Hrange1|]. split; [lia|].
  split; [exact Hro1|]. split; [exact Hco'|]. split; [lia|].
  split; [lia|]. split; [exact Hsr1|]. split; [exact Hleft1|]. exact Hcy1.
Qed.

(** The arrow keys in rows and columns of the file.  From a cursor on the
    text [MoveCursor] returns: nothing but the cursor and the offsets of
    the window has changed; the cursor has gone where
    [file_position_after] says, for the four arrows, and has stayed for
    any other key; it is on a row of the file or on the line behind the
    last one, and not behind the end of its row; the offsets and [cx] are
    not negative, and a cursor inside the window has not gone beyond its
    last column or its last row.  [cy] is not negative and the cursor is
    on the text again, with one exception: the left arrow at the first
    character of the first line of a window that is scrolled down leaves
    [cy = -1]. *)
Theorem MoveCursor_file_position (st : State) (key : Z) :
  cursor_on_text st ->
  exists st',
    MoveCursor st key = Returns st'
    /\ set_cursor 0 0 0 0 st' = set_cursor 0 0 0 0 st
    /\ file_position st' = file_position_after st key
    /\ 0 <= rowoff st' + cy st' <= numrows st
    /\ coloff st' + cx st' <= rowlen st (rowoff st' + cy st')
    /\ 0 <= rowoff st' /\ 0 <= coloff st' /\ 0 <= cx st'
    /\ (cx st < screencols st -> cx st' < screencols st)
    /\ (cy st < screenrows st -> cy st' < screenrows st)
    /\ (cursor_on_text st'
        \/ key = ARROW_LEFT /\ at_origin_of_scrolled_window st
           /\ cy st' = -1).
Proof.
  intros Hok.
  destruct (MoveCursor_spec st key Hok)
    as (st' & Hrun & Hframe & Hpos & Hfr & Hfc & Hro & Hco & Hcx & Hsc & Hsr
        & _ & Hcy).
  exists st'. do 10 (split; [assumption|]).
  destruct Hcy as [Hcy|Hleft]; [left|right; exact Hleft].
  destruct Hok as (Hnum & Hmax & Hall & Hsr0 & Hsc0 & _).
  assert (row st' = row st) as Hrows
    by (apply (f_equal row) in Hframe; exact Hframe).
  assert (numrows st' = numrows st) as Hnum'
    by (apply (f_equal numrows) in Hframe; exact Hframe).
  assert (screenrows st' = screenrows st) as Hsr'
    by (apply (f_equal screenrows) in Hframe; exact Hframe).
  assert (screencols st' = screencols st) as Hsc'
    by (apply (f_equal screencols) in Hframe; exact Hframe).
  unfold cursor_on_text, rowlen in *. rewrite Hrows, Hnum', Hsr', Hsc'.
  repeat split; try assumption; lia.
Qed.

Lemma MoveCursor_file_position_witness :
  let st := set_cursor 5 0 1 0
              (set_window 24 80
                 (set_numrows_dirty 2 0
                    (set_rows [plain_row 0 "ab"; plain_row 1 "return x;"]
                       State_new))) in
  exists st',
    MoveCursor st ARROW_UP = Returns st'
    /\ file_position st = (1, 5) /\ file_position st' = (0, 2).
Proof.
  intros st.
  destruct (MoveCursor_file_position st ARROW_UP)
    as (st' & Hrun & _ & Hpos & _).
  - unfold cursor_on_text. repeat split.
    1: (repeat constructor; vm_compute; discriminate).
    all: (vm_compute; first [reflexivity|discriminate]).
  - exists st'. split; [exact Hrun|]. split; [reflexivity|exact Hpos].
Defined.

(** The left arrow at the first character of the first line of a window
    that is scrolled down by one row goes to the end of the row above with
    [cy = -1]; the up arrow pressed then makes [cy = -2], and the end of
    [MoveCursor] takes the address of the row at index [-1] and reads its
    size: the behaviour is undefined. *)
Theorem MoveCursor_left_then_up_reads_above_rows (st : State) :
  cursor_on_text st ->
  at_origin_of_scrolled_window st ->
  rowoff st = 1 ->
  exists st1,
    MoveCursor st ARROW_LEFT = Returns st1
    /\ cy st1 = -1 /\ rowoff st1 = 1
    /\ file_position st1 = (0, rowlen st 0)
    /\ MoveCursor st1 ARROW_UP = Undefined.
Proof.
  intros Hok Horigin Hro1.
  destruct (MoveCursor_spec st ARROW_LEFT Hok)
    as (st1 & Hrun & Hframe & Hpos & Hfr & Hfc & Hro & Hco & Hcx & _ & _
        & Hleft & _).
  destruct Hok as (Hnum & Hmax & Hall & Hsr0 & Hsc0 & _ & _ & _ & _ & Hfr0
                   & _).
  destruct Horigin as (Hx0 & Hc0 & Hy0 & Hscrolled).
  unfold file_position, file_position_after in Hpos.
  rewrite Hx0, Hc0, Hy0, Hro1 in Hpos. cbn in Hpos.
  injection Hpos as Hrow Hcol.
  assert (row st1 = row st) as Hrows
    by (apply (f_equal row) in Hframe; exact Hframe).
  assert (numrows st1 = numrows st) as Hnum1
    by (apply (f_equal numrows) in Hframe; exact Hframe).
  assert (rowoff st1 = 1) as Hro' by (rewrite Hleft; [exact Hro1|reflexivity]).
  assert (cy st1 = -1) as Hcy1 by lia.
  exists st1. split; [exact Hrun|]. split; [exact Hcy1|].
  split; [exact Hro'|]. split.
  { unfold file_position. rewrite Hrow, Hcol. reflexivity. }
  unfold MoveCursor. rewrite Hro', Hcy1.
  change (wrap_int (1 + -1)) with 0.
  rewrite row_at_lookup by (congruence || lia). cbn [bind].
  unfold MoveCursor_switch.
  change (ARROW_UP =? ARROW_LEFT) with false.
  change (ARROW_UP =? ARROW_RIGHT) with false.
  change (ARROW_UP =? ARROW_UP) with true.
  cbv iota. rewrite Hcy1. change (-1 =? 0) with false. cbv iota.
  cbn [bind]. unfold MoveCursor_fix.
  cbn [cx cy rowoff coloff set_cursor]. rewrite Hro'.
  change (wrap_int (1 + wrap_int (-1 - 1))) with (-1).
  unfold row_at. cbn [numrows set_cursor].
  destruct (Z.leb_spec (numrows st1) (-1)) as [?|_]; [lia|].
  reflexivity.
Qed.

Lemma MoveCursor_left_then_up_reads_above_rows_witness :
  let st := set_cursor 0 0 1 0
              (set_window 24 80
                 (set_numrows_dirty 2 0
                    (set_rows [plain_row 0 "ab"; plain_row 1 "return x;"]
                       State_new))) in
  exists st1,
    MoveCursor st ARROW_LEFT = Returns st1
    /\ file_position st1 = (0, 2)
    /\ MoveCursor st1 ARROW_UP = Undefined.
Proof.
  intros st.
  destruct (MoveCursor_left_then_up_reads_above_rows st)
    as (st1 & Hrun & _ & _ & Hpos & Hup).
  - unfold cursor_on_text. repeat split.
    1: (repeat constructor; vm_compute; discriminate).
    all: (vm_compute; first [reflexivity|discriminate]).
  - repeat split.
  - reflexivity.
  - exists st1. split; [exact Hrun|]. split; [exact Hpos|exact Hup].
Defined.
